(* ===== verification/_CoqProject ===== *)
-Q . S2P
Prelude.v
Base64.v
Json.v
World.v
Curl.v
Logic.v
Context.v
KeyType.v
Ejwt.v
Proto.v
Checkin.v
AuthState.v
Notify.v
Ext.v
Auth.v
Session.v
Fake.v
Wordlist.v
Bip39.v
Bip39Props.v
Bindings.v
DeviceInit.v
Keymgmt.v
Crypto.v
System.v
ContextProps.v
Bounds.v
SessionProps.v
Wire.v
RecoveryProps.v
KeymgmtProps.v
KeymgmtHonest.v
CryptoProps.v
SystemProps.v
Confusion.v
DeviceInitProps.v
Mem.v
AuthMem.v
AuthMemProps.v
AuthRefine.v
MemWorld.v
CodecMem.v
KeyMem.v
KeyMemProps.v
KeyMemWalk.v
KeyMemRefine.v
CryptoMem.v
CryptoMemProps.v
InfoMem.v
InfoMemProps.v
SystemMem.v
SystemMemProps.v
ExtMem.v
ExtMemProps.v
Api.v
Codes.v
Secrecy.v
RandomProps.v
CurlProps.v
Version.v
Wolf.v
WolfProps.v
Ossl.v
OsslProps.v
