(* ===== verification/Prelude.v ===== *)
(** * The Encedo HEM C SDK: a model of its session core and protocol bindings

    The repository is a C99 client library for an Encedo HEM, a network HSM with
    an HTTPS/JSON API.  Paths below are relative to the repository root.

    ** The program, and how its parts interact

    An application holds an opaque [ehem_ctx] and calls the bindings
    ([ehem_key_list], [ehem_sign], [ehem_system_reboot], ...).  A binding checks
    its arguments, prints a JSON body, and goes through the one shared request
    path [ehem_proto_request_raw] (src/proto_common.c), which

    - obtains a bearer for the binding's scope from [ehem_auth_ensure_token]
      (src/proto_auth.c): the token cache, else the login exchange, else, in
      mobile mode, a push confirmation (src/proto_ext.c, src/proto_notify.c);
    - sends through the context's transport vtable (src/transport.c);
    - on an expired device certificate runs a check-in (src/proto_system.c) and
      retries once, on a 401 drops the token and retries once;
    - maps the HTTP status to an [ehem_rc] and records the last-error detail.

    The login exchange and the check-in are themselves made of requests, so the
    three are mutually recursive; [ctx->in_checkin] is what bounds the recursion.
    That recursion, and the state it threads (credential, token cache, latches,
    last error), is the core of the development.

    ** Files

    - Prelude.v: bytes, C strings, integer widths, the monad-independent lemmas.
    - World.v: the data ([ehem_rc], [struct ehem_ctx], [struct ehem_auth],
      requests, the transport vtable of src/context.h and src/transport.h), the
      class [Platform] of everything outside src/, the trace, the monad [M].
    - Logic.v: Hoare-style and relational reasoning on [M]: [wp], [hoare], [keeps],
      the frame relations and the tactics that discharge them.
    - Base64.v, Ejwt.v: src/ejwt.c (codecs; compact tokens, with the JSON
      builders of src/json.c).  Json.v: the reading half of src/json.c.
    - Context.v: src/context.c and src/transport.c.
    - KeyType.v: src/keytype.c.
    - Proto.v: src/proto_common.c with the recursion open; the class [Request] is
      the interface of the request path to its clients.
    - Checkin.v: [ehem_checkin_run] and [ehem_system_checkin].
    - AuthState.v, Auth.v: src/proto_auth.c to line 749 - the cache and credential
      (no network), then the login exchange and [ehem_auth_ensure_token].
      DeviceInit.v: [ehem_device_init], from line 822 on.
    - Wordlist.v, Bip39.v: src/bip39.c with the list of src/vendor/bip39/, and the
      mnemonic wrappers of src/proto_auth.c.
    - Curl.v: src/transport_curl.c over the class [LibCurl].  It is one
      implementation of the transport vtable and has a state of its own; the
      request path does not depend on it.
    - Wolf.v: src/crypto_shim_wolfssl.c and the date formatter of
      src/crypto_shim_common.c over the class [WolfCrypt].  Ossl.v:
      src/crypto_shim_openssl.c over the class [OpenSSL].  [wolf_platform] and
      [ossl_platform] put them behind the crypto fields of a [Platform].
    - Notify.v, Ext.v: src/proto_notify.c and src/proto_ext.c.
    - Session.v: the knot.  [request_n] unfolds the recursion on fuel, and the
      instance [session_request] is the request path everything else runs on.
    - Bindings.v, Keymgmt.v, Crypto.v, System.v: src/proto_keymgmt.c,
      src/proto_crypto.c, and src/proto_system.c with src/proto_storage.c and
      src/proto_logger.c, over the interface [Request].
    - Mem.v: C memory - blocks, pointers, [malloc], [free], loads and stores, with
      what lies in released blocks.  AuthMem.v models the session state of
      src/proto_auth.c a second time on it, as a linked list of structs;
      AuthMemProps.v and AuthRefine.v relate it to AuthState.v.
    - MemWorld.v: memory beside the world, for operations that both allocate and use
      the network, and [refines], what relates them to operations by values.
      CodecMem.v: buffers and the base64 decoder as it writes.  KeyMem.v: the part of
      src/proto_keymgmt.c that allocates results (KeyMemProps.v, KeyMemWalk.v,
      KeyMemRefine.v); CryptoMem.v: that of src/proto_crypto.c (CryptoMemProps.v).
      InfoMem.v: structs of owned strings, as several files allocate, fill and free them
      (InfoMemProps.v); SystemMem.v: the part of src/proto_system.c and
      src/proto_logger.c that allocates results, and the end of device initialisation
      (SystemMemProps.v); ExtMem.v: that of src/proto_notify.c and src/proto_ext.c, with
      the handle of a push confirmation (ExtMemProps.v).
    - Version.v: src/ehem.c with the describe functions of the backends and of the
      transport, over the class [BuildReports].
    - Fake.v: a scripted platform, on which the witnesses run.
    - Wire.v: the request path against the wire.  [answered] ties what a call was
      told to the last request it sent; the theorems about bindings that report the
      device's word (CryptoProps.v, KeymgmtHonest.v, DeviceInitProps.v,
      RandomProps.v, Confusion.v) are stated with it.
    - ContextProps.v, Bounds.v, SessionProps.v, RecoveryProps.v, KeymgmtProps.v,
      KeymgmtHonest.v, CryptoProps.v, SystemProps.v, Confusion.v, DeviceInitProps.v,
      Bip39Props.v, Codes.v, RandomProps.v, CurlProps.v, WolfProps.v, OsslProps.v,
      Secrecy.v: theorems.
    - Api.v: every public operation on a context as an [api_call], and sequences
      of calls.

    ** Conventions

    - A C function that returns [ehem_rc] and fills outputs is an [M A]: [Ok] with
      the outputs, [Err rc], or [Diverge] when fuel ran out.  The world it runs in
      holds the context, the transport's state, the process-global flag, a trace
      of the requests, sleeps and notices it caused, and a tick.
    - The class [Platform] stands for libc, cJSON's parser and printer, the crypto
      backend and the transport implementation.  Each use of malloc or the clock advances the
      tick, and the platform answers as a function of it: any allocation may fail
      and the clock may jump.  Theorems hold for every platform; where one needs
      more, it is a named hypothesis with a witness on Fake.v.
    - A NULL string is [None]; a (pointer, length) pair is a [buf]; [out : bool]
      says that an output pointer is not NULL.  The context pointer itself is not
      modelled as nullable: [ctx == NULL] returns [EHEM_ERR_ARG] before anything
      else in every function, and there is no world without a context.
    - Most files have values where the program has memory: who owns a buffer, and what
      is left in a dead one, is not state there.  What is scrubbed inside a live
      structure is: the passphrase, the credential on logout, the caller's RNG buffer.
      The files whose name ends in Mem have blocks and pointers instead, a use after free
      or a second free is no result, and the refinement theorems carry what is
      proved by values over to them.
    - A block fresh from [malloc] or [realloc] holds whatever the classes
      [Indeterminate] and [IndeterminateEntries] say; theorems hold for all of these.
    - int64_t, size_t and int results wrap where the source computes them; the
      base64 accumulator is 32 bits wide.

    ** Fuel, and why it is enough

    - [FUEL] is 3: an authenticated request, a request of the login exchange it
      triggers, a leg of the check-in that exchange triggers; a check-in leg
      recovers from nothing.  [request_terminates] shows that more changes nothing.
    - The repository walks take a page bound: any bound above the totals in the
      device's own answers is enough ([key_walks_return]; [reports_at_most] bounds
      the replies of the context's transport, nothing about the parser).  Without
      such a bound a lying device can keep a walk going, and
      [api_session_invariant] claims everything but the return.
    - The confirm wait and the RNG harvest compute their own fuel from the time-out
      and the length; [api_session_invariant] and [random_all_or_nothing] include
      that they return.

    - The binary search of the word list has 12 probes for 2048 words, the scan of a
      mnemonic one step per character; [bip39_accepts_only] includes that they
      suffice.  The doubling loop of the curl write callback has 64 steps, more than
      a [size_t] can double; [curl_send_outcome] shows that bodies below 2^61 bytes
      never exhaust them.  The entropy loop of Ossl.v has one step per INT_MAX bytes
      and one more ([random_bytes_returns]).

    ** What the theorems show

    - Api.v: every sequence of public calls, against any peers, keeps the guard and
      the configuration and puts only properly trusted requests on the wire, and
      returns when the device's totals are bounded.  Codes.v: the error path of the
      monad never carries [EHEM_OK] (a lemma the loops build on).
    - Wire.v: a request that succeeds hands back the device's own answer to exactly
      that request, made under the bearer of its scope.
    - SessionProps.v, Bounds.v: termination, transport posture, bounded traffic,
      the session is preserved, the token chokepoint, login/logout, the cache as a
      map.  RecoveryProps.v: the check-in is its three legs, the session-start
      check-in happens once, an approved confirmation cached its bearer.
    - KeymgmtProps.v, CryptoProps.v, RandomProps.v, SystemProps.v: functional
      correctness of the bindings - walks that end, local refusals, exact result
      sizes, the meaning of a verdict on the wire, the RNG filled from the device's
      answers, reboot and wipeout, the routes.  KeymgmtHonest.v: the full walk against
      a device that answers the requests for its pages; what is assumed is the
      device's replies on the wire ([honest_device]), not what a binding makes of them.
    - DeviceInitProps.v: the session a device initialisation opens and the answers it
      rests on, the claims and the signature of its token.  Bip39Props.v: the parser accepts exactly what the
      encoder writes, and always returns.
    - CurlProps.v: on the default transport every transfer runs under its own
      request's options and sends its own body or none, and - with Api.v - every
      request of the API is verified, its bearer sent to the device only; the outcome
      of a send is the one of its transfer; URLs have one slash.
    - WolfProps.v: which wolfSSL the compatibility check accepts, known answer by known
      answer, the agreement of the two sides of a key exchange, what a local signature
      verdict means.  OsslProps.v: nothing is left on OpenSSL's error queue, the
      entropy loop returns, the two backends are interchangeable where each library
      call does what its manual says (the HMAC as a state machine on its struct).
    - Secrecy.v: noninterference - the passphrase reaches nothing but the key
      derivation.
    - AuthMemProps.v, AuthRefine.v: the linked list of tokens implements the session,
      under every failing allocation; a session gives back the memory it took, with no
      passphrase or bearer in it.  KeyMemRefine.v, CryptoMemProps.v, SystemMemProps.v,
      ExtMemProps.v: the operations that return keys, crypto results, device
      information, check-ins and pairing data run without undefined behaviour, end as
      their models by values do, and own exactly what they return (where they read a
      stored string back, the parser is assumed to yield C strings, [CleanJson]).  ECDH,
      decryption, ML-KEM and the release of an unwrapped key leave no secret in released
      memory.  A push confirmation gives back, from beginning to cancellation, all it
      took.
    - Base64.v, Json.v, KeyType.v, ContextProps.v: round trips, exactness of
      integers, the classifier against its declarative reading, creation of a
      context and the append-only options block.
    - Two theorems state defects.  [empty_challenge_reads_as_success] (Confusion.v):
      on every platform, the empty-200 idiom of the bindings also accepts the empty
      answer to a login challenge.
      [failed_unwrap_leaves_prefix]: an unwrap whose answer is malformed base64 frees
      the bytes decoded before the fault without wiping them.

    ** Not modelled

    - wolfSSL, libcrypto, libcurl and cJSON themselves: parameters, with what a
      theorem needs of them as its hypotheses.
    - In src/transport_curl.c the [_WIN32] branch and [curl_destroy]; what libcurl does
      with its options is not defined here.
    - In memory: the JSON trees, the response bodies and the strings of a request,
      which stay values in every file; the log file of [ehem_logger_get], the token body of
      the TLS recovery, the BIP39 strings and the context itself.
    - The test seams, and src/vendor/cjson/. *)

From stdpp Require Export base tactics list numbers strings.
From Stdlib Require Export ZArith Ascii Lia ZifyBool.
From Stdlib Require Import DecimalString DecimalZ.

Open Scope string_scope.
Open Scope list_scope.
Open Scope Z_scope.

(** ** Bytes and C strings

    [uint8_t] buffers are lists of [Z] in [0, 255]; [char] strings are
    [String.string].  A C cast between the two is [bytes_of_string] or
    [string_of_bytes]. *)

Abbreviation bytes := (list Z).

Definition is_byte (z : Z) : Prop := 0 <= z < 256.

#[export] Instance is_byte_dec z : Decision (is_byte z).
Proof. unfold is_byte; apply _. Defined.

Definition byte_of_ascii (a : ascii) : Z := Z.of_N (N_of_ascii a).
Definition ascii_of_byte (z : Z) : ascii := ascii_of_N (Z.to_N (z mod 256)).

Definition bytes_of_string (s : string) : bytes :=
  map byte_of_ascii (String.list_ascii_of_string s).
Definition string_of_bytes (b : bytes) : string :=
  String.string_of_list_ascii (map ascii_of_byte b).

Definition NUL : ascii := ascii_of_N 0.

(** What the C library sees of a buffer handed over as [char *]: everything
    before the first NUL byte ([strlen], [strcmp], ["%s"], [memcpy] of
    [strlen + 1] bytes all stop there). *)
Fixpoint c_str (s : string) : string :=
  match s with
  | EmptyString => EmptyString
  | String a s' => if Ascii.eqb a NUL then EmptyString else String a (c_str s')
  end.

Definition strlen (s : string) : Z := Z.of_nat (String.length s).

(** [snprintf(dst, cap, "%s", s)]: at most [cap - 1] characters survive. *)
Definition snprintf_trunc (cap : nat) (s : string) : string :=
  String.substring 0 (Nat.pred cap) s.

(** [strchr(s, c)]: the text before and after the first [c], if there is one. *)
Fixpoint strchr (c : ascii) (s : string) : option (string * string) :=
  match s with
  | EmptyString => None
  | String a s' =>
      if Ascii.eqb a c then Some (EmptyString, s')
      else match strchr c s' with
           | Some (l, r) => Some (String a l, r)
           | None => None
           end
  end.

(** ["%ld"], ["%u"], ["%zu"] *)
Definition dec (z : Z) : string := NilZero.string_of_int (Z.to_int z).

Definition is_empty (s : string) : bool :=
  match s with EmptyString => true | _ => false end.

(** [<ctype.h>] in the "C" locale. *)
Definition isspace (c : Z) : bool := (c =? 32) || ((9 <=? c) && (c <=? 13)).
Definition isprint (c : Z) : bool := (32 <=? c) && (c <=? 126).

(** [for (i = 0; s[i] ...; i++)] over all characters of a string. *)
Fixpoint string_forallb (f : Z -> bool) (s : string) : bool :=
  match s with
  | EmptyString => true
  | String a s' => f (byte_of_ascii a) && string_forallb f s'
  end.

(** ** C integer widths *)

Definition INT_MAX : Z := 2 ^ 31 - 1.
Definition INT64_MAX : Z := 2 ^ 63 - 1.
Definition INT64_MIN : Z := - 2 ^ 63.
Definition wrap_u32 (z : Z) : Z := z mod 2 ^ 32.
Definition wrap_i32 (z : Z) : Z := (z + 2 ^ 31) mod 2 ^ 32 - 2 ^ 31.
Definition wrap_i64 (z : Z) : Z := (z + 2 ^ 63) mod 2 ^ 64 - 2 ^ 63.
Definition wrap_size (z : Z) : Z := z mod 2 ^ 64.

(** ** Lemmas shared by the components *)

Create HintDb hem.
Create Rewrite HintDb hem_rw.

#[global] Arguments Ascii.eqb : simpl never.
#[global] Arguments byte_of_ascii : simpl never.
#[global] Arguments ascii_of_byte : simpl never.

Lemma byte_of_ascii_range a : is_byte (byte_of_ascii a).
Proof.
  unfold is_byte, byte_of_ascii.
  pose proof (N_ascii_bounded a). lia.
Qed.

Lemma ascii_of_byte_of_ascii a : ascii_of_byte (byte_of_ascii a) = a.
Proof.
  unfold ascii_of_byte. rewrite Z.mod_small by apply byte_of_ascii_range.
  unfold byte_of_ascii. rewrite N2Z.id. apply ascii_N_embedding.
Qed.

Lemma byte_of_ascii_of_byte z : is_byte z -> byte_of_ascii (ascii_of_byte z) = z.
Proof.
  unfold is_byte, byte_of_ascii, ascii_of_byte. intros Hz.
  rewrite Z.mod_small by lia. rewrite N_ascii_embedding by lia. lia.
Qed.

Lemma string_of_bytes_of_string s : string_of_bytes (bytes_of_string s) = s.
Proof.
  unfold string_of_bytes, bytes_of_string. rewrite map_map.
  rewrite (map_ext _ id) by apply ascii_of_byte_of_ascii.
  rewrite map_id. apply String.string_of_list_ascii_of_string.
Qed.

Lemma bytes_of_string_of_bytes b :
  Forall is_byte b -> bytes_of_string (string_of_bytes b) = b.
Proof.
  unfold string_of_bytes, bytes_of_string. intros Hb.
  rewrite String.list_ascii_of_string_of_list_ascii, map_map.
  induction Hb as [|z b Hz _ IH]; [done|].
  cbn. f_equal; [by apply byte_of_ascii_of_byte | done].
Qed.

Lemma bytes_of_string_range s : Forall is_byte (bytes_of_string s).
Proof.
  unfold bytes_of_string. apply List.Forall_map, Forall_forall.
  intros; apply byte_of_ascii_range.
Qed.

Lemma length_bytes_of_string s : length (bytes_of_string s) = String.length s.
Proof. induction s; cbn; [done|]. f_equal. exact IHs. Qed.

Lemma length_string_of_bytes b : String.length (string_of_bytes b) = length b.
Proof. induction b; cbn; [done|]. f_equal. exact IHb. Qed.

Lemma append_cons a s t : String a s +:+ t = String a (s +:+ t).
Proof. reflexivity. Qed.

Lemma bytes_of_string_app s t :
  bytes_of_string (s +:+ t) = bytes_of_string s ++ bytes_of_string t.
Proof. induction s; [done|]. rewrite append_cons. cbn. f_equal. exact IHs. Qed.

Lemma append_empty_r s : s +:+ "" = s.
Proof. induction s; [done|]. by rewrite append_cons, IHs. Qed.
Lemma string_length_app s t :
  String.length (s +:+ t) = (String.length s + String.length t)%nat.
Proof. induction s; [done|]. rewrite append_cons. cbn. f_equal. exact IHs. Qed.

Lemma substring_0_length n s : (String.length (String.substring 0 n s) <= n)%nat.
Proof.
  revert s; induction n as [|n IH]; intros [|a s]; cbn; try lia.
  specialize (IH s). lia.
Qed.

Lemma snprintf_trunc_length cap s :
  (0 < cap)%nat -> (String.length (snprintf_trunc cap s) < cap)%nat.
Proof.
  intros. unfold snprintf_trunc. pose proof (substring_0_length (Nat.pred cap) s). lia.
Qed.

Lemma substring_0_all n s :
  (String.length s <= n)%nat -> String.substring 0 n s = s.
Proof.
  revert s; induction n as [|n IH]; intros [|a s]; cbn; intros; try lia; try done.
  f_equal. apply IH. lia.
Qed.

Lemma snprintf_trunc_fits cap s :
  (String.length s < cap)%nat -> snprintf_trunc cap s = s.
Proof. intros. apply substring_0_all. lia. Qed.

Lemma snprintf_trunc_nil cap : snprintf_trunc cap "" = "".
Proof. unfold snprintf_trunc. by destruct (Nat.pred cap). Qed.

Lemma c_str_idem s : c_str (c_str s) = c_str s.
Proof.
  induction s as [|a s IH]; [done|]. cbn [c_str].
  destruct (Ascii.eqb a NUL) eqn:E; cbn [c_str]; [done|].
  rewrite E. by f_equal.
Qed.

Lemma strchr_app c l r :
  string_forallb (fun z => negb (z =? byte_of_ascii c)) l = true ->
  strchr c (l +:+ String c r) = Some (l, r).
Proof.
  induction l as [|a l IH]; intros H.
  - change ("" +:+ String c r) with (String c r). cbn. by rewrite Ascii.eqb_refl.
  - rewrite append_cons. cbn in *. apply andb_prop in H as [H1 H2].
    destruct (Ascii.eqb_spec a c) as [->|].
    + by rewrite Z.eqb_refl in H1.
    + by rewrite IH.
Qed.

Lemma strchr_spec c s l r :
  strchr c s = Some (l, r) -> s = l +:+ String c r.
Proof.
  revert l r; induction s as [|a s IH]; cbn; intros l r H; [done|].
  destruct (Ascii.eqb_spec a c) as [->|].
  - by simplify_eq.
  - destruct (strchr c s) as [[l' r']|]; [|done]. simplify_eq.
    rewrite append_cons. f_equal. by apply IH.
Qed.

Lemma is_empty_spec s : is_empty s = true <-> s = ""%string.
Proof. destruct s; split; done. Qed.

#[export] Hint Rewrite string_of_bytes_of_string length_bytes_of_string
  length_string_of_bytes c_str_idem : hem_rw.
#[export] Hint Resolve byte_of_ascii_range bytes_of_string_range : hem.

(** Case analysis on the scrutinee of a [match] or [if] of the goal. *)
Ltac cases :=
  repeat (case_match; simplify_eq/=; try done).

(** [lia] over [/] and [mod] by constants. *)
Ltac zlia := Z.to_euclidean_division_equations; lia.
