(* ===== verification/Base64.v ===== *)
(** * Base64 codecs of [src/ejwt.c]

    The standard (padded) and URL-safe (unpadded) encoders and the shared
    decoder, over buffers with explicit lengths and capacities.  [(size_t)-1]
    is [None].  The decoder keeps its 32-bit accumulator with wrap-around. *)

From S2P Require Import Prelude.

(** ** Alphabets and sizes *)

Definition B64_STD_ALPHA : string :=
  "ABCDEFGHIJKLMNOPQRSTUVWXYZabcdefghijklmnopqrstuvwxyz0123456789+/".
Definition B64_URL_ALPHA : string :=
  "ABCDEFGHIJKLMNOPQRSTUVWXYZabcdefghijklmnopqrstuvwxyz0123456789-_".

Definition ehem_b64_std_encoded_len (n : Z) : Z := 4 * ((n + 2) / 3).

Definition ehem_b64url_encoded_len (n : Z) : Z :=
  let rem := n mod 3 in
  n / 3 * 4 + (if rem =? 0 then 0 else rem + 1).

(** ** Encoder *)

Definition alpha_at (alpha : string) (i : Z) : ascii :=
  default NUL (String.get (Z.to_nat i) alpha).

(** The 3-byte loop and its 1- and 2-byte tails. *)
Fixpoint b64_encode_loop (alpha : string) (pad : bool) (l : bytes) : string :=
  let ch v k := alpha_at alpha (Z.land (Z.shiftr v k) 63) in
  match l with
  | a :: b :: c :: rest =>
      let v := Z.lor (Z.lor (Z.shiftl a 16) (Z.shiftl b 8)) c in
      String (ch v 18) (String (ch v 12) (String (ch v 6) (String (ch v 0)
        (b64_encode_loop alpha pad rest))))
  | [a; b] =>
      let v := Z.lor (Z.shiftl a 16) (Z.shiftl b 8) in
      String (ch v 18) (String (ch v 12) (String (ch v 6)
        (if pad then "=" else "")))
  | [a] =>
      let v := Z.shiftl a 16 in
      String (ch v 18) (String (ch v 12) (if pad then "==" else ""))
  | [] => ""
  end.

Definition b64_encode (inp : option bytes) (in_len : Z) (out_null : bool)
    (out_cap : Z) (alpha : string) (pad : bool) : option string :=
  if out_null || (bool_decide (inp = None) && negb (in_len =? 0)) then None
  else
    let need := if pad then ehem_b64_std_encoded_len in_len
                else ehem_b64url_encoded_len in_len in
    if out_cap <? need + 1 then None
    else Some (b64_encode_loop alpha pad
                 (take (Z.to_nat in_len) (default [] inp))).

(** ** Decoder *)

(** [rev[(unsigned char)alpha[i]] = i] for [i] in 0..63, the rest -1. *)
Definition rev_at (alpha : string) (c : ascii) : option Z :=
  fold_left
    (fun acc i => if Ascii.eqb (alpha_at alpha (Z.of_nat i)) c
                  then Some (Z.of_nat i) else acc)
    (seq 0 64) None.

#[global] Arguments rev_at : simpl never.
#[global] Arguments alpha_at : simpl never.

(** [while (in_len > 0 && in[in_len - 1] == '=') in_len--;] on the reversed
    input. *)
Fixpoint drop_pad (l : list ascii) : list ascii :=
  match l with
  | c :: l' => if Ascii.eqb c "="%char then drop_pad l' else l
  | [] => []
  end.

Fixpoint b64_decode_loop (alpha : string) (cs : list ascii)
    (acc bits room : Z) : option bytes :=
  match cs with
  | [] => Some []
  | c :: cs' =>
      match rev_at alpha c with
      | None => None
      | Some v =>
          let acc := Z.lor (wrap_u32 (Z.shiftl acc 6)) v in
          let bits := bits + 6 in
          if 8 <=? bits then
            let bits := bits - 8 in
            if room <=? 0 then None
            else
              r ← b64_decode_loop alpha cs' acc bits (room - 1);
              Some (Z.land (Z.shiftr acc bits) 255 :: r)
          else b64_decode_loop alpha cs' acc bits room
      end
  end.

Definition b64_decode (inp : option string) (in_len : Z) (out_null : bool)
    (out_cap : Z) (alpha : string) : option bytes :=
  if out_null || (bool_decide (inp = None) && negb (in_len =? 0)) then None
  else
    let cs := take (Z.to_nat in_len)
                (String.list_ascii_of_string (default "" inp)) in
    let cs := reverse (drop_pad (reverse cs)) in
    if (length cs mod 4 =? 1)%nat then None
    else b64_decode_loop alpha cs 0 0 out_cap.

(** ** The four entry points *)

Definition ehem_b64_std_encode (inp : option bytes) (in_len : Z)
    (out_null : bool) (out_cap : Z) : option string :=
  b64_encode inp in_len out_null out_cap B64_STD_ALPHA true.

Definition ehem_b64url_encode (inp : option bytes) (in_len : Z)
    (out_null : bool) (out_cap : Z) : option string :=
  b64_encode inp in_len out_null out_cap B64_URL_ALPHA false.

Definition ehem_b64_std_decode (inp : option string) (in_len : Z)
    (out_null : bool) (out_cap : Z) : option bytes :=
  b64_decode inp in_len out_null out_cap B64_STD_ALPHA.

Definition ehem_b64url_decode (inp : option string) (in_len : Z)
    (out_null : bool) (out_cap : Z) : option bytes :=
  b64_decode inp in_len out_null out_cap B64_URL_ALPHA.

(** The common calls: a whole string, a whole buffer. *)
Definition std_encode (b : bytes) : option string :=
  ehem_b64_std_encode (Some b) (Z.of_nat (length b)) false
    (ehem_b64_std_encoded_len (Z.of_nat (length b)) + 1).
Definition std_decode (s : string) (cap : Z) : option bytes :=
  ehem_b64_std_decode (Some s) (strlen s) false cap.
Definition url_decode (s : string) (cap : Z) : option bytes :=
  ehem_b64url_decode (Some s) (strlen s) false cap.

Example std_encode_ex : std_encode [77; 97; 110; 77] = Some "TWFuTQ=="%string.
Proof. vm_compute. reflexivity. Qed.
Example std_decode_ex : std_decode "TWFuTQ==" 4 = Some [77; 97; 110; 77].
Proof. vm_compute. reflexivity. Qed.
Example std_decode_small : std_decode "TWFuTQ==" 3 = None.
Proof. vm_compute. reflexivity. Qed.

(** ** The reference semantics: sextets and bytes as plain arithmetic *)

(** The decoder without accumulator width, capacity or alphabet: [r] is the
    value of the [bits] pending bits. *)
Fixpoint b64_ref (vs : list Z) (r bits : Z) : bytes :=
  match vs with
  | [] => []
  | v :: vs' =>
      let w := r * 64 + v in
      if 8 <=? bits + 6
      then w / 2 ^ (bits - 2) :: b64_ref vs' (w mod 2 ^ (bits - 2)) (bits - 2)
      else b64_ref vs' w (bits + 6)
  end.

Fixpoint sextets (l : bytes) : list Z :=
  match l with
  | a :: b :: c :: rest =>
      a / 4 :: (a mod 4 * 16 + b / 16) :: (b mod 16 * 4 + c / 64) :: c mod 64
        :: sextets rest
  | [a; b] => [a / 4; a mod 4 * 16 + b / 16; b mod 16 * 4]
  | [a] => [a / 4; a mod 4 * 16]
  | [] => []
  end.

(** What the proofs need of an alphabet; both of the code's have it. *)
Class Alphabet (alpha : string) : Prop := {
  alpha_rev : forall i, 0 <= i < 64 -> rev_at alpha (alpha_at alpha i) = Some i;
  alpha_pad : rev_at alpha "="%char = None;
  alpha_range : forall c v, rev_at alpha c = Some v -> 0 <= v < 64
}.

Lemma rev_at_range alpha c v : rev_at alpha c = Some v -> 0 <= v < 64.
Proof.
  unfold rev_at.
  assert (forall l acc,
    Forall (fun i => (i < 64)%nat) l -> (forall v, acc = Some v -> 0 <= v < 64) ->
    fold_left (fun acc i => if Ascii.eqb (alpha_at alpha (Z.of_nat i)) c
                            then Some (Z.of_nat i) else acc) l acc = Some v ->
    0 <= v < 64) as H.
  { induction l as [|i l IH]; cbn; intros acc Hl Hacc Hv; [by apply Hacc|].
    apply Forall_cons in Hl as [Hi Hl].
    eapply IH in Hv; [done|done|]. intros v'. case_match; [|by auto].
    intros; simplify_eq. lia. }
  apply H; [|done]. apply Forall_forall. intros i Hi%elem_of_seq. lia.
Qed.

Lemma alphabet_intro alpha :
  forallb (fun n => bool_decide
    (rev_at alpha (alpha_at alpha (Z.of_nat n)) = Some (Z.of_nat n))) (seq 0 64) = true ->
  rev_at alpha "="%char = None -> Alphabet alpha.
Proof.
  intros H Hpad. split; [|done|apply rev_at_range]. intros i Hi.
  rewrite List.forallb_forall in H. specialize (H (Z.to_nat i)).
  rewrite Z2Nat.id in H by lia.
  apply bool_decide_eq_true in H; [exact H|]. apply in_seq. lia.
Qed.

#[export] Instance std_alphabet : Alphabet B64_STD_ALPHA.
Proof. apply alphabet_intro; vm_compute; reflexivity. Qed.

#[export] Instance url_alphabet : Alphabet B64_URL_ALPHA.
Proof. apply alphabet_intro; vm_compute; reflexivity. Qed.

(** ** Bit lemmas *)

Lemma lor_shiftl_add a b n :
  0 <= n -> 0 <= b < 2 ^ n -> Z.lor (Z.shiftl a n) b = a * 2 ^ n + b.
Proof.
  intros Hn Hb. pose proof (Z.pow_pos_nonneg 2 n).
  rewrite Z.shiftl_mul_pow2 by lia.
  symmetry. apply Z.add_nocarry_lor.
  apply Z.bits_inj'. intros i Hi. rewrite Z.land_spec, Z.bits_0.
  destruct (Z.ltb_spec i n).
  - by rewrite Z.mul_pow2_bits_low.
  - assert (Z.testbit b i = false) as ->; [|by rewrite andb_false_r].
    destruct (decide (b = 0)) as [->|]; [by rewrite Z.bits_0|].
    apply Z.bits_above_log2; [lia|]. apply Z.log2_lt_pow2; [lia|].
    apply Z.lt_le_trans with (2 ^ n); [lia|]. apply Z.pow_le_mono_r; lia.
Qed.

Lemma wrap_shift6_lor acc v :
  0 <= v < 64 ->
  Z.lor (wrap_u32 (Z.shiftl acc 6)) v = (acc mod 2 ^ 26) * 64 + v.
Proof.
  intros Hv. pose proof (lor_shiftl_add (acc mod 2 ^ 26) v 6) as H.
  change (2 ^ 6) with 64 in H. rewrite <- H by lia. f_equal.
  unfold wrap_u32. rewrite !Z.shiftl_mul_pow2 by lia.
  change (2 ^ 32) with (2 ^ 26 * 2 ^ 6). rewrite Z.mul_mod_distr_r by lia. done.
Qed.

Lemma land_63 v k : 0 <= k -> Z.land (Z.shiftr v k) 63 = v / 2 ^ k mod 64.
Proof.
  intros. rewrite Z.shiftr_div_pow2 by lia.
  change 63 with (Z.ones 6). by rewrite Z.land_ones by lia.
Qed.

Lemma land_255 v k : 0 <= k -> Z.land (Z.shiftr v k) 255 = v / 2 ^ k mod 256.
Proof.
  intros. rewrite Z.shiftr_div_pow2 by lia.
  change 255 with (Z.ones 8). by rewrite Z.land_ones by lia.
Qed.

(** ** The decoder refines the reference *)

Lemma decode_step_byte acc v k :
  (k = 0 \/ k = 2 \/ k = 4) -> 0 <= v < 64 ->
  Z.land (Z.shiftr (Z.lor (wrap_u32 (Z.shiftl acc 6)) v) k) 255 =
    (acc mod 2 ^ (k + 2) * 64 + v) / 2 ^ k /\
  Z.lor (wrap_u32 (Z.shiftl acc 6)) v mod 2 ^ k =
    (acc mod 2 ^ (k + 2) * 64 + v) mod 2 ^ k.
Proof.
  intros Hk Hv. rewrite land_255 by lia. rewrite wrap_shift6_lor by done.
  rewrite <- (Z.mod_mod_divide acc (2 ^ 26) (2 ^ (k + 2)))
    by (exists (2 ^ (24 - k)); rewrite <- Z.pow_add_r by lia; f_equal; lia).
  generalize (acc mod 2 ^ 26). intros A.
  destruct Hk as [->|[->| ->]].
  - change (2 ^ (0 + 2)) with 4. change (2 ^ 0) with 1. rewrite !Z.div_1_r, !Z.mod_1_r. zlia.
  - change (2 ^ (2 + 2)) with 16. change (2 ^ 2) with 4. zlia.
  - change (2 ^ (4 + 2)) with 64. change (2 ^ 4) with 16. zlia.
Qed.

Lemma b64_decode_loop_ref alpha `{!Alphabet alpha} cs acc bits room :
  (bits = 0 \/ bits = 2 \/ bits = 4 \/ bits = 6) -> 0 <= room ->
  b64_decode_loop alpha cs acc bits room =
    (vs ← mapM (rev_at alpha) cs;
     let bs := b64_ref vs (acc mod 2 ^ bits) bits in
     if Z.of_nat (length bs) <=? room then Some bs else None).
Proof.
  revert acc bits room; induction cs as [|c cs IH]; intros acc bits room Hb Hr.
  - cbn [b64_decode_loop mapM mbind option_bind mret option_ret b64_ref length].
    destruct (Z.leb_spec (Z.of_nat 0) room); [done|lia].
  - cbn [b64_decode_loop mapM]. destruct (rev_at alpha c) as [v|] eqn:Ev; [|done].
    pose proof (alpha_range c v Ev) as Hv. cbn [mbind option_bind].
    destruct (Z.leb_spec 8 (bits + 6)).
    + pose proof (decode_step_byte acc v (bits - 2)) as [Hbyte Hacc]; [lia|done|].
      replace (bits + 6 - 8) with (bits - 2) by lia.
      replace (bits - 2 + 2) with bits in * by lia.
      rewrite Hbyte. destruct (Z.leb_spec room 0).
      * destruct (mapM _ cs) as [vs|]; [|done]. cbn [mbind option_bind mret option_ret b64_ref].
        destruct (Z.leb_spec 8 (bits + 6)); [|lia]. cbn [length].
        case_match; [lia|done].
      * rewrite IH, Hacc by lia.
        destruct (mapM _ cs) as [vs|]; [|done]. cbn [mbind option_bind mret option_ret b64_ref].
        destruct (Z.leb_spec 8 (bits + 6)); [|lia]. cbn [length].
        repeat case_match; (lia || done).
    + assert (bits = 0) as -> by lia. rewrite IH by lia.
      destruct (mapM _ cs) as [vs|]; [|done]. cbn [mbind option_bind mret option_ret b64_ref].
      rewrite wrap_shift6_lor by done.
      change (8 <=? 0 + 6) with false. cbn iota.
      replace ((acc mod 2 ^ 26 * 64 + v) mod 2 ^ (0 + 6)) with
        (acc mod 2 ^ 0 * 64 + v); [done|].
      change (2 ^ (0 + 6)) with 64. change (2 ^ 0) with 1. zlia.
Qed.

(** ** The encoder in terms of sextets *)

Definition pad_of (pad : bool) (n : nat) : string :=
  if pad then match (n mod 3)%nat with 1%nat => "==" | 2%nat => "=" | _ => "" end
  else "".

Lemma list_ind3 {A} (P : list A -> Prop) :
  P [] -> (forall a, P [a]) -> (forall a b, P [a; b]) ->
  (forall a b c l, P l -> P (a :: b :: c :: l)) -> forall l, P l.
Proof.
  intros H0 H1 H2 H3.
  refine (fix IH l := match l with
                      | [] => H0 | [a] => H1 a | [a; b] => H2 a b
                      | a :: b :: c :: l' => H3 a b c l' (IH l')
                      end).
Qed.

Lemma group_value a b c :
  is_byte b -> is_byte c ->
  Z.lor (Z.lor (Z.shiftl a 16) (Z.shiftl b 8)) c = (a * 256 + b) * 256 + c.
Proof.
  unfold is_byte. intros Hb Hc.
  change 16 with (8 + 8). rewrite <- Z.shiftl_shiftl by lia.
  rewrite <- Z.shiftl_lor, !lor_shiftl_add by (change (2 ^ 8) with 256; lia). done.
Qed.

Lemma group_sextets a b c :
  is_byte a -> is_byte b -> is_byte c ->
  let v := Z.lor (Z.lor (Z.shiftl a 16) (Z.shiftl b 8)) c in
  Z.land (Z.shiftr v 18) 63 = a / 4 /\
  Z.land (Z.shiftr v 12) 63 = a mod 4 * 16 + b / 16 /\
  Z.land (Z.shiftr v 6) 63 = b mod 16 * 4 + c / 64 /\
  Z.land (Z.shiftr v 0) 63 = c mod 64.
Proof.
  intros Ha Hb Hc v. subst v. rewrite group_value, !land_63 by done || lia.
  unfold is_byte in *.
  change (2 ^ 18) with 262144. change (2 ^ 12) with 4096.
  change (2 ^ 6) with 64. change (2 ^ 0) with 1.
  repeat split; zlia.
Qed.

Definition string_of_sextets (alpha : string) (vs : list Z) : string :=
  String.string_of_list_ascii (map (alpha_at alpha) vs).

Lemma b64_encode_loop_sextets alpha pad l :
  Forall is_byte l ->
  b64_encode_loop alpha pad l =
    string_of_sextets alpha (sextets l) +:+ pad_of pad (length l).
Proof.
  unfold string_of_sextets.
  induction l as [|a|a b|a b c l IH] using list_ind3; intros Hl.
  - by destruct pad.
  - apply Forall_cons in Hl as [Ha _].
    pose proof (group_sextets a 0 0 Ha) as (E1 & E2 & _); [done..|].
    cbn [b64_encode_loop sextets map String.string_of_list_ascii].
    rewrite Z.lor_0_r in E1, E2. change (Z.shiftl 0 8) with 0 in *.
    rewrite Z.lor_0_r in E1, E2. change (0 / 16) with 0 in *. rewrite Z.add_0_r in E2.
    rewrite E1, E2. by destruct pad.
  - apply Forall_cons in Hl as [Ha Hl]. apply Forall_cons in Hl as [Hb _].
    pose proof (group_sextets a b 0 Ha Hb) as (E1 & E2 & E3 & _); [done|].
    cbn [b64_encode_loop sextets map String.string_of_list_ascii].
    rewrite Z.lor_0_r in E1, E2, E3. change (0 / 64) with 0 in *. rewrite Z.add_0_r in E3.
    rewrite E1, E2, E3. by destruct pad.
  - apply Forall_cons in Hl as [Ha Hl]. apply Forall_cons in Hl as [Hb Hl].
    apply Forall_cons in Hl as [Hc Hl].
    pose proof (group_sextets a b c Ha Hb Hc) as (E1 & E2 & E3 & E4).
    cbn [b64_encode_loop sextets map String.string_of_list_ascii].
    rewrite E1, E2, E3, E4, IH by done. rewrite !append_cons. do 4 f_equal.
    unfold pad_of. cbn [length].
    replace (S (S (S (length l))) mod 3)%nat with (length l mod 3)%nat; [done|].
    replace (S (S (S (length l))))%nat with (length l + 1 * 3)%nat by lia.
    by rewrite Nat.Div0.mod_add.
Qed.

Lemma sextets_range l : Forall is_byte l -> Forall (fun v => 0 <= v < 64) (sextets l).
Proof.
  unfold is_byte.
  induction l as [|a|a b|a b c l IH] using list_ind3; intros Hl; cbn [sextets];
    repeat (apply Forall_cons in Hl as [? Hl]);
    repeat apply Forall_cons_2; auto; zlia.
Qed.

Lemma b64_ref_sextets l : Forall is_byte l -> b64_ref (sextets l) 0 0 = l.
Proof.
  unfold is_byte.
  induction l as [|a|a b|a b c l IH] using list_ind3; intros Hl;
    repeat (apply Forall_cons in Hl as [? Hl]);
    cbn [sextets b64_ref]; [done|..];
    change (8 <=? 0 + 6) with false; cbn iota;
    change (0 + 6) with 6; change (8 <=? 6 + 6) with true; cbn iota;
    change (6 - 2) with 4; change (8 <=? 4 + 6) with true; cbn iota;
    change (4 - 2) with 2; change (8 <=? 2 + 6) with true; cbn iota;
    change (2 - 2) with 0; change (2 ^ 4) with 16; change (2 ^ 2) with 4;
    change (2 ^ 0) with 1.
  - f_equal. zlia.
  - f_equal; [zlia|]. f_equal. zlia.
  - rewrite Z.mod_1_r, IH by done.
    f_equal; [zlia|]. f_equal; [zlia|]. f_equal. zlia.
Qed.

Lemma sextets_length l :
  Z.of_nat (length (sextets l)) = ehem_b64url_encoded_len (Z.of_nat (length l)).
Proof.
  unfold ehem_b64url_encoded_len.
  induction l as [|a|a b|a b c l IH] using list_ind3; [done..|].
  cbn [sextets length]. rewrite !Nat2Z.inj_succ, IH.
  set (n := Z.of_nat (length l)).
  replace (Z.succ (Z.succ (Z.succ n))) with (n + 1 * 3) by lia.
  rewrite Z.div_add, Z.mod_add by done. lia.
Qed.

(** ** The decoder on whole strings *)

Definition strip_pad (s : string) : list ascii :=
  reverse (drop_pad (reverse (String.list_ascii_of_string s))).

Lemma drop_pad_app ps l :
  Forall (eq "="%char) ps -> (forall c, head l = Some c -> c <> "="%char) ->
  drop_pad (ps ++ l) = l.
Proof.
  intros Hps Hl. induction Hps as [|p ps <- _ IH]; cbn.
  - destruct l as [|c l]; [done|]. cbn.
    destruct (Ascii.eqb_spec c "="); [|done]. by destruct (Hl c).
  - by rewrite Ascii.eqb_refl.
Qed.

Lemma list_ascii_app s t :
  String.list_ascii_of_string (s +:+ t) =
    String.list_ascii_of_string s ++ String.list_ascii_of_string t.
Proof. induction s; [done|]. rewrite append_cons. cbn. by f_equal. Qed.

Lemma drop_pad_length l : (length (drop_pad l) <= length l)%nat.
Proof. induction l; cbn; [lia|]. case_match; cbn; lia. Qed.

Lemma list_ascii_length s : length (String.list_ascii_of_string s) = String.length s.
Proof. induction s; cbn; [done|]. by f_equal. Qed.

Lemma strip_pad_length s : (length (strip_pad s) <= String.length s)%nat.
Proof.
  unfold strip_pad. rewrite length_reverse.
  etrans; [apply drop_pad_length|]. by rewrite length_reverse, list_ascii_length.
Qed.

Lemma b64_ref_length vs r bits :
  (bits = 0 \/ bits = 2 \/ bits = 4 \/ bits = 6) ->
  Z.of_nat (length (b64_ref vs r bits)) = (6 * Z.of_nat (length vs) + bits) / 8.
Proof.
  revert r bits; induction vs as [|v vs IH]; intros r bits Hb; cbn [b64_ref length].
  - zlia.
  - case_match; cbn [length].
    + rewrite Nat2Z.inj_succ, IH by lia. zlia.
    + rewrite IH by lia. zlia.
Qed.

Lemma b64_decode_spec alpha `{!Alphabet alpha} s cap :
  0 <= cap ->
  b64_decode (Some s) (strlen s) false cap alpha =
    (if (length (strip_pad s) mod 4 =? 1)%nat then None
     else vs ← mapM (rev_at alpha) (strip_pad s);
          let bs := b64_ref vs 0 0 in
          if Z.of_nat (length bs) <=? cap then Some bs else None).
Proof.
  intros Hcap. unfold b64_decode, strlen.
  rewrite bool_decide_eq_false_2 by done. cbn [orb andb default from_option id].
  rewrite Nat2Z.id, take_ge by (rewrite list_ascii_length; lia).
  fold (strip_pad s). case_match; [done|].
  rewrite (b64_decode_loop_ref alpha) by lia.
  by rewrite Z.mod_1_r.
Qed.

Lemma mapM_rev_alpha alpha `{!Alphabet alpha} vs :
  Forall (fun v => 0 <= v < 64) vs ->
  mapM (rev_at alpha) (map (alpha_at alpha) vs) = Some vs.
Proof.
  induction 1 as [|v vs Hv _ IH]; [done|]. cbn.
  rewrite alpha_rev by done. cbn. by rewrite IH.
Qed.

Lemma alpha_not_pad alpha `{!Alphabet alpha} v :
  0 <= v < 64 -> alpha_at alpha v <> "="%char.
Proof.
  intros Hv He. pose proof (alpha_rev v Hv) as H.
  by rewrite He, alpha_pad in H.
Qed.

Lemma strip_pad_encode alpha `{!Alphabet alpha} vs p :
  Forall (fun v => 0 <= v < 64) vs -> Forall (eq "="%char) (String.list_ascii_of_string p) ->
  strip_pad (string_of_sextets alpha vs +:+ p) = map (alpha_at alpha) vs.
Proof.
  intros Hvs Hp. unfold strip_pad, string_of_sextets.
  rewrite list_ascii_app, String.list_ascii_of_string_of_list_ascii, reverse_app.
  rewrite drop_pad_app; [apply reverse_involutive|by apply Forall_reverse|].
  intros c Hc. apply head_Some_elem_of, elem_of_reverse, list_elem_of_fmap in Hc as (v & -> & Hv).
  apply alpha_not_pad; [done|]. by eapply Forall_forall in Hvs.
Qed.

Lemma length_sextets_mod l : (length (sextets l) mod 4 =? 1)%nat = false.
Proof.
  induction l as [|a|a b|a b c l IH] using list_ind3; [reflexivity..|].
  cbn [sextets length]. rewrite <- IH.
  replace (S (S (S (S (length (sextets l))))))%nat
    with (length (sextets l) + 1 * 4)%nat by lia.
  by rewrite Nat.Div0.mod_add.
Qed.

Lemma decode_encode_loop alpha `{!Alphabet alpha} pad b cap :
  Forall is_byte b -> Z.of_nat (length b) <= cap ->
  let s := b64_encode_loop alpha pad b in
  b64_decode (Some s) (strlen s) false cap alpha = Some b.
Proof.
  intros Hb Hcap s. rewrite (b64_decode_spec alpha s cap) by lia.
  subst s. rewrite b64_encode_loop_sextets by done.
  rewrite (strip_pad_encode alpha); [|by apply sextets_range|].
  - rewrite length_map, length_sextets_mod, (mapM_rev_alpha alpha) by by apply sextets_range.
    cbn. rewrite b64_ref_sextets by done. case_match; [done|lia].
  - unfold pad_of. repeat case_match; repeat constructor.
Qed.

Lemma string_of_sextets_length alpha vs :
  String.length (string_of_sextets alpha vs) = length vs.
Proof. unfold string_of_sextets. induction vs; cbn; [done|]. by f_equal. Qed.

Lemma b64_encode_loop_length alpha pad l :
  Forall is_byte l ->
  strlen (b64_encode_loop alpha pad l) =
    (if pad then ehem_b64_std_encoded_len (Z.of_nat (length l))
     else ehem_b64url_encoded_len (Z.of_nat (length l))).
Proof.
  intros Hl. unfold strlen. rewrite b64_encode_loop_sextets by done.
  rewrite string_length_app, string_of_sextets_length, Nat2Z.inj_add, sextets_length.
  unfold pad_of, ehem_b64_std_encoded_len, ehem_b64url_encoded_len.
  destruct pad; [|cbn; lia].
  set (n := length l). assert (n = (3 * (n / 3) + n mod 3)%nat) as Hn
    by (apply Nat.div_mod_eq).
  assert (n mod 3 < 3)%nat as Hm by (by apply Nat.mod_upper_bound).
  destruct (n mod 3)%nat as [|[|[|k]]]; [..|lia]; cbn [String.length];
    (case_match; zlia).
Qed.

Lemma std_encode_eq b :
  std_encode b = Some (b64_encode_loop B64_STD_ALPHA true b).
Proof.
  unfold std_encode, ehem_b64_std_encode, b64_encode.
  rewrite bool_decide_eq_false_2 by done. cbn [orb andb default from_option id].
  rewrite Z.ltb_irrefl, Nat2Z.id, take_ge by lia. done.
Qed.

Lemma b64_ref_bytes vs r bits :
  (bits = 0 \/ bits = 2 \/ bits = 4 \/ bits = 6) -> 0 <= r < 2 ^ bits ->
  Forall (fun v => 0 <= v < 64) vs -> Forall is_byte (b64_ref vs r bits).
Proof.
  intros Hb Hr Hvs. revert r bits Hb Hr.
  induction Hvs as [|v vs Hv _ IH]; intros r bits Hb Hr; cbn [b64_ref]; [constructor|].
  destruct Hb as [->|[->|[->| ->]]]; case_match; try lia.
  - apply IH; [lia|]. change (2 ^ 0) with 1 in Hr. change (2 ^ (0 + 6)) with 64. lia.
  - change (2 ^ 2) with 4 in Hr. change (2 - 2) with 0. change (2 ^ 0) with 1.
    apply Forall_cons_2; [unfold is_byte; zlia|]. apply IH; [lia|]. zlia.
  - change (2 ^ 4) with 16 in Hr. change (4 - 2) with 2. change (2 ^ 2) with 4.
    apply Forall_cons_2; [unfold is_byte; zlia|]. apply IH; [lia|].
    change (2 ^ 2) with 4. zlia.
  - change (2 ^ 6) with 64 in Hr. change (6 - 2) with 4. change (2 ^ 4) with 16.
    apply Forall_cons_2; [unfold is_byte; zlia|]. apply IH; [lia|].
    change (2 ^ 4) with 16. zlia.
Qed.

Lemma mapM_rev_range alpha cs vs :
  mapM (rev_at alpha) cs = Some vs -> Forall (fun v => 0 <= v < 64) vs.
Proof.
  intros H%mapM_Some. induction H as [|c v cs vs Hv _ IH]; constructor; [|done].
  by apply rev_at_range in Hv.
Qed.

Lemma b64_decode_bounds alpha `{!Alphabet alpha} s cap bs :
  0 <= cap -> b64_decode (Some s) (strlen s) false cap alpha = Some bs ->
  Z.of_nat (length bs) = 6 * Z.of_nat (length (strip_pad s)) / 8 /\
  Z.of_nat (length bs) <= cap /\ Forall is_byte bs.
Proof.
  intros Hcap. rewrite (b64_decode_spec alpha s cap) by lia.
  case_match; [done|]. destruct (mapM _ _) as [vs|] eqn:Evs; [|done].
  cbn. case_match; [|done]. intros; simplify_eq.
  rewrite b64_ref_length by lia. rewrite Z.add_0_r.
  rewrite (length_mapM _ _ _ Evs).
  split; [done|]. split.
  - rewrite b64_ref_length, Z.add_0_r in * by lia. lia.
  - apply b64_ref_bytes; [lia|change (2 ^ 0) with 1; lia|by eapply mapM_rev_range].
Qed.

Lemma b64_decode_cap alpha `{!Alphabet alpha} s cap cap' :
  strlen s <= cap -> strlen s <= cap' ->
  b64_decode (Some s) (strlen s) false cap alpha =
  b64_decode (Some s) (strlen s) false cap' alpha.
Proof.
  intros H H'. assert (0 <= strlen s) by (unfold strlen; lia).
  rewrite !(b64_decode_spec alpha s) by lia.
  case_match; [done|]. destruct (mapM _ _) as [vs|] eqn:Evs; [|done]. cbn.
  assert (Z.of_nat (length (b64_ref vs 0 0)) <= strlen s) as Hl.
  { rewrite b64_ref_length, Z.add_0_r by lia.
    rewrite <- (length_mapM _ _ _ Evs).
    pose proof (strip_pad_length s). unfold strlen. zlia. }
  repeat case_match; (done || lia).
Qed.

(** What the URL-safe encoder writes: no dot, and its own preimage. *)
Lemma url_char_plain v k :
  Ascii.eqb (alpha_at B64_URL_ALPHA (Z.land (Z.shiftr v k) 63)) "." = false.
Proof.
  apply Ascii.eqb_neq. intros E.
  assert (0 <= Z.land (Z.shiftr v k) 63 < 64) as Hr
    by (change 63 with (Z.ones 6); rewrite Z.land_ones by lia; by apply Z.mod_pos_bound).
  pose proof (alpha_rev (alpha:=B64_URL_ALPHA) _ Hr) as H. rewrite E in H. done.
Qed.

Fixpoint no_dot (s : string) : bool :=
  match s with
  | EmptyString => true
  | String c s => negb (Ascii.eqb c ".") && no_dot s
  end.

Lemma url_text_plain b : no_dot (b64_encode_loop B64_URL_ALPHA false b) = true.
Proof.
  induction b as [|a|a b|a b c l IH] using list_ind3; cbn [b64_encode_loop no_dot];
    rewrite ?url_char_plain; done.
Qed.

Lemma strchr_dot l r : no_dot l = true -> strchr "." (l +:+ String "." r) = Some (l, r).
Proof.
  induction l as [|a l IH]; intros H; [done|].
  rewrite append_cons. cbn [no_dot strchr] in *. apply andb_prop in H as [H1 H2].
  apply negb_true_iff in H1. by rewrite H1, (IH H2).
Qed.

Lemma url_encode_some b cap s :
  ehem_b64url_encode (Some b) (Z.of_nat (length b)) false cap = Some s ->
  s = b64_encode_loop B64_URL_ALPHA false b.
Proof.
  unfold ehem_b64url_encode, b64_encode. rewrite bool_decide_eq_false_2 by done.
  cbn [orb andb default from_option id]. rewrite Nat2Z.id, take_ge by lia.
  case_match; [done|]. by intros [= <-].
Qed.

(** ** Properties *)

(** C36: encoding any byte buffer (standard with padding, URL-safe without)
    produces exactly the length the size functions announce, fits a buffer of
    that length plus the NUL, and decodes back to the same bytes in every
    output buffer large enough for them. *)
Theorem base64_roundtrip (b : bytes) (cap : Z)
    (Hb : Forall is_byte b) (Hcap : Z.of_nat (length b) <= cap) :
  let n := Z.of_nat (length b) in
  (exists s, ehem_b64_std_encode (Some b) n false (ehem_b64_std_encoded_len n + 1) = Some s /\
     strlen s = ehem_b64_std_encoded_len n /\
     ehem_b64_std_decode (Some s) (strlen s) false cap = Some b) /\
  (exists s, ehem_b64url_encode (Some b) n false (ehem_b64url_encoded_len n + 1) = Some s /\
     strlen s = ehem_b64url_encoded_len n /\
     ehem_b64url_decode (Some s) (strlen s) false cap = Some b).
Proof.
  intros n. split.
  - exists (b64_encode_loop B64_STD_ALPHA true b). split_and!.
    + apply std_encode_eq.
    + by apply b64_encode_loop_length.
    + by apply (decode_encode_loop B64_STD_ALPHA true).
  - exists (b64_encode_loop B64_URL_ALPHA false b). split_and!.
    + unfold ehem_b64url_encode, b64_encode. rewrite bool_decide_eq_false_2 by done.
      cbn [orb andb default from_option id].
      rewrite Z.ltb_irrefl. unfold n. rewrite Nat2Z.id, take_ge by lia. done.
    + by apply b64_encode_loop_length.
    + by apply (decode_encode_loop B64_URL_ALPHA false).
Qed.

Lemma base64_roundtrip_witness :
  exists s, ehem_b64_std_encode (Some [0; 255; 16; 131]) 4 false 9 = Some s /\
            ehem_b64_std_decode (Some s) (strlen s) false 4 = Some [0; 255; 16; 131].
Proof.
  destruct (base64_roundtrip [0; 255; 16; 131] 4) as [(s & E & _ & D) _].
  - repeat constructor; done.
  - done.
  - exists s. split; [exact E | exact D].
Defined.

(** The comment "decoded is never larger than input" that sizes every
    decode buffer of the bindings holds: decoding into a buffer as long as the
    input string never fails for lack of room (any larger buffer gives the same
    answer), a decoded buffer holds only bytes, fits the capacity, and is at
    most three quarters of the input. *)
Theorem base64_decode_buffer (s : string) (cap : Z) (Hcap : strlen s <= cap) :
  ehem_b64_std_decode (Some s) (strlen s) false (strlen s) =
    ehem_b64_std_decode (Some s) (strlen s) false cap /\
  ehem_b64url_decode (Some s) (strlen s) false (strlen s) =
    ehem_b64url_decode (Some s) (strlen s) false cap /\
  forall bs,
    ehem_b64_std_decode (Some s) (strlen s) false (strlen s) = Some bs \/
    ehem_b64url_decode (Some s) (strlen s) false (strlen s) = Some bs ->
    4 * Z.of_nat (length bs) <= 3 * strlen s /\ Forall is_byte bs.
Proof.
  unfold ehem_b64_std_decode, ehem_b64url_decode.
  split; [by apply (b64_decode_cap B64_STD_ALPHA)|].
  split; [by apply (b64_decode_cap B64_URL_ALPHA)|].
  assert (0 <= strlen s) by (unfold strlen; lia).
  pose proof (strip_pad_length s). unfold strlen in *.
  intros bs [H1|H1]; apply b64_decode_bounds in H1; try apply _; try done;
    destruct H1 as (-> & _ & ?); (split; [zlia|done]).
Qed.

Lemma base64_decode_buffer_witness :
  ehem_b64_std_decode (Some "AP8Qgw=="%string) 8 false 8 =
  ehem_b64_std_decode (Some "AP8Qgw=="%string) 8 false 100.
Proof. apply (base64_decode_buffer "AP8Qgw==" 100). vm_compute. discriminate. Defined.
