(* ===== verification/Json.v ===== *)
(** * The tolerant JSON layer of [src/json.c]

    A response is the tree cJSON hands out: object members keep their order
    and their duplicates, numbers are IEEE doubles.  cJSON's own parser and
    printer are operations of the class [CJson]; everything json.c adds on top
    (the typed getters, the width conversions) is defined here. *)

From S2P Require Import Prelude.
From Stdlib Require Export SpecFloat.

(** ** The cJSON tree *)

#[warnings="-register-all"]
Inductive json :=
  | JNull
  | JBool (b : bool)
  | JNumber (d : spec_float)
  | JString (s : string)
  | JArray (l : list json)
  | JObject (l : list (string * json)).

(** [const ehem_json *]: [None] is NULL. *)
Abbreviation jptr := (option json).

(** cJSON itself (vendored), and what the platform's double-to-[int64_t]
    conversion yields outside the range where C defines it. *)
Class CJson := {
  cJSON_Parse : string -> jptr;
  cJSON_Print : json -> string;
  cast_oob : spec_float -> Z
}.

(** ** Doubles *)

(** [(int64_t)d]: truncation towards zero where the result is representable. *)
Definition int64_of_double (oob : spec_float -> Z) (d : spec_float) : Z :=
  match d with
  | S754_zero _ => 0
  | S754_finite s m e =>
      let mag := if 0 <=? e then Z.pos m * 2 ^ e else Z.pos m / 2 ^ (- e) in
      let v := if s then - mag else mag in
      if (INT64_MIN <=? v) && (v <=? INT64_MAX) then v else oob d
  | _ => oob d
  end.

(** [(double)v]: round to nearest, ties to even. *)
Definition double_of_int64 (v : Z) : spec_float :=
  binary_normalize 53 1024 v 0 false.

(** ** Accessors *)

Section Accessors.
Context `{CJson}.

Definition ehem_json_is_object (node : jptr) : bool :=
  match node with Some (JObject _) => true | _ => false end.

Definition ehem_json_is_array (node : jptr) : bool :=
  match node with Some (JArray _) => true | _ => false end.

(** cJSON counts children in a [size_t] and returns it as an [int]. *)
Definition ehem_json_array_size (arr : jptr) : Z :=
  match arr with
  | Some (JArray l) =>
      let n := wrap_i32 (Z.of_nat (length l)) in if 0 <? n then n else 0
  | _ => 0
  end.

Definition ehem_json_array_get (arr : jptr) (i : Z) : jptr :=
  match arr with
  | Some (JArray l) => if INT_MAX <? i then None else l !! Z.to_nat i
  | _ => None
  end.

Definition ehem_json_as_string (node : jptr) : option string :=
  match node with Some (JString s) => Some s | _ => None end.

(** [cJSON_GetObjectItemCaseSensitive]: the first member with that name. *)
Definition object_item (l : list (string * json)) (key : string) : jptr :=
  snd <$> List.find (fun kv => String.eqb (fst kv) key) l.

Definition ehem_json_get (obj : jptr) (key : string) : jptr :=
  match obj with Some (JObject l) => object_item l key | _ => None end.

Definition ehem_json_has (obj : jptr) (key : string) : bool :=
  match ehem_json_get obj key with Some _ => true | None => false end.

Definition ehem_json_get_string (obj : jptr) (key : string) : option string :=
  match ehem_json_get obj key with Some (JString s) => Some s | _ => None end.

Definition ehem_json_get_int64 (obj : jptr) (key : string) : option Z :=
  match ehem_json_get obj key with
  | Some (JNumber d) => Some (int64_of_double cast_oob d)
  | _ => None
  end.

Definition ehem_json_get_double (obj : jptr) (key : string) : option spec_float :=
  match ehem_json_get obj key with Some (JNumber d) => Some d | _ => None end.

Definition ehem_json_get_bool (obj : jptr) (key : string) : option bool :=
  match ehem_json_get obj key with Some (JBool b) => Some b | _ => None end.

Definition ehem_json_parse (data : string) : jptr := cJSON_Parse data.
End Accessors.

(** ** Building

    The allocation each of these performs is added by the session monad; here
    is the tree they leave. *)
Definition json_new_object : json := JObject [].

Definition json_add (obj : json) (key : string) (v : json) : json :=
  match obj with JObject l => JObject (l ++ [(key, v)]) | _ => obj end.

(** ** Lemmas *)

Lemma shift_pos_value n m : Z.pos (shift_pos n m) = Z.pos m * 2 ^ Z.pos n.
Proof. rewrite shift_pos_correct, Zpower_pos_nat, Zpower_nat_Z, positive_nat_Z. lia. Qed.

Lemma shift_pos_succ n m : shift_pos (Pos.succ n) m = xO (shift_pos n m).
Proof. unfold shift_pos. by rewrite Pos.iter_succ. Qed.

Lemma digits_shift n m : digits2_pos (shift_pos n m) = (n + digits2_pos m)%positive.
Proof.
  induction n as [|n IH] using Pos.peano_ind.
  - cbn. by rewrite Pos.add_1_l.
  - rewrite shift_pos_succ. cbn. by rewrite IH, Pos.add_succ_l.
Qed.

Lemma digits2_pos_le m k :
  0 <= k -> Z.pos m < 2 ^ k -> Z.pos (digits2_pos m) <= k.
Proof.
  revert k; induction m as [m IH|m IH|]; intros k Hk Hm; cbn.
  - destruct (decide (k = 0)) as [->|]; [change (2 ^ 0) with 1 in Hm; lia|].
    assert (2 ^ k = 2 * 2 ^ (k - 1)) as E
      by (rewrite <- Z.pow_succ_r by lia; f_equal; lia).
    specialize (IH (k - 1)). lia.
  - destruct (decide (k = 0)) as [->|]; [change (2 ^ 0) with 1 in Hm; lia|].
    assert (2 ^ k = 2 * 2 ^ (k - 1)) as E
      by (rewrite <- Z.pow_succ_r by lia; f_equal; lia).
    specialize (IH (k - 1)). lia.
  - destruct (decide (k = 0)) as [->|]; [change (2 ^ 0) with 1 in Hm; lia|lia].
Qed.

(** Rounding a mantissa that already fits 53 bits changes nothing. *)
Lemma binary_round_aux_exact s m d :
  Z.pos (digits2_pos m) = 53 -> 1 <= d <= 53 ->
  binary_round_aux 53 1024 s (Z.pos m) (d - 53) loc_Exact = S754_finite s m (d - 53).
Proof.
  intros Hm Hd. unfold binary_round_aux, shr_fexp.
  assert (fexp 53 1024 (Zdigits2 (Z.pos m) + (d - 53)) - (d - 53) = 0) as E.
  { cbn [Zdigits2]. rewrite Hm. unfold fexp, emin. lia. }
  rewrite E. cbn [shr shr_record_of_loc shr_m loc_of_shr_record round_nearest_even].
  rewrite E. cbn. case_match; [done|lia].
Qed.

Lemma binary_round_int s m :
  Z.pos m < 2 ^ 53 ->
  binary_round 53 1024 s m 0 =
    match Z.pos (digits2_pos m) - 53 with
    | Z.neg n => S754_finite s (shift_pos n m) (Z.pos (digits2_pos m) - 53)
    | _ => S754_finite s m 0
    end.
Proof.
  intros Hm. pose proof (digits2_pos_le m 53 ltac:(lia) Hm) as Hd.
  unfold binary_round, shl_align.
  set (d := Z.pos (digits2_pos m)) in *.
  assert (fexp 53 1024 (d + 0) = d - 53) as -> by (unfold fexp, emin; lia).
  rewrite Z.sub_0_r. destruct (d - 53) as [|n|n] eqn:E; [|lia|].
  - assert (d = 53) as Hd53 by lia.
    pose proof (binary_round_aux_exact s m 53 Hd53) as H. apply H. lia.
  - rewrite <- E. apply binary_round_aux_exact; [|lia].
    rewrite digits_shift. lia.
Qed.

Lemma int64_of_double_round oob s m :
  Z.pos m < 2 ^ 53 ->
  int64_of_double oob (binary_round 53 1024 s m 0) = if s then Z.neg m else Z.pos m.
Proof.
  intros Hm. rewrite binary_round_int by done.
  assert (2 ^ 53 = 9007199254740992) as E53 by reflexivity.
  assert (INT64_MAX = 9223372036854775807) as Emax by reflexivity.
  assert (INT64_MIN = -9223372036854775808) as Emin by reflexivity.
  destruct (_ - 53) as [|n|n] eqn:E; cbn [int64_of_double].
  1, 2: change (0 <=? 0) with true; cbn iota; rewrite Z.mul_1_r;
    destruct s; case_match; lia.
  change (0 <=? Z.neg n) with false. cbn iota.
  rewrite shift_pos_value, <- Pos2Z.opp_pos, Z.opp_involutive, Z.div_mul by lia.
  destruct s; case_match; lia.
Qed.

(** A number the SDK writes as a JSON double and reads back through
    [ehem_json_get_int64] is unchanged for every magnitude below 2^53: time
    stamps, offsets and limits survive the double representation exactly. *)
Theorem json_int64_exact `{CJson} (v : Z) (key : string) (rest : list (string * json))
    (Hv : Z.abs v < 2 ^ 53) :
  ehem_json_get_int64 (Some (JObject ((key, JNumber (double_of_int64 v)) :: rest))) key
  = Some v.
Proof.
  unfold ehem_json_get_int64, ehem_json_get, object_item. cbn [List.find fst].
  rewrite String.eqb_refl. cbn. f_equal. unfold double_of_int64, binary_normalize.
  destruct v as [|m|m]; [done|..]; rewrite int64_of_double_round by lia; done.
Qed.

Lemma json_int64_exact_witness :
  @ehem_json_get_int64 {| cJSON_Parse _ := None; cJSON_Print _ := ""%string;
                          cast_oob _ := 0 |}
    (Some (JObject [("exp"%string, JNumber (double_of_int64 1790000000))])) "exp"
  = Some 1790000000.
Proof. apply (json_int64_exact 1790000000 "exp" []). vm_compute. reflexivity. Defined.
