(* ===== verification/World.v ===== *)
(** * State, effects and the session monad

    The data the SDK keeps ([ehem_rc], [struct ehem_ctx], [struct ehem_auth],
    the transport vtable), the world a call runs in, and the error-and-state
    monad [M] every binding is written in.

    - an early [return rc] is [Err rc]; [EHEM_OK] with its outputs is [Ok];
      [Diverge] is an exhausted fuel, which the theorems exclude;
    - everything outside [src/] is a field of the class [Platform]: the state
      of the transport implementation, malloc, [time(NULL)], cJSON, the crypto
      primitives.  Each consultation advances [w_tick], so a platform may
      answer every one differently (in particular: any allocation may fail);
    - [w_trace] records what the call does outside its own memory: requests
      handed to the transport, sleeps, push notices. *)

From S2P Require Import Prelude Json.

(** ** [include/ehem/ehem.h] *)

Inductive ehem_rc :=
  | EHEM_OK
  | EHEM_ERR_NETWORK
  | EHEM_ERR_UNREACHABLE
  | EHEM_ERR_AUTH_EXPIRED
  | EHEM_ERR_AUTH_FAILED
  | EHEM_ERR_SCOPE_DENIED
  | EHEM_ERR_USER_REJECTED
  | EHEM_ERR_CONFIRM_TIMEOUT
  | EHEM_ERR_NOT_FOUND
  | EHEM_ERR_DEVICE
  | EHEM_ERR_PROTOCOL
  | EHEM_ERR_ARG
  | EHEM_ERR_NOMEM
  | EHEM_ERR_UNSUPPORTED
  | EHEM_ERR_BACKEND_MISMATCH.

#[export] Instance ehem_rc_eq_dec : EqDecision ehem_rc.
Proof. solve_decision. Defined.

Inductive ehem_tls_mode := EHEM_TLS_SYSTEM | EHEM_TLS_CA_FILE | EHEM_TLS_INSECURE.

#[export] Instance ehem_tls_mode_eq_dec : EqDecision ehem_tls_mode.
Proof. solve_decision. Defined.

Record ehem_error := {
  http_status : Z;
  device_payload : option string;
  message : string;
  tls_expired : bool
}.

(** ** [src/transport.h] *)

Inductive ehem_http_method :=
  EHEM_HTTP_GET | EHEM_HTTP_POST | EHEM_HTTP_PUT | EHEM_HTTP_DELETE | EHEM_HTTP_PATCH.

Inductive ehem_tls_req_override :=
  EHEM_TLS_REQ_DEFAULT | EHEM_TLS_REQ_RELAX | EHEM_TLS_REQ_VERIFY.

#[export] Instance ehem_http_method_eq_dec : EqDecision ehem_http_method.
Proof. solve_decision. Defined.
#[export] Instance ehem_tls_req_override_eq_dec : EqDecision ehem_tls_req_override.
Proof. solve_decision. Defined.

Record ehem_header := { hdr_name : string; hdr_value : string }.

Record ehem_request := {
  req_method : ehem_http_method;
  req_path : string;
  req_headers : list ehem_header;
  req_body : option string;
  req_connect_timeout_ms : Z;
  req_total_timeout_ms : Z;
  req_tls_override : ehem_tls_req_override;
  req_fresh_connection : bool
}.

(** The body holds its [body_len] bytes, without the convenience NUL. *)
Record ehem_response := {
  resp_status : Z;
  resp_headers : list ehem_header;
  resp_body : option string
}.

Definition response_zero : ehem_response :=
  {| resp_status := 0; resp_headers := []; resp_body := None |}.

(** The operations over the implementation's private state; an optional
    operation may be absent. *)
Record ehem_transport_ops (net : Type) := {
  op_send : option (net -> ehem_request -> ehem_rc * ehem_response * net);
  op_last_detail : option (net -> option string);
  op_last_tls_expired : option (net -> Z);
  op_destroy : option (net -> net)
}.
Arguments op_send {net}.
Arguments op_last_detail {net}.
Arguments op_last_tls_expired {net}.
Arguments op_destroy {net}.

Record ehem_transport (net : Type) := { t_ops : option (ehem_transport_ops net) }.
Arguments t_ops {net}.

(** ** What is not under [src/] *)

Record ehem_cert_fields := {
  cf_serial_hex : string;
  cf_subject_cn : string;
  cf_not_before : string;
  cf_not_after : string
}.

Class Platform := {
  net : Type;
  p_json :: CJson;
  p_malloc : nat -> bool;
  p_time : nat -> Z;
  p_crypto_global_init : nat -> ehem_rc;
  p_transport_global_init : nat -> ehem_rc;
  p_transport_default :
    nat -> string -> ehem_tls_mode -> option string -> option (ehem_transport net);
  (* the primitives behind crypto_shim.h *)
  p_kdf_pbkdf2_sha256 : nat -> bytes -> bytes -> Z -> ehem_rc * bytes;
  p_x25519_keypair_from_seed : nat -> bytes -> ehem_rc * (bytes * bytes);
  p_x25519_shared : nat -> bytes -> bytes -> ehem_rc * bytes;
  p_hmac_sha256 : nat -> bytes -> bytes -> ehem_rc * bytes;
  p_sha256 : nat -> bytes -> ehem_rc * bytes;
  p_kdf_pbkdf2_sha512 : nat -> bytes -> bytes -> Z -> ehem_rc * bytes;
  p_random_bytes : nat -> Z -> ehem_rc * bytes;
  p_cert_parse_leaf : nat -> bytes -> ehem_rc * ehem_cert_fields;
  (* what vsnprintf leaves when a "%s" argument is its own destination buffer,
     which ISO C leaves undefined: the text before it, and its old content *)
  p_vsnprintf_overlap : string -> string -> string
}.

(** ** [struct ehem_auth] ([src/proto_auth.c])

    [passphrase_len] is always [strlen(passphrase)]. *)
Record token_entry := { te_scope : string; te_token : string; te_exp : Z }.

Record ehem_auth := {
  passphrase : option string;
  retain : bool;
  username : option string;
  mobile : bool;
  cache : list token_entry
}.

(** ** [struct ehem_ctx] ([src/context.h])

    The fields set at create and never again are grouped in [ctx_config]. *)
Record ctx_config (net : Type) := {
  url : string;
  connect_timeout_ms : Z;
  total_timeout_ms : Z;
  request_pace_ms : Z;
  tls_mode : ehem_tls_mode;
  ca_file : option string;
  transport : option (ehem_transport net);
  owns_transport : bool;
  checkin_url : string;
  no_auto_checkin : bool;
  checkin_on_login : bool;
  confirm_timeout_ms : Z;
  confirm_notice : bool;
  confirm_notice_arg : Z;
  no_credential_retention : bool
}.
Arguments url {net}.
Arguments connect_timeout_ms {net}.
Arguments total_timeout_ms {net}.
Arguments request_pace_ms {net}.
Arguments tls_mode {net}.
Arguments ca_file {net}.
Arguments transport {net}.
Arguments owns_transport {net}.
Arguments checkin_url {net}.
Arguments no_auto_checkin {net}.
Arguments checkin_on_login {net}.
Arguments confirm_timeout_ms {net}.
Arguments confirm_notice {net}.
Arguments confirm_notice_arg {net}.
Arguments no_credential_retention {net}.

Record ehem_ctx (net : Type) := {
  cfg : ctx_config net;
  cert_refreshed : bool;
  in_checkin : bool;
  checkin_on_login_done : bool;
  auth : option ehem_auth;
  last_error : ehem_error
}.
Arguments cfg {net}.
Arguments cert_refreshed {net}.
Arguments in_checkin {net}.
Arguments checkin_on_login_done {net}.
Arguments auth {net}.
Arguments last_error {net}.

Definition EHEM_ERR_MSG_MAX : nat := 256.

(** ** The world *)

Inductive event :=
  | EvSend (r : ehem_request)
  | EvSleep (ms : Z)
  | EvNotice (scope : string) (timeout_ms : Z) (arg : Z).

Section World.
Context {P : Platform}.

Record world := {
  w_net : net;
  w_tick : nat;
  w_global_ready : bool;       (* context.c: g_global_ready *)
  w_ctx : ehem_ctx net;
  w_trace : list event
}.

Inductive outcome (A : Type) := Ok (a : A) | Err (rc : ehem_rc) | Diverge.
#[global] Arguments Ok {A} a.
#[global] Arguments Err {A} rc.
#[global] Arguments Diverge {A}.

Definition M (A : Type) : Type := world -> outcome A * world.

Definition ret {A} (a : A) : M A := fun w => (Ok a, w).
Definition throw {A} (rc : ehem_rc) : M A := fun w => (Err rc, w).
Definition diverge {A} : M A := fun w => (Diverge, w).
Definition bind {A B} (m : M A) (f : A -> M B) : M B := fun w =>
  match m w with
  | (Ok a, w') => f a w'
  | (Err rc, w') => (Err rc, w')
  | (Diverge, w') => (Diverge, w')
  end.

(** Run a call and look at its return code instead of passing it on. *)
Definition attempt {A} (m : M A) : M (A + ehem_rc) := fun w =>
  match m w with
  | (Ok a, w') => (Ok (inl a), w')
  | (Err rc, w') => (Ok (inr rc), w')
  | (Diverge, w') => (Diverge, w')
  end.

(** [if (rc != EHEM_OK) return rc;] *)
Definition check_rc {A} (p : ehem_rc * A) : M A :=
  match fst p with EHEM_OK => ret (snd p) | rc => throw rc end.

(** ** Primitive effects *)

Definition get_ctx : M (ehem_ctx net) := fun w => (Ok (w_ctx w), w).
Definition get_net : M net := fun w => (Ok (w_net w), w).

Definition with_ctx (w : world) (c : ehem_ctx net) : world :=
  {| w_net := w_net w; w_tick := w_tick w; w_global_ready := w_global_ready w;
     w_ctx := c; w_trace := w_trace w |}.
Definition upd_ctx (f : ehem_ctx net -> ehem_ctx net) : M unit := fun w =>
  (Ok tt, with_ctx w (f (w_ctx w))).

Definition set_net (n : net) : M unit := fun w =>
  (Ok tt, {| w_net := n; w_tick := w_tick w; w_global_ready := w_global_ready w;
             w_ctx := w_ctx w; w_trace := w_trace w |}).
Definition set_global_ready (b : bool) : M unit := fun w =>
  (Ok tt, {| w_net := w_net w; w_tick := w_tick w; w_global_ready := b;
             w_ctx := w_ctx w; w_trace := w_trace w |}).
Definition get_global_ready : M bool := fun w => (Ok (w_global_ready w), w).

Definition emit (e : event) : M unit := fun w =>
  (Ok tt, {| w_net := w_net w; w_tick := w_tick w; w_global_ready := w_global_ready w;
             w_ctx := w_ctx w; w_trace := w_trace w ++ [e] |}).

Definition ask {A} (f : nat -> A) : M A := fun w =>
  (Ok (f (w_tick w)),
   {| w_net := w_net w; w_tick := S (w_tick w); w_global_ready := w_global_ready w;
      w_ctx := w_ctx w; w_trace := w_trace w |}).

(** [malloc]/[calloc]: NULL or not. *)
Definition malloc : M bool := ask p_malloc.
(** The [dup_str] / [ehem_strdup] / [auth_strdup] of each file. *)
Definition dup_str (s : string) : M (option string) :=
  fun w => bind malloc (fun ok => ret (if ok then Some s else None)) w.

(** ** Context field updates *)

Definition ctx_set_error (e : ehem_error) (c : ehem_ctx net) : ehem_ctx net :=
  {| cfg := cfg c; cert_refreshed := cert_refreshed c; in_checkin := in_checkin c;
     checkin_on_login_done := checkin_on_login_done c; auth := auth c;
     last_error := e |}.
Definition ctx_set_auth (a : option ehem_auth) (c : ehem_ctx net) : ehem_ctx net :=
  {| cfg := cfg c; cert_refreshed := cert_refreshed c; in_checkin := in_checkin c;
     checkin_on_login_done := checkin_on_login_done c; auth := a;
     last_error := last_error c |}.
Definition ctx_set_in_checkin (b : bool) (c : ehem_ctx net) : ehem_ctx net :=
  {| cfg := cfg c; cert_refreshed := cert_refreshed c; in_checkin := b;
     checkin_on_login_done := checkin_on_login_done c; auth := auth c;
     last_error := last_error c |}.
Definition ctx_set_cert_refreshed (b : bool) (c : ehem_ctx net) : ehem_ctx net :=
  {| cfg := cfg c; cert_refreshed := b; in_checkin := in_checkin c;
     checkin_on_login_done := checkin_on_login_done c; auth := auth c;
     last_error := last_error c |}.
Definition ctx_set_checkin_done (b : bool) (c : ehem_ctx net) : ehem_ctx net :=
  {| cfg := cfg c; cert_refreshed := cert_refreshed c; in_checkin := in_checkin c;
     checkin_on_login_done := b; auth := auth c; last_error := last_error c |}.

Definition error_set_expired (b : bool) (e : ehem_error) : ehem_error :=
  {| http_status := http_status e; device_payload := device_payload e;
     message := message e; tls_expired := b |}.
Definition error_set_message (s : string) (e : ehem_error) : ehem_error :=
  {| http_status := http_status e; device_payload := device_payload e;
     message := s; tls_expired := tls_expired e |}.
End World.

Declare Scope hem_scope.
Delimit Scope hem_scope with hem.
Notation "'let*' x := c 'in' k" := (bind c (fun x => k))
  (at level 10, x pattern, c at level 200, k at level 200) : hem_scope.
Notation "c ;;; k" := (bind c (fun _ => k))
  (at level 199, k at level 200, right associativity) : hem_scope.
