(* ===== verification/Curl.v ===== *)
(** * The default transport: [src/transport_curl.c]

    One libcurl easy handle per context.  The handle is the list of options set
    on it so far, oldest first; the value in force is the last one set.  What
    libcurl does with them is [curl_easy_perform] of the class [LibCurl]: the
    chunks it hands to the write callback and the outcome it reports.  The POSIX
    build is modelled (the [_WIN32] branch of [apply_tls_verify] is not). *)

From S2P Require Import Prelude Json World.

(** ** libcurl *)

Inductive setopt :=
  | CURLOPT_ERRORBUFFER
  | CURLOPT_NOSIGNAL (v : Z)
  | CURLOPT_FOLLOWLOCATION (v : Z)
  | CURLOPT_USERAGENT (s : string)
  | CURLOPT_FORBID_REUSE (v : Z)
  | CURLOPT_CUSTOMREQUEST (s : option string)
  | CURLOPT_POST (v : Z)
  | CURLOPT_NOBODY (v : Z)
  | CURLOPT_HTTPGET (v : Z)
  | CURLOPT_POSTFIELDS (s : string)
  | CURLOPT_POSTFIELDSIZE (v : Z)
  | CURLOPT_SSL_VERIFYPEER (v : Z)
  | CURLOPT_SSL_VERIFYHOST (v : Z)
  | CURLOPT_CAINFO (s : option string)
  | CURLOPT_FRESH_CONNECT (v : Z)
  | CURLOPT_URL (s : string)
  | CURLOPT_HTTPHEADER (l : list string)
  | CURLOPT_CONNECTTIMEOUT_MS (v : Z)
  | CURLOPT_TIMEOUT_MS (v : Z)
  | CURLOPT_WRITEFUNCTION
  | CURLOPT_WRITEDATA.

(** [CURLcode], by libcurl's numbers. *)
Definition CURLE_OK : Z := 0.
Definition CURLE_UNSUPPORTED_PROTOCOL : Z := 1.
Definition CURLE_URL_MALFORMAT : Z := 3.
Definition CURLE_COULDNT_RESOLVE_PROXY : Z := 5.
Definition CURLE_COULDNT_RESOLVE_HOST : Z := 6.
Definition CURLE_COULDNT_CONNECT : Z := 7.
Definition CURLE_WEIRD_SERVER_REPLY : Z := 8.
Definition CURLE_WRITE_ERROR : Z := 23.
Definition CURLE_OUT_OF_MEMORY : Z := 27.
Definition CURLE_OPERATION_TIMEDOUT : Z := 28.
Definition CURLE_SSL_CONNECT_ERROR : Z := 35.
Definition CURLE_PEER_FAILED_VERIFICATION : Z := 60.
Definition CURL_ERROR_SIZE : nat := 256.

(** What one transfer does, as long as the write callback accepts its input:
    the chunks of the body (each one call with [size] 1), the result, the text
    left in the error buffer and the [getinfo] values. *)
Record transfer := {
  x_chunks : list bytes;
  x_code : Z;
  x_errbuf : string;
  x_connect_time : spec_float;
  x_verify_result : Z;
  x_status : Z
}.

(** [c_alloc] answers [malloc], [realloc], [calloc] and libcurl's own
    [curl_easy_init] and [curl_slist_append]: NULL or not.
    [CURLE_WEIRD_is_macro]: whether [#ifdef CURLE_WEIRD_SERVER_REPLY] holds. *)
Class LibCurl := {
  c_alloc : nat -> bool;
  curl_easy_transfer : nat -> list setopt -> transfer;
  curl_easy_strerror : Z -> string;
  curl_global_init : nat -> Z;
  CURLE_WEIRD_is_macro : bool;
  EHEM_VERSION_STRING : string
}.

(** ** State *)

(** [cs_performed] is a ghost: every transfer started, with its request and the
    options set on the handle by then.  [cs_tick] counts the platform's
    answers. *)
Record curl_state := {
  cs_base_url : string;
  cs_tls_mode : ehem_tls_mode;
  cs_ca_file : option string;
  cs_tls_expired : bool;
  cs_errbuf : string;
  cs_detail : string;
  cs_opts : list setopt;
  cs_performed : list (ehem_request * list setopt);
  cs_tick : nat
}.

(** The bytes below [len]; [cap] bytes are allocated, one of them the NUL. *)
Record body_buf := { bb_data : bytes; bb_cap : Z; bb_oom : bool }.
Definition bb_len (b : body_buf) : Z := Z.of_nat (length (bb_data b)).
Definition body_empty : body_buf := {| bb_data := []; bb_cap := 0; bb_oom := false |}.

(** ** Classification *)

(** [strstr(hay, needle) != NULL] *)
Definition strstr (hay needle : string) : bool :=
  match String.index 0 needle hay with Some _ => true | None => false end.

Definition ehem_curl_tls_expired (code verify_result : Z) (detail : option string) : bool :=
  if negb (code =? CURLE_PEER_FAILED_VERIFICATION) && negb (code =? CURLE_SSL_CONNECT_ERROR)
  then false
  else if (verify_result =? 10) || (verify_result =? -151) then true
  else if (verify_result =? 9) || (verify_result =? -150) then false
  else
    match detail with
    | None => false
    | Some d =>
        strstr d "expired" || strstr d "date error, current date after" ||
        strstr d "ASN_AFTER_DATE"
    end.

Section Curl.
Context `{LibCurl}.

Definition ehem_curl_map_error (code : Z) (connect_time : spec_float) : ehem_rc :=
  if code =? CURLE_OK then EHEM_OK
  else if (code =? CURLE_COULDNT_RESOLVE_HOST) || (code =? CURLE_COULDNT_RESOLVE_PROXY) ||
          (code =? CURLE_COULDNT_CONNECT) ||
          (CURLE_WEIRD_is_macro && (code =? CURLE_WEIRD_SERVER_REPLY))
  then EHEM_ERR_UNREACHABLE
  else if code =? CURLE_OPERATION_TIMEDOUT then
    if SFleb connect_time (S754_zero false) then EHEM_ERR_UNREACHABLE else EHEM_ERR_NETWORK
  else if code =? CURLE_OUT_OF_MEMORY then EHEM_ERR_NOMEM
  else if (code =? CURLE_URL_MALFORMAT) || (code =? CURLE_UNSUPPORTED_PROTOCOL)
  then EHEM_ERR_ARG
  else EHEM_ERR_NETWORK.

(** ** The write callback *)

(** [while (newcap < need) newcap *= 2;], one unit of fuel per doubling;
    [None] is exhausted fuel. *)
Fixpoint grow_cap (fuel : nat) (newcap need : Z) : option Z :=
  if newcap <? need then
    match fuel with
    | O => None
    | S fuel => grow_cap fuel (wrap_size (newcap * 2)) need
    end
  else Some newcap.

(** The callback's result, the buffer and the tick afterwards. *)
Definition write_cb (t : nat) (chunk : bytes) (size nmemb : Z) (b : body_buf)
  : option (Z * body_buf * nat) :=
  let add := wrap_size (size * nmemb) in
  let need := wrap_size (bb_len b + add + 1) in
  let store cap := {| bb_data := bb_data b ++ take (Z.to_nat add) chunk; bb_cap := cap;
                      bb_oom := bb_oom b |} in
  if bb_cap b <? need then
    match grow_cap 64 (if bb_cap b =? 0 then 1024 else wrap_size (bb_cap b * 2)) need with
    | None => None
    | Some newcap =>
        Some (if c_alloc t then (nmemb, store newcap, S t)
              else (0, {| bb_data := bb_data b; bb_cap := bb_cap b; bb_oom := true |}, S t))
    end
  else Some (nmemb, store (bb_cap b), t).

(** [curl_easy_perform] hands the chunks to the callback until one is refused:
    whether all were accepted, the buffer and the tick. *)
Fixpoint deliver (t : nat) (l : list bytes) (b : body_buf) : option (bool * body_buf * nat) :=
  match l with
  | [] => Some (true, b, t)
  | c :: l =>
      match write_cb t c 1 (Z.of_nat (length c)) b with
      | None => None
      | Some (n, b, t) =>
          if n =? Z.of_nat (length c) then deliver t l b else Some (false, b, t)
      end
  end.

(** ** Building a request *)

Definition ends_in_slash (s : string) : bool :=
  match last (String.list_ascii_of_string s) with
  | Some c => Ascii.eqb c "/"
  | None => false
  end.

Definition is_absolute (path : string) : bool :=
  String.prefix "https://" path || String.prefix "http://" path.

(** The text written into a buffer of [join_url_size] bytes. *)
Definition join_url_text (base path : string) : string :=
  if is_absolute path then path
  else
    let base_slash := ends_in_slash base in
    let path_slash := String.prefix "/" path in
    if negb (is_empty path) && negb base_slash && negb path_slash then base +:+ "/" +:+ path
    else if base_slash && path_slash then base +:+ String.substring 1 (String.length path) path
    else base +:+ path.

Definition join_url_size (base path : string) : Z :=
  if is_absolute path then wrap_size (strlen path + 1)
  else
    let base_slash := ends_in_slash base in
    let path_slash := String.prefix "/" path in
    wrap_size (strlen base + strlen path +
               (if negb (is_empty path) && negb base_slash && negb path_slash then 1 else 0) -
               (if base_slash && path_slash then 1 else 0) + 1).

Definition join_url (t : nat) (base path : string) : option string * nat :=
  ((if c_alloc t then Some (join_url_text base path) else None), S t).

(** Names and values are never NULL in the library's own requests. *)
Definition header_line (h : ehem_header) : string := hdr_name h +:+ ": " +:+ hdr_value h.

(** Per header the line and the list node. *)
Fixpoint build_headers (t : nat) (l : list ehem_header) (acc : list string)
  : option (list string) * nat :=
  match l with
  | [] => (Some acc, t)
  | h :: l =>
      if negb (c_alloc t) then (None, S t)
      else if negb (c_alloc (S t)) then (None, S (S t))
      else build_headers (S (S t)) l (acc ++ [header_line h])
  end.

(** Verification is off: both by override, or by an INSECURE context. *)
Definition tls_off (mode : ehem_tls_mode) (ov : ehem_tls_req_override) : bool :=
  bool_decide (ov = EHEM_TLS_REQ_RELAX) ||
  (bool_decide (ov = EHEM_TLS_REQ_DEFAULT) && bool_decide (mode = EHEM_TLS_INSECURE)).

Definition apply_tls_verify (st : curl_state) (ov : ehem_tls_req_override) : list setopt :=
  let off := tls_off (cs_tls_mode st) ov in
  [CURLOPT_SSL_VERIFYPEER (if off then 0 else 1);
   CURLOPT_SSL_VERIFYHOST (if off then 0 else 2)] ++
  (if bool_decide (cs_tls_mode st = EHEM_TLS_CA_FILE)
   then [CURLOPT_CAINFO (if bool_decide (ov = EHEM_TLS_REQ_DEFAULT) then cs_ca_file st else None)]
   else []).

Definition reset_method : list setopt :=
  [CURLOPT_CUSTOMREQUEST None; CURLOPT_POST 0; CURLOPT_NOBODY 0; CURLOPT_HTTPGET 1].

Definition apply_method (req : ehem_request) : list setopt :=
  let body := default "" (req_body req) in
  let fields := [CURLOPT_POSTFIELDS body; CURLOPT_POSTFIELDSIZE (strlen body)] in
  let custom verb := CURLOPT_CUSTOMREQUEST (Some verb) ::
                     match req_body req with Some _ => fields | None => [] end in
  match req_method req with
  | EHEM_HTTP_GET => []
  | EHEM_HTTP_POST => CURLOPT_POST 1 :: fields
  | EHEM_HTTP_PUT => custom "PUT"
  | EHEM_HTTP_DELETE => custom "DELETE"
  | EHEM_HTTP_PATCH => custom "PATCH"
  end.

(** Everything [curl_send] sets before the transfer, in order. *)
Definition send_options (st : curl_state) (req : ehem_request) (url : string)
    (hdrs : list string) : list setopt :=
  reset_method ++ apply_method req ++ apply_tls_verify st (req_tls_override req) ++
  [CURLOPT_FRESH_CONNECT
     (if req_fresh_connection req || negb (bool_decide (req_tls_override req = EHEM_TLS_REQ_DEFAULT))
      then 1 else 0);
   CURLOPT_URL url; CURLOPT_HTTPHEADER hdrs] ++
  (if 0 <? req_connect_timeout_ms req
   then [CURLOPT_CONNECTTIMEOUT_MS (req_connect_timeout_ms req)] else []) ++
  (if 0 <? req_total_timeout_ms req
   then [CURLOPT_TIMEOUT_MS (req_total_timeout_ms req)] else []) ++
  [CURLOPT_WRITEFUNCTION; CURLOPT_WRITEDATA].

(** ** The operations *)

(** [errbuf], [detail] and [tls_expired], and the tick. *)
Definition set_result (st : curl_state) (expired : bool) (errbuf detail : string) (t : nat)
  : curl_state :=
  {| cs_base_url := cs_base_url st; cs_tls_mode := cs_tls_mode st; cs_ca_file := cs_ca_file st;
     cs_tls_expired := expired; cs_errbuf := errbuf; cs_detail := detail;
     cs_opts := cs_opts st; cs_performed := cs_performed st; cs_tick := t |}.

Definition set_opts (st : curl_state) (l : list setopt) : curl_state :=
  {| cs_base_url := cs_base_url st; cs_tls_mode := cs_tls_mode st; cs_ca_file := cs_ca_file st;
     cs_tls_expired := cs_tls_expired st; cs_errbuf := cs_errbuf st; cs_detail := cs_detail st;
     cs_opts := cs_opts st ++ l; cs_performed := cs_performed st; cs_tick := cs_tick st |}.

Definition record_perform (st : curl_state) (req : ehem_request) : curl_state :=
  {| cs_base_url := cs_base_url st; cs_tls_mode := cs_tls_mode st; cs_ca_file := cs_ca_file st;
     cs_tls_expired := cs_tls_expired st; cs_errbuf := cs_errbuf st; cs_detail := cs_detail st;
     cs_opts := cs_opts st; cs_performed := cs_performed st ++ [(req, cs_opts st)];
     cs_tick := cs_tick st |}.

(** After the transfer: [cc] is what [curl_easy_perform] returned. *)
Definition curl_finish (st : curl_state) (x : transfer) (cc : Z) (body : body_buf) (t : nat)
  : ehem_rc * ehem_response * curl_state :=
  if negb (cc =? CURLE_OK) then
    if bb_oom body then
      (EHEM_ERR_NOMEM, response_zero, set_result st false (x_errbuf x) "" t)
    else
      let msg := if is_empty (x_errbuf x) then curl_easy_strerror cc else x_errbuf x in
      let expired :=
        ((cc =? CURLE_PEER_FAILED_VERIFICATION) || (cc =? CURLE_SSL_CONNECT_ERROR)) &&
        ehem_curl_tls_expired cc (x_verify_result x) (Some msg) in
      (ehem_curl_map_error cc (x_connect_time x), response_zero,
       set_result st expired (x_errbuf x) (snprintf_trunc CURL_ERROR_SIZE msg) t)
  else
    (EHEM_OK,
     {| resp_status := x_status x; resp_headers := [];
        resp_body := if bb_cap body =? 0 then None
                     else Some (string_of_bytes (bb_data body)) |},
     set_result st false (x_errbuf x) "" t).

(** [None]: the callback's growth loop never ends. *)
Definition curl_send (st : curl_state) (req : ehem_request)
  : option (ehem_rc * ehem_response * curl_state) :=
  let (url, t) := join_url (cs_tick st) (cs_base_url st) (req_path req) in
  match url with
  | None => Some (EHEM_ERR_NOMEM, response_zero, set_result st false "" "" t)
  | Some url =>
      let (hdrs, t) := build_headers t (req_headers req) [] in
      match hdrs with
      | None => Some (EHEM_ERR_NOMEM, response_zero, set_result st false "" "" t)
      | Some hdrs =>
          let st := record_perform (set_opts st (send_options st req url hdrs)) req in
          let x := curl_easy_transfer t (cs_opts st) in
          match deliver (S t) (x_chunks x) body_empty with
          | None => None
          | Some (accepted, body, t) =>
              Some (curl_finish st x (if accepted then x_code x else CURLE_WRITE_ERROR) body t)
          end
      end
  end.

Definition curl_last_detail (st : curl_state) : string := cs_detail st.
Definition curl_last_tls_expired (st : curl_state) : Z := if cs_tls_expired st then 1 else 0.

(** ** Construction *)

(** The options set once, for the life of the handle. *)
Definition default_options : list setopt :=
  [CURLOPT_ERRORBUFFER; CURLOPT_NOSIGNAL 1; CURLOPT_FOLLOWLOCATION 0;
   CURLOPT_USERAGENT ("encedo-hem/" +:+ EHEM_VERSION_STRING); CURLOPT_FORBID_REUSE 1].

(** [init] is what [ehem_global_init] returned, [t] the tick. *)
Definition ehem_transport_default_new (init : ehem_rc) (t : nat) (base_url : option string)
    (mode : ehem_tls_mode) (ca_file : option string) : option curl_state :=
  match base_url with
  | None => None
  | Some base =>
      if negb (bool_decide (init = EHEM_OK)) then None
      else if negb (c_alloc t && c_alloc (S t) && c_alloc (S (S t))) then None
      else if negb (c_alloc (S (S (S t)))) then None
      else
        let made ca t :=
          {| cs_base_url := base; cs_tls_mode := mode; cs_ca_file := ca;
             cs_tls_expired := false; cs_errbuf := ""; cs_detail := "";
             cs_opts := default_options; cs_performed := []; cs_tick := t |} in
        match mode, ca_file with
        | EHEM_TLS_CA_FILE, Some ca =>
            if c_alloc (S (S (S (S t)))) then Some (made (Some ca) (5 + t)%nat) else None
        | _, _ => Some (made None (4 + t)%nat)
        end
  end.

Definition ehem_transport_backend_global_init (t : nat) : ehem_rc :=
  if curl_global_init t =? 0 then EHEM_OK else EHEM_ERR_DEVICE.
End Curl.
