(* ===== verification/Logic.v ===== *)
(** * Reasoning about session calls

    [wp m Q w]: running [m] in [w] ends with an outcome and a world satisfying
    [Q].  [keeps R m]: every run of [m] that returns is a step of the preorder [R].  The
    frame relations used by the components ([quiet], [evolves]) and the tactic
    [solve_keeps] live here. *)

From S2P Require Import Prelude Json World.

Open Scope hem_scope.

Section Logic.
Context {P : Platform}.

Definition wp {A} (m : M A) (Q : outcome A -> world -> Prop) (w : world) : Prop :=
  Q (fst (m w)) (snd (m w)).

Definition keeps (R : relation world) {A} (m : M A) : Prop :=
  forall w, fst (m w) <> Diverge -> R w (snd (m w)).

(** The call returns: fuel never runs out. *)
Definition returns {A} (o : outcome A) : Prop := o <> Diverge.

(** The C return code of an outcome. *)
Definition rc_of {A} (o : outcome A) : option ehem_rc :=
  match o with Ok _ => Some EHEM_OK | Err rc => Some rc | Diverge => None end.

(** Requests handed to the transport, oldest first. *)
Definition sends (t : list event) : list ehem_request :=
  omap (fun e => match e with EvSend r => Some r | _ => None end) t.
Definition nsends (w : world) : nat := length (sends (w_trace w)).

(** *** [wp] rules *)

Lemma wp_mono {A} (m : M A) (Q Q' : outcome A -> world -> Prop) w :
  wp m Q w -> (forall o w', Q o w' -> Q' o w') -> wp m Q' w.
Proof. unfold wp. auto. Qed.

Lemma wp_conj {A} (m : M A) (Q Q' : outcome A -> world -> Prop) w :
  wp m Q w -> wp m Q' w -> wp m (fun o w' => Q o w' /\ Q' o w') w.
Proof. unfold wp. auto. Qed.

Lemma wp_ret {A} (a : A) Q w : Q (Ok a) w -> wp (ret a) Q w.
Proof. done. Qed.

Lemma wp_throw {A} rc Q w : Q (Err rc) w -> wp (throw (A:=A) rc) Q w.
Proof. done. Qed.

Lemma wp_bind {A B} (m : M A) (f : A -> M B) Q w :
  wp m (fun o w' => match o with
                    | Ok a => wp (f a) Q w'
                    | Err rc => Q (Err rc) w'
                    | Diverge => Q Diverge w'
                    end) w ->
  wp (bind m f) Q w.
Proof. unfold wp, bind. by destruct (m w) as [[] ?]. Qed.

Lemma wp_attempt {A} (m : M A) Q w :
  wp m (fun o w' => match o with
                    | Ok a => Q (Ok (inl a)) w'
                    | Err rc => Q (Ok (inr rc)) w'
                    | Diverge => Q Diverge w'
                    end) w ->
  wp (attempt m) Q w.
Proof. unfold wp, attempt. by destruct (m w) as [[] ?]. Qed.

Lemma wp_keeps {A} R (m : M A) w :
  keeps R m -> wp m (fun o w' => o <> Diverge -> R w w') w.
Proof. unfold wp, keeps. auto. Qed.

Lemma bind_bind {A B C} (m : M A) (f : A -> M B) (g : B -> M C) w :
  bind (bind m f) g w = bind m (fun a => bind (f a) g) w.
Proof. unfold bind. by destruct (m w) as [[] ?]. Qed.

Lemma bind_ret_l {A B} (a : A) (f : A -> M B) w : bind (ret a) f w = f a w.
Proof. done. Qed.

Lemma bind_ret_r {A} (m : M A) w : bind m ret w = m w.
Proof. unfold bind. by destruct (m w) as [[] ?]. Qed.

(** *** Partial correctness of successful calls *)

Definition hoare {A} (I : world -> Prop) (m : M A) (Q : A -> world -> Prop) : Prop :=
  forall w, I w -> match m w with (Ok a, w') => Q a w' | _ => True end.

Lemma hoare_ret {A} (I : world -> Prop) (a : A) (Q : A -> world -> Prop) :
  (forall w, I w -> Q a w) -> hoare I (ret a) Q.
Proof. intros H w Hw. by apply H. Qed.
Lemma hoare_throw {A} (I : world -> Prop) rc (Q : A -> world -> Prop) :
  hoare I (throw rc) Q.
Proof. by intros w Hw. Qed.
Lemma hoare_bind {A B} I Q1 (m : M A) (f : A -> M B) Q :
  hoare I m Q1 -> (forall a, hoare (Q1 a) (f a) Q) -> hoare I (bind m f) Q.
Proof.
  intros Hm Hf w Hw. unfold bind. specialize (Hm w Hw).
  destruct (m w) as [[a|rc|] w']; [by apply Hf|done..].
Qed.
Lemma hoare_weaken {A} (I I' : world -> Prop) (Q Q' : A -> world -> Prop) m :
  hoare I m Q -> (forall w, I' w -> I w) -> (forall a w, Q a w -> Q' a w) ->
  hoare I' m Q'.
Proof.
  intros H HI HQ w Hw. specialize (H w (HI w Hw)).
  destruct (m w) as [[a|rc|] w']; [by apply HQ|done..].
Qed.
Lemma hoare_attempt {A} I (m : M A) Q :
  hoare I m Q -> keeps (fun w w' => I w -> I w') m ->
  hoare I (attempt m) (fun r w => match r with inl a => Q a w | inr _ => I w end).
Proof.
  intros H HI w Hw. unfold attempt. specialize (H w Hw). specialize (HI w).
  destruct (m w) as [[a|rc|] w']; cbn in *; [done|by apply HI|done].
Qed.
Lemma hoare_keeps {A} (I : world -> Prop) (m : M A) :
  keeps (fun w w' => I w -> I w') m -> hoare I m (fun _ => I).
Proof.
  intros H w Hw. specialize (H w).
  destruct (m w) as [[a|rc|] w']; cbn in *; [by apply H|done..].
Qed.
Lemma hoare_skip {A B} (I : world -> Prop) (m : M A) (f : A -> M B) Q :
  keeps (fun w w' => I w -> I w') m -> (forall a, hoare I (f a) Q) ->
  hoare I (bind m f) Q.
Proof. intros Hm Hf. eapply hoare_bind; [by apply hoare_keeps|done]. Qed.

(** *** Request posture

    What every request of the library satisfies: only device paths ([/...])
    are sent without full TLS verification, a bearer travels only to the
    device and only under the configured trust, and only the check-in path
    is ever relaxed. *)

Definition CHECKIN_PATH : string := "/api/system/checkin".

Definition device_path (p : string) : bool := String.prefix "/" p.

Definition has_bearer (r : ehem_request) : bool :=
  existsb (fun h => String.eqb (hdr_name h) "Authorization") (req_headers r).

Record posture (r : ehem_request) : Prop := {
  posture_cloud : device_path (req_path r) = true \/ req_tls_override r = EHEM_TLS_REQ_VERIFY;
  posture_bearer : has_bearer r = true ->
    device_path (req_path r) = true /\ req_tls_override r = EHEM_TLS_REQ_DEFAULT;
  posture_relax : req_tls_override r = EHEM_TLS_REQ_RELAX -> req_path r = CHECKIN_PATH
}.

Definition good_event (e : event) : Prop :=
  match e with EvSend r => posture r | _ => True end.

(** *** Frame relations *)

(** Only memory, the transport's state and the last-error detail change. *)
Record mem_step (w w' : world) : Prop := {
  mem_cfg : cfg (w_ctx w') = cfg (w_ctx w);
  mem_in_checkin : in_checkin (w_ctx w') = in_checkin (w_ctx w);
  mem_done : checkin_on_login_done (w_ctx w') = checkin_on_login_done (w_ctx w);
  mem_refreshed : cert_refreshed (w_ctx w') = cert_refreshed (w_ctx w);
  mem_auth : auth (w_ctx w') = auth (w_ctx w);
  mem_ready : w_global_ready w = true -> w_global_ready w' = true;
  mem_trace : w_trace w' = w_trace w
}.

#[export] Instance mem_step_preorder : PreOrder mem_step.
Proof.
  split; [by intros w; split|].
  intros w1 w2 w3 [] []. split; try congruence. auto.
Qed.

(** A preorder on worlds that allows every memory step, every event of the
    right posture, and every session update allowed by [A]. *)
Class FrameRel (R : relation world) (A : relation (option ehem_auth)) : Prop := {
  #[global] frame_preorder :: PreOrder R;
  frame_mem : forall w w', mem_step w w' -> R w w';
  frame_event : forall w e, good_event e -> R w (snd (emit e w));
  frame_auth : forall w a, A (auth (w_ctx w)) a ->
                 R w (with_ctx w (ctx_set_auth a (w_ctx w)))
}.

(** Frames that also survive the latches and the check-in bracket. *)
Class SessionRel (R : relation world) (A : relation (option ehem_auth)) : Prop := {
  #[global] session_frame :: FrameRel R A;
  session_done : forall w, R w (with_ctx w (ctx_set_checkin_done true (w_ctx w)));
  session_refreshed : forall w, R w (with_ctx w (ctx_set_cert_refreshed true (w_ctx w)));
  session_guard : forall w w',
    R (with_ctx w (ctx_set_in_checkin true (w_ctx w))) w' ->
    R w (with_ctx w' (ctx_set_in_checkin false (w_ctx w')))
}.

Section Keeps.
Context (R : relation world) (A : relation (option ehem_auth)) `{!FrameRel R A}.

Lemma keeps_mem {B} (m : M B) : keeps mem_step m -> keeps R m.
Proof. intros H w Hw. apply (frame_mem (A:=A)). by apply H. Qed.

Lemma keeps_ret {B} (a : B) : keeps R (ret a).
Proof. intros w _. cbn. reflexivity. Qed.
Lemma keeps_throw {B} rc : keeps R (throw (A:=B) rc).
Proof. intros w _. cbn. reflexivity. Qed.
Lemma keeps_diverge {B} : keeps R (diverge (A:=B)).
Proof. intros w _. cbn. reflexivity. Qed.

Lemma keeps_bind {B C} (m : M B) (f : B -> M C) :
  keeps R m -> (forall a, keeps R (f a)) -> keeps R (bind m f).
Proof.
  intros Hm Hf w. unfold bind. specialize (Hm w).
  destruct (m w) as [[a|rc|] w']; cbn in *; [|auto|done].
  intros Hw. etrans; [by apply Hm|by apply Hf].
Qed.

Lemma keeps_attempt {B} (m : M B) : keeps R m -> keeps R (attempt m).
Proof.
  intros Hm w. unfold attempt. specialize (Hm w).
  destruct (m w) as [[a|rc|] w']; cbn in *; auto.
Qed.

Lemma keeps_check_rc {B} (p : ehem_rc * B) : keeps R (check_rc p).
Proof. unfold check_rc. destruct p as [[] ?]; intros w _; cbn; reflexivity. Qed.

Lemma keeps_get_ctx : keeps R get_ctx.
Proof. intros w _. cbn. reflexivity. Qed.
Lemma keeps_get_net : keeps R get_net.
Proof. intros w _. cbn. reflexivity. Qed.
Lemma keeps_get_ready : keeps R get_global_ready.
Proof. intros w _. cbn. reflexivity. Qed.

Lemma keeps_ask {B} (f : nat -> B) : keeps R (ask f).
Proof. intros w _. apply (frame_mem (A:=A)). by split. Qed.
Lemma keeps_set_net n : keeps R (set_net n).
Proof. intros w _. apply (frame_mem (A:=A)). by split. Qed.
Lemma keeps_set_ready : keeps R (set_global_ready true).
Proof. intros w _. apply (frame_mem (A:=A)). by split. Qed.
Lemma keeps_emit e : good_event e -> keeps R (emit e).
Proof. intros He w _. by apply (frame_event (A:=A)). Qed.

Lemma keeps_malloc : keeps R malloc.
Proof. apply keeps_ask. Qed.
Lemma keeps_dup_str s : keeps R (dup_str s).
Proof. apply keeps_bind; [apply keeps_malloc|]. intros; apply keeps_ret. Qed.

Lemma keeps_upd_error f :
  keeps R (upd_ctx (fun c => ctx_set_error (f c) c)).
Proof. intros w _. apply (frame_mem (A:=A)). by split. Qed.
Lemma keeps_upd_auth f :
  (forall a, A a (f a)) -> keeps R (upd_ctx (fun c => ctx_set_auth (f (auth c)) c)).
Proof. intros Hf w _. by apply (frame_auth (A:=A)). Qed.
End Keeps.

(** *** The frame of a whole session call *)

(** The configuration is fixed, the latches only rise, the check-in guard is
    down again, the trace grows, by requests of the right posture. *)
Record evolves (w w' : world) : Prop := {
  ev_cfg : cfg (w_ctx w') = cfg (w_ctx w);
  ev_idle : in_checkin (w_ctx w) = false -> in_checkin (w_ctx w') = false;
  ev_done : checkin_on_login_done (w_ctx w) = true ->
            checkin_on_login_done (w_ctx w') = true;
  ev_refreshed : cert_refreshed (w_ctx w) = true -> cert_refreshed (w_ctx w') = true;
  ev_ready : w_global_ready w = true -> w_global_ready w' = true;
  ev_trace : exists l, w_trace w' = w_trace w ++ l /\ Forall good_event l
}.

#[export] Instance evolves_preorder : PreOrder evolves.
Proof.
  split.
  - intros w. split; try done. exists []. by rewrite app_nil_r.
  - intros w1 w2 w3 [? ? ? ? ? (l1 & E1 & G1)] [? ? ? ? ? (l2 & E2 & G2)].
    split; try congruence; [auto..|]. exists (l1 ++ l2).
    rewrite E2, E1, app_assoc. split; [done|by apply Forall_app].
Qed.

#[export] Instance evolves_session : SessionRel evolves (fun _ _ => True).
Proof.
  split; [split| | |].
  - apply _.
  - intros w w' []. split; try congruence; [done..|]. exists []. by rewrite app_nil_r.
  - intros w e He. split; try done. exists [e]. split; [done|by constructor].
  - intros w a _. split; try done. exists []. by rewrite app_nil_r.
  - intros w. split; try done. exists []. by rewrite app_nil_r.
  - intros w. split; try done. exists []. by rewrite app_nil_r.
  - intros w w' []. by split.
Qed.

(** A relation on the session state alone, lifted to worlds. *)
Definition on_auth (A : relation (option ehem_auth)) (w w' : world) : Prop :=
  A (auth (w_ctx w)) (auth (w_ctx w')).

#[export] Instance on_auth_preorder A `{!PreOrder A} : PreOrder (on_auth A).
Proof.
  unfold on_auth. split; [intros w; reflexivity|].
  intros w1 w2 w3 H1 H2. by transitivity (auth (w_ctx w2)).
Qed.

#[export] Instance on_auth_session A `{!PreOrder A} : SessionRel (on_auth A) A.
Proof.
  split; [split| | |]; unfold on_auth; cbn; try done.
  - apply on_auth_preorder, _.
  - intros w w' []. by rewrite mem_auth0.
Qed.

(** *** Total calls

    [total b m]: in a world whose check-in guard is [b], the call returns and
    leaves the guard at [b]. *)

Definition total (b : bool) {A} (m : M A) : Prop :=
  forall w, in_checkin (w_ctx w) = b ->
    fst (m w) <> Diverge /\ in_checkin (w_ctx (snd (m w))) = b.

Lemma total_bind b {A B} (m : M A) (f : A -> M B) :
  total b m -> (forall a, total b (f a)) -> total b (bind m f).
Proof.
  intros Hm Hf w Hw. unfold bind. specialize (Hm w Hw).
  destruct (m w) as [[a|rc|] w']; cbn in *; [|by split; [|apply Hm]|by destruct Hm].
  apply Hf, Hm.
Qed.

Lemma total_attempt b {A} (m : M A) : total b m -> total b (attempt m).
Proof.
  intros Hm w Hw. unfold attempt. specialize (Hm w Hw).
  destruct (m w) as [[a|rc|] w']; cbn in *; (split; [|apply Hm]); by destruct Hm.
Qed.

(** Steps that neither branch nor touch the guard. *)
Lemma total_step {A} b (m : M A) :
  (forall w, fst (m w) <> Diverge /\
             in_checkin (w_ctx (snd (m w))) = in_checkin (w_ctx w)) -> total b m.
Proof. intros H w <-. apply H. Qed.

Lemma total_ret b {A} (a : A) : total b (ret a).
Proof. by apply total_step. Qed.
Lemma total_throw b {A} rc : total b (throw (A:=A) rc).
Proof. by apply total_step. Qed.
Lemma total_check_rc b {A} (p : ehem_rc * A) : total b (check_rc p).
Proof. apply total_step. intros w. unfold check_rc. by destruct p as [[] ?]. Qed.
Lemma total_get_ctx b : total b get_ctx.
Proof. by apply total_step. Qed.
Lemma total_get_net b : total b get_net.
Proof. by apply total_step. Qed.
Lemma total_get_ready b : total b get_global_ready.
Proof. by apply total_step. Qed.
Lemma total_ask b {A} (f : nat -> A) : total b (ask f).
Proof. by apply total_step. Qed.
Lemma total_set_net b n : total b (set_net n).
Proof. by apply total_step. Qed.
Lemma total_set_ready b r : total b (set_global_ready r).
Proof. by apply total_step. Qed.
Lemma total_emit b e : total b (emit e).
Proof. by apply total_step. Qed.
Lemma total_upd_error b f : total b (upd_ctx (fun c => ctx_set_error (f c) c)).
Proof. by apply total_step. Qed.
Lemma total_upd_auth b f : total b (upd_ctx (fun c => ctx_set_auth (f c) c)).
Proof. by apply total_step. Qed.
Lemma total_upd_done b v : total b (upd_ctx (ctx_set_checkin_done v)).
Proof. by apply total_step. Qed.
Lemma total_upd_refreshed b v : total b (upd_ctx (ctx_set_cert_refreshed v)).
Proof. by apply total_step. Qed.
Lemma total_malloc b : total b malloc.
Proof. apply total_ask. Qed.
Lemma total_dup_str b s : total b (dup_str s).
Proof. apply total_bind; [apply total_malloc|]. intros; apply total_ret. Qed.

(** The value of the guard is known to whoever reads the context. *)
Lemma total_get_ctx_bind b {A} (f : ehem_ctx net -> M A) :
  (forall c, in_checkin c = b -> total b (f c)) -> total b (bind get_ctx f).
Proof. intros Hf w Hw. cbn. by apply Hf. Qed.

(** *** Approximation

    [approx m m']: where [m] returns, [m'] returns the same. *)
Definition approx {A} (m m' : M A) : Prop :=
  forall w, fst (m w) = Diverge \/ m w = m' w.

Lemma approx_refl {A} (m : M A) : approx m m.
Proof. intros w. by right. Qed.
Lemma approx_diverge {A} (m : M A) : approx diverge m.
Proof. intros w. by left. Qed.
Lemma approx_bind {A B} (m m' : M A) (f f' : A -> M B) :
  approx m m' -> (forall a, approx (f a) (f' a)) -> approx (bind m f) (bind m' f').
Proof.
  intros Hm Hf w. unfold bind. destruct (Hm w) as [E|E].
  - destruct (m w) as [o ?]; cbn in E; subst. by left.
  - rewrite <- E. destruct (m w) as [[a|rc|] w']; [apply Hf|by right|by left].
Qed.
Lemma approx_attempt {A} (m m' : M A) : approx m m' -> approx (attempt m) (attempt m').
Proof.
  intros Hm w. unfold attempt. destruct (Hm w) as [E|E].
  - destruct (m w) as [o ?]; cbn in E; subst. by left.
  - rewrite <- E. by right.
Qed.
End Logic.

Arguments total {P} b {A} m.

Create HintDb keeps.
#[export] Hint Resolve keeps_ret keeps_throw keeps_diverge keeps_check_rc
  keeps_get_ctx keeps_get_net keeps_get_ready keeps_ask keeps_set_net
  keeps_set_ready keeps_emit keeps_malloc keeps_dup_str keeps_upd_error
  keeps_upd_auth : keeps.
#[export] Hint Extern 2 (good_event (EvSleep _)) => exact I : keeps.
#[export] Hint Extern 2 (good_event (EvNotice _ _ _)) => exact I : keeps.

(** Decompose a [keeps] goal along the structure of the call. *)
Ltac keeps_step :=
  match goal with
  | |- keeps _ (bind _ _) => refine (keeps_bind _ _ _ _ _ _); [|intros ?]
  | |- keeps _ (attempt _) => refine (keeps_attempt _ _ _)
  | |- keeps _ (let '(_, _) := ?x in _) => destruct x
  | |- keeps _ (match ?x with _ => _ end) => destruct x
  | |- keeps _ _ => solve [eauto 4 with keeps typeclass_instances]
  end.
Ltac solve_keeps := intros; repeat (keeps_step; cbn beta iota zeta).

(** The same for [total]. *)
Create HintDb total.
#[export] Hint Resolve total_ret total_throw total_check_rc total_get_ctx
  total_get_net total_get_ready total_ask total_set_net total_set_ready total_emit
  total_upd_error total_upd_auth total_upd_done total_upd_refreshed total_malloc
  total_dup_str : total.
Ltac total_tac :=
  match goal with
  | |- total _ (bind _ _) => apply total_bind; [|intros ?]
  | |- total _ (attempt _) => apply total_attempt
  | |- total _ (let '(_, _) := ?x in _) => destruct x
  | |- total _ (match ?x with _ => _ end) => destruct x
  | |- total _ _ => solve [eauto 3 with total]
  end.
Ltac solve_total := intros; repeat (total_tac; cbn beta iota zeta).

(** The same for [approx]. *)
Create HintDb approx.
#[export] Hint Resolve approx_diverge : approx.
Ltac approx_tac :=
  match goal with
  | |- approx ?m ?m => apply approx_refl
  | |- approx (bind _ _) (bind _ _) => apply approx_bind; [|intros ?]
  | |- approx (attempt _) (attempt _) => apply approx_attempt
  | |- approx _ _ => solve [eauto 3 with approx]
  | |- approx (match ?x with _ => _ end) _ => destruct x
  end.
Ltac solve_approx := intros; repeat (approx_tac; cbn beta iota zeta).
