(* ===== verification/Context.v ===== *)
(** * Context lifecycle, options, last error and transport dispatch

    [src/context.c] and [src/transport.c]: the error strings, the
    last-error detail every binding records through [ehem_ctx_fail], the
    growable options struct with its [abi_size] guard, context creation, the
    idempotent process-global initialisation and the vtable dispatch. *)

From S2P Require Import Prelude Json World Logic.

Open Scope hem_scope.

(** ** Error names *)

Definition ehem_rc_str (rc : ehem_rc) : string :=
  match rc with
  | EHEM_OK => "EHEM_OK"
  | EHEM_ERR_NETWORK => "EHEM_ERR_NETWORK"
  | EHEM_ERR_UNREACHABLE => "EHEM_ERR_UNREACHABLE"
  | EHEM_ERR_AUTH_EXPIRED => "EHEM_ERR_AUTH_EXPIRED"
  | EHEM_ERR_AUTH_FAILED => "EHEM_ERR_AUTH_FAILED"
  | EHEM_ERR_SCOPE_DENIED => "EHEM_ERR_SCOPE_DENIED"
  | EHEM_ERR_USER_REJECTED => "EHEM_ERR_USER_REJECTED"
  | EHEM_ERR_CONFIRM_TIMEOUT => "EHEM_ERR_CONFIRM_TIMEOUT"
  | EHEM_ERR_NOT_FOUND => "EHEM_ERR_NOT_FOUND"
  | EHEM_ERR_DEVICE => "EHEM_ERR_DEVICE"
  | EHEM_ERR_PROTOCOL => "EHEM_ERR_PROTOCOL"
  | EHEM_ERR_ARG => "EHEM_ERR_ARG"
  | EHEM_ERR_NOMEM => "EHEM_ERR_NOMEM"
  | EHEM_ERR_UNSUPPORTED => "EHEM_ERR_UNSUPPORTED"
  | EHEM_ERR_BACKEND_MISMATCH => "EHEM_ERR_BACKEND_MISMATCH"
  end.

(** ** Helpers *)

Definition url_is_valid (u : option string) : bool :=
  match u with
  | None => false
  | Some u =>
      if String.prefix "https://" u then
        negb (is_empty (String.substring 8 (String.length u) u))
      else if String.prefix "http://" u then
        negb (is_empty (String.substring 7 (String.length u) u))
      else false
  end.

Definition EHEM_DEFAULT_CONNECT_TIMEOUT_MS : Z := 10000.
Definition EHEM_DEFAULT_TOTAL_TIMEOUT_MS : Z := 30000.
Definition EHEM_DEFAULT_CONFIRM_TIMEOUT_MS : Z := 60000.
Definition EHEM_DEFAULT_CHECKIN_URL : string := "https://api.encedo.com/checkin".

(** ** Options *)

Section Options.
Context {P : Platform}.

Record ehem_options := {
  abi_size : Z;
  opt_connect_timeout_ms : Z;
  opt_total_timeout_ms : Z;
  opt_tls_mode : ehem_tls_mode;
  opt_ca_file : option string;
  opt_transport : option (ehem_transport net);
  opt_no_auto_checkin : Z;
  opt_checkin_url : option string;
  opt_no_credential_retention : Z;
  opt_request_pace_ms : Z;
  opt_checkin_on_login : Z;
  opt_confirm_timeout_ms : Z;
  opt_confirm_notice : bool;
  opt_confirm_notice_arg : Z
}.

(** [offsetof(f) + sizeof(f)] of each field, LP64. *)
Definition END_connect_timeout_ms : Z := 16.
Definition END_total_timeout_ms : Z := 24.
Definition END_tls_mode : Z := 28.
Definition END_ca_file : Z := 40.
Definition END_transport : Z := 48.
Definition END_no_auto_checkin : Z := 52.
Definition END_checkin_url : Z := 64.
Definition END_no_credential_retention : Z := 68.
Definition END_request_pace_ms : Z := 80.
Definition END_checkin_on_login : Z := 84.
Definition END_confirm_timeout_ms : Z := 96.
Definition END_confirm_notice : Z := 104.
Definition END_confirm_notice_arg : Z := 112.
Definition SIZEOF_ehem_options : Z := 112.
Definition SIZEOF_abi_size : Z := 8.

Definition EHEM_OPT_HAS (opts : ehem_options) (field_end : Z) : bool :=
  field_end <=? abi_size opts.

Definition ehem_options_init : ehem_options :=
  {| abi_size := SIZEOF_ehem_options;
     opt_connect_timeout_ms := EHEM_DEFAULT_CONNECT_TIMEOUT_MS;
     opt_total_timeout_ms := EHEM_DEFAULT_TOTAL_TIMEOUT_MS;
     opt_tls_mode := EHEM_TLS_SYSTEM;
     opt_ca_file := None;
     opt_transport := None;
     opt_no_auto_checkin := 0;
     opt_checkin_url := None;
     opt_no_credential_retention := 0;
     opt_request_pace_ms := 0;
     opt_checkin_on_login := 0;
     opt_confirm_timeout_ms := 0;
     opt_confirm_notice := false;
     opt_confirm_notice_arg := 0 |}.

Definition config_defaults (u checkin : string) : ctx_config net :=
  {| url := u;
     connect_timeout_ms := EHEM_DEFAULT_CONNECT_TIMEOUT_MS;
     total_timeout_ms := EHEM_DEFAULT_TOTAL_TIMEOUT_MS;
     request_pace_ms := 0;
     tls_mode := EHEM_TLS_SYSTEM;
     ca_file := None;
     transport := None;
     owns_transport := false;
     checkin_url := checkin;
     no_auto_checkin := false;
     checkin_on_login := false;
     confirm_timeout_ms := EHEM_DEFAULT_CONFIRM_TIMEOUT_MS;
     confirm_notice := false;
     confirm_notice_arg := 0;
     no_credential_retention := false |}.

(** The configuration a block of options selects.  [u] is filled in by
    [ehem_ctx_create] afterwards; the allocations are the owned copies. *)
Definition apply_options (opts : option ehem_options) : M (ctx_config net) :=
  match opts with
  | None =>
      let* c := dup_str EHEM_DEFAULT_CHECKIN_URL in
      match c with
      | Some c => ret (config_defaults "" c)
      | None => throw EHEM_ERR_NOMEM
      end
  | Some o =>
      let pos f e d := if EHEM_OPT_HAS o e && (0 <? f o) then f o else d in
      let has e {A} (v d : A) := if EHEM_OPT_HAS o e then v else d in
      let mode := has END_tls_mode (opt_tls_mode o) EHEM_TLS_SYSTEM in
      let* ca :=
        match has END_ca_file (opt_ca_file o) None with
        | Some s =>
            let* c := dup_str s in
            match c with Some c => ret (Some c) | None => throw EHEM_ERR_NOMEM end
        | None => ret None
        end in
      let* curl :=
        dup_str (default EHEM_DEFAULT_CHECKIN_URL
                   (has END_checkin_url (opt_checkin_url o) None)) in
      match curl with
      | None => throw EHEM_ERR_NOMEM
      | Some curl =>
          if bool_decide (mode = EHEM_TLS_CA_FILE) && bool_decide (ca = None)
          then throw EHEM_ERR_ARG
          else ret
            {| url := "";
               connect_timeout_ms :=
                 pos opt_connect_timeout_ms END_connect_timeout_ms
                     EHEM_DEFAULT_CONNECT_TIMEOUT_MS;
               total_timeout_ms :=
                 pos opt_total_timeout_ms END_total_timeout_ms
                     EHEM_DEFAULT_TOTAL_TIMEOUT_MS;
               request_pace_ms := pos opt_request_pace_ms END_request_pace_ms 0;
               tls_mode := mode;
               ca_file := ca;
               transport := has END_transport (opt_transport o) None;
               owns_transport := false;
               checkin_url := curl;
               no_auto_checkin :=
                 has END_no_auto_checkin (negb (opt_no_auto_checkin o =? 0)) false;
               checkin_on_login :=
                 has END_checkin_on_login (negb (opt_checkin_on_login o =? 0)) false;
               confirm_timeout_ms :=
                 pos opt_confirm_timeout_ms END_confirm_timeout_ms
                     EHEM_DEFAULT_CONFIRM_TIMEOUT_MS;
               confirm_notice := has END_confirm_notice (opt_confirm_notice o) false;
               confirm_notice_arg := has END_confirm_notice_arg (opt_confirm_notice_arg o) 0;
               no_credential_retention :=
                 has END_no_credential_retention
                     (negb (opt_no_credential_retention o =? 0)) false |}
      end
  end.
End Options.

(** ** Last-error detail *)

Section LastError.
Context {P : Platform}.

Definition error_clear : ehem_error :=
  {| http_status := 0; device_payload := None; message := ""; tls_expired := false |}.

Definition ehem_ctx_clear_error : M unit :=
  upd_ctx (fun c => ctx_set_error error_clear c).

(** Record a failure and return [rc].  A payload copy that cannot be
    allocated is dropped; the code and the message still stand. *)
Definition ehem_ctx_fail {A} (rc : ehem_rc) (status : Z)
    (payload : option string) (msg : string) : M A :=
  let set p := upd_ctx (fun c => ctx_set_error
    {| http_status := status; device_payload := p;
       message := snprintf_trunc EHEM_ERR_MSG_MAX msg; tls_expired := false |} c) in
  match payload with
  | None => set None ;;; throw rc
  | Some p =>
      let* copy := dup_str p in
      set copy ;;; throw rc
  end.

Definition ehem_last_error : M ehem_error :=
  let* c := get_ctx in ret (last_error c).

(** [ctx->last_error.tls_expired = b] *)
Definition set_tls_expired (b : bool) : M unit :=
  upd_ctx (fun c => ctx_set_error (error_set_expired b (last_error c)) c).

Definition ehem_ctx_transport : M (option (ehem_transport net)) :=
  let* c := get_ctx in ret (transport (cfg c)).

Definition ehem_cert_refreshed (c : option (ehem_ctx net)) : Z :=
  match c with Some c => if cert_refreshed c then 1 else 0 | None => 0 end.
End LastError.

(** ** Transport dispatch *)

Section Transport.
Context {P : Platform}.

Definition ehem_transport_send (t : option (ehem_transport net))
    (req : ehem_request) : M (ehem_rc * ehem_response) :=
  match t ≫= t_ops with
  | None => ret (EHEM_ERR_ARG, response_zero)
  | Some ops =>
      match op_send ops with
      | None => ret (EHEM_ERR_ARG, response_zero)
      | Some send =>
          emit (EvSend req) ;;;
          let* n := get_net in
          let '(rc, resp, n') := send n req in
          set_net n' ;;;
          ret (rc, resp)
      end
  end.

Definition ehem_transport_last_detail (t : option (ehem_transport net)) : M string :=
  let* n := get_net in
  ret (default "" (ops ← t ≫= t_ops; f ← op_last_detail ops; f n)).

Definition ehem_transport_last_tls_expired (t : option (ehem_transport net)) : M bool :=
  let* n := get_net in
  ret (match t ≫= t_ops with
       | Some ops => match op_last_tls_expired ops with
                     | Some f => negb (f n =? 0)
                     | None => false
                     end
       | None => false
       end).

Definition ehem_transport_destroy (t : option (ehem_transport net)) : M unit :=
  match (ops ← t ≫= t_ops; op_destroy ops) with
  | Some destroy => let* n := get_net in set_net (destroy n)
  | None => ret tt
  end.
End Transport.

(** ** Process-global init and context lifecycle *)

Section Lifecycle.
Context {P : Platform}.

Definition ehem_global_init : M unit :=
  let* ready := get_global_ready in
  if ready then ret tt
  else
    let* rc := ask p_crypto_global_init in
    check_rc (rc, tt) ;;;
    let* rc := ask p_transport_global_init in
    (* on failure the crypto backend is cleaned up again *)
    check_rc (rc, tt) ;;;
    set_global_ready true.

Definition ehem_global_cleanup : M unit :=
  let* ready := get_global_ready in
  if ready then set_global_ready false else ret tt.

Definition ctx_new (c : ctx_config net) : ehem_ctx net :=
  {| cfg := c; cert_refreshed := false; in_checkin := false;
     checkin_on_login_done := false; auth := None; last_error := error_clear |}.

Definition config_set_url (u : string) (t : option (ehem_transport net)) (own : bool)
    (c : ctx_config net) : ctx_config net :=
  {| url := u; connect_timeout_ms := connect_timeout_ms c;
     total_timeout_ms := total_timeout_ms c; request_pace_ms := request_pace_ms c;
     tls_mode := tls_mode c; ca_file := ca_file c; transport := t;
     owns_transport := own; checkin_url := checkin_url c;
     no_auto_checkin := no_auto_checkin c; checkin_on_login := checkin_on_login c;
     confirm_timeout_ms := confirm_timeout_ms c; confirm_notice := confirm_notice c;
     confirm_notice_arg := confirm_notice_arg c;
     no_credential_retention := no_credential_retention c |}.

(** On success the new context becomes the world's context ([*out]); every
    failure leaves it as it was ([*out = NULL]). *)
Definition ehem_ctx_create (u : option string) (opts : option ehem_options)
    (out : bool) : M unit :=
  if negb out then throw EHEM_ERR_ARG
  else if negb (url_is_valid u) then throw EHEM_ERR_ARG
  else if match opts with Some o => abi_size o <? SIZEOF_abi_size | None => false end
  then throw EHEM_ERR_ARG
  else
    let* ok := malloc in
    if negb ok then throw EHEM_ERR_NOMEM
    else
      let* c := apply_options opts in
      let* u' := dup_str (default "" u) in
      match u' with
      | None => throw EHEM_ERR_NOMEM
      | Some u' =>
          match transport c with
          | Some t =>
              upd_ctx (fun _ => ctx_new (config_set_url u' (Some t) false c))
          | None =>
              ehem_global_init ;;;
              let* t := ask (fun n => p_transport_default n u' (tls_mode c) (ca_file c)) in
              match t with
              | None => throw EHEM_ERR_NOMEM
              | Some t => upd_ctx (fun _ => ctx_new (config_set_url u' (Some t) true c))
              end
          end
      end.

(** The transport is torn down only when this context created it. *)
Definition ehem_ctx_destroy (c : option (ehem_ctx net)) : M unit :=
  match c with
  | None => ret tt
  | Some c =>
      if owns_transport (cfg c) then ehem_transport_destroy (transport (cfg c))
      else ret tt
  end.
End Lifecycle.

(** ** Lemmas *)

Section Lemmas.
Context {P : Platform}.

Section Frames.
Context (R : relation world) (A : relation (option ehem_auth)) `{!FrameRel R A}.

Lemma keeps_clear_error : keeps R ehem_ctx_clear_error.
Proof. eauto with keeps. Qed.
Lemma keeps_ctx_fail {B} rc st p msg : keeps R (ehem_ctx_fail (A:=B) rc st p msg).
Proof. unfold ehem_ctx_fail. solve_keeps. Qed.
Lemma keeps_last_error : keeps R ehem_last_error.
Proof. unfold ehem_last_error. solve_keeps. Qed.
Lemma keeps_set_tls_expired b : keeps R (set_tls_expired b).
Proof. eauto with keeps. Qed.
Lemma keeps_ctx_transport : keeps R ehem_ctx_transport.
Proof. unfold ehem_ctx_transport. solve_keeps. Qed.
Lemma keeps_transport_send t req :
  posture req -> keeps R (ehem_transport_send t req).
Proof. unfold ehem_transport_send. solve_keeps. Qed.
Lemma keeps_last_detail t : keeps R (ehem_transport_last_detail t).
Proof. unfold ehem_transport_last_detail. solve_keeps. Qed.
Lemma keeps_last_tls_expired t : keeps R (ehem_transport_last_tls_expired t).
Proof. unfold ehem_transport_last_tls_expired. solve_keeps. Qed.
Lemma keeps_transport_destroy t : keeps R (ehem_transport_destroy t).
Proof. unfold ehem_transport_destroy. solve_keeps. Qed.
Lemma keeps_global_init : keeps R ehem_global_init.
Proof. unfold ehem_global_init. solve_keeps. Qed.
End Frames.

Section Totals.
Context (b : bool).
Lemma total_clear_error : total b ehem_ctx_clear_error.
Proof. eauto with total. Qed.
Lemma total_ctx_fail {B} rc st p msg : total b (ehem_ctx_fail (A:=B) rc st p msg).
Proof. unfold ehem_ctx_fail. solve_total. Qed.
Lemma total_last_error : total b ehem_last_error.
Proof. unfold ehem_last_error. solve_total. Qed.
Lemma total_set_tls_expired e : total b (set_tls_expired e).
Proof. unfold set_tls_expired. solve_total. Qed.
Lemma total_ctx_transport : total b ehem_ctx_transport.
Proof. unfold ehem_ctx_transport. solve_total. Qed.
Lemma total_transport_send t req : total b (ehem_transport_send t req).
Proof. unfold ehem_transport_send. solve_total. Qed.
Lemma total_last_detail t : total b (ehem_transport_last_detail t).
Proof. unfold ehem_transport_last_detail. solve_total. Qed.
Lemma total_last_tls_expired t : total b (ehem_transport_last_tls_expired t).
Proof. unfold ehem_transport_last_tls_expired. solve_total. Qed.
Lemma total_global_init : total b ehem_global_init.
Proof. unfold ehem_global_init. solve_total. Qed.
End Totals.

(** [ehem_ctx_fail] never succeeds and always reports the code it was given. *)
Lemma wp_ctx_fail {A} rc st p msg (Q : outcome A -> world -> Prop) w :
  (forall w' p',
     w_ctx w' = ctx_set_error
       {| http_status := st; device_payload := p';
          message := snprintf_trunc EHEM_ERR_MSG_MAX msg; tls_expired := false |}
       (w_ctx w) ->
     (p' = p \/ p' = None) ->
     w_trace w' = w_trace w -> w_net w' = w_net w ->
     w_global_ready w' = w_global_ready w -> Q (Err rc) w') ->
  wp (ehem_ctx_fail rc st p msg) Q w.
Proof.
  intros H. unfold wp, ehem_ctx_fail. destruct p as [p|]; cbn.
  - unfold bind, malloc, ask. cbn. destruct (p_malloc (w_tick w)); cbn;
      eapply H; cbn; eauto.
  - eapply H; cbn; eauto.
Qed.

Lemma ehem_ctx_fail_not_ok {A} rc st p msg w a :
  fst (ehem_ctx_fail (A:=A) rc st p msg w) <> Ok a.
Proof.
  apply (wp_ctx_fail rc st p msg (fun o _ => o <> Ok a)). done.
Qed.
End Lemmas.

#[export] Hint Resolve keeps_clear_error keeps_ctx_fail keeps_last_error
  keeps_set_tls_expired keeps_ctx_transport keeps_transport_send keeps_last_detail
  keeps_last_tls_expired keeps_transport_destroy keeps_global_init : keeps.

#[export] Hint Resolve total_clear_error total_ctx_fail total_last_error
  total_set_tls_expired total_ctx_transport total_transport_send total_last_detail
  total_last_tls_expired total_global_init : total.
