(* ===== verification/KeyType.v ===== *)
(** * The key-type classifier

    [src/keytype.c] and the types of [include/ehem/keymgmt.h]: a device
    [type] string (a bare algorithm name or a comma-separated flag set) is
    decomposed into family, mode and role bits and wire sizes.  The walk over
    the string is modelled as the code's loop; [classify] is the declarative
    reading of the token list that the loop is proved to compute. *)

From S2P Require Import Prelude Json World.

(** ** Data *)

Inductive ehem_key_family :=
  | EHEM_KEY_FAMILY_UNKNOWN
  | EHEM_KEY_FAMILY_SECP256R1
  | EHEM_KEY_FAMILY_SECP384R1
  | EHEM_KEY_FAMILY_SECP521R1
  | EHEM_KEY_FAMILY_SECP256K1
  | EHEM_KEY_FAMILY_ED25519
  | EHEM_KEY_FAMILY_ED448
  | EHEM_KEY_FAMILY_CURVE25519
  | EHEM_KEY_FAMILY_CURVE448
  | EHEM_KEY_FAMILY_AES128
  | EHEM_KEY_FAMILY_AES192
  | EHEM_KEY_FAMILY_AES256
  | EHEM_KEY_FAMILY_HMAC_SHA2_256
  | EHEM_KEY_FAMILY_HMAC_SHA2_384
  | EHEM_KEY_FAMILY_HMAC_SHA2_512
  | EHEM_KEY_FAMILY_HMAC_SHA3_256
  | EHEM_KEY_FAMILY_HMAC_SHA3_384
  | EHEM_KEY_FAMILY_HMAC_SHA3_512
  | EHEM_KEY_FAMILY_MLKEM512
  | EHEM_KEY_FAMILY_MLKEM768
  | EHEM_KEY_FAMILY_MLKEM1024
  | EHEM_KEY_FAMILY_MLDSA44
  | EHEM_KEY_FAMILY_MLDSA65
  | EHEM_KEY_FAMILY_MLDSA87
  | EHEM_KEY_FAMILY_CERT
  | EHEM_KEY_FAMILY_DER_PKEY.

#[export] Instance ehem_key_family_eq_dec : EqDecision ehem_key_family.
Proof. solve_decision. Defined.

Definition EHEM_KEY_MODE_EXDSA : Z := Z.shiftl 1 0.
Definition EHEM_KEY_MODE_ECDH : Z := Z.shiftl 1 1.
Definition EHEM_KEY_ROLE_ATT : Z := Z.shiftl 1 0.
Definition EHEM_KEY_ROLE_PKEY : Z := Z.shiftl 1 1.
Definition EHEM_KEY_ROLE_CERT : Z := Z.shiftl 1 2.
Definition EHEM_KEY_ROLE_GENERIC_DER : Z := Z.shiftl 1 3.

Record ehem_key_type_info := {
  kt_family : ehem_key_family;
  kt_modes : Z;
  kt_roles : Z;
  kt_pubkey_len : Z;
  kt_sig_max_len : Z;
  kt_sig_der : Z
}.

Record family_info := {
  fi_token : string;
  fi_family : ehem_key_family;
  fi_pubkey_len : Z;
  fi_sig_max_len : Z;
  fi_sig_der : Z
}.

Definition FAMILIES : list family_info := [
  Build_family_info "SECP256R1"  EHEM_KEY_FAMILY_SECP256R1     33    72   1;
  Build_family_info "SECP384R1"  EHEM_KEY_FAMILY_SECP384R1     49    104  1;
  Build_family_info "SECP521R1"  EHEM_KEY_FAMILY_SECP521R1     67    141  1;
  Build_family_info "SECP256K1"  EHEM_KEY_FAMILY_SECP256K1     33    72   1;
  Build_family_info "ED25519"    EHEM_KEY_FAMILY_ED25519       32    64   0;
  Build_family_info "ED448"      EHEM_KEY_FAMILY_ED448         57    114  0;
  Build_family_info "CURVE25519" EHEM_KEY_FAMILY_CURVE25519    32    0    0;
  Build_family_info "CURVE448"   EHEM_KEY_FAMILY_CURVE448      56    0    0;
  Build_family_info "AES128"     EHEM_KEY_FAMILY_AES128        0     0    0;
  Build_family_info "AES192"     EHEM_KEY_FAMILY_AES192        0     0    0;
  Build_family_info "AES256"     EHEM_KEY_FAMILY_AES256        0     0    0;
  Build_family_info "SHA2-256"   EHEM_KEY_FAMILY_HMAC_SHA2_256 0     0    0;
  Build_family_info "SHA2-384"   EHEM_KEY_FAMILY_HMAC_SHA2_384 0     0    0;
  Build_family_info "SHA2-512"   EHEM_KEY_FAMILY_HMAC_SHA2_512 0     0    0;
  Build_family_info "SHA3-256"   EHEM_KEY_FAMILY_HMAC_SHA3_256 0     0    0;
  Build_family_info "SHA3-384"   EHEM_KEY_FAMILY_HMAC_SHA3_384 0     0    0;
  Build_family_info "SHA3-512"   EHEM_KEY_FAMILY_HMAC_SHA3_512 0     0    0;
  Build_family_info "MLKEM512"   EHEM_KEY_FAMILY_MLKEM512      800   0    0;
  Build_family_info "MLKEM768"   EHEM_KEY_FAMILY_MLKEM768      1184  0    0;
  Build_family_info "MLKEM1024"  EHEM_KEY_FAMILY_MLKEM1024     1568  0    0;
  Build_family_info "MLDSA44"    EHEM_KEY_FAMILY_MLDSA44       1312  2420 0;
  Build_family_info "MLDSA65"    EHEM_KEY_FAMILY_MLDSA65       1952  3309 0;
  Build_family_info "MLDSA87"    EHEM_KEY_FAMILY_MLDSA87       2592  4627 0;
  Build_family_info "CERT"       EHEM_KEY_FAMILY_CERT          0     0    0;
  Build_family_info "DER_PKEY"   EHEM_KEY_FAMILY_DER_PKEY      0     0    0
].

(** ** Operations *)

(** A token is the text up to the next comma, so [memcmp] over [len] bytes of
    equal length is string equality. *)
Definition tok_is (tok lit : string) : bool := String.eqb tok lit.

Definition family_lookup (f : ehem_key_family) : option family_info :=
  List.find (fun fi => bool_decide (fi_family fi = f)) FAMILIES.

Definition info_zero : ehem_key_type_info :=
  {| kt_family := EHEM_KEY_FAMILY_UNKNOWN; kt_modes := 0; kt_roles := 0;
     kt_pubkey_len := 0; kt_sig_max_len := 0; kt_sig_der := 0 |}.

Definition or_modes (b : Z) (i : ehem_key_type_info) : ehem_key_type_info :=
  {| kt_family := kt_family i; kt_modes := Z.lor (kt_modes i) b;
     kt_roles := kt_roles i; kt_pubkey_len := kt_pubkey_len i;
     kt_sig_max_len := kt_sig_max_len i; kt_sig_der := kt_sig_der i |}.
Definition or_roles (b : Z) (i : ehem_key_type_info) : ehem_key_type_info :=
  {| kt_family := kt_family i; kt_modes := kt_modes i;
     kt_roles := Z.lor (kt_roles i) b; kt_pubkey_len := kt_pubkey_len i;
     kt_sig_max_len := kt_sig_max_len i; kt_sig_der := kt_sig_der i |}.
Definition set_family (f : ehem_key_family) (i : ehem_key_type_info) : ehem_key_type_info :=
  {| kt_family := f; kt_modes := kt_modes i; kt_roles := kt_roles i;
     kt_pubkey_len := kt_pubkey_len i; kt_sig_max_len := kt_sig_max_len i;
     kt_sig_der := kt_sig_der i |}.

(** The body of the token loop. *)
Definition classify_token (tok : string) (out : ehem_key_type_info) : ehem_key_type_info :=
  if tok_is tok "ExDSA" then or_modes EHEM_KEY_MODE_EXDSA out
  else if tok_is tok "ECDH" then or_modes EHEM_KEY_MODE_ECDH out
  else if tok_is tok "ATT" then or_roles EHEM_KEY_ROLE_ATT out
  else if tok_is tok "PKEY" then or_roles EHEM_KEY_ROLE_PKEY out
  else if tok_is tok "CERT" then or_roles EHEM_KEY_ROLE_CERT out
  else if tok_is tok "GENERIC_DER" then or_roles EHEM_KEY_ROLE_GENERIC_DER out
  else if bool_decide (kt_family out = EHEM_KEY_FAMILY_UNKNOWN) then
    match List.find (fun fi => tok_is tok (fi_token fi)) FAMILIES with
    | Some fi => set_family (fi_family fi) out
    | None => out
    end
  else out.

Definition COMMA : ascii := ",".

(** [while ( *p != 0 )]; one unit of fuel per iteration. *)
Fixpoint walk (fuel : nat) (p : string) (out : ehem_key_type_info)
  : option ehem_key_type_info :=
  match p with
  | EmptyString => Some out
  | _ =>
      match fuel with
      | O => None
      | S fuel =>
          match strchr COMMA p with
          | Some (tok, rest) => walk fuel rest (classify_token tok out)
          | None => walk fuel "" (classify_token p out)
          end
      end
  end.

(** What follows the walk. *)
Definition resolve_container (out : ehem_key_type_info) : ehem_key_type_info :=
  if bool_decide (kt_family out = EHEM_KEY_FAMILY_UNKNOWN) then
    if negb (Z.land (kt_roles out) EHEM_KEY_ROLE_CERT =? 0)
    then set_family EHEM_KEY_FAMILY_CERT out
    else if negb (Z.land (kt_roles out) EHEM_KEY_ROLE_GENERIC_DER =? 0)
    then set_family EHEM_KEY_FAMILY_DER_PKEY out
    else out
  else out.

Definition fill_sizes (out : ehem_key_type_info) : ehem_key_type_info :=
  match family_lookup (kt_family out) with
  | Some fi =>
      {| kt_family := kt_family out; kt_modes := kt_modes out; kt_roles := kt_roles out;
         kt_pubkey_len := fi_pubkey_len fi; kt_sig_max_len := fi_sig_max_len fi;
         kt_sig_der := fi_sig_der fi |}
  | None => out
  end.

(** The return code and [*out]; [None] is an exhausted walk. *)
Definition ehem_key_type_parse (type : option string) (out : bool)
  : option (ehem_rc * ehem_key_type_info) :=
  match type with
  | Some type =>
      if out then
        info ← walk (String.length type) type info_zero;
        Some (EHEM_OK, fill_sizes (resolve_container info))
      else Some (EHEM_ERR_ARG, info_zero)
  | None => Some (EHEM_ERR_ARG, info_zero)
  end.

Definition ehem_key_family_str (f : ehem_key_family) : string :=
  match family_lookup f with
  | Some fi => if bool_decide (f <> EHEM_KEY_FAMILY_UNKNOWN) then fi_token fi
               else "unknown"
  | None => "unknown"
  end.

(** ** The declarative reading *)

(** The comma-separated fields; a trailing comma opens no field. *)
Fixpoint tokens_from (acc s : string) : list string :=
  match s with
  | EmptyString => if is_empty acc then [] else [acc]
  | String a s' =>
      if Ascii.eqb a COMMA then acc :: tokens_from "" s'
      else tokens_from (acc +:+ String a "") s'
  end.
Definition tokens (s : string) : list string := tokens_from "" s.

Definition flag_token (tok : string) : bool :=
  existsb (tok_is tok) ["ExDSA"; "ECDH"; "ATT"; "PKEY"; "CERT"; "GENERIC_DER"].

(** The family a token names by itself. *)
Definition algorithm (tok : string) : option ehem_key_family :=
  if flag_token tok then None
  else fi_family <$> List.find (fun fi => tok_is tok (fi_token fi)) FAMILIES.

Definition has (lit : string) (toks : list string) : bool :=
  existsb (fun t => tok_is t lit) toks.
Definition bit_if (b : bool) (z : Z) : Z := if b then z else 0.

Definition classify (toks : list string) : ehem_key_type_info :=
  fill_sizes
    {| kt_family :=
         match omap algorithm toks with
         | f :: _ => f
         | [] => if has "CERT" toks then EHEM_KEY_FAMILY_CERT
                 else if has "GENERIC_DER" toks then EHEM_KEY_FAMILY_DER_PKEY
                 else EHEM_KEY_FAMILY_UNKNOWN
         end;
       kt_modes := Z.lor (bit_if (has "ExDSA" toks) EHEM_KEY_MODE_EXDSA)
                         (bit_if (has "ECDH" toks) EHEM_KEY_MODE_ECDH);
       kt_roles := Z.lor (Z.lor (bit_if (has "ATT" toks) EHEM_KEY_ROLE_ATT)
                                (bit_if (has "PKEY" toks) EHEM_KEY_ROLE_PKEY))
                         (Z.lor (bit_if (has "CERT" toks) EHEM_KEY_ROLE_CERT)
                                (bit_if (has "GENERIC_DER" toks)
                                        EHEM_KEY_ROLE_GENERIC_DER));
       kt_pubkey_len := 0; kt_sig_max_len := 0; kt_sig_der := 0 |}.

(** [String.concat ","] *)
Definition join (toks : list string) : string := String.concat "," toks.

Definition comma_free (t : string) : bool :=
  string_forallb (fun z => negb (z =? byte_of_ascii COMMA)) t.

(** ** Lemmas *)

Lemma append_assoc_s s t u : (s +:+ t) +:+ u = s +:+ (t +:+ u).
Proof. induction s; [done|]. by rewrite !append_cons, IHs. Qed.

Lemma tokens_strchr acc s :
  tokens_from acc s =
    match strchr COMMA s with
    | Some (l, r) => (acc +:+ l) :: tokens r
    | None => if is_empty (acc +:+ s) then [] else [acc +:+ s]
    end.
Proof.
  revert acc; induction s as [|a s IH]; intros acc; cbn [tokens_from strchr].
  - by rewrite append_empty_r.
  - destruct (Ascii.eqb a COMMA) eqn:E; [by rewrite append_empty_r|].
    rewrite IH. destruct (strchr COMMA s) as [[l r]|]; by rewrite append_assoc_s.
Qed.

Lemma strchr_length c s l r :
  strchr c s = Some (l, r) -> (String.length r < String.length s)%nat.
Proof.
  intros H. apply strchr_spec in H as ->. rewrite string_length_app. cbn. lia.
Qed.

(** The loop visits the fields in order, and its fuel suffices. *)
Lemma walk_tokens fuel p out :
  (String.length p <= fuel)%nat ->
  walk fuel p out = Some (foldl (fun i t => classify_token t i) out (tokens p)).
Proof.
  revert p out; induction fuel as [|fuel IH]; intros [|a p] out Hf; cbn in Hf; try lia;
    try done.
  cbn [walk]. unfold tokens. rewrite tokens_strchr.
  destruct (strchr COMMA (String a p)) as [[l r]|] eqn:E.
  - rewrite IH; [done|]. apply strchr_length in E. cbn in E. lia.
  - change (is_empty ("" +:+ String a p)) with false. by destruct fuel.
Qed.

(** The state of the walk after the fields [toks]. *)
Definition walked (toks : list string) : ehem_key_type_info :=
  {| kt_family := default EHEM_KEY_FAMILY_UNKNOWN (head (omap algorithm toks));
     kt_modes := kt_modes (classify toks); kt_roles := kt_roles (classify toks);
     kt_pubkey_len := 0; kt_sig_max_len := 0; kt_sig_der := 0 |}.

Lemma has_snoc lit toks t : has lit (toks ++ [t]) = has lit toks || tok_is t lit.
Proof. unfold has. rewrite existsb_app. cbn. by rewrite orb_false_r. Qed.

Lemma fill_sizes_flags i :
  kt_family (fill_sizes i) = kt_family i /\ kt_modes (fill_sizes i) = kt_modes i /\
  kt_roles (fill_sizes i) = kt_roles i.
Proof. unfold fill_sizes. by destruct (family_lookup _). Qed.

Lemma algorithm_known tok f : algorithm tok = Some f -> f <> EHEM_KEY_FAMILY_UNKNOWN.
Proof.
  unfold algorithm. destruct (flag_token tok); [done|].
  destruct (List.find _ _) as [fi|] eqn:E; [|done]. cbn. intros [= <-].
  apply find_some in E as [Hin _]. cbn in Hin.
  by repeat destruct Hin as [<-|Hin].
Qed.

Lemma algorithms_known toks :
  Forall (fun f => f <> EHEM_KEY_FAMILY_UNKNOWN) (omap algorithm toks).
Proof.
  apply Forall_forall. intros f Hf. apply list_elem_of_omap in Hf as (tok & _ & Hf).
  by eapply algorithm_known.
Qed.

(** A flag token against every combination of the flags already seen. *)
Ltac flag_cases toks :=
  cbn; rewrite ?app_nil_r, ?orb_false_r;
  destruct (has "ExDSA" toks), (has "ECDH" toks), (has "ATT" toks), (has "PKEY" toks),
    (has "CERT" toks), (has "GENERIC_DER" toks); reflexivity.

(** One more field: the flags gain a bit, the family the first algorithm. *)
Lemma classify_token_walked toks t :
  classify_token t (walked toks) = walked (toks ++ [t]).
Proof.
  unfold walked, classify.
  rewrite !(proj1 (proj2 (fill_sizes_flags _))), !(proj2 (proj2 (fill_sizes_flags _))).
  cbn [kt_modes kt_roles]. rewrite !has_snoc, omap_app. cbn [omap list_omap].
  pose proof (algorithms_known toks) as Hal. revert Hal.
  generalize (omap algorithm toks) as al. intros al Hal.
  unfold classify_token, algorithm, flag_token, tok_is. cbn [existsb].
  unfold tok_is.
  destruct (String.eqb_spec t "ExDSA") as [->|]; [by flag_cases toks|].
  destruct (String.eqb_spec t "ECDH") as [->|]; [by flag_cases toks|].
  destruct (String.eqb_spec t "ATT") as [->|]; [by flag_cases toks|].
  destruct (String.eqb_spec t "PKEY") as [->|]; [by flag_cases toks|].
  destruct (String.eqb_spec t "CERT") as [->|]; [by flag_cases toks|].
  destruct (String.eqb_spec t "GENERIC_DER") as [->|]; [by flag_cases toks|].
  cbn [orb]. rewrite !orb_false_r. cbn [kt_family].
  destruct al as [|f l]; cbn [head default app].
  - rewrite bool_decide_true by done.
    by destruct (List.find (fun fi => String.eqb t (fi_token fi)) FAMILIES).
  - rewrite bool_decide_false; [done|]. inversion_clear Hal. done.
Qed.

Lemma walk_walked toks : foldl (fun i t => classify_token t i) info_zero toks = walked toks.
Proof.
  induction toks as [|t toks IH] using rev_ind; [done|].
  rewrite foldl_app, IH. cbn. apply classify_token_walked.
Qed.

Lemma resolve_walked toks : fill_sizes (resolve_container (walked toks)) = classify toks.
Proof.
  unfold resolve_container, walked, classify.
  rewrite !(proj1 (proj2 (fill_sizes_flags _))), !(proj2 (proj2 (fill_sizes_flags _))).
  cbn [kt_modes kt_roles kt_family].
  pose proof (algorithms_known toks) as Hal. revert Hal.
  generalize (omap algorithm toks) as al. intros [|f l] Hal; cbn [head default].
  - destruct (has "CERT" toks), (has "GENERIC_DER" toks), (has "ATT" toks),
      (has "PKEY" toks); reflexivity.
  - rewrite bool_decide_false; [done|]. by inversion_clear Hal.
Qed.

(** Fields a device can send: not empty, no comma inside. *)
Definition field (t : string) : Prop := t <> "" /\ comma_free t = true.

Lemma strchr_none c t :
  string_forallb (fun z => negb (z =? byte_of_ascii c)) t = true -> strchr c t = None.
Proof.
  induction t as [|a t IH]; cbn; [done|]. intros [H1 H2]%andb_prop.
  destruct (Ascii.eqb_spec a c) as [->|]; [by rewrite Z.eqb_refl in H1|]. by rewrite IH.
Qed.

Lemma tokens_join toks : Forall field toks -> tokens (join toks) = toks.
Proof.
  induction 1 as [|t toks [Hne Hc] _ IH]; [done|].
  destruct toks as [|t' toks].
  - cbn. unfold tokens. rewrite tokens_strchr, strchr_none by done. by destruct t.
  - change (join (t :: t' :: toks)) with (t +:+ String COMMA (join (t' :: toks))).
    unfold tokens. rewrite tokens_strchr, strchr_app by done.
    change ("" +:+ t) with t. f_equal. exact IH.
Qed.

Lemma has_permutation lit toks toks' : toks ≡ₚ toks' -> has lit toks = has lit toks'.
Proof.
  unfold has. induction 1; cbn; [done|congruence| |congruence].
  by rewrite !orb_assoc, (orb_comm (tok_is y lit)).
Qed.

Lemma classify_permutation toks toks' :
  toks ≡ₚ toks' -> (length (omap algorithm toks) <= 1)%nat ->
  classify toks = classify toks'.
Proof.
  intros Hp Hl. unfold classify. rewrite !(has_permutation _ toks toks') by done.
  assert (omap algorithm toks ≡ₚ omap algorithm toks') as Ho by by rewrite Hp.
  assert (omap algorithm toks = omap algorithm toks') as ->; [|done].
  destruct (omap algorithm toks) as [|f [|]].
  - by apply Permutation_nil in Ho.
  - by apply Permutation_length_1_inv in Ho.
  - cbn in Hl. lia.
Qed.

Lemma parse_tokens s :
  ehem_key_type_parse (Some s) true = Some (EHEM_OK, classify (tokens s)).
Proof.
  unfold ehem_key_type_parse. rewrite walk_tokens by lia.
  cbn. by rewrite walk_walked, resolve_walked.
Qed.

(** ** Theorems *)

(** C37: on every string the classifier terminates with [EHEM_OK] and computes
    the declarative reading of its comma-separated fields: each mode and role
    bit is set exactly when its token occurs, the family is the first algorithm
    named (or the DER container the roles imply), unknown tokens are skipped and
    the sizes come from the family's row.  Only a NULL argument is refused. *)
Theorem key_type_parse_refines (type : option string) (out : bool) :
  ehem_key_type_parse type out =
    Some (match type, out with
          | Some s, true => (EHEM_OK, classify (tokens s))
          | _, _ => (EHEM_ERR_ARG, info_zero)
          end).
Proof. destruct type as [s|], out; try done. apply parse_tokens. Qed.

(** The order of the tokens of a flag-set type cannot matter: as long as at
    most one of them names an algorithm, any permutation is classified alike -
    in particular ["CERT,GENERIC_DER"] and ["GENERIC_DER,CERT"]. *)
Theorem key_type_order_irrelevant (toks toks' : list string)
    (Hf : Forall field toks) (Hp : toks ≡ₚ toks')
    (H1 : (length (omap algorithm toks) <= 1)%nat) :
  ehem_key_type_parse (Some (join toks)) true = ehem_key_type_parse (Some (join toks')) true.
Proof.
  rewrite !parse_tokens, !tokens_join by (by rewrite <- ?Hp).
  by erewrite classify_permutation.
Qed.

Lemma key_type_order_irrelevant_witness :
  ehem_key_type_parse (Some "CERT,GENERIC_DER") true =
    ehem_key_type_parse (Some "GENERIC_DER,CERT") true /\
  ehem_key_type_parse (Some "CERT,GENERIC_DER") true =
    Some (EHEM_OK, {| kt_family := EHEM_KEY_FAMILY_CERT; kt_modes := 0; kt_roles := 12;
                      kt_pubkey_len := 0; kt_sig_max_len := 0; kt_sig_der := 0 |}).
Proof.
  split; [|vm_compute; reflexivity].
  refine (key_type_order_irrelevant ["CERT"; "GENERIC_DER"] ["GENERIC_DER"; "CERT"] _ _ _).
  - repeat constructor; done.
  - apply perm_swap.
  - vm_compute. lia.
Defined.

(** Display name and classifier agree: for every family, its printed name -
    alone or among mode and role tokens, none of them an algorithm before it -
    classifies as that family again, with the family's row of sizes. *)
Theorem key_type_family_roundtrip (fi : family_info) (pre post : list string)
    (Hfi : fi ∈ FAMILIES) (Hpre : Forall field pre) (Hpost : Forall field post)
    (Hflags : forallb flag_token pre = true)
    (Hcert : fi_family fi = EHEM_KEY_FAMILY_CERT -> post = []) :
  exists i,
    ehem_key_type_parse
      (Some (join (pre ++ ehem_key_family_str (fi_family fi) :: post))) true
    = Some (EHEM_OK, i) /\
    kt_family i = fi_family fi /\ kt_pubkey_len i = fi_pubkey_len fi /\
    kt_sig_max_len i = fi_sig_max_len fi /\ kt_sig_der i = fi_sig_der fi.
Proof.
  assert (omap algorithm pre = []) as Ep.
  { clear Hpre. induction pre as [|t pre IH]; [done|].
    apply andb_prop in Hflags as [Ht Hr]. cbn [omap list_omap].
    unfold algorithm at 1. rewrite Ht. by apply IH. }
  assert (family_lookup (fi_family fi) = Some fi /\ field (fi_token fi) /\
          (fi_family fi = EHEM_KEY_FAMILY_CERT \/
           algorithm (fi_token fi) = Some (fi_family fi)) /\
          fi_family fi <> EHEM_KEY_FAMILY_UNKNOWN /\
          (fi_family fi = EHEM_KEY_FAMILY_CERT -> fi_token fi = "CERT"))
    as (El & Hfld & Ha & Hu & Ht).
  { clear -Hfi. unfold FAMILIES in Hfi. rewrite !elem_of_cons in Hfi.
    repeat destruct Hfi as [->|Hfi]; [..|by apply elem_of_nil in Hfi];
    (split; [reflexivity|split; [by split|split; [vm_compute; auto|by split]]]). }
  eexists. split.
  - rewrite parse_tokens, tokens_join; [reflexivity|].
    apply Forall_app; split; [done|constructor; [|done]].
    unfold ehem_key_family_str. rewrite El. by rewrite bool_decide_true.
  - unfold ehem_key_family_str. rewrite El, bool_decide_true by done.
    unfold classify. rewrite omap_app, Ep. cbn [app omap list_omap].
    assert (forall i, kt_family i = fi_family fi ->
      kt_family (fill_sizes i) = fi_family fi /\
      kt_pubkey_len (fill_sizes i) = fi_pubkey_len fi /\
      kt_sig_max_len (fill_sizes i) = fi_sig_max_len fi /\
      kt_sig_der (fill_sizes i) = fi_sig_der fi) as Hfill.
    { intros i Hi. unfold fill_sizes. by rewrite Hi, El. }
    apply Hfill. cbn [kt_family]. destruct Ha as [Hc|Ha].
    + rewrite (Hcert Hc), (Ht Hc), Hc. cbn. by rewrite has_snoc, orb_true_r.
    + by rewrite Ha.
Qed.

Lemma key_type_family_roundtrip_witness :
  exists i,
    ehem_key_type_parse (Some "ATT,PKEY,ECDH,ExDSA,SECP256R1") true = Some (EHEM_OK, i) /\
    kt_family i = EHEM_KEY_FAMILY_SECP256R1 /\ kt_pubkey_len i = 33 /\
    kt_sig_max_len i = 72 /\ kt_sig_der i = 1.
Proof.
  refine (key_type_family_roundtrip
           (Build_family_info "SECP256R1" EHEM_KEY_FAMILY_SECP256R1 33 72 1)
           ["ATT"; "PKEY"; "ECDH"; "ExDSA"] [] _ _ _ _ _);
    [left|repeat constructor; done|constructor|reflexivity|done].
Defined.
