(* ===== verification/Ejwt.v ===== *)
(** * Request bodies and compact tokens

    The builder half of [src/json.c] (every step may find no memory) and
    the compact JWT assembly of [src/ejwt.c] on top of the base64url codec:
    [sign_compact], the login eJWT and the generic signed token. *)

From S2P Require Import Prelude Base64 Json World Logic Context.

Open Scope hem_scope.

(** ** Building JSON *)

(** A chain of calls in which a NULL or [false] result stops the rest. *)
Notation "'let?' x := c 'in' k" :=
  (bind c (fun o => match o with Some x => k | None => ret None end))
  (at level 10, x pattern, c at level 200, k at level 200) : hem_scope.

Section Build.
Context {P : Platform}.

Definition alloc {A} (a : A) : M (option A) :=
  let* ok := malloc in ret (if ok then Some a else None).

Definition ehem_json_new_object : M (option json) := alloc json_new_object.
(** [false] is [None]; on success the extended object. *)
Definition ehem_json_add_string (obj : json) (key : string) (val : string)
  : M (option json) := alloc (json_add obj key (JString val)).
Definition ehem_json_add_int64 (obj : json) (key : string) (val : Z)
  : M (option json) := alloc (json_add obj key (JNumber (double_of_int64 val))).
Definition ehem_json_add_bool (obj : json) (key : string) (val : bool)
  : M (option json) := alloc (json_add obj key (JBool val)).
Definition ehem_json_print (obj : json) : M (option string) := alloc (cJSON_Print obj).

(** [obj != NULL && add(obj, ...) && ...], then print: the pattern every
    binding builds its body with. *)
Fixpoint json_add_strings (obj : json) (l : list (string * string)) : M (option json) :=
  match l with
  | [] => ret (Some obj)
  | (k, v) :: l => let? obj := ehem_json_add_string obj k v in json_add_strings obj l
  end.
Definition string_body (l : list (string * string)) : M (option string) :=
  let? obj := ehem_json_new_object in
  let? obj := json_add_strings obj l in
  ehem_json_print obj.

(** [opt_str] of the bindings: an absent field leaves the destination NULL;
    [None] is the allocation failure. *)
Definition opt_str (obj : jptr) (key : string) : M (option (option string)) :=
  match ehem_json_get_string obj key with
  | None => ret (Some None)
  | Some s => let? d := dup_str s in ret (Some (Some d))
  end.
End Build.

(** ** [sign_compact], [ehem_ejwt_build], [ehem_ejwt_sign] *)

(** [EHEM_EJWT_HEADER]: the [ecdh], [alg] and [typ] members of the JOSE header,
    a fixed byte string with double quotes at the places of [#]. *)
Definition quoted (s : string) : string :=
  String.string_of_list_ascii
    (map (fun a => if Ascii.eqb a "#"%char then ascii_of_nat 34 else a)
         (String.list_ascii_of_string s)).
Definition EHEM_EJWT_HEADER : string :=
  quoted "{#ecdh#:#x25519#,#alg#:#HS256#,#typ#:#JWT#}".

Definition EHEM_X25519_KEYSIZE : nat := 32.
Definition EHEM_SHA256_SIZE : nat := 32.

Section Ejwt.
Context {P : Platform}.

Definition nomem_or_protocol {A} (nomem : bool) : M A :=
  throw (if nomem then EHEM_ERR_NOMEM else EHEM_ERR_PROTOCOL).

(** Encode a whole buffer without its padding into one of [cap] characters. *)
Definition url_encode (b : bytes) (cap : Z) : option string :=
  ehem_b64url_encode (Some b) (Z.of_nat (length b)) false cap.

Definition sign_compact (header payload_json : string) (key : bytes) : M string :=
  let header_seg := url_encode (bytes_of_string header) 256 in
  let payload := bytes_of_string payload_json in
  let payload_cap := ehem_b64url_encoded_len (Z.of_nat (length payload)) + 1 in
  let* payload_mem := malloc in
  let payload_seg := if payload_mem then url_encode payload payload_cap else None in
  match header_seg, payload_seg with
  | Some hs, Some ps =>
      let* ok := malloc in
      if negb ok then throw EHEM_ERR_NOMEM
      else
        let sign := hs +:+ "." +:+ ps in
        let* mac := ask (fun n => p_hmac_sha256 n key (bytes_of_string sign)) in
        let* mac := check_rc mac in
        match ehem_b64url_encode (Some mac) (Z.of_nat EHEM_SHA256_SIZE) false
                (ehem_b64url_encoded_len (Z.of_nat EHEM_SHA256_SIZE) + 1) with
        | Some sig => ret (sign +:+ "." +:+ sig)
        | None => throw EHEM_ERR_PROTOCOL
        end
  | _, _ => nomem_or_protocol (negb payload_mem)
  end.

Definition ehem_ejwt_build (jti spk scope : string) (user_pub shared : bytes)
    (now requested_exp : Z) : M string :=
  let exp := requested_exp in
  match ehem_b64_std_encode (Some user_pub) (Z.of_nat EHEM_X25519_KEYSIZE) false 64 with
  | None => throw EHEM_ERR_PROTOCOL
  | Some iss =>
      let* payload_json :=
        (let? obj := ehem_json_new_object in
         let? obj := ehem_json_add_string obj "jti" jti in
         let? obj := ehem_json_add_string obj "aud" spk in
         let? obj := ehem_json_add_int64 obj "exp" exp in
         let? obj := ehem_json_add_int64 obj "iat" now in
         let? obj := ehem_json_add_string obj "iss" iss in
         let? obj := ehem_json_add_string obj "scope" scope in
         ehem_json_print obj) in
      match payload_json with
      | None => throw EHEM_ERR_NOMEM
      | Some payload_json => sign_compact EHEM_EJWT_HEADER payload_json shared
      end
  end.

Definition ehem_ejwt_sign (header_json payload_json : option string)
    (key : option bytes) : M string :=
  match header_json, payload_json, key with
  | Some h, Some p, Some k =>
      if (length k =? 0)%nat then throw EHEM_ERR_ARG else sign_compact h p k
  | _, _, _ => throw EHEM_ERR_ARG
  end.
End Ejwt.

(** ** Frames *)

Section Frames.
Context {P : Platform} (R : relation world) (A : relation (option ehem_auth))
        `{!FrameRel R A}.

Lemma keeps_alloc {B} (a : B) : keeps R (alloc a).
Proof. unfold alloc. solve_keeps. Qed.
#[local] Hint Resolve keeps_alloc : keeps.
Lemma keeps_opt_str obj key : keeps R (opt_str obj key).
Proof. unfold opt_str. solve_keeps. Qed.
Lemma keeps_add_strings l obj : keeps R (json_add_strings obj l).
Proof.
  revert obj; induction l as [|[k v] l IH]; intros obj; [by eauto with keeps|].
  cbn. eapply keeps_bind; [apply _| |intros []; [apply IH|by eauto with keeps]].
  apply keeps_alloc.
Qed.
#[local] Hint Resolve keeps_add_strings : keeps.
Lemma keeps_string_body l : keeps R (string_body l).
Proof.
  unfold string_body, ehem_json_new_object, ehem_json_print.  solve_keeps.
Qed.
Lemma keeps_sign_compact h p k : keeps R (sign_compact h p k).
Proof. unfold sign_compact, nomem_or_protocol. solve_keeps. Qed.
#[local] Hint Resolve keeps_sign_compact : keeps.
Lemma keeps_ejwt_build jti spk scope pub shared now exp :
  keeps R (ehem_ejwt_build jti spk scope pub shared now exp).
Proof.
  unfold ehem_ejwt_build, ehem_json_new_object, ehem_json_add_string,
    ehem_json_add_int64, ehem_json_print. solve_keeps.
Qed.
End Frames.

Section Totals.
Context {P : Platform} (b : bool).

Lemma total_alloc {B} (a : B) : total b (alloc a).
Proof. unfold alloc. solve_total. Qed.
#[local] Hint Resolve total_alloc : total.
Lemma total_opt_str obj key : total b (opt_str obj key).
Proof. unfold opt_str. solve_total. Qed.
Lemma total_add_strings l obj : total b (json_add_strings obj l).
Proof.
  revert obj; induction l as [|[k v] l IH]; intros obj; [by eauto with total|].
  cbn. apply total_bind; [apply total_alloc|].
  intros []; [apply IH|by eauto with total].
Qed.
#[local] Hint Resolve total_add_strings : total.
Lemma total_string_body l : total b (string_body l).
Proof.
  unfold string_body, ehem_json_new_object, ehem_json_print.  solve_total.
Qed.
Lemma total_sign_compact h p k : total b (sign_compact h p k).
Proof. unfold sign_compact, nomem_or_protocol. solve_total. Qed.
#[local] Hint Resolve total_sign_compact : total.
Lemma total_ejwt_build jti spk scope pub shared now exp :
  total b (ehem_ejwt_build jti spk scope pub shared now exp).
Proof.
  unfold ehem_ejwt_build, ehem_json_new_object, ehem_json_add_string,
    ehem_json_add_int64, ehem_json_print. solve_total.
Qed.
End Totals.

#[export] Hint Resolve keeps_alloc keeps_opt_str keeps_string_body keeps_sign_compact
  keeps_ejwt_build : keeps.
#[export] Hint Resolve total_alloc total_opt_str total_string_body total_sign_compact
  total_ejwt_build : total.
