(* ===== verification/Proto.v ===== *)
(** * The shared request path

    [src/proto_common.c]: one transport send, the status mapping, and
    [ehem_proto_request_raw] with its two recoveries (expired certificate,
    rejected bearer).

    The request path calls the check-in flow and the session engine, which
    call it back.  The recursion is left open here: [request_raw_body] takes
    the three operations it needs as arguments, and the class [Request] is the
    request path as its clients see it.  Session.v ties the knot. *)

From S2P Require Import Prelude Json World Logic Context Ejwt.

Open Scope hem_scope.

(** ** Helpers *)

Definition ehem_proto_map_http_status (status : Z) : ehem_rc :=
  if status =? 401 then EHEM_ERR_AUTH_FAILED
  else if status =? 403 then EHEM_ERR_SCOPE_DENIED
  else if status =? 404 then EHEM_ERR_NOT_FOUND
  else if 400 <=? status then EHEM_ERR_DEVICE
  else EHEM_ERR_PROTOCOL.

Definition EHEM_PROTO_KID_HEX_LEN : nat := 32.

Definition is_hex_char (c : Z) : bool :=
  ((48 <=? c) && (c <=? 57)) || ((97 <=? c) && (c <=? 102)) || ((65 <=? c) && (c <=? 70)).

(** The first [n] characters are hex digits and the string ends there: the
    loop stops at the first other character, the NUL included. *)
Fixpoint is_hex_of_len (n : nat) (s : string) : bool :=
  match n, s with
  | O, EmptyString => true
  | O, String _ _ => false
  | S n, EmptyString => false
  | S n, String c s => if is_hex_char (byte_of_ascii c) then is_hex_of_len n s else false
  end.
Definition ehem_proto_is_kid_hex (s : string) : bool :=
  is_hex_of_len EHEM_PROTO_KID_HEX_LEN s.

Section Proto.
Context {P : Platform}.

Definition ehem_proto_sleep_ms (ms : Z) : M unit :=
  if ms <=? 0 then ret tt else emit (EvSleep ms).

Definition make_bearer (token : string) : M (option string) :=
  alloc ("Bearer " +:+ token).

Definition request_headers (json_body bearer : option string) : list ehem_header :=
  [{| hdr_name := "Accept"; hdr_value := "application/json" |}] ++
  match json_body with
  | Some _ => [{| hdr_name := "Content-Type"; hdr_value := "application/json" |}]
  | None => []
  end ++
  match bearer with
  | Some b => [{| hdr_name := "Authorization"; hdr_value := b |}]
  | None => []
  end.

(** The return code of the send, and the response it filled in. *)
Definition do_send (t : option (ehem_transport net)) (method : ehem_http_method)
    (path : string) (json_body bearer : option string)
    (tls_override : ehem_tls_req_override) (fresh_connection : bool)
  : M (ehem_rc * ehem_response) :=
  let* c := get_ctx in
  let req := {| req_method := method; req_path := path;
                req_headers := request_headers json_body bearer;
                req_body := json_body;
                req_connect_timeout_ms := connect_timeout_ms (cfg c);
                req_total_timeout_ms := total_timeout_ms (cfg c);
                req_tls_override := tls_override;
                req_fresh_connection := fresh_connection |} in
  ehem_proto_sleep_ms (request_pace_ms (cfg c)) ;;;
  ehem_transport_send t req.

(** *** The request path as its clients see it *)

Class Request :=
  ehem_proto_request_raw :
    ehem_http_method -> string -> option string -> option string ->
    ehem_tls_req_override -> M string.

Definition ehem_proto_request_json `{Request} (method : ehem_http_method)
    (path : string) (json_body scope : option string)
    (tls_override : ehem_tls_req_override) : M json :=
  let* body := ehem_proto_request_raw method path json_body scope tls_override in
  let root := ehem_json_parse body in
  match root with
  | Some r =>
      if ehem_json_is_object root then ret r
      else ehem_ctx_fail EHEM_ERR_PROTOCOL 0 (Some body)
             (path +:+ ": response is not a JSON object")
  | None =>
      ehem_ctx_fail EHEM_ERR_PROTOCOL 0 (Some body)
        (path +:+ ": malformed JSON response")
  end.

(** *** The body of [ehem_proto_request_raw] *)

Section Body.
(** [ehem_checkin_run(ctx, relax, NULL)], [ehem_auth_ensure_token] and
    [ehem_auth_invalidate]. *)
Context (checkin_run : bool -> M unit)
        (ensure_token : string -> M string)
        (invalidate : string -> M unit).

Definition ok_rc (rc : ehem_rc) : bool := bool_decide (rc = EHEM_OK).

(** Acquire the bearer for [scope] and build the header value. *)
Definition acquire_bearer (scope : string) : M string :=
  let* token := ensure_token scope in
  let* bearer := make_bearer token in
  match bearer with
  | Some b => ret b
  | None => ehem_ctx_fail EHEM_ERR_NOMEM 0 None "out of memory"
  end.

(** The expired-certificate recovery after a failed first send: the result
    of the send that stands. *)
Definition cert_recovery (t : option (ehem_transport net))
    (method : ehem_http_method) (path : string) (json_body bearer : option string)
    (tls_override : ehem_tls_req_override) (orig_rc : ehem_rc)
  : M (ehem_rc * ehem_response) :=
  let* detail := ehem_transport_last_detail t in
  let orig_detail := snprintf_trunc 256 detail in
  let* crc := attempt (checkin_run true) in
  match crc with
  | inr _ =>
      let* e := ehem_last_error in
      let* r := attempt (ehem_ctx_fail (A:=unit) orig_rc 0 None
                  (p_vsnprintf_overlap
                     (path +:+ ": " +:+ orig_detail +:+
                      " (automatic check-in recovery failed: ")
                     (message e))) in
      set_tls_expired true ;;;
      throw orig_rc
  | inl _ =>
      let* sent := do_send t method path json_body bearer tls_override true in
      if ok_rc (fst sent) then
        upd_ctx (ctx_set_cert_refreshed true) ;;; ret sent
      else
        let* expired := ehem_transport_last_tls_expired t in
        if expired then
          let* r := attempt (ehem_ctx_fail (A:=unit) orig_rc 0 None
                      (path +:+ ": " +:+ orig_detail +:+
                       " (check-in completed and the device accepted a certificate update, but it still serves the old certificate - a device reboot may be required to apply it)")) in
          set_tls_expired true ;;;
          throw orig_rc
        else ret sent
  end.

(** A transport failure that nothing recovers. *)
Definition send_failed {A} (t : option (ehem_transport net)) (path : string)
    (rc : ehem_rc) : M A :=
  let* expired := ehem_transport_last_tls_expired t in
  let* detail := ehem_transport_last_detail t in
  let* r := attempt (ehem_ctx_fail (A:=unit) rc 0 None (path +:+ ": " +:+ detail)) in
  set_tls_expired expired ;;;
  throw rc.

(** The one re-acquisition and resend after a 401 on a bearer. *)
Definition auth_retry (t : option (ehem_transport net))
    (method : ehem_http_method) (path : string) (json_body : option string)
    (scope : string) (tls_override : ehem_tls_req_override) : M ehem_response :=
  invalidate scope ;;;
  let* bearer := acquire_bearer scope in
  let* (rc, resp) := do_send t method path json_body (Some bearer) tls_override true in
  if ok_rc rc then ret resp
  else
    let* detail := ehem_transport_last_detail t in
    ehem_ctx_fail rc 0 None (path +:+ ": " +:+ detail).

(** Status mapping and the empty-body check. *)
Definition finish (path : string) (resp : ehem_response) : M string :=
  if (resp_status resp <? 200) || (300 <=? resp_status resp) then
    ehem_ctx_fail (ehem_proto_map_http_status (resp_status resp)) (resp_status resp)
      (c_str <$> resp_body resp)
      (path +:+ ": HTTP " +:+ dec (resp_status resp))
  else
    match resp_body resp with
    | Some body =>
        if is_empty body then
          ehem_ctx_fail EHEM_ERR_PROTOCOL (resp_status resp) None
            (path +:+ ": empty response body")
        else ret (c_str body)
    | None =>
        ehem_ctx_fail EHEM_ERR_PROTOCOL (resp_status resp) None
          (path +:+ ": empty response body")
    end.

Definition request_raw_body : Request :=
  fun method path json_body scope tls_override =>
  let* t := ehem_ctx_transport in
  match t with
  | None => ehem_ctx_fail EHEM_ERR_ARG 0 None "no transport configured"
  | Some _ =>
      let* bearer :=
        match scope with
        | Some s => let* b := acquire_bearer s in ret (Some b)
        | None => ret None
        end in
      let* first := do_send t method path json_body bearer tls_override false in
      let* expired := ehem_transport_last_tls_expired t in
      let* c := get_ctx in
      let* (rc, resp) :=
        (if negb (ok_rc (fst first)) && expired && negb (no_auto_checkin (cfg c)) &&
            negb (in_checkin c) && bool_decide (tls_override = EHEM_TLS_REQ_DEFAULT)
         then cert_recovery t method path json_body bearer tls_override (fst first)
         else ret first) in
      if negb (ok_rc rc) then send_failed t path rc
      else
        let* resp :=
          match scope with
          | Some s =>
              if resp_status resp =? 401
              then auth_retry t method path json_body s tls_override
              else ret resp
          | None => ret resp
          end in
        finish path resp
  end.
End Body.
End Proto.

(** ** Interfaces

    What the request path promises its clients, as classes: a frame for the
    calls of the right posture, and totality for a set of scopes. *)

(** How a binding may call the request path. *)
Definition ok_args (path : string) (scope : option string) (ov : ehem_tls_req_override) : Prop :=
  (device_path path = true \/ ov = EHEM_TLS_REQ_VERIFY) /\
  (scope <> None -> ov = EHEM_TLS_REQ_DEFAULT) /\
  (ov = EHEM_TLS_REQ_RELAX -> path = CHECKIN_PATH).

Class RequestFrame {P : Platform} (R : relation world) (Q : Request) : Prop :=
  request_keeps m p b s o :
    ok_args p s o -> keeps R (@ehem_proto_request_raw P Q m p b s o).

Class RequestTotal {P : Platform} (b : bool) (S : option string -> Prop) (Q : Request) : Prop :=
  request_total m p body s o : S s -> total b (@ehem_proto_request_raw P Q m p body s o).

Lemma has_bearer_headers body bearer :
  existsb (fun h => String.eqb (hdr_name h) "Authorization") (request_headers body bearer)
  = match bearer with Some _ => true | None => false end.
Proof. by destruct body, bearer. Qed.

Lemma ok_args_device path scope :
  device_path path = true -> ok_args path scope EHEM_TLS_REQ_DEFAULT.
Proof. intros. split_and!; auto. done. Qed.

Lemma ok_args_cloud path : ok_args path None EHEM_TLS_REQ_VERIFY.
Proof. split_and!; by auto. Qed.

Lemma ok_args_checkin ov :
  ov = EHEM_TLS_REQ_RELAX \/ ov = EHEM_TLS_REQ_DEFAULT -> ok_args CHECKIN_PATH None ov.
Proof. intros _. split_and!; [by left|done|done]. Qed.

#[export] Hint Resolve ok_args_device ok_args_cloud : keeps.
#[export] Hint Extern 1 (device_path _ = true) => reflexivity : keeps.

(** ** Frames *)

Section Frames.
Context {P : Platform} (R : relation world) (A : relation (option ehem_auth))
        `{!FrameRel R A}.

Lemma keeps_sleep_ms ms : keeps R (ehem_proto_sleep_ms ms).
Proof. unfold ehem_proto_sleep_ms. solve_keeps. Qed.
Lemma keeps_make_bearer t : keeps R (make_bearer t).
Proof. unfold make_bearer. solve_keeps. Qed.
#[local] Hint Resolve keeps_sleep_ms keeps_make_bearer : keeps.

Lemma posture_send m p body bearer ct tt ov fresh :
  ok_args p bearer ov ->
  posture {| req_method := m; req_path := p; req_headers := request_headers body bearer;
             req_body := body; req_connect_timeout_ms := ct; req_total_timeout_ms := tt;
             req_tls_override := ov; req_fresh_connection := fresh |}.
Proof.
  intros (H1 & H2 & H3). split; cbn [req_path req_tls_override]; [done| |done].
  unfold has_bearer. cbn [req_headers]. rewrite has_bearer_headers.
  destruct bearer; [|done]. intros _. specialize (H2 ltac:(done)). subst.
  by destruct H1.
Qed.

Lemma keeps_do_send t m p body bearer ov fresh :
  ok_args p bearer ov -> keeps R (do_send t m p body bearer ov fresh).
Proof. intros. unfold do_send. pose proof posture_send. solve_keeps. Qed.

Lemma keeps_request_json `{Q : !Request, !RequestFrame R Q} m p b s o :
  ok_args p s o -> keeps R (ehem_proto_request_json m p b s o).
Proof.
  intros. unfold ehem_proto_request_json.
  eapply keeps_bind; [apply _|by apply request_keeps|]. solve_keeps.
Qed.
End Frames.

Section Totals.
Context {P : Platform} (b : bool).

Lemma total_sleep_ms ms : total b (ehem_proto_sleep_ms ms).
Proof. unfold ehem_proto_sleep_ms. solve_total. Qed.
Lemma total_make_bearer t : total b (make_bearer t).
Proof. unfold make_bearer. solve_total. Qed.
#[local] Hint Resolve total_sleep_ms total_make_bearer : total.
Lemma total_do_send t m p body bearer ov fresh :
  total b (do_send t m p body bearer ov fresh).
Proof. unfold do_send. solve_total. Qed.
Lemma total_request_json (S : option string -> Prop) `{Q : !Request, !RequestTotal b S Q}
    m p body s o : S s -> total b (ehem_proto_request_json m p body s o).
Proof.
  intros. unfold ehem_proto_request_json.
  apply total_bind; [by apply request_total|]. solve_total.
Qed.
Lemma total_finish p resp : total b (finish p resp).
Proof. unfold finish. solve_total. Qed.
Lemma total_send_failed {A} t p rc : total b (send_failed (A:=A) t p rc).
Proof. unfold send_failed. solve_total. Qed.
End Totals.

#[export] Hint Resolve keeps_sleep_ms keeps_make_bearer keeps_do_send : keeps.
#[export] Hint Resolve total_sleep_ms total_make_bearer total_do_send total_finish
  total_send_failed : total.

(** The body keeps every frame its three operations keep. *)
Section BodyFrame.
Context {P : Platform} (R : relation world) (A : relation (option ehem_auth))
        `{!SessionRel R A}.
Context (checkin_run : bool -> M unit) (ensure_token : string -> M string)
        (invalidate : string -> M unit).
Context (Hcheckin : forall r, keeps R (checkin_run r))
        (Hensure : forall s, keeps R (ensure_token s))
        (Hinvalidate : forall s, keeps R (invalidate s)).

Lemma keeps_set_refreshed : keeps R (upd_ctx (ctx_set_cert_refreshed true)).
Proof. intros w _. apply (session_refreshed (A:=A)). Qed.
#[local] Hint Resolve keeps_set_refreshed Hcheckin Hensure Hinvalidate : keeps.

Lemma keeps_acquire_bearer s : keeps R (acquire_bearer ensure_token s).
Proof. unfold acquire_bearer. solve_keeps. Qed.
Lemma keeps_finish p resp : keeps R (finish p resp).
Proof. unfold finish. solve_keeps. Qed.
Lemma keeps_send_failed {B} t p rc : keeps R (send_failed (A:=B) t p rc).
Proof. unfold send_failed. solve_keeps. Qed.
Lemma keeps_cert_recovery t m p body bearer ov rc :
  ok_args p bearer ov -> keeps R (cert_recovery checkin_run t m p body bearer ov rc).
Proof. intros. unfold cert_recovery. solve_keeps. Qed.
#[local] Hint Resolve keeps_acquire_bearer keeps_finish keeps_send_failed
  keeps_cert_recovery : keeps.

Lemma ok_args_bearer p s ov v : ok_args p (Some s) ov -> ok_args p v ov.
Proof. intros (H1 & H2 & H3). split_and!; [done| |done]. intros _. by apply H2. Qed.
Lemma keeps_auth_retry t m p body s ov :
  ok_args p (Some s) ov ->
  keeps R (auth_retry ensure_token invalidate t m p body s ov).
Proof. intros. unfold auth_retry. pose proof ok_args_bearer. solve_keeps. Qed.
#[local] Hint Resolve keeps_auth_retry : keeps.

(** After the bearer is settled. *)
Lemma request_raw_body_frame :
  RequestFrame R (request_raw_body checkin_run ensure_token invalidate).
Proof.
  intros m p body s o Ho. unfold ehem_proto_request_raw, request_raw_body.
  refine (keeps_bind _ _ _ _ _ _); [solve [eauto 4 with keeps typeclass_instances]|intros t].
  destruct t as [t|]; [|solve [eauto 4 with keeps typeclass_instances]].
  destruct s as [s|].
  - pose proof (fun v => ok_args_bearer p s o v Ho) as Hany. solve_keeps.
  - change (bind (ret None) ?f) with (f None). cbn beta. solve_keeps.
Qed.
End BodyFrame.

Section BodyTotal.
Context {P : Platform} (b : bool).
Context (checkin_run : bool -> M unit) (ensure_token : string -> M string)
        (invalidate : string -> M unit).

Lemma total_acquire_bearer s :
  total b (ensure_token s) -> total b (acquire_bearer ensure_token s).
Proof. intros. unfold acquire_bearer. solve_total. Qed.

Lemma total_cert_recovery t m p body bearer ov rc :
  total b (checkin_run true) ->
  total b (cert_recovery checkin_run t m p body bearer ov rc).
Proof. intros. unfold cert_recovery. solve_total. Qed.
End BodyTotal.
