(* ===== verification/Checkin.v ===== *)
(** * The check-in handshake

    The check-in part of [src/proto_system.c] (with the serial formatter of
    [src/crypto_shim_common.c]): the three legs with their TLS postures
    and the recursion guard, and the claims harvested from the relayed JWTs. *)

From S2P Require Import Prelude Base64 Json World Logic Context Ejwt Proto.

Open Scope hem_scope.

Record ehem_checkin_info := {
  ci_status : option string;
  ci_newcrt : option string;
  ci_newfws : option string;
  ci_newuis : option string;
  ci_cert_updated : bool;
  ci_newcrt_chain : option string;
  ci_current_serial : option string
}.

(** ** Helpers *)

(** The payload segment of a compact JWT: the text between the first two dots. *)
Definition jwt_payload_segment (jwt : string) : option string :=
  '(_, rest) ← strchr "." jwt;
  '(seg, _) ← strchr "." rest;
  Some seg.

Definition HEX_UPPER : string := "0123456789ABCDEF".
Definition hex_at (d : Z) : ascii :=
  default "0"%char (String.get (Z.to_nat d) HEX_UPPER).

(** The loop of [ehem_serial_hex]: two digits while [pos + 2 < cap]. *)
Fixpoint serial_hex_loop (l : bytes) (pos cap : Z) : string :=
  match l with
  | [] => ""
  | b :: l =>
      if pos + 2 <? cap then
        String (hex_at (Z.land (Z.shiftr b 4) 15))
          (String (hex_at (Z.land b 15)) (serial_hex_loop l (pos + 2) cap))
      else ""
  end.

Definition ehem_serial_hex (serial : bytes) (cap : Z) : string :=
  serial_hex_loop
    (if (1 <? length serial)%nat && (hd 1 serial =? 0) then tail serial else serial)
    0 cap.

Definition EHEM_CERT_SERIAL_HEX_CAP : Z := 67.

Section Checkin.
Context {P : Platform}.

(** The value, if the envelope carries one; the only failure is NOMEM. *)
Definition harvest_jwt_claim (envelope env_key claim : string) : M (option string) :=
  match ehem_json_parse envelope with
  | None => ret None
  | Some env =>
      match ehem_json_get_string (Some env) env_key ≫= jwt_payload_segment with
      | None => ret None
      | Some seg =>
          if is_empty seg then ret None
          else
            let* ok := malloc in
            if negb ok then throw EHEM_ERR_NOMEM
            else
              match ehem_b64url_decode (Some seg) (strlen seg) false (strlen seg) with
              | None => ret None
              | Some raw =>
                  match ehem_json_get_string (ehem_json_parse (string_of_bytes raw)) claim with
                  | None => ret None
                  | Some value =>
                      let* d := dup_str value in
                      match d with
                      | Some d => ret (Some d)
                      | None => throw EHEM_ERR_NOMEM
                      end
                  end
              end
      end
  end.

Definition harvest_current_serial (challenge : string) : M (option string) :=
  let* csn := harvest_jwt_claim challenge "check" "csn" in
  match csn with
  | None => ret None
  | Some csn_b64 =>
      match ehem_b64_std_decode (Some csn_b64) (strlen csn_b64) false 64 with
      | None | Some [] => ret None
      | Some serial =>
          let* d := dup_str (ehem_serial_hex serial EHEM_CERT_SERIAL_HEX_CAP) in
          match d with
          | Some d => ret (Some d)
          | None => throw EHEM_ERR_NOMEM
          end
      end
  end.

Definition parse_checkin (root : json) : M ehem_checkin_info :=
  let* ok := malloc in
  if negb ok then ehem_ctx_fail EHEM_ERR_NOMEM 0 None "out of memory"
  else
    let* r :=
      (let? status := opt_str (Some root) "status" in
       let? newcrt := opt_str (Some root) "newcrt" in
       let? newfws := opt_str (Some root) "newfws" in
       let? newuis := opt_str (Some root) "newuis" in
       ret (Some {| ci_status := status; ci_newcrt := newcrt; ci_newfws := newfws;
                    ci_newuis := newuis;
                    ci_cert_updated :=
                      match newcrt with Some s => negb (is_empty s) | None => false end;
                    ci_newcrt_chain := None; ci_current_serial := None |})) in
    match r with
    | Some r => ret r
    | None => ehem_ctx_fail EHEM_ERR_NOMEM 0 None "out of memory"
    end.

Section Run.
Context `{Q : !Request}.

(** [out != NULL] fills in the details after the three legs. *)
Definition checkin_details (challenge verified : string) (root : json)
  : M ehem_checkin_info :=
  let* r := parse_checkin root in
  let* h := attempt
    (let* chain := harvest_jwt_claim verified "checked" "newcrt" in
     let* serial := harvest_current_serial challenge in
     ret (chain, serial)) in
  match h with
  | inl (chain, serial) =>
      ret {| ci_status := ci_status r; ci_newcrt := ci_newcrt r;
             ci_newfws := ci_newfws r; ci_newuis := ci_newuis r;
             ci_cert_updated := ci_cert_updated r;
             ci_newcrt_chain := chain; ci_current_serial := serial |}
  | inr _ => ehem_ctx_fail EHEM_ERR_NOMEM 0 None "out of memory"
  end.

Definition checkin_legs (dev_ov : ehem_tls_req_override) (want : bool)
  : M (option ehem_checkin_info) :=
  let* challenge :=
    ehem_proto_request_raw EHEM_HTTP_GET CHECKIN_PATH None None dev_ov in
  let* c := get_ctx in
  let* verified :=
    ehem_proto_request_raw EHEM_HTTP_POST (checkin_url (cfg c)) (Some challenge) None
      EHEM_TLS_REQ_VERIFY in
  let* root :=
    ehem_proto_request_json EHEM_HTTP_POST CHECKIN_PATH (Some verified) None dev_ov in
  if want then
    let* r := checkin_details challenge verified root in ret (Some r)
  else ret None.

(** The guard is up for the whole flow and down on every way out. *)
Definition ehem_checkin_run (relax_device_tls want : bool)
  : M (option ehem_checkin_info) :=
  let dev_ov := if relax_device_tls then EHEM_TLS_REQ_RELAX
                else EHEM_TLS_REQ_DEFAULT in
  upd_ctx (ctx_set_in_checkin true) ;;;
  let* r := attempt (checkin_legs dev_ov want) in
  upd_ctx (ctx_set_in_checkin false) ;;;
  match r with
  | inl r => ret r
  | inr rc => throw rc
  end.

(** [ehem_checkin_run(ctx, relax, NULL)], as the recoveries call it. *)
Definition checkin_quietly (relax_device_tls : bool) : M unit :=
  ehem_checkin_run relax_device_tls false ;;; ret tt.

Definition ehem_system_checkin (out : bool) : M (option ehem_checkin_info) :=
  if negb out then throw EHEM_ERR_ARG
  else
    ehem_ctx_clear_error ;;;
    ehem_checkin_run true true.
End Run.
End Checkin.

(** The bracket, as an equation: the legs under the guard, the guard down. *)
Definition dev_override (relax : bool) : ehem_tls_req_override :=
  if relax then EHEM_TLS_REQ_RELAX else EHEM_TLS_REQ_DEFAULT.

Lemma checkin_run_eq {P : Platform} `{Q : !Request} relax want w :
  ehem_checkin_run relax want w =
    match checkin_legs (dev_override relax) want
            (with_ctx w (ctx_set_in_checkin true (w_ctx w))) with
    | (Diverge, w') => (Diverge, w')
    | (o, w') => (o, with_ctx w' (ctx_set_in_checkin false (w_ctx w')))
    end.
Proof.
  unfold ehem_checkin_run, bind, upd_ctx, attempt. cbn [fst snd].
  change (if relax then _ else _) with (dev_override relax).
  by destruct (checkin_legs _ _ _) as [[] ?].
Qed.

(** ** Frames *)

Section Frames.
Context {P : Platform} (R : relation world) (A : relation (option ehem_auth)).

Section Plain.
Context `{!FrameRel R A}.
Lemma keeps_harvest_claim e k c : keeps R (harvest_jwt_claim e k c).
Proof. unfold harvest_jwt_claim. solve_keeps. Qed.
#[local] Hint Resolve keeps_harvest_claim : keeps.
Lemma keeps_harvest_serial c : keeps R (harvest_current_serial c).
Proof. unfold harvest_current_serial. solve_keeps. Qed.
Lemma keeps_parse_checkin r : keeps R (parse_checkin r).
Proof. unfold parse_checkin. solve_keeps. Qed.
#[local] Hint Resolve keeps_harvest_serial keeps_parse_checkin : keeps.
Lemma keeps_checkin_details c v r : keeps R (checkin_details c v r).
Proof. unfold checkin_details. solve_keeps. Qed.
End Plain.

Context `{!SessionRel R A} `{Q : !Request, !RequestFrame R Q}.
#[local] Hint Resolve keeps_checkin_details : keeps.

Lemma keeps_checkin_legs ov want :
  ov = EHEM_TLS_REQ_RELAX \/ ov = EHEM_TLS_REQ_DEFAULT -> keeps R (checkin_legs ov want).
Proof.
  intros Hov. pose proof (ok_args_checkin ov Hov). unfold checkin_legs.
  pose proof (keeps_request_json R A).
  refine (keeps_bind _ _ _ _ _ _); [by apply request_keeps|intros ch].
  refine (keeps_bind _ _ _ _ _ _); [solve_keeps|intros c].
  refine (keeps_bind _ _ _ _ _ _); [by apply request_keeps, ok_args_cloud|intros v].
  refine (keeps_bind _ _ _ _ _ _); [by apply (keeps_request_json R A)|intros r].
  solve_keeps.
Qed.

Lemma keeps_checkin_run relax want : keeps R (ehem_checkin_run relax want).
Proof.
  intros w. rewrite checkin_run_eq.
  pose proof (keeps_checkin_legs (dev_override relax) want ltac:(destruct relax; auto)
                (with_ctx w (ctx_set_in_checkin true (w_ctx w)))) as H.
  destruct (checkin_legs _ want _) as [[a|rc|] w']; cbn in *; [| |done].
  all: intros _; apply (session_guard (A:=A)), H; done.
Qed.

Lemma keeps_checkin_quietly relax : keeps R (checkin_quietly relax).
Proof. unfold checkin_quietly. pose proof keeps_checkin_run. solve_keeps. Qed.

Lemma keeps_system_checkin out : keeps R (ehem_system_checkin out).
Proof. unfold ehem_system_checkin. pose proof keeps_checkin_run. solve_keeps. Qed.
End Frames.

Section Totals.
Context {P : Platform}.

Section Any.
Context (b : bool).
Lemma total_harvest_claim e k c : total b (harvest_jwt_claim e k c).
Proof. unfold harvest_jwt_claim. solve_total. Qed.
#[local] Hint Resolve total_harvest_claim : total.
Lemma total_harvest_serial c : total b (harvest_current_serial c).
Proof. unfold harvest_current_serial. solve_total. Qed.
Lemma total_parse_checkin r : total b (parse_checkin r).
Proof. unfold parse_checkin. solve_total. Qed.
#[local] Hint Resolve total_harvest_serial total_parse_checkin : total.
Lemma total_checkin_details c v r : total b (checkin_details c v r).
Proof. unfold checkin_details. solve_total. Qed.
End Any.

(** The legs run under the raised guard; whatever they do, it is down after. *)
Context `{Q : !Request, !RequestTotal true (eq None) Q}.

Lemma total_checkin_legs ov want : total true (checkin_legs ov want).
Proof.
  unfold checkin_legs.
  apply total_bind; [by apply request_total|intros ch].
  apply total_bind; [eauto with total|intros c].
  apply total_bind; [by apply request_total|intros v].
  apply total_bind; [by apply (total_request_json true (eq None))|intros r].
  pose proof (total_checkin_details true). solve_total.
Qed.

Lemma checkin_run_returns relax want w :
  fst (ehem_checkin_run relax want w) <> Diverge /\
  in_checkin (w_ctx (snd (ehem_checkin_run relax want w))) = false.
Proof.
  rewrite checkin_run_eq.
  destruct (total_checkin_legs (dev_override relax) want
              (with_ctx w (ctx_set_in_checkin true (w_ctx w))) eq_refl) as [H _].
  by destruct (checkin_legs _ want _) as [[a|rc|] w'].
Qed.

Lemma total_checkin_run relax want : total false (ehem_checkin_run relax want).
Proof. intros w _. apply checkin_run_returns. Qed.
Lemma total_checkin_quietly relax : total false (checkin_quietly relax).
Proof. unfold checkin_quietly. pose proof total_checkin_run. solve_total. Qed.
Lemma total_system_checkin out : total false (ehem_system_checkin out).
Proof. unfold ehem_system_checkin. pose proof total_checkin_run. solve_total. Qed.
End Totals.

#[export] Hint Resolve keeps_harvest_claim keeps_checkin_run keeps_checkin_quietly
  keeps_system_checkin : keeps.
#[export] Hint Resolve total_harvest_claim total_checkin_quietly : total.
