(* ===== verification/AuthState.v ===== *)
(** * The session state: credential and token cache

    The part of [src/proto_auth.c] that touches no network: the
    scope-keyed bearer cache, the credential and its scrubbing, login, mobile
    login and logout.  [ctx->auth] is the field [auth] of the context; the
    pointer [a] the code keeps to it is the state itself. *)

From S2P Require Import Prelude Base64 Json World Logic Context Ejwt Proto Checkin.

Open Scope hem_scope.

Definition AUTH_PBKDF2_ITERS : Z := 600000.
Definition AUTH_TOKEN_LIFETIME : Z := 3600.
Definition AUTH_TOKEN_SKEW : Z := 60.
Definition AUTH_TOKEN_PATH : string := "/api/auth/token".

(** ** Record updates *)

Definition auth_zero : ehem_auth :=
  {| passphrase := None; retain := false; username := None; mobile := false; cache := [] |}.

Definition auth_set_cache (l : list token_entry) (a : ehem_auth) : ehem_auth :=
  {| passphrase := passphrase a; retain := retain a; username := username a;
     mobile := mobile a; cache := l |}.
Definition auth_set_username (u : option string) (a : ehem_auth) : ehem_auth :=
  {| passphrase := passphrase a; retain := retain a; username := u;
     mobile := mobile a; cache := cache a |}.
Definition scrub_passphrase (a : ehem_auth) : ehem_auth :=
  {| passphrase := None; retain := retain a; username := username a;
     mobile := mobile a; cache := cache a |}.
Definition auth_set_credential (p : string) (r : bool) (a : ehem_auth) : ehem_auth :=
  {| passphrase := Some p; retain := r; username := username a;
     mobile := false; cache := cache a |}.
Definition auth_set_mobile (a : ehem_auth) : ehem_auth :=
  {| passphrase := passphrase a; retain := retain a; username := username a;
     mobile := true; cache := cache a |}.

(** ** The cache *)

Fixpoint cache_find (l : list token_entry) (scope : string) : option token_entry :=
  match l with
  | [] => None
  | e :: l => if String.eqb (te_scope e) scope then Some e else cache_find l scope
  end.

Definition cache_clear (a : ehem_auth) : ehem_auth := auth_set_cache [] a.

(** Replace the token of the first entry for [scope], in place. *)
Fixpoint cache_replace (l : list token_entry) (scope token : string) (exp : Z)
  : list token_entry :=
  match l with
  | [] => []
  | e :: l =>
      if String.eqb (te_scope e) scope
      then {| te_scope := te_scope e; te_token := token; te_exp := exp |} :: l
      else e :: cache_replace l scope token exp
  end.

Fixpoint cache_remove (l : list token_entry) (scope : string) : list token_entry :=
  match l with
  | [] => []
  | e :: l => if String.eqb (te_scope e) scope then l else e :: cache_remove l scope
  end.

Section AuthState.
Context {P : Platform}.

Definition auth_now : M Z := ask p_time.

Definition get_auth : M (option ehem_auth) := let* c := get_ctx in ret (auth c).
Definition upd_auth (f : ehem_auth -> ehem_auth) : M unit :=
  upd_ctx (fun c => ctx_set_auth (f <$> auth c) c).

(** The stored entry, or NULL with the cache unchanged. *)
Definition cache_put (scope token : string) (exp : Z) : M (option token_entry) :=
  let* a := get_auth in
  let l := match a with Some a => cache a | None => [] end in
  let? tok := dup_str token in
  match cache_find l scope with
  | Some e =>
      upd_auth (fun a => auth_set_cache (cache_replace (cache a) scope tok exp) a) ;;;
      ret (Some {| te_scope := te_scope e; te_token := tok; te_exp := exp |})
  | None =>
      let? _ := alloc tt in
      let? sc := dup_str scope in
      let e := {| te_scope := sc; te_token := tok; te_exp := exp |} in
      upd_auth (fun a => auth_set_cache (e :: cache a) a) ;;;
      ret (Some e)
  end.

(** The [exp] claim of a bearer, when it can be read. *)
Definition decode_bearer_exp (token : string) : option Z :=
  seg ← jwt_payload_segment token;
  if is_empty seg || (1024 <? strlen seg) then None
  else
    raw ← ehem_b64url_decode (Some seg) (strlen seg) false 1024;
    ehem_json_get_int64 (ehem_json_parse (string_of_bytes raw)) "exp".

Definition ensure_auth : M bool :=
  let* a := get_auth in
  match a with
  | Some _ => ret true
  | None =>
      let* ok := malloc in
      if ok then upd_ctx (ctx_set_auth (Some auth_zero)) ;;; ret true else ret false
  end.

Definition cache_expiry (real_exp : Z) : Z := wrap_i64 (real_exp - AUTH_TOKEN_SKEW).

Definition ehem_auth_cache_seed (scope token : string) : M unit :=
  let* ok := ensure_auth in
  if negb ok then ehem_ctx_fail EHEM_ERR_NOMEM 0 None "out of memory"
  else
    let* real_exp :=
      match decode_bearer_exp token with
      | Some e => ret e
      | None => let* now := auth_now in ret (now + AUTH_TOKEN_LIFETIME)
      end in
    let* e := cache_put scope token (cache_expiry real_exp) in
    match e with
    | Some _ => ret tt
    | None => ehem_ctx_fail EHEM_ERR_NOMEM 0 None "out of memory"
    end.

(** [None] drops the whole cache. *)
Definition ehem_auth_invalidate (scope : option string) : M unit :=
  match scope with
  | None => upd_auth cache_clear
  | Some s => upd_auth (fun a => auth_set_cache (cache_remove (cache a) s) a)
  end.

(** ** Session lifecycle *)

Definition ehem_login (pass : option string) : M unit :=
  match pass with
  | None => throw EHEM_ERR_ARG
  | Some pass =>
      ehem_ctx_clear_error ;;;
      let* copy := dup_str pass in
      match copy with
      | None => ehem_ctx_fail EHEM_ERR_NOMEM 0 None "out of memory"
      | Some copy =>
          let* ok := ensure_auth in
          if negb ok then ehem_ctx_fail EHEM_ERR_NOMEM 0 None "out of memory"
          else
            let* c := get_ctx in
            upd_auth (fun a =>
              auth_set_credential copy (negb (no_credential_retention (cfg c)))
                (scrub_passphrase (auth_set_username None (cache_clear a))))
      end
  end.

Definition ehem_login_mobile : M unit :=
  ehem_ctx_clear_error ;;;
  let* ok := ensure_auth in
  if negb ok then ehem_ctx_fail EHEM_ERR_NOMEM 0 None "out of memory"
  else
    upd_auth (fun a =>
      auth_set_mobile (scrub_passphrase (auth_set_username None (cache_clear a)))).

Definition is_mobile (c : ehem_ctx net) : bool :=
  match auth c with Some a => mobile a | None => false end.
Definition ehem_auth_is_mobile : M bool := let* c := get_ctx in ret (is_mobile c).

(** [ehem_auth_destroy], then [ctx->auth = NULL]. *)
Definition ehem_logout : M unit :=
  ehem_ctx_clear_error ;;;
  upd_ctx (ctx_set_auth None).
End AuthState.

(** ** Allowed session updates *)

(** What a request may do to the cache. *)
Inductive cache_step (l : list token_entry) : list token_entry -> Prop :=
  | step_add e : cache_find l (te_scope e) = None -> cache_step l (e :: l)
  | step_replace scope token exp : cache_step l (cache_replace l scope token exp)
  | step_remove scope : cache_step l (cache_remove l scope)
  | step_clear : cache_step l [].

(** A relation on the session that allows what a request may do to it. *)
Class AuthRel (A : relation (option ehem_auth)) : Prop := {
  #[global] auth_preorder :: PreOrder A;
  auth_zero_ok : A None (Some auth_zero);
  auth_cache_ok a l : cache_step (cache a) l -> A (Some a) (Some (auth_set_cache l a));
  auth_username_ok a u : A (Some a) (Some (auth_set_username u a));
  auth_scrub_ok a : retain a = false -> A (Some a) (Some (scrub_passphrase a))
}.

#[export] Instance any_auth_preorder : PreOrder (fun _ _ : option ehem_auth => True).
Proof. by split. Qed.
#[export] Instance any_auth_rel : AuthRel (fun _ _ => True).
Proof. by split. Qed.

(** ** The cache as a map from scopes *)

Definition scopes (l : list token_entry) : list string := te_scope <$> l.

Lemma cache_find_scope l s e : cache_find l s = Some e -> te_scope e = s.
Proof.
  induction l as [|x l IH]; cbn; [done|].
  destruct (String.eqb_spec (te_scope x) s); [by intros [= <-]|done].
Qed.

Lemma cache_find_none l s : cache_find l s = None <-> s ∉ scopes l.
Proof.
  induction l as [|x l IH]; [split; [intros _; apply not_elem_of_nil|done]|].
  change (scopes (x :: l)) with (te_scope x :: scopes l).
  rewrite not_elem_of_cons. cbn. rewrite <- IH.
  destruct (String.eqb_spec (te_scope x) s) as [->|]; [|by firstorder]. by split; [|intros []].
Qed.

Lemma scopes_replace l s t e : scopes (cache_replace l s t e) = scopes l.
Proof.
  unfold scopes. induction l as [|x l IH]; cbn; [done|].
  destruct (String.eqb _ _); cbn; by rewrite ?IH.
Qed.

Lemma scopes_remove l s : scopes (cache_remove l s) ⊆+ scopes l.
Proof.
  unfold scopes. induction l as [|x l IH]; cbn; [done|].
  destruct (String.eqb _ _); cbn; [by apply submseteq_cons|by apply submseteq_skip].
Qed.

Lemma cache_find_replace l s t e s' :
  cache_find (cache_replace l s t e) s' =
    if String.eqb s s' then
      match cache_find l s with
      | Some _ => Some {| te_scope := s; te_token := t; te_exp := e |}
      | None => None
      end
    else cache_find l s'.
Proof.
  induction l as [|x l IH]; cbn; [by case_match|].
  destruct (String.eqb_spec (te_scope x) s) as [Hx|Hx]; cbn.
  - rewrite Hx. by destruct (String.eqb s s').
  - rewrite IH. destruct (String.eqb_spec s s') as [->|]; [|done].
    by destruct (String.eqb_spec (te_scope x) s').
Qed.

Lemma cache_find_remove l s s' :
  NoDup (scopes l) ->
  cache_find (cache_remove l s) s' = if String.eqb s s' then None else cache_find l s'.
Proof.
  induction l as [|x l IH]; intros Hl; cbn; [by case_match|].
  apply NoDup_cons in Hl as [Hx Hl].
  destruct (String.eqb_spec (te_scope x) s) as [E|E]; cbn.
  - rewrite E. destruct (String.eqb_spec s s') as [E'|]; [|done].
    rewrite <- E', <- E. by apply cache_find_none.
  - rewrite IH by done. destruct (String.eqb_spec s s') as [E'|]; [|done].
    rewrite <- E'. by destruct (String.eqb_spec (te_scope x) s).
Qed.

(** The list a successful put leaves. *)
Definition cache_update (l : list token_entry) (e : token_entry) : list token_entry :=
  match cache_find l (te_scope e) with
  | Some _ => cache_replace l (te_scope e) (te_token e) (te_exp e)
  | None => e :: l
  end.

Lemma cache_update_step l e : cache_step l (cache_update l e).
Proof.
  unfold cache_update. destruct (cache_find l (te_scope e)) eqn:E; by constructor.
Qed.

Lemma cache_find_update l e s :
  cache_find (cache_update l e) s =
    if String.eqb (te_scope e) s then Some e else cache_find l s.
Proof.
  unfold cache_update. destruct (cache_find l (te_scope e)) eqn:E.
  - rewrite cache_find_replace, E. by destruct e.
  - cbn. by destruct (String.eqb (te_scope e) s).
Qed.

Section Put.
Context {P : Platform}.

(** The same world after some consultations of the platform. *)
Definition at_tick (n : nat) (w : world) : world :=
  {| w_net := w_net w; w_tick := n; w_global_ready := w_global_ready w;
     w_ctx := w_ctx w; w_trace := w_trace w |}.
Lemma mem_at_tick n w : mem_step w (at_tick n w).
Proof. by split. Qed.

(** A put is memory steps and then one cache update. *)
Lemma cache_put_run scope token exp w :
  auth (w_ctx w) <> None ->
  let e := {| te_scope := scope; te_token := token; te_exp := exp |} in
  exists w', mem_step w w' /\
    (cache_put scope token exp w = (Ok None, w') \/
     exists a, auth (w_ctx w) = Some a /\
       cache_put scope token exp w =
         (Ok (Some e),
          with_ctx w' (ctx_set_auth (Some (auth_set_cache (cache_update (cache a) e) a))
                         (w_ctx w')))).
Proof.
  intros Ha e. destruct (auth (w_ctx w)) as [a|] eqn:Ea; [clear Ha|done].
  unfold cache_put, get_auth, dup_str, alloc, malloc, ask, bind, get_ctx, ret,
    upd_auth, upd_ctx, cache_update. cbn. rewrite Ea.
  destruct (p_malloc (w_tick w));
    [|exists (at_tick (S (w_tick w)) w); split; [apply mem_at_tick|by left]].
  destruct (cache_find (cache a) scope) as [x|] eqn:Ef.
  - cbn. exists (at_tick (S (w_tick w)) w).
    split; [apply mem_at_tick|right; exists a; split; [done|]].
    rewrite Ef, Ea. by apply cache_find_scope in Ef as ->.
  - cbn. destruct (p_malloc (S (w_tick w))); cbn;
      [|exists (at_tick (S (S (w_tick w))) w); split; [apply mem_at_tick|by left]].
    destruct (p_malloc (S (S (w_tick w)))); cbn;
      [|exists (at_tick (S (S (S (w_tick w)))) w); split; [apply mem_at_tick|by left]].
    exists (at_tick (S (S (S (w_tick w)))) w).
    split; [apply mem_at_tick|right; exists a; split; [done|]]. by rewrite Ef, Ea.
Qed.

(** What [cache_put] leaves alone when there is no session: everything. *)
Lemma cache_put_no_session scope token exp w :
  auth (w_ctx w) = None -> mem_step w (snd (cache_put scope token exp w)).
Proof.
  intros Ea.
  unfold cache_put, get_auth, dup_str, alloc, malloc, ask, bind, get_ctx, ret,
    upd_auth, upd_ctx. cbn. rewrite Ea.
  destruct (p_malloc (w_tick w)); cbn; [|by split].
  destruct (p_malloc _); cbn; [|by split].
  destruct (p_malloc _); cbn; split; cbn; by rewrite ?Ea.
Qed.
End Put.

Section Frames.
Context {P : Platform} (R : relation world) (A : relation (option ehem_auth))
        `{!FrameRel R A, !AuthRel A}.

Lemma keeps_auth_now : keeps R auth_now.
Proof. unfold auth_now. solve_keeps. Qed.
Lemma keeps_get_auth : keeps R get_auth.
Proof. unfold get_auth. solve_keeps. Qed.
Lemma keeps_upd_auth_some (f : ehem_auth -> ehem_auth) :
  (forall a, A (Some a) (Some (f a))) -> keeps R (upd_auth f).
Proof.
  intros Hf w _. apply (frame_auth (A:=A)).
  destruct (auth (w_ctx w)); cbn; [apply Hf|reflexivity].
Qed.
#[local] Hint Resolve keeps_auth_now keeps_get_auth keeps_upd_auth_some : keeps.

Lemma keeps_ensure_auth : keeps R ensure_auth.
Proof.
  intros w _. unfold ensure_auth, get_auth, get_ctx, bind, malloc, ask, upd_ctx, ret.
  cbn. destruct (auth (w_ctx w)) as [a|] eqn:Ea; [reflexivity|].
  destruct (p_malloc (w_tick w)); cbn; [|apply (frame_mem (A:=A)), mem_at_tick].
  etrans; [apply (frame_mem (A:=A)), (mem_at_tick (S (w_tick w)))|].
  apply (frame_auth (A:=A) (at_tick (S (w_tick w)) w) (Some auth_zero)).
  cbn. rewrite Ea. apply auth_zero_ok.
Qed.

Lemma keeps_cache_put scope token exp : keeps R (cache_put scope token exp).
Proof.
  intros w _. destruct (auth (w_ctx w)) as [a|] eqn:Ea.
  - destruct (cache_put_run scope token exp w) as (w' & Hm & H); [by rewrite Ea|].
    destruct H as [->|(a' & Ea' & ->)]; [by apply (frame_mem (A:=A))|].
    etrans; [by apply (frame_mem (A:=A))|]. cbn. apply (frame_auth (A:=A)).
    rewrite (mem_auth _ _ Hm), Ea'. apply auth_cache_ok, cache_update_step.
  - by apply (frame_mem (A:=A)), cache_put_no_session.
Qed.
#[local] Hint Resolve keeps_ensure_auth keeps_cache_put : keeps.

Lemma keeps_cache_seed scope token : keeps R (ehem_auth_cache_seed scope token).
Proof. unfold ehem_auth_cache_seed. solve_keeps. Qed.
Lemma keeps_invalidate scope : keeps R (ehem_auth_invalidate scope).
Proof.
  unfold ehem_auth_invalidate, cache_clear. destruct scope; apply keeps_upd_auth_some;
    intros a; apply auth_cache_ok; constructor.
Qed.
Lemma keeps_is_mobile : keeps R ehem_auth_is_mobile.
Proof. unfold ehem_auth_is_mobile. solve_keeps. Qed.
End Frames.

Section Totals.
Context {P : Platform} (b : bool).
Lemma total_auth_now : total b auth_now.
Proof. unfold auth_now. solve_total. Qed.
Lemma total_get_auth : total b get_auth.
Proof. unfold get_auth. solve_total. Qed.
Lemma total_upd_auth_some f : total b (upd_auth f).
Proof. by apply total_step. Qed.
Lemma total_ensure_auth : total b ensure_auth.
Proof.
  unfold ensure_auth.
  assert (forall a, total b (upd_ctx (ctx_set_auth a))) by (intros; by apply total_step).
  pose proof total_get_auth. solve_total.
Qed.
#[local] Hint Resolve total_auth_now total_get_auth total_upd_auth_some
  total_ensure_auth total_alloc : total.
Lemma total_cache_put s t e : total b (cache_put s t e).
Proof. unfold cache_put. solve_total. Qed.
#[local] Hint Resolve total_cache_put : total.
Lemma total_cache_seed s t : total b (ehem_auth_cache_seed s t).
Proof. unfold ehem_auth_cache_seed. solve_total. Qed.
Lemma total_invalidate s : total b (ehem_auth_invalidate s).
Proof. unfold ehem_auth_invalidate. solve_total. Qed.
Lemma total_is_mobile : total b ehem_auth_is_mobile.
Proof. unfold ehem_auth_is_mobile. solve_total. Qed.
End Totals.

#[export] Hint Resolve keeps_auth_now keeps_get_auth keeps_upd_auth_some
  keeps_ensure_auth keeps_cache_put keeps_cache_seed keeps_invalidate
  keeps_is_mobile : keeps.
#[export] Hint Resolve total_auth_now total_get_auth total_upd_auth_some
  total_ensure_auth total_cache_put total_cache_seed total_invalidate
  total_is_mobile : total.
