(* ===== verification/Notify.v ===== *)
(** * The notification-broker client

    [src/proto_notify.c]: the cloud legs of pairing and push confirmation.
    Every exchange is unauthenticated, always TLS-verified, and drives the
    transport directly, because a 202 is an answer ("still pending") and not
    an error. *)

From S2P Require Import Prelude Base64 Json World Logic Context Ejwt Proto.

Open Scope hem_scope.

Definition EHEM_DEFAULT_NOTIFY_URL : string := "https://api.encedo.com/notify".

Record ehem_notify_register_info := { nri_rid : string; nri_link : string }.
Record ehem_notify_pairing_reply := {
  npr_pending : bool; npr_pid : option string; npr_reply : option string
}.
Record ehem_notify_event_result := {
  ner_pending : bool; ner_denied : bool; ner_authreply : option string
}.

Section Notify.
Context {P : Platform}.

Definition out_of_memory {A} : M A :=
  ehem_ctx_fail EHEM_ERR_NOMEM 0 None "out of memory".

(** An owned copy or NOMEM. *)
Definition dup_or_fail (s : string) : M string :=
  let* d := dup_str s in
  match d with Some d => ret d | None => out_of_memory end.

(** [calloc] of a result struct. *)
Definition calloc_or_fail : M unit :=
  let* ok := malloc in if ok then ret tt else out_of_memory.

(** A body built by [string_body], or NOMEM. *)
Definition body_or_fail (l : list (string * string)) : M string :=
  let* b := string_body l in
  match b with Some b => ret b | None => out_of_memory end.

Definition notify_req_str (root : json) (what key : string) : M string :=
  match ehem_json_get_string (Some root) key with
  | None =>
      ehem_ctx_fail EHEM_ERR_PROTOCOL 200 None
        (what +:+ ": broker response missing '" +:+ key +:+ "'")
  | Some s => dup_or_fail s
  end.

(** The HTTP status (2xx only) and the body, which a 202 may lack. *)
Definition notify_send (method : ehem_http_method) (notify_url : option string)
    (subpath : string) (json_body : option string) : M (Z * option string) :=
  let* t := ehem_ctx_transport in
  match t with
  | None => ehem_ctx_fail EHEM_ERR_ARG 0 None "no transport configured"
  | Some _ =>
      let base := default EHEM_DEFAULT_NOTIFY_URL notify_url in
      if is_empty base then
        ehem_ctx_fail EHEM_ERR_ARG 0 None "notify: empty broker URL"
      else
        let* url := alloc (base +:+ subpath) in
        match url with
        | None => out_of_memory
        | Some url =>
            let* c := get_ctx in
            let req := {| req_method := method; req_path := url;
                          req_headers := request_headers json_body None;
                          req_body := json_body;
                          req_connect_timeout_ms := connect_timeout_ms (cfg c);
                          req_total_timeout_ms := total_timeout_ms (cfg c);
                          req_tls_override := EHEM_TLS_REQ_VERIFY;
                          req_fresh_connection := false |} in
            let* (rc, resp) := ehem_transport_send t req in
            if negb (ok_rc rc) then
              let* detail := ehem_transport_last_detail t in
              ehem_ctx_fail rc 0 None (url +:+ ": " +:+ detail)
            else if (resp_status resp <? 200) || (300 <=? resp_status resp) then
              ehem_ctx_fail (ehem_proto_map_http_status (resp_status resp))
                (resp_status resp) (c_str <$> resp_body resp)
                (url +:+ ": HTTP " +:+ dec (resp_status resp))
            else ret (resp_status resp, c_str <$> resp_body resp)
        end
  end.

(** [body != NULL ? parse : NULL], then the object check. *)
Definition parse_object (body : option string) : option json :=
  root ← (b ← body; ehem_json_parse b);
  if ehem_json_is_object (Some root) then Some root else None.

Definition notify_send_json (method : ehem_http_method) (notify_url : option string)
    (subpath : string) (json_body : option string) : M json :=
  let* (status, body) := notify_send method notify_url subpath json_body in
  match body with
  | None =>
      ehem_ctx_fail EHEM_ERR_PROTOCOL status None
        (subpath +:+ ": empty broker response body")
  | Some _ =>
      match parse_object body with
      | Some root => ret root
      | None =>
          ehem_ctx_fail EHEM_ERR_PROTOCOL status body
            (subpath +:+ ": broker response is not a JSON object")
      end
  end.

(** [*epk_out]; [None] is an output argument that was NULL. *)
Definition ehem_notify_session (notify_url eid_b64 : option string) (out : bool)
  : M string :=
  if negb out then throw EHEM_ERR_ARG
  else
    ehem_ctx_clear_error ;;;
    let* body :=
      match eid_b64 with
      | Some eid => let* b := body_or_fail [("eid", eid)] in ret (Some b)
      | None => ret None
      end in
    let* root := notify_send_json
      (match body with Some _ => EHEM_HTTP_POST | None => EHEM_HTTP_GET end)
      notify_url "/session" body in
    notify_req_str root "notify/session" "epk".

Definition ehem_notify_register_init (notify_url epk_b64 eid_b64 request_jwt : option string)
    (out : bool) : M ehem_notify_register_info :=
  match epk_b64, eid_b64, request_jwt, out with
  | Some epk, Some eid, Some request, true =>
      ehem_ctx_clear_error ;;;
      let* body := body_or_fail [("epk", epk); ("eid", eid); ("request", request)] in
      let* root := notify_send_json EHEM_HTTP_POST notify_url "/register/init" (Some body) in
      calloc_or_fail ;;;
      let* rid := notify_req_str root "notify/register/init" "rid" in
      let* link := notify_req_str root "notify/register/init" "link" in
      ret {| nri_rid := rid; nri_link := link |}
  | _, _, _, _ => throw EHEM_ERR_ARG
  end.

(** [snprintf(subpath, 160, prefix "%s", id)] with its overflow check. *)
Definition subpath_of (prefix id what : string) : M string :=
  let s := prefix +:+ id in
  if 160 <=? strlen s then ehem_ctx_fail EHEM_ERR_ARG 0 None what else ret s.

Definition ehem_notify_register_check (notify_url rid : option string) (out : bool)
  : M ehem_notify_pairing_reply :=
  match rid, out with
  | Some rid, true =>
      ehem_ctx_clear_error ;;;
      let* subpath := subpath_of "/register/check/" rid
        "notify/register/check: rid too long" in
      let* (status, body) := notify_send EHEM_HTTP_GET notify_url subpath None in
      calloc_or_fail ;;;
      if status =? 202 then
        ret {| npr_pending := true; npr_pid := None; npr_reply := None |}
      else
        match parse_object body with
        | None =>
            ehem_ctx_fail EHEM_ERR_PROTOCOL status body
              "notify/register/check: broker response is not a JSON object"
        | Some root =>
            let* pid := notify_req_str root "notify/register/check" "pid" in
            let* reply := notify_req_str root "notify/register/check" "reply" in
            ret {| npr_pending := false; npr_pid := Some pid; npr_reply := Some reply |}
        end
  | _, _ => throw EHEM_ERR_ARG
  end.

Definition ehem_notify_register_finalise
    (notify_url rid kid_hex code_b64 : option string) : M unit :=
  match rid, kid_hex, code_b64 with
  | Some rid, Some kid, Some code =>
      ehem_ctx_clear_error ;;;
      let* subpath := subpath_of "/register/finalise/" rid
        "notify/register/finalise: rid too long" in
      let* body := body_or_fail [("kid", kid); ("code", code)] in
      notify_send EHEM_HTTP_POST notify_url subpath (Some body) ;;;
      ret tt
  | _, _, _ => throw EHEM_ERR_ARG
  end.

Definition ehem_notify_event_new (notify_url authreq_jwt epk_b64 : option string)
    (out : bool) : M string :=
  match authreq_jwt, epk_b64, out with
  | Some authreq, Some epk, true =>
      ehem_ctx_clear_error ;;;
      let* body := body_or_fail [("authreq", authreq); ("epk", epk)] in
      let* root := notify_send_json EHEM_HTTP_POST notify_url "/event/new" (Some body) in
      notify_req_str root "notify/event/new" "eventid"
  | _, _, _ => throw EHEM_ERR_ARG
  end.

Definition ehem_notify_event_check (notify_url eventid : option string) (out : bool)
  : M ehem_notify_event_result :=
  match eventid, out with
  | Some eventid, true =>
      ehem_ctx_clear_error ;;;
      let* subpath := subpath_of "/event/check/" eventid
        "notify/event/check: eventid too long" in
      let* (status, body) := notify_send EHEM_HTTP_GET notify_url subpath None in
      calloc_or_fail ;;;
      if status =? 202 then
        ret {| ner_pending := true; ner_denied := false; ner_authreply := None |}
      else
        match parse_object body with
        | None =>
            ehem_ctx_fail EHEM_ERR_PROTOCOL status body
              "notify/event/check: broker response is not a JSON object"
        | Some root =>
            if ehem_json_has (Some root) "deny" then
              ret {| ner_pending := false; ner_denied := true; ner_authreply := None |}
            else
              match ehem_json_get_string (Some root) "authreply" with
              | None =>
                  ehem_ctx_fail EHEM_ERR_PROTOCOL status body
                    "notify/event/check: 200 with neither 'authreply' nor 'deny' - unknown broker shape"
              | Some s =>
                  let* s := dup_or_fail s in
                  ret {| ner_pending := false; ner_denied := false;
                         ner_authreply := Some s |}
              end
        end
  | _, _ => throw EHEM_ERR_ARG
  end.

(** The QR payload: no context, so no last-error detail. *)
Definition ehem_ext_qr_payload (link request_jwt user email hostname : option string)
    (out : bool) : M string :=
  match link, request_jwt, out with
  | Some link, Some request, true =>
      let* digest := ask (fun n => p_sha256 n (bytes_of_string request)) in
      let* digest := check_rc digest in
      match ehem_b64_std_encode (Some digest) (Z.of_nat EHEM_SHA256_SIZE) false 48 with
      | None => throw EHEM_ERR_PROTOCOL
      | Some hash_b64 =>
          let* printed := string_body
            [("link", link); ("hash", hash_b64); ("user", default "" user);
             ("email", default "" email); ("hostname", default "" hostname)] in
          match printed with
          | None => throw EHEM_ERR_NOMEM
          | Some printed =>
              let* copy := dup_str printed in
              match copy with
              | Some copy => ret copy
              | None => throw EHEM_ERR_NOMEM
              end
          end
      end
  | _, _, _ => throw EHEM_ERR_ARG
  end.
End Notify.

(** ** Frames *)

Section Frames.
Context {P : Platform} (R : relation world) (A : relation (option ehem_auth))
        `{!FrameRel R A}.

Lemma keeps_oom {B} : keeps R (out_of_memory (A:=B)).
Proof. unfold out_of_memory. solve_keeps. Qed.
#[local] Hint Resolve keeps_oom : keeps.
Lemma keeps_dup_or_fail s : keeps R (dup_or_fail s).
Proof. unfold dup_or_fail. solve_keeps. Qed.
Lemma keeps_calloc_or_fail : keeps R calloc_or_fail.
Proof. unfold calloc_or_fail. solve_keeps. Qed.
Lemma keeps_body_or_fail l : keeps R (body_or_fail l).
Proof. unfold body_or_fail. solve_keeps. Qed.
#[local] Hint Resolve keeps_dup_or_fail keeps_calloc_or_fail keeps_body_or_fail : keeps.
Lemma keeps_notify_req_str r w k : keeps R (notify_req_str r w k).
Proof. unfold notify_req_str. solve_keeps. Qed.
Lemma keeps_notify_send m u s b : keeps R (notify_send m u s b).
Proof.
  unfold notify_send.
  pose proof (fun p => posture_send m p b None) as Hp.
  pose proof ok_args_cloud. solve_keeps.
Qed.
#[local] Hint Resolve keeps_notify_req_str keeps_notify_send : keeps.
Lemma keeps_notify_send_json m u s b : keeps R (notify_send_json m u s b).
Proof. unfold notify_send_json. solve_keeps. Qed.
Lemma keeps_subpath_of p i w : keeps R (subpath_of p i w).
Proof. unfold subpath_of. solve_keeps. Qed.
#[local] Hint Resolve keeps_notify_send_json keeps_subpath_of : keeps.
Lemma keeps_notify_session u e out : keeps R (ehem_notify_session u e out).
Proof. unfold ehem_notify_session. solve_keeps. Qed.
Lemma keeps_register_init u e i r out : keeps R (ehem_notify_register_init u e i r out).
Proof. unfold ehem_notify_register_init. solve_keeps. Qed.
Lemma keeps_register_check u r out : keeps R (ehem_notify_register_check u r out).
Proof. unfold ehem_notify_register_check. solve_keeps. Qed.
Lemma keeps_register_finalise u r k c : keeps R (ehem_notify_register_finalise u r k c).
Proof. unfold ehem_notify_register_finalise. solve_keeps. Qed.
Lemma keeps_event_new u a e out : keeps R (ehem_notify_event_new u a e out).
Proof. unfold ehem_notify_event_new. solve_keeps. Qed.
Lemma keeps_event_check u e out : keeps R (ehem_notify_event_check u e out).
Proof. unfold ehem_notify_event_check. solve_keeps. Qed.
Lemma keeps_qr_payload l r u e h out : keeps R (ehem_ext_qr_payload l r u e h out).
Proof. unfold ehem_ext_qr_payload. solve_keeps. Qed.
End Frames.

Section Totals.
Context {P : Platform} (b : bool).

Lemma total_oom {B} : total b (out_of_memory (A:=B)).
Proof. unfold out_of_memory. solve_total. Qed.
#[local] Hint Resolve total_oom : total.
Lemma total_dup_or_fail s : total b (dup_or_fail s).
Proof. unfold dup_or_fail. solve_total. Qed.
Lemma total_calloc_or_fail : total b calloc_or_fail.
Proof. unfold calloc_or_fail. solve_total. Qed.
Lemma total_body_or_fail l : total b (body_or_fail l).
Proof. unfold body_or_fail. solve_total. Qed.
#[local] Hint Resolve total_dup_or_fail total_calloc_or_fail total_body_or_fail : total.
Lemma total_notify_req_str r w k : total b (notify_req_str r w k).
Proof. unfold notify_req_str. solve_total. Qed.
Lemma total_notify_send m u s body : total b (notify_send m u s body).
Proof. unfold notify_send. solve_total. Qed.
#[local] Hint Resolve total_notify_req_str total_notify_send : total.
Lemma total_notify_send_json m u s body : total b (notify_send_json m u s body).
Proof. unfold notify_send_json. solve_total. Qed.
Lemma total_subpath_of p i w : total b (subpath_of p i w).
Proof. unfold subpath_of. solve_total. Qed.
#[local] Hint Resolve total_notify_send_json total_subpath_of : total.
Lemma total_notify_session u e out : total b (ehem_notify_session u e out).
Proof. unfold ehem_notify_session. solve_total. Qed.
Lemma total_register_init u e i r out : total b (ehem_notify_register_init u e i r out).
Proof. unfold ehem_notify_register_init. solve_total. Qed.
Lemma total_register_check u r out : total b (ehem_notify_register_check u r out).
Proof. unfold ehem_notify_register_check. solve_total. Qed.
Lemma total_register_finalise u r k c : total b (ehem_notify_register_finalise u r k c).
Proof. unfold ehem_notify_register_finalise. solve_total. Qed.
Lemma total_event_new u a e out : total b (ehem_notify_event_new u a e out).
Proof. unfold ehem_notify_event_new. solve_total. Qed.
Lemma total_event_check u e out : total b (ehem_notify_event_check u e out).
Proof. unfold ehem_notify_event_check. solve_total. Qed.
End Totals.

#[export] Hint Resolve keeps_oom keeps_dup_or_fail keeps_calloc_or_fail
  keeps_body_or_fail keeps_notify_session keeps_register_init keeps_register_check
  keeps_register_finalise keeps_event_new keeps_event_check keeps_qr_payload : keeps.
#[export] Hint Resolve total_oom total_dup_or_fail total_calloc_or_fail
  total_body_or_fail total_notify_session total_register_init total_register_check
  total_register_finalise total_event_new total_event_check : total.
