(* ===== verification/Ext.v ===== *)
(** * ExtAuth: pairing, the external login pair and the confirm engine

    [src/proto_ext.c], written against the request path ([Request]): the
    pairing trio, request/token with their clock recovery, and the
    push-confirm engine that composes them with the broker client. *)

From S2P Require Import Prelude Base64 Json World Logic Context Ejwt Proto Checkin.
From S2P Require Import AuthState Notify.

Open Scope hem_scope.

Definition EXT_PAIR_SCOPE : string := "auth:ext:pair".
Definition CONFIRM_POLL_INTERVAL_MS : Z := 5000.
Definition EXT_BROKER_IAT_FUTURE_SKEW : Z := 2.
Definition EXT_BROKER_IAT_PAST_SKEW : Z := 15.

Record ehem_ext_init_info := { xi_request : string; xi_eid : string }.
Record ehem_ext_validate_info := { xv_kid : string; xv_code : string }.
Record ehem_ext_mac_info := { xm_nonce : string; xm_mac : string; xm_eid : string }.
Record ehem_ext_request_info := { xr_authreq : string; xr_epk : string }.

Inductive ehem_confirm_status := EHEM_CONFIRM_PENDING | EHEM_CONFIRM_APPROVED.

Record ehem_ext_confirm := {
  xc_notify_url : option string;
  xc_scope : string;
  xc_eventid : option string;
  xc_terminal : bool
}.

Definition confirm_finish (c : ehem_ext_confirm) : ehem_ext_confirm :=
  {| xc_notify_url := xc_notify_url c; xc_scope := xc_scope c;
     xc_eventid := xc_eventid c; xc_terminal := true |}.

(** Standard base64 of exactly 32 bytes. *)
Definition is_b64_of_32 (s : string) : bool :=
  let n := strlen s in
  if (n <? 43) || (46 <? n) then false
  else match ehem_b64_std_decode (Some s) n false 48 with
       | Some b => (length b =? 32)%nat
       | None => false
       end.

Section Ext.
Context {P : Platform} `{Q : !Request}.

Definition ext_req_str (root : json) (what key : string) : M string :=
  match ehem_json_get_string (Some root) key with
  | None =>
      ehem_ctx_fail EHEM_ERR_PROTOCOL 200 None
        (what +:+ ": response missing '" +:+ key +:+ "'")
  | Some s => dup_or_fail s
  end.

Definition epk_body (epk_b64 : string) : M string := body_or_fail [("epk", epk_b64)].

Definition pairing_needs_passphrase {A} (what : string) : M A :=
  ehem_ctx_fail EHEM_ERR_SCOPE_DENIED 0 None
    (what +:+ quoted ": pairing requires a passphrase session - the device demands sub=#U# and mobile bearers carry the authenticator kid; call ehem_login() (no push was sent)").

Definition ehem_ext_init (epk_b64 : option string) (out : bool) : M ehem_ext_init_info :=
  match epk_b64, out with
  | Some epk, true =>
      ehem_ctx_clear_error ;;;
      let* mob := ehem_auth_is_mobile in
      if mob then pairing_needs_passphrase "ext/init"
      else if negb (is_b64_of_32 epk) then
        ehem_ctx_fail EHEM_ERR_ARG 0 None
          "ext/init: epk must be standard base64 of exactly 32 bytes"
      else
        let* body := epk_body epk in
        let* root := ehem_proto_request_json EHEM_HTTP_POST "/api/auth/ext/init"
                       (Some body) (Some EXT_PAIR_SCOPE) EHEM_TLS_REQ_DEFAULT in
        calloc_or_fail ;;;
        let* request := ext_req_str root "auth/ext/init" "request" in
        let* eid := ext_req_str root "auth/ext/init" "eid" in
        ret {| xi_request := request; xi_eid := eid |}
  | _, _ => throw EHEM_ERR_ARG
  end.

Definition ehem_ext_validate (pid_b64 reply_jwt : option string) (out : bool)
  : M ehem_ext_validate_info :=
  match pid_b64, reply_jwt, out with
  | Some pid, Some reply, true =>
      ehem_ctx_clear_error ;;;
      let* mob := ehem_auth_is_mobile in
      if mob then pairing_needs_passphrase "ext/validate"
      else if negb (is_b64_of_32 pid) then
        ehem_ctx_fail EHEM_ERR_ARG 0 None
          "ext/validate: pid must be standard base64 of exactly 32 bytes (the device stores the decoded pid as a fixed 32-byte descriptor suffix)"
      else if is_empty reply then
        ehem_ctx_fail EHEM_ERR_ARG 0 None "ext/validate: reply JWT is empty"
      else
        let* body := body_or_fail [("pid", pid); ("reply", reply)] in
        let* r := attempt
          (ehem_proto_request_json EHEM_HTTP_POST "/api/auth/ext/validate"
             (Some body) (Some EXT_PAIR_SCOPE) EHEM_TLS_REQ_DEFAULT) in
        match r with
        | inr rc =>
            let* e := ehem_last_error in
            if http_status e =? 406 then
              ehem_ctx_fail EHEM_ERR_DEVICE 406 None
                "auth/ext/validate: import refused (406) - ExtAuth slots full (max 8) or this authenticator key is already paired"
            else throw rc
        | inl root =>
            calloc_or_fail ;;;
            let* kid := ext_req_str root "auth/ext/validate" "kid" in
            let* code := ext_req_str root "auth/ext/validate" "code" in
            ret {| xv_kid := kid; xv_code := code |}
        end
  | _, _, _ => throw EHEM_ERR_ARG
  end.

Definition ehem_ext_mac (epk_b64 : option string) (out : bool) : M ehem_ext_mac_info :=
  match epk_b64, out with
  | Some epk, true =>
      ehem_ctx_clear_error ;;;
      let* mob := ehem_auth_is_mobile in
      if mob then pairing_needs_passphrase "ext/mac"
      else if negb (is_b64_of_32 epk) then
        ehem_ctx_fail EHEM_ERR_ARG 0 None
          "ext/mac: epk must be standard base64 of exactly 32 bytes"
      else
        let* body := epk_body epk in
        let* root := ehem_proto_request_json EHEM_HTTP_POST "/api/auth/ext/mac"
                       (Some body) (Some EXT_PAIR_SCOPE) EHEM_TLS_REQ_DEFAULT in
        calloc_or_fail ;;;
        let* nonce := ext_req_str root "auth/ext/mac" "nonce" in
        let* mac := ext_req_str root "auth/ext/mac" "mac" in
        let* eid := ext_req_str root "auth/ext/mac" "eid" in
        ret {| xm_nonce := nonce; xm_mac := mac; xm_eid := eid |}
  | _, _ => throw EHEM_ERR_ARG
  end.

(** *** The login pair *)

(** POST, with at most one recovery check-in and one retry on a 403. *)
Definition ext_login_post (path body : string) : M json :=
  let post := ehem_proto_request_json EHEM_HTTP_POST path (Some body) None
                EHEM_TLS_REQ_DEFAULT in
  let* r := attempt post in
  match r with
  | inl root => ret root
  | inr rc =>
      let* e := ehem_last_error in
      let* c := get_ctx in
      if (http_status e =? 403) && negb (no_auto_checkin (cfg c)) && negb (in_checkin c)
      then
        let* crc := attempt (checkin_quietly true) in
        match crc with
        | inr _ =>
            let* e := ehem_last_error in
            ehem_ctx_fail rc 403 None
              (path +:+ ": HTTP 403 (device RTC not set; automatic check-in failed: "
               +:+ snprintf_trunc EHEM_ERR_MSG_MAX (message e) +:+ ")")
        | inl _ => post
        end
      else throw rc
  end.

(** 1..[hi] characters, or absent. *)
Definition opt_len_ok (s : option string) (hi : Z) : bool :=
  match s with
  | None => true
  | Some s => (1 <=? strlen s) && (strlen s <=? hi)
  end.

Definition opt_member (key : string) (v : option string) : list (string * string) :=
  match v with Some v => [(key, v)] | None => [] end.

Definition ehem_ext_request (epk_b64 scope ctx_str note : option string) (out : bool)
  : M ehem_ext_request_info :=
  match epk_b64, scope, out with
  | Some epk, Some scope, true =>
      ehem_ctx_clear_error ;;;
      if negb (is_b64_of_32 epk) then
        ehem_ctx_fail EHEM_ERR_ARG 0 None
          "ext/request: epk must be standard base64 of exactly 32 bytes"
      else if 1023 <? strlen scope then
        ehem_ctx_fail EHEM_ERR_ARG 0 None "ext/request: scope exceeds 1023 bytes"
      else if negb (opt_len_ok ctx_str 64) then
        ehem_ctx_fail EHEM_ERR_ARG 0 None
          "ext/request: ctx must be 1..64 chars (the firmware silently drops out-of-range values)"
      else if negb (opt_len_ok note 128) then
        ehem_ctx_fail EHEM_ERR_ARG 0 None
          "ext/request: note must be 1..128 chars (the firmware silently drops out-of-range values)"
      else
        let* body := body_or_fail ([("epk", epk); ("scope", scope)] ++
                                   opt_member "ctx" ctx_str ++ opt_member "note" note) in
        let* root := ext_login_post "/api/auth/ext/request" body in
        calloc_or_fail ;;;
        let* authreq := ext_req_str root "auth/ext/request" "authreq" in
        let* epk := ext_req_str root "auth/ext/request" "epk" in
        ret {| xr_authreq := authreq; xr_epk := epk |}
  | _, _, _ => throw EHEM_ERR_ARG
  end.

Definition ehem_ext_token (authreply_jwt : option string) (out : bool) : M string :=
  match authreply_jwt, out with
  | Some reply, true =>
      ehem_ctx_clear_error ;;;
      if is_empty reply then
        ehem_ctx_fail EHEM_ERR_ARG 0 None "ext/token: authreply JWT is empty"
      else
        let* body := body_or_fail [("authreply", reply)] in
        let* r := attempt (ext_login_post "/api/auth/ext/token" body) in
        match r with
        | inr rc =>
            let* e := ehem_last_error in
            if http_status e =? 401 then
              ehem_ctx_fail EHEM_ERR_AUTH_FAILED 401 None
                "auth/ext/token: reply JWT rejected (401 - bad signature, expired, or replayed nonce)"
            else if http_status e =? 406 then
              ehem_ctx_fail EHEM_ERR_AUTH_FAILED 406 None
                "auth/ext/token: reply not acceptable (406 - unknown authenticator, unsupported scheme, or scope ciphertext failed to authenticate)"
            else throw rc
        | inl root =>
            match ehem_json_get_string (Some root) "token" with
            | None =>
                ehem_ctx_fail EHEM_ERR_PROTOCOL 200 None
                  "auth/ext/token: response missing 'token'"
            | Some s => dup_or_fail s
            end
        end
  | _, _ => throw EHEM_ERR_ARG
  end.

(** *** The confirm engine *)

Definition peek_jwt_iat (jwt : string) : option Z :=
  seg ← jwt_payload_segment jwt;
  if is_empty seg || (1024 <? strlen seg) then None
  else
    raw ← ehem_b64url_decode (Some seg) (strlen seg) false 1024;
    ehem_json_get_int64 (ehem_json_parse (string_of_bytes raw)) "iat".

(** The request info (set once the device answered) and the event id or the
    code of the leg that failed. *)
Definition confirm_fire_push (notify_url : option string) (scope : string)
    (ctx_str note : option string)
  : M (option ehem_ext_request_info * (string + ehem_rc)) :=
  let* r := attempt
    (let* epk := ehem_notify_session notify_url None true in
     ehem_ext_request (Some epk) (Some scope) ctx_str note true) in
  match r with
  | inr rc => ret (None, inr rc)
  | inl reqi =>
      let* ev := attempt (ehem_notify_event_new notify_url (Some (xr_authreq reqi))
                            (Some (xr_epk reqi)) true) in
      ret (Some reqi, ev)
  end.

(** Clock-drift evidence in the authreq. *)
Definition push_drift (reqi : ehem_ext_request_info) : M Z :=
  match peek_jwt_iat (xr_authreq reqi) with
  | Some iat => let* now := ask p_time in ret (iat - now)
  | None => ret 0
  end.

Definition drift_out_of_gate (drift : Z) : bool :=
  (EXT_BROKER_IAT_FUTURE_SKEW <? drift) || (drift <? - EXT_BROKER_IAT_PAST_SKEW).

(** One push, with one drift-recovery check-in and one re-fire. *)
Definition push_with_recovery (notify_url : option string) (scope : string)
    (ctx_str note : option string) : M (string + ehem_rc) :=
  let fire := confirm_fire_push notify_url scope ctx_str note in
  let* (reqi, ev) := fire in
  match ev, reqi with
  | inr rc, Some reqi =>
      let* e := ehem_last_error in
      let* c := get_ctx in
      if (http_status e =? 401) && negb (no_auto_checkin (cfg c)) && negb (in_checkin c)
      then
        let* drift := push_drift reqi in
        if drift_out_of_gate drift then
          let* crc := attempt (checkin_quietly true) in
          match crc with
          | inl _ => let* (_, ev) := fire in ret ev
          | inr _ => ret (inr rc)
          end
        else ret (inr rc)
      else ret (inr rc)
  | _, _ => ret ev
  end.

Definition ehem_ext_confirm_begin (notify_url scope ctx_str note : option string)
    (out : bool) : M ehem_ext_confirm :=
  match scope, out with
  | Some scope, true =>
      calloc_or_fail ;;;
      let* scope' := dup_or_fail scope in
      let* url' := match notify_url with
                   | Some u => let* u := dup_or_fail u in ret (Some u)
                   | None => ret None
                   end in
      let* ev := push_with_recovery url' scope ctx_str note in
      match ev with
      | inr rc => throw rc
      | inl eventid =>
          let* c := get_ctx in
          (if confirm_notice (cfg c)
           then emit (EvNotice scope' (confirm_timeout_ms (cfg c))
                       (confirm_notice_arg (cfg c))) else ret tt) ;;;
          ret {| xc_notify_url := url'; xc_scope := scope';
                 xc_eventid := Some eventid; xc_terminal := false |}
      end
  | _, _ => throw EHEM_ERR_ARG
  end.

(** The handle after the poll, and its status or error. *)
Definition ehem_ext_confirm_poll (c : ehem_ext_confirm)
  : M (ehem_ext_confirm * (ehem_confirm_status + ehem_rc)) :=
  if xc_terminal c then
    let* r := attempt (ehem_ctx_fail EHEM_ERR_ARG 0 None
                         "confirm: handle already finished (single-use)") in
    ret (c, r)
  else
    let* r := attempt (ehem_notify_event_check (xc_notify_url c) (xc_eventid c) true) in
    match r with
    | inr rc => ret (c, inr rc)
    | inl r =>
        if ner_pending r then ret (c, inl EHEM_CONFIRM_PENDING)
        else if ner_denied r then
          let* f := attempt (ehem_ctx_fail EHEM_ERR_USER_REJECTED 0 None
                               "confirm: rejected on the authenticator") in
          ret (confirm_finish c, f)
        else
          let* s := attempt
            (let* token := ehem_ext_token (ner_authreply r) true in
             ehem_auth_cache_seed (xc_scope c) token) in
          ret (confirm_finish c,
               match s with
               | inl _ => inl EHEM_CONFIRM_APPROVED
               | inr rc => inr rc
               end)
    end.

(** [for (;;)] of the wait, one unit of fuel per poll. *)
Fixpoint confirm_wait_loop (fuel : nat) (c : ehem_ext_confirm) (elapsed timeout_ms : Z)
  : M (ehem_ext_confirm * (unit + ehem_rc)) :=
  match fuel with
  | O => diverge
  | S fuel =>
      let* (c, r) := ehem_ext_confirm_poll c in
      match r with
      | inr rc => ret (c, inr rc)
      | inl EHEM_CONFIRM_APPROVED => ret (c, inl tt)
      | inl EHEM_CONFIRM_PENDING =>
          if timeout_ms <=? elapsed then
            let* f := attempt (ehem_ctx_fail EHEM_ERR_CONFIRM_TIMEOUT 0 None
              ("confirm: not answered within " +:+ dec timeout_ms +:+ " ms")) in
            ret (c, f)
          else
            let step := if timeout_ms - elapsed <? CONFIRM_POLL_INTERVAL_MS
                        then timeout_ms - elapsed else CONFIRM_POLL_INTERVAL_MS in
            ehem_proto_sleep_ms step ;;;
            confirm_wait_loop fuel c (elapsed + step) timeout_ms
      end
  end.

(** One poll per interval, one for the rest, one at the deadline. *)
Definition wait_fuel (timeout_ms : Z) : nat :=
  S (S (Z.to_nat (timeout_ms / CONFIRM_POLL_INTERVAL_MS))).

Definition ehem_ext_confirm_wait (c : ehem_ext_confirm) (timeout_ms : Z)
  : M (ehem_ext_confirm * (unit + ehem_rc)) :=
  if timeout_ms <=? 0 then ret (c, inr EHEM_ERR_ARG)
  else confirm_wait_loop (wait_fuel timeout_ms) c 0 timeout_ms.
End Ext.

(** ** Frames *)

Section Frames.
Context {P : Platform} (R : relation world) (A : relation (option ehem_auth))
        `{!SessionRel R A, !AuthRel A} `{Q : !Request, !RequestFrame R Q}.

Lemma keeps_ext_req_str r w k : keeps R (ext_req_str r w k).
Proof. unfold ext_req_str. solve_keeps. Qed.
Lemma keeps_pairing {B} w : keeps R (pairing_needs_passphrase (A:=B) w).
Proof. unfold pairing_needs_passphrase. solve_keeps. Qed.
Lemma keeps_json_device m p b s :
  device_path p = true -> keeps R (ehem_proto_request_json m p b s EHEM_TLS_REQ_DEFAULT).
Proof. intros. by apply (keeps_request_json R A), ok_args_device. Qed.
#[local] Hint Resolve keeps_ext_req_str keeps_pairing keeps_json_device : keeps.

Lemma keeps_ext_init e out : keeps R (ehem_ext_init e out).
Proof. unfold ehem_ext_init, epk_body. solve_keeps. Qed.
Lemma keeps_ext_validate p r out : keeps R (ehem_ext_validate p r out).
Proof. unfold ehem_ext_validate. solve_keeps. Qed.
Lemma keeps_ext_mac e out : keeps R (ehem_ext_mac e out).
Proof. unfold ehem_ext_mac, epk_body. solve_keeps. Qed.
Lemma keeps_ext_login_post p b : device_path p = true -> keeps R (ext_login_post p b).
Proof. intros. unfold ext_login_post. solve_keeps. Qed.
#[local] Hint Resolve keeps_ext_login_post : keeps.
Lemma keeps_ext_request e s c n out : keeps R (ehem_ext_request e s c n out).
Proof. unfold ehem_ext_request. solve_keeps. Qed.
Lemma keeps_ext_token r out : keeps R (ehem_ext_token r out).
Proof. unfold ehem_ext_token. solve_keeps. Qed.
#[local] Hint Resolve keeps_ext_request keeps_ext_token : keeps.
Lemma keeps_fire_push u s c n : keeps R (confirm_fire_push u s c n).
Proof. unfold confirm_fire_push. solve_keeps. Qed.
Lemma keeps_push_drift r : keeps R (push_drift r).
Proof. unfold push_drift. solve_keeps. Qed.
#[local] Hint Resolve keeps_fire_push keeps_push_drift : keeps.
Lemma keeps_push u s c n : keeps R (push_with_recovery u s c n).
Proof. unfold push_with_recovery. solve_keeps. Qed.
#[local] Hint Resolve keeps_push : keeps.
Lemma keeps_confirm_begin u s c n out : keeps R (ehem_ext_confirm_begin u s c n out).
Proof. unfold ehem_ext_confirm_begin. solve_keeps. Qed.
Lemma keeps_confirm_poll c : keeps R (ehem_ext_confirm_poll c).
Proof. unfold ehem_ext_confirm_poll. solve_keeps. Qed.
#[local] Hint Resolve keeps_confirm_poll : keeps.
Lemma keeps_wait_loop fuel c e t : keeps R (confirm_wait_loop fuel c e t).
Proof.
  revert c e; induction fuel as [|fuel IH]; intros c e; cbn [confirm_wait_loop];
    solve_keeps.
Qed.
#[local] Hint Resolve keeps_wait_loop : keeps.
Lemma keeps_confirm_wait c t : keeps R (ehem_ext_confirm_wait c t).
Proof. unfold ehem_ext_confirm_wait. solve_keeps. Qed.
End Frames.

Section Totals.
Context {P : Platform} `{Q : !Request}.
Context `{!RequestTotal true (eq None) Q, !RequestTotal false (eq None) Q}.

Lemma total_json_open m p body o :
  total false (ehem_proto_request_json m p body None o).
Proof. by apply (total_request_json false (eq None)). Qed.
Lemma total_ext_req_str b r w k : total b (ext_req_str r w k).
Proof. unfold ext_req_str. solve_total. Qed.
#[local] Hint Resolve total_json_open total_ext_req_str : total.
Lemma total_ext_login_post p body : total false (ext_login_post p body).
Proof. unfold ext_login_post. solve_total. Qed.
#[local] Hint Resolve total_ext_login_post : total.
Lemma total_ext_request e s c n out : total false (ehem_ext_request e s c n out).
Proof. unfold ehem_ext_request. solve_total. Qed.
Lemma total_ext_token r out : total false (ehem_ext_token r out).
Proof. unfold ehem_ext_token. solve_total. Qed.
#[local] Hint Resolve total_ext_request total_ext_token : total.
Lemma total_fire_push u s c n : total false (confirm_fire_push u s c n).
Proof. unfold confirm_fire_push. solve_total. Qed.
Lemma total_push_drift b r : total b (push_drift r).
Proof. unfold push_drift. solve_total. Qed.
#[local] Hint Resolve total_fire_push total_push_drift : total.
Lemma total_push u s c n : total false (push_with_recovery u s c n).
Proof. unfold push_with_recovery. solve_total. Qed.
#[local] Hint Resolve total_push : total.
Lemma total_confirm_begin u s c n out : total false (ehem_ext_confirm_begin u s c n out).
Proof. unfold ehem_ext_confirm_begin. solve_total. Qed.
Lemma total_confirm_poll c : total false (ehem_ext_confirm_poll c).
Proof. unfold ehem_ext_confirm_poll. solve_total. Qed.
#[local] Hint Resolve total_confirm_poll : total.

(** Fuel for the time that is left suffices. *)
Lemma total_wait_loop fuel c e t :
  0 <= e <= t -> (t - e) + CONFIRM_POLL_INTERVAL_MS <= Z.of_nat fuel * CONFIRM_POLL_INTERVAL_MS ->
  total false (confirm_wait_loop fuel c e t).
Proof.
  unfold CONFIRM_POLL_INTERVAL_MS.
  revert c e; induction fuel as [|fuel IH]; intros c e He Hf; [lia|].
  cbn [confirm_wait_loop]. apply total_bind; [by eauto with total|intros [c' r]].
  destruct r as [[]|rc]; [|solve [solve_total]..].
  destruct (t <=? e) eqn:Et; [solve_total|].
  apply total_bind; [by eauto with total|intros _].
  apply IH; unfold CONFIRM_POLL_INTERVAL_MS; destruct (t - e <? 5000) eqn:?; lia.
Qed.

Lemma total_confirm_wait c t : total false (ehem_ext_confirm_wait c t).
Proof.
  unfold ehem_ext_confirm_wait. destruct (t <=? 0) eqn:Et; [solve_total|].
  apply total_wait_loop; [lia|]. unfold wait_fuel, CONFIRM_POLL_INTERVAL_MS.
  rewrite !Nat2Z.inj_succ, Z2Nat.id by (apply Z.div_pos; lia). zlia.
Qed.
End Totals.

#[export] Hint Resolve keeps_json_device keeps_ext_init keeps_ext_validate keeps_ext_mac
  keeps_ext_request keeps_ext_token keeps_confirm_begin keeps_confirm_poll
  keeps_confirm_wait : keeps.
#[export] Hint Resolve total_json_open total_ext_request total_ext_token
  total_confirm_begin total_confirm_poll total_confirm_wait : total.
