(* ===== verification/Auth.v ===== *)
(** * The session engine

    The networked part of [src/proto_auth.c]: the login challenge with its
    clock recoveries, the derivation and token exchange, and the
    [ensure_token] chokepoint every authenticated request goes through. *)

From S2P Require Import Prelude Base64 Json World Logic Context Ejwt Proto Checkin.
From S2P Require Import AuthState Notify Ext.

Open Scope hem_scope.

Definition AUTH_CHALLENGE_DEADLINE : Z := 60.

(** The challenge shows the device's clock more than the skew away from ours. *)
Definition challenge_drift_evident `{CJson} (challenge : json) (now : Z) : bool :=
  match ehem_json_get_int64 (Some challenge) "exp" with
  | None => false
  | Some exp =>
      let drift := (exp - AUTH_CHALLENGE_DEADLINE) - now in
      (AUTH_TOKEN_SKEW <? drift) || (drift <? - AUTH_TOKEN_SKEW)
  end.

Section Auth.
Context {P : Platform} `{Q : !Request}.

Definition build_auth_body (ejwt : string) : M (option string) :=
  string_body [("auth", ejwt)].

(** The challenge or the failure, and whether the one recovery check-in of
    the surrounding [ensure_token] is spent now. *)
Definition fetch_challenge (recovery_spent : bool) : M (bool * (json + ehem_rc)) :=
  let get := ehem_proto_request_json EHEM_HTTP_GET AUTH_TOKEN_PATH None None
               EHEM_TLS_REQ_DEFAULT in
  let* r := attempt get in
  match r with
  | inl challenge => ret (recovery_spent, inl challenge)
  | inr rc =>
      let* e := ehem_last_error in
      let* c := get_ctx in
      if (http_status e =? 403) && negb recovery_spent &&
         negb (no_auto_checkin (cfg c)) && negb (in_checkin c)
      then
        let* crc := attempt (checkin_quietly true) in
        match crc with
        | inr _ =>
            let* e := ehem_last_error in
            let* f := attempt (ehem_ctx_fail rc 403 None
              (AUTH_TOKEN_PATH +:+
               ": HTTP 403 (device RTC not set; automatic check-in failed: " +:+
               snprintf_trunc EHEM_ERR_MSG_MAX (message e) +:+ ")")) in
            ret (true, f)
        | inl _ => let* r := attempt get in ret (true, r)
        end
      else ret (recovery_spent, inr rc)
  end.

(** PBKDF2, key pair, shared secret, signed eJWT: all failures alike. *)
Definition derive_ejwt (jti spk eid scope : string) (peer_pub : bytes) (now : Z) : M string :=
  let* a := get_auth in
  let pass := default "" (a ≫= passphrase) in
  let* seed := ask (fun n => p_kdf_pbkdf2_sha256 n (bytes_of_string pass)
                               (bytes_of_string eid) AUTH_PBKDF2_ITERS) in
  let* seed := check_rc seed in
  let* keys := ask (fun n => p_x25519_keypair_from_seed n seed) in
  let* (priv, user_pub) := check_rc keys in
  let* shared := ask (fun n => p_x25519_shared n priv peer_pub) in
  let* shared := check_rc shared in
  ehem_ejwt_build jti spk scope user_pub shared now (now + AUTH_TOKEN_LIFETIME).

(** After the challenge: the token, cached under [scope]. *)
Definition exchange_token (scope : string) (now : Z) (challenge : json) : M string :=
  match ehem_json_get_string (Some challenge) "eid",
        ehem_json_get_string (Some challenge) "spk",
        ehem_json_get_string (Some challenge) "jti" with
  | Some eid, Some spk, Some jti =>
      match ehem_json_get_string (Some challenge) "lbl" with
      | Some lbl =>
          let* u := dup_str lbl in
          match u with
          | Some u => upd_auth (auth_set_username (Some u))
          | None => ret tt
          end
      | None => ret tt
      end ;;;
      match ehem_b64_std_decode (Some spk) (strlen spk) false (Z.of_nat EHEM_X25519_KEYSIZE) with
      | Some peer_pub =>
          if negb (length peer_pub =? EHEM_X25519_KEYSIZE)%nat then
            ehem_ctx_fail EHEM_ERR_PROTOCOL 0 None
              (AUTH_TOKEN_PATH +:+ ": challenge spk is not a 32-byte X25519 key")
          else
            let* d := attempt (derive_ejwt jti spk eid scope peer_pub now) in
            match d with
            | inr _ =>
                ehem_ctx_fail EHEM_ERR_PROTOCOL 0 None
                  (AUTH_TOKEN_PATH +:+ ": credential derivation failed")
            | inl ejwt =>
                let* body := build_auth_body ejwt in
                match body with
                | None => out_of_memory
                | Some body =>
                    let* result := ehem_proto_request_json EHEM_HTTP_POST AUTH_TOKEN_PATH
                                     (Some body) None EHEM_TLS_REQ_DEFAULT in
                    match ehem_json_get_string (Some result) "token" with
                    | None =>
                        ehem_ctx_fail EHEM_ERR_PROTOCOL 200 None
                          (AUTH_TOKEN_PATH +:+ ": response has no 'token'")
                    | Some token =>
                        let real_exp := default (now + AUTH_TOKEN_LIFETIME)
                                          (decode_bearer_exp token) in
                        let* entry := cache_put scope token (cache_expiry real_exp) in
                        match entry with
                        | None => out_of_memory
                        | Some entry =>
                            (* retention opt-out: the credential is spent *)
                            upd_auth (fun a => if retain a then a
                                               else scrub_passphrase a) ;;;
                            ret (te_token entry)
                        end
                    end
                end
            end
      | None =>
          ehem_ctx_fail EHEM_ERR_PROTOCOL 0 None
            (AUTH_TOKEN_PATH +:+ ": challenge spk is not a 32-byte X25519 key")
      end
  | _, _, _ =>
      ehem_ctx_fail EHEM_ERR_PROTOCOL 0 None
        (AUTH_TOKEN_PATH +:+ ": malformed challenge (need eid, spk, jti)")
  end.

(** [*recovery_spent], [*drift_evident] and the token or the failure. *)
Definition acquire_token (scope : string) (now : Z) (recovery_spent drift_evident : bool)
  : M (bool * bool * (string + ehem_rc)) :=
  let* init := attempt ehem_global_init in
  match init with
  | inr rc =>
      let* f := attempt (ehem_ctx_fail rc 0 None
                  (AUTH_TOKEN_PATH +:+ ": process-global init failed")) in
      ret (recovery_spent, drift_evident, f)
  | inl _ =>
      let* (spent, ch) := fetch_challenge recovery_spent in
      match ch with
      | inr rc => ret (spent, drift_evident, inr rc)
      | inl challenge =>
          let* r := attempt (exchange_token scope now challenge) in
          ret (spent, challenge_drift_evident challenge now, r)
      end
  end.

(** The proactive session-start check-in: whether it ran and failed. *)
Definition proactive_checkin : M bool :=
  let* c := get_ctx in
  if checkin_on_login (cfg c) && negb (checkin_on_login_done c) && negb (in_checkin c)
  then
    upd_ctx (ctx_set_checkin_done true) ;;;
    let* r := attempt (checkin_quietly true) in
    ret (match r with inl _ => false | inr _ => true end)
  else ret false.

(** A miss of a mobile session: the user answers on the phone. *)
Definition acquire_mobile (scope : string) : M string :=
  proactive_checkin ;;;
  let* confirm := ehem_ext_confirm_begin None (Some scope) None None true in
  let* c := get_ctx in
  let* (_, r) := ehem_ext_confirm_wait confirm (confirm_timeout_ms (cfg c)) in
  match r with
  | inr rc => throw rc
  | inl _ =>
      let* a := get_auth in
      match cache_find (match a with Some a => cache a | None => [] end) scope with
      | Some e => ret (te_token e)
      | None =>
          ehem_ctx_fail EHEM_ERR_PROTOCOL 0 None
            ("mobile login: confirmation succeeded but no bearer was cached for scope '"
             +:+ scope +:+ "'")
      end
  end.

(** A miss of a passphrase session. *)
Definition acquire_passphrase (scope : string) (now : Z) : M string :=
  let* proactive_failed := proactive_checkin in
  let* (spent, drift, r) := acquire_token scope now false false in
  let* e := ehem_last_error in
  let* c := get_ctx in
  let* r :=
    match r with
    | inr rc =>
        if bool_decide (rc = EHEM_ERR_AUTH_FAILED) && drift &&
           (http_status e =? 401) && negb spent &&
           negb (no_auto_checkin (cfg c)) && negb (in_checkin c)
        then
          let* crc := attempt (checkin_quietly true) in
          match crc with
          | inl _ =>
              let* now := auth_now in
              let* (_, _, r) := acquire_token scope now true drift in
              ret r
          | inr _ =>
              let* e := ehem_last_error in
              attempt (ehem_ctx_fail EHEM_ERR_AUTH_FAILED 401 None
                (AUTH_TOKEN_PATH +:+
                 ": HTTP 401 with device clock drift; recovery check-in failed: " +:+
                 snprintf_trunc EHEM_ERR_MSG_MAX (message e)))
          end
        else ret (inr rc)
    | inl token => ret (inl token)
    end in
  match r with
  | inr rc => throw rc
  | inl token =>
      (if proactive_failed then
         upd_ctx (fun c => ctx_set_error
           (error_set_message (snprintf_trunc EHEM_ERR_MSG_MAX
              "checkin_on_login: best-effort check-in failed; login proceeded")
              (last_error c)) c)
       else ret tt) ;;;
      ret token
  end.

Definition fresh_token (a : option ehem_auth) (scope : string) (now : Z) : option string :=
  a ← a; e ← cache_find (cache a) scope;
  if now <? te_exp e then Some (te_token e) else None.

Definition ehem_auth_ensure_token (scope : string) : M string :=
  let* a := get_auth in
  let* now := auth_now in
  match fresh_token a scope now with
  | Some token => ret token
  | None =>
      match a with
      | Some a =>
          if mobile a then acquire_mobile scope
          else match passphrase a with
               | Some _ => acquire_passphrase scope now
               | None =>
                   ehem_ctx_fail EHEM_ERR_AUTH_EXPIRED 0 None
                     ("no credential retained for scope '" +:+ scope +:+
                      "' - call ehem_login()")
               end
      | None =>
          ehem_ctx_fail EHEM_ERR_AUTH_EXPIRED 0 None
            ("no credential retained for scope '" +:+ scope +:+
             "' - call ehem_login()")
      end
  end.
End Auth.

(** ** Frames *)

Section Frames.
Context {P : Platform} (R : relation world) (A : relation (option ehem_auth))
        `{!SessionRel R A, !AuthRel A} `{Q : !Request, !RequestFrame R Q}.

Lemma keeps_token_json m b :
  keeps R (ehem_proto_request_json m AUTH_TOKEN_PATH b None EHEM_TLS_REQ_DEFAULT).
Proof. by apply (keeps_json_device R A). Qed.
#[local] Hint Resolve keeps_token_json : keeps.

Lemma keeps_fetch_challenge s : keeps R (fetch_challenge s).
Proof. unfold fetch_challenge. solve_keeps. Qed.
Lemma keeps_derive_ejwt j s e c p n : keeps R (derive_ejwt j s e c p n).
Proof. unfold derive_ejwt. solve_keeps. Qed.
#[local] Hint Resolve keeps_fetch_challenge keeps_derive_ejwt : keeps.

Lemma keeps_retention :
  keeps R (upd_auth (fun a => if retain a then a else scrub_passphrase a)).
Proof.
  apply (keeps_upd_auth_some R A). intros a. destruct (retain a) eqn:E;
    [reflexivity|by apply auth_scrub_ok].
Qed.
Lemma keeps_username u : keeps R (upd_auth (auth_set_username u)).
Proof. apply (keeps_upd_auth_some R A). intros a. apply auth_username_ok. Qed.
#[local] Hint Resolve keeps_retention keeps_username : keeps.

Lemma keeps_exchange_token s n c : keeps R (exchange_token s n c).
Proof. unfold exchange_token, build_auth_body. solve_keeps. Qed.
#[local] Hint Resolve keeps_exchange_token : keeps.
Lemma keeps_acquire_token s n r d : keeps R (acquire_token s n r d).
Proof. unfold acquire_token. solve_keeps. Qed.
Lemma keeps_set_done : keeps R (upd_ctx (ctx_set_checkin_done true)).
Proof. intros w _. apply (session_done (A:=A)). Qed.
#[local] Hint Resolve keeps_acquire_token keeps_set_done : keeps.
Lemma keeps_proactive : keeps R proactive_checkin.
Proof. unfold proactive_checkin. solve_keeps. Qed.
#[local] Hint Resolve keeps_proactive : keeps.
Lemma keeps_acquire_mobile s : keeps R (acquire_mobile s).
Proof. unfold acquire_mobile. solve_keeps. Qed.
Lemma keeps_acquire_passphrase s n : keeps R (acquire_passphrase s n).
Proof. unfold acquire_passphrase. solve_keeps. Qed.
#[local] Hint Resolve keeps_acquire_mobile keeps_acquire_passphrase : keeps.
Lemma keeps_ensure_token s : keeps R (ehem_auth_ensure_token s).
Proof. unfold ehem_auth_ensure_token. solve_keeps. Qed.
End Frames.

Section Totals.
Context {P : Platform} `{Q : !Request}.
Context `{!RequestTotal true (eq None) Q, !RequestTotal false (eq None) Q}.

Lemma total_fetch_challenge s : total false (fetch_challenge s).
Proof. unfold fetch_challenge. solve_total. Qed.
Lemma total_derive_ejwt b j s e c p n : total b (derive_ejwt j s e c p n).
Proof. unfold derive_ejwt. solve_total. Qed.
#[local] Hint Resolve total_fetch_challenge total_derive_ejwt : total.
Lemma total_exchange_token s n c : total false (exchange_token s n c).
Proof. unfold exchange_token, build_auth_body. solve_total. Qed.
#[local] Hint Resolve total_exchange_token : total.
Lemma total_acquire_token s n r d : total false (acquire_token s n r d).
Proof. unfold acquire_token. solve_total. Qed.
Lemma total_proactive : total false proactive_checkin.
Proof. unfold proactive_checkin. solve_total. Qed.
#[local] Hint Resolve total_acquire_token total_proactive : total.
Lemma total_acquire_mobile s : total false (acquire_mobile s).
Proof. unfold acquire_mobile. solve_total. Qed.
Lemma total_acquire_passphrase s n : total false (acquire_passphrase s n).
Proof. unfold acquire_passphrase. solve_total. Qed.
#[local] Hint Resolve total_acquire_mobile total_acquire_passphrase : total.
Lemma total_ensure_token s : total false (ehem_auth_ensure_token s).
Proof. unfold ehem_auth_ensure_token. solve_total. Qed.
End Totals.

#[export] Hint Resolve keeps_ensure_token : keeps.
#[export] Hint Resolve total_ensure_token : total.
