(* ===== verification/Session.v ===== *)
(** * Tying the knot: the recursive request path

    The request path, the check-in and the session engine call each other.
    Here the recursion is closed on fuel, one unit per nested request, and the
    fuel is shown to be enough: the in-check-in guard bounds the nesting by
    three (an authenticated request, the login exchange it triggers, a leg of
    the check-in that exchange triggers). *)

From S2P Require Import Prelude Base64 Json World Logic Context Ejwt Proto Checkin.
From S2P Require Import AuthState Notify Ext Auth.

Open Scope hem_scope.

Section Session.
Context {P : Platform}.

Fixpoint request_n (n : nat) : Request :=
  match n with
  | O => fun _ _ _ _ _ => diverge
  | S n =>
      let Q := request_n n in
      request_raw_body (@checkin_quietly P Q) (@ehem_auth_ensure_token P Q)
        (fun scope => ehem_auth_invalidate (Some scope))
  end.

(** An authenticated request, its token acquisition, and a check-in leg. *)
Definition FUEL : nat := 3.
#[export] Instance session_request : Request := request_n FUEL.

(** ** Frames *)

#[export] Instance request_n_frame R A `{!SessionRel R A, !AuthRel A} n :
  RequestFrame R (request_n n).
Proof.
  induction n as [|n IH].
  - intros m p b s o _ w H. by destruct H.
  - apply (request_raw_body_frame R A); intros; cbn [request_n].
    + apply (keeps_checkin_quietly R A).
    + apply (keeps_ensure_token R A).
    + apply (keeps_invalidate R A).
Qed.

#[export] Instance session_request_frame R A `{!SessionRel R A, !AuthRel A} :
  RequestFrame R session_request := request_n_frame R A FUEL.

(** ** Fuel suffices *)

Lemma total_body_open b checkin ensure inval m p body o :
  (b = false -> total b (checkin true)) ->
  total b (request_raw_body checkin ensure inval m p body None o).
Proof.
  intros Hc. unfold request_raw_body.
  apply total_bind; [by eauto with total|intros [t|]]; [|by eauto with total].
  change (bind (ret None) ?f) with (f None). cbn beta.
  apply total_bind; [by eauto with total|intros first].
  apply total_bind; [by eauto with total|intros expired].
  apply total_get_ctx_bind. intros c Hb. rewrite Hb.
  apply total_bind; [|intros [rc resp]; solve_total].
  destruct b; cbn [negb].
  - rewrite andb_false_r, andb_false_l. eauto with total.
  - case_match; [by apply total_cert_recovery, Hc|eauto with total].
Qed.

Lemma total_body_scoped checkin ensure inval m p body s o :
  total false (checkin true) -> (forall s, total false (ensure s)) ->
  (forall s, total false (inval s)) ->
  total false (request_raw_body checkin ensure inval m p body s o).
Proof.
  intros Hc He Hi. unfold request_raw_body.
  pose proof (fun s => total_acquire_bearer false ensure s (He s)) as Hb.
  pose proof (fun t m p b br o rc => total_cert_recovery false checkin t m p b br o rc Hc).
  unfold auth_retry. solve_total.
Qed.

Lemma request_total_busy n : RequestTotal true (eq None) (request_n (S n)).
Proof. intros m p body s o <-. by apply total_body_open. Qed.

Lemma request_total_open n : RequestTotal false (eq None) (request_n (S (S n))).
Proof.
  intros m p body s o <-. apply total_body_open. intros _.
  pose proof (request_total_busy n). apply total_checkin_quietly.
Qed.

Lemma request_total_idle n : RequestTotal false (fun _ => True) (request_n (S (S (S n)))).
Proof.
  intros m p body s o _. pose proof (request_total_busy (S n)).
  pose proof (request_total_open n).
  apply total_body_scoped; intros; eauto with total.
Qed.

#[export] Instance session_total : RequestTotal false (fun _ => True) session_request :=
  request_total_idle 0.
#[export] Instance session_total_open : RequestTotal false (eq None) session_request :=
  request_total_open 1.
#[export] Instance session_total_busy : RequestTotal true (eq None) session_request :=
  request_total_busy 2.
End Session.

(** ** More fuel changes nothing *)

Section Approx.
Context {P : Platform} (Q Q' : Request).
Context (HQ : forall m p b s o, approx (Q m p b s o) (Q' m p b s o)).

Lemma approx_raw m p b s o :
  approx (@ehem_proto_request_raw P Q m p b s o) (@ehem_proto_request_raw P Q' m p b s o).
Proof. apply HQ. Qed.
#[local] Hint Resolve approx_raw : approx.
Lemma approx_json m p b s o :
  approx (@ehem_proto_request_json P Q m p b s o) (@ehem_proto_request_json P Q' m p b s o).
Proof. unfold ehem_proto_request_json. solve_approx. Qed.
#[local] Hint Resolve approx_json : approx.
Lemma approx_legs ov want :
  approx (@checkin_legs P Q ov want) (@checkin_legs P Q' ov want).
Proof. unfold checkin_legs. solve_approx. Qed.
#[local] Hint Resolve approx_legs : approx.
Lemma approx_checkin_run r want :
  approx (@ehem_checkin_run P Q r want) (@ehem_checkin_run P Q' r want).
Proof. unfold ehem_checkin_run. solve_approx. Qed.
#[local] Hint Resolve approx_checkin_run : approx.
Lemma approx_checkin_quietly r :
  approx (@checkin_quietly P Q r) (@checkin_quietly P Q' r).
Proof. unfold checkin_quietly. solve_approx. Qed.
#[local] Hint Resolve approx_checkin_quietly : approx.
Lemma approx_login_post p b : approx (@ext_login_post P Q p b) (@ext_login_post P Q' p b).
Proof. unfold ext_login_post. solve_approx. Qed.
#[local] Hint Resolve approx_login_post : approx.
Lemma approx_ext_request e s c n out :
  approx (@ehem_ext_request P Q e s c n out) (@ehem_ext_request P Q' e s c n out).
Proof. unfold ehem_ext_request. solve_approx. Qed.
Lemma approx_ext_token r out :
  approx (@ehem_ext_token P Q r out) (@ehem_ext_token P Q' r out).
Proof. unfold ehem_ext_token. solve_approx. Qed.
#[local] Hint Resolve approx_ext_request approx_ext_token : approx.
Lemma approx_fire u s c n :
  approx (@confirm_fire_push P Q u s c n) (@confirm_fire_push P Q' u s c n).
Proof. unfold confirm_fire_push. solve_approx. Qed.
#[local] Hint Resolve approx_fire : approx.
Lemma approx_push u s c n :
  approx (@push_with_recovery P Q u s c n) (@push_with_recovery P Q' u s c n).
Proof. unfold push_with_recovery. solve_approx. Qed.
#[local] Hint Resolve approx_push : approx.
Lemma approx_begin u s c n out :
  approx (@ehem_ext_confirm_begin P Q u s c n out) (@ehem_ext_confirm_begin P Q' u s c n out).
Proof. unfold ehem_ext_confirm_begin. solve_approx. Qed.
Lemma approx_poll c : approx (@ehem_ext_confirm_poll P Q c) (@ehem_ext_confirm_poll P Q' c).
Proof. unfold ehem_ext_confirm_poll. solve_approx. Qed.
#[local] Hint Resolve approx_begin approx_poll : approx.
Lemma approx_wait_loop f c e t :
  approx (@confirm_wait_loop P Q f c e t) (@confirm_wait_loop P Q' f c e t).
Proof.
  revert c e; induction f as [|f IH]; intros c e; cbn [confirm_wait_loop]; solve_approx.
Qed.
#[local] Hint Resolve approx_wait_loop : approx.
Lemma approx_wait c t :
  approx (@ehem_ext_confirm_wait P Q c t) (@ehem_ext_confirm_wait P Q' c t).
Proof. unfold ehem_ext_confirm_wait. solve_approx. Qed.
#[local] Hint Resolve approx_wait : approx.
Lemma approx_challenge s : approx (@fetch_challenge P Q s) (@fetch_challenge P Q' s).
Proof. unfold fetch_challenge. solve_approx. Qed.
Lemma approx_exchange s n c :
  approx (@exchange_token P Q s n c) (@exchange_token P Q' s n c).
Proof. unfold exchange_token. solve_approx. Qed.
#[local] Hint Resolve approx_challenge approx_exchange : approx.
Lemma approx_acquire s n r d :
  approx (@acquire_token P Q s n r d) (@acquire_token P Q' s n r d).
Proof. unfold acquire_token. solve_approx. Qed.
Lemma approx_proactive : approx (@proactive_checkin P Q) (@proactive_checkin P Q').
Proof. unfold proactive_checkin. solve_approx. Qed.
#[local] Hint Resolve approx_acquire approx_proactive : approx.
Lemma approx_ensure s :
  approx (@ehem_auth_ensure_token P Q s) (@ehem_auth_ensure_token P Q' s).
Proof.
  unfold ehem_auth_ensure_token, acquire_mobile, acquire_passphrase. solve_approx.
Qed.
#[local] Hint Resolve approx_ensure : approx.

Lemma approx_body m p b s o :
  approx
    (request_raw_body (@checkin_quietly P Q) (@ehem_auth_ensure_token P Q)
       (fun s => ehem_auth_invalidate (Some s)) m p b s o)
    (request_raw_body (@checkin_quietly P Q') (@ehem_auth_ensure_token P Q')
       (fun s => ehem_auth_invalidate (Some s)) m p b s o).
Proof.
  unfold request_raw_body, cert_recovery, auth_retry, acquire_bearer. solve_approx.
Qed.
End Approx.

Section Knot.
Context {P : Platform}.

Lemma request_n_approx n m p b s o : approx (request_n n m p b s o) (request_n (S n) m p b s o).
Proof.
  revert m p b s o. induction n as [|n IH]; intros m p b s o.
  - apply approx_diverge.
  - by apply (approx_body (request_n n) (request_n (S n))).
Qed.

Lemma request_n_stable n m p b s o w :
  (FUEL <= n)%nat -> in_checkin (w_ctx w) = false ->
  request_n n m p b s o w = request_n FUEL m p b s o w.
Proof.
  intros Hn Hw. induction Hn as [|n Hn IH]; [done|]. rewrite <- IH.
  destruct (request_n_approx n m p b s o w) as [E|E]; [|done].
  destruct (request_total_idle (n - 3) m p b s o I w Hw) as [H _].
  unfold FUEL in Hn. replace (S (S (S (n - 3)))) with n in H by lia. by destruct H.
Qed.
End Knot.
