(* ===== verification/Fake.v ===== *)
(** * A scripted platform

    The counterpart of [src/tests/support/fake_transport.c]: a transport that
    answers from a script and a platform whose other services are constant
    functions.  The witnesses of the theorems run on it; nothing is proved
    about the program here. *)

From S2P Require Import Prelude Json World Context.

(** One canned outcome: a transport failure, or a status and a body. *)
Record reply := {
  rp_rc : ehem_rc;
  rp_status : Z;
  rp_body : option string;
  rp_expired : bool
}.

Definition http (status : Z) (body : string) : reply :=
  {| rp_rc := EHEM_OK; rp_status := status; rp_body := Some body; rp_expired := false |}.
Definition http_empty (status : Z) : reply :=
  {| rp_rc := EHEM_OK; rp_status := status; rp_body := None; rp_expired := false |}.
Definition fails (rc : ehem_rc) (expired : bool) : reply :=
  {| rp_rc := rc; rp_status := 0; rp_body := None; rp_expired := expired |}.

Record fake_state := { script : list reply; fs_expired : bool }.

Definition fake_send (s : fake_state) (_ : ehem_request)
  : ehem_rc * ehem_response * fake_state :=
  match script s with
  | [] => (EHEM_ERR_NETWORK, response_zero, {| script := []; fs_expired := false |})
  | r :: rest =>
      match rp_rc r with
      | EHEM_OK => (EHEM_OK, {| resp_status := rp_status r; resp_headers := [];
                                resp_body := rp_body r |},
                    {| script := rest; fs_expired := false |})
      | rc => (rc, response_zero, {| script := rest; fs_expired := rp_expired r |})
      end
  end.

Definition fake_transport : ehem_transport fake_state :=
  {| t_ops := Some {| op_send := Some fake_send;
                      op_last_detail := Some (fun _ => Some "scripted failure");
                      op_last_tls_expired := Some (fun s => if fs_expired s then 1 else 0);
                      op_destroy := None |} |}.

(** cJSON by table: the texts a witness uses, and what they parse to. *)
Definition fake_json (table : list (string * json)) : CJson :=
  {| cJSON_Parse s := snd <$> List.find (fun kv => String.eqb (fst kv) s) table;
     cJSON_Print _ := "{}";
     cast_oob _ := 0 |}.

Definition FAKE_NOW : Z := 1790000000.

Definition fake_platform (table : list (string * json)) : Platform :=
  {| net := fake_state;
     p_json := fake_json table;
     p_malloc _ := true;
     p_time _ := FAKE_NOW;
     p_crypto_global_init _ := EHEM_OK;
     p_transport_global_init _ := EHEM_OK;
     p_transport_default _ _ _ _ := Some fake_transport;
     p_kdf_pbkdf2_sha256 _ _ _ _ := (EHEM_OK, repeat 7 32);
     p_x25519_keypair_from_seed _ _ := (EHEM_OK, (repeat 8 32, repeat 9 32));
     p_x25519_shared _ _ _ := (EHEM_OK, repeat 10 32);
     p_hmac_sha256 _ _ _ := (EHEM_OK, repeat 11 32);
     p_sha256 _ _ := (EHEM_OK, repeat 12 32);
     p_kdf_pbkdf2_sha512 _ _ _ _ := (EHEM_OK, repeat 165 64);
     p_random_bytes _ n := (EHEM_OK, repeat 1 (Z.to_nat n));
     p_cert_parse_leaf _ _ := (EHEM_ERR_PROTOCOL,
       {| cf_serial_hex := ""; cf_subject_cn := ""; cf_not_before := "";
          cf_not_after := "" |});
     p_vsnprintf_overlap before _ := before |}.

(** The same services with another allocator and another PBKDF2. *)
Definition platform_with (F : Platform) (malloc : nat -> bool)
    (kdf : nat -> bytes -> bytes -> Z -> ehem_rc * bytes) : Platform :=
  {| net := @net F;
     p_json := @p_json F;
     p_malloc := malloc;
     p_time := @p_time F;
     p_crypto_global_init := @p_crypto_global_init F;
     p_transport_global_init := @p_transport_global_init F;
     p_transport_default := @p_transport_default F;
     p_kdf_pbkdf2_sha256 := kdf;
     p_x25519_keypair_from_seed := @p_x25519_keypair_from_seed F;
     p_x25519_shared := @p_x25519_shared F;
     p_hmac_sha256 := @p_hmac_sha256 F;
     p_sha256 := @p_sha256 F;
     p_kdf_pbkdf2_sha512 := @p_kdf_pbkdf2_sha512 F;
     p_random_bytes := @p_random_bytes F;
     p_cert_parse_leaf := @p_cert_parse_leaf F;
     p_vsnprintf_overlap := @p_vsnprintf_overlap F |}.

Definition fake_config (no_auto : bool) : ctx_config fake_state :=
  {| url := "https://hem.local"; connect_timeout_ms := 10000; total_timeout_ms := 30000;
     request_pace_ms := 0; tls_mode := EHEM_TLS_SYSTEM; ca_file := None;
     transport := Some fake_transport; owns_transport := false;
     checkin_url := EHEM_DEFAULT_CHECKIN_URL; no_auto_checkin := no_auto;
     checkin_on_login := false; confirm_timeout_ms := 60000; confirm_notice := false;
     confirm_notice_arg := 0; no_credential_retention := false |}.

Definition fake_ctx (no_auto : bool) (a : option ehem_auth) : ehem_ctx fake_state :=
  {| cfg := fake_config no_auto; cert_refreshed := false; in_checkin := false;
     checkin_on_login_done := false; auth := a; last_error := error_clear |}.

(** A logged-in session with a bearer for [scope] that never expires. *)
Definition fake_session (scope token : string) : ehem_auth :=
  {| passphrase := Some "correct horse"; retain := true; username := None;
     mobile := false;
     cache := [{| te_scope := scope; te_token := token; te_exp := FAKE_NOW + 3540 |}] |}.

Definition fake_world {table} (replies : list reply) (no_auto : bool)
    (a : option ehem_auth) : @world (fake_platform table) :=
  @Build_world (fake_platform table) {| script := replies; fs_expired := false |} 0 true
    (fake_ctx no_auto a) [].
