(* ===== verification/Bip39.v ===== *)
(** * Mnemonics: [src/bip39.c]

    The binary search in the sorted word list, the packing of 264 bits into 24
    words, the validating parser and the master-secret slice.  [words_of] is the
    declarative reading of a mnemonic that the scanning loop is proved to
    compute. *)

From S2P Require Import Prelude Json World Logic Context Ejwt Wordlist.

Open Scope hem_scope.

Definition EHEM_BIP39_WORDS : Z := 24.
Definition EHEM_BIP39_ENTROPY_SIZE : Z := 32.
Definition EHEM_BIP39_SECRET_SIZE : Z := 32.
Definition EHEM_BIP39_MNEMONIC_CAP : Z := EHEM_BIP39_WORDS * 9.
Definition BIP39_SALT : string := "mnemonic".
Definition BIP39_ROUNDS : Z := 2048.
Definition BIP39_BITS : Z := EHEM_BIP39_WORDS * 11.
Definition BIP39_BYTES : Z := (BIP39_BITS + 7) / 8.

(** ** The word list *)

(** [strncmp(s, t, n)] *)
Fixpoint strncmp (s t : string) (n : nat) : comparison :=
  match n with
  | O => Eq
  | S n =>
      match s, t with
      | EmptyString, EmptyString => Eq
      | EmptyString, String _ _ => Lt
      | String _ _, EmptyString => Gt
      | String a s, String b t =>
          match byte_of_ascii a ?= byte_of_ascii b with
          | Eq => strncmp s t n
          | c => c
          end
      end
  end.

(** The [len] characters at [w] against the list word [c]: a proper prefix
    sorts first. *)
Definition word_cmp (w c : string) : comparison :=
  match strncmp w c (String.length w) with
  | Eq => if (String.length w <? String.length c)%nat then Lt else Eq
  | o => o
  end.

Definition word_at (l : list string) (i : Z) : string := nth (Z.to_nat i) l "".

(** [while (lo <= hi)], one unit of fuel per probe; [None] is exhausted fuel. *)
Fixpoint word_search (fuel : nat) (l : list string) (w : string) (lo hi : Z) : option Z :=
  if hi <? lo then Some (-1)
  else
    match fuel with
    | O => None
    | S fuel =>
        let mid := lo + (hi - lo) / 2 in
        match word_cmp w (word_at l mid) with
        | Eq => Some mid
        | Lt => word_search fuel l w lo (mid - 1)
        | Gt => word_search fuel l w (mid + 1) hi
        end
    end.

(** Twelve probes cover 2048 words. *)
Definition word_index (w : string) : option Z :=
  word_search 12 ehem_bip39_wordlist_en w 0 (EHEM_BIP39_WORDLIST_SIZE - 1).

(** ** Bits *)

(** [(bits[bit >> 3] >> (7 - (bit & 7))) & 1] *)
Definition get_bit (bits : bytes) (bit : Z) : Z :=
  Z.land (Z.shiftr (nth (Z.to_nat (Z.shiftr bit 3)) bits 0) (7 - Z.land bit 7)) 1.

(** [bits[bit >> 3] |= 0x80 >> (bit & 7)] *)
Definition put_bit (bits : bytes) (bit : Z) : bytes :=
  alter (fun x => Z.lor x (Z.shiftr 128 (Z.land bit 7))) (Z.to_nat (Z.shiftr bit 3)) bits.

(** The index of word [i], bit [b] and the [k] after it still to come. *)
Fixpoint index_loop (k : nat) (bits : bytes) (i b idx : Z) : Z :=
  match k with
  | O => idx
  | S k =>
      index_loop k bits i (b + 1)
        (wrap_u32 (Z.lor (Z.shiftl idx 1) (get_bit bits (i * 11 + b))))
  end.
Definition read_index (bits : bytes) (i : Z) : Z := index_loop 11 bits i 0 0.

Fixpoint pack_loop (k : nat) (bits : bytes) (n idx b : Z) : bytes :=
  match k with
  | O => bits
  | S k =>
      pack_loop k
        (if Z.land (Z.shiftr idx (10 - b)) 1 =? 0 then bits else put_bit bits (n * 11 + b))
        n idx (b + 1)
  end.
Definition pack_index (bits : bytes) (n idx : Z) : bytes := pack_loop 11 bits n idx 0.

(** ** Encoding *)

(** Words [i], [i + 1], ..., [k] of them, appended to [out]. *)
Fixpoint encode_words (k : nat) (bits : bytes) (i : Z) (out : string) : string :=
  match k with
  | O => out
  | S k =>
      encode_words k bits (i + 1)
        (out +:+ (if i =? 0 then "" else " ") +:+
         word_at ehem_bip39_wordlist_en (read_index bits i))
  end.

(** ** Parsing *)

Definition is_space (c : ascii) : bool := isspace (byte_of_ascii c).

Fixpoint skip_space (s : string) : string :=
  match s with
  | String c s' => if is_space c then skip_space s' else s
  | EmptyString => EmptyString
  end.
(** The word [s] begins with, and what follows it. *)
Fixpoint take_word (s : string) : string * string :=
  match s with
  | EmptyString => (EmptyString, EmptyString)
  | String c s' =>
      if is_space c then (EmptyString, s)
      else let (w, r) := take_word s' in (String c w, r)
  end.

Record scan := { sc_n : Z; sc_bits : bytes; sc_canon : string }.

Definition scan_start : scan :=
  {| sc_n := 0; sc_bits := repeat 0 (Z.to_nat BIP39_BYTES); sc_canon := "" |}.

Definition scan_add (st : scan) (w : string) (idx : Z) : scan :=
  {| sc_n := sc_n st + 1; sc_bits := pack_index (sc_bits st) (sc_n st) idx;
     sc_canon := sc_canon st +:+ (if sc_n st =? 0 then "" else " ") +:+ w |}.

Definition not_in_list (n : Z) (w : string) : string :=
  snprintf_trunc 96
    ("word " +:+ dec (n + 1) +:+ quoted " (#" +:+ String.substring 0 16 w +:+
     quoted "#) is not in the BIP39 English list (lowercase only)").

(** The [for (;;)] over the mnemonic: the finished scan, or the reason to
    refuse; [None] is exhausted fuel. *)
Fixpoint scan_words (fuel : nat) (p : string) (st : scan) : option (scan + string) :=
  match fuel with
  | O => None
  | S fuel =>
      let p := skip_space p in
      if is_empty p then Some (inl st)
      else
        let (w, rest) := take_word p in
        let len := strlen w in
        if sc_n st =? EHEM_BIP39_WORDS then Some (inr "more than 24 words"%string)
        else
          match (if (3 <=? len) && (len <=? 8) then word_index w else Some (-1)) with
          | None => None
          | Some idx =>
              if idx <? 0 then Some (inr (not_in_list (sc_n st) w))
              else scan_words fuel rest (scan_add st w idx)
          end
  end.

(** [secret[i] = (uint8_t)((seed[i] << 4) | (seed[i + 1] >> 4))] *)
Definition master_slice (seed : bytes) : bytes :=
  map (fun i => Z.land (Z.lor (Z.shiftl (nth i seed 0) 4) (Z.shiftr (nth (S i) seed 0) 4)) 255)
      (seq 0 (Z.to_nat EHEM_BIP39_SECRET_SIZE)).

Section Bip39.
Context {P : Platform}.

Definition ehem_bip39_from_entropy (entropy : option bytes) (out : bool) (cap : Z) : M string :=
  match entropy with
  | None => throw EHEM_ERR_ARG
  | Some entropy =>
      if negb out || (cap <? EHEM_BIP39_MNEMONIC_CAP) then throw EHEM_ERR_ARG
      else
        let entropy := take (Z.to_nat EHEM_BIP39_ENTROPY_SIZE) entropy in
        let* hash := ask (fun n => p_sha256 n entropy) in
        let* hash := check_rc hash in
        ret (encode_words (Z.to_nat EHEM_BIP39_WORDS) (entropy ++ [nth 0 hash 0]) 0 "")
  end.

Definition ehem_bip39_generate (out : bool) (cap : Z) : M string :=
  let* entropy := ask (fun n => p_random_bytes n EHEM_BIP39_ENTROPY_SIZE) in
  let* entropy := check_rc entropy in
  ehem_bip39_from_entropy (Some entropy) out cap.

(** The text left in [reason] (a buffer of [reason_cap] bytes, 0 for NULL), and
    the secret or the return code. *)
Definition ehem_bip39_to_master_secret (words : option string) (secret : bool)
    (reason_cap : nat) : M (string * (bytes + ehem_rc)) :=
  let say text : string := snprintf_trunc reason_cap text in
  let invalid text : M (string * (bytes + ehem_rc)) := ret (say text, inr EHEM_ERR_ARG) in
  match words, secret with
  | Some words, true =>
      match scan_words (S (String.length words)) words scan_start with
      | None => diverge
      | Some (inr why) => invalid why
      | Some (inl st) =>
          if negb (sc_n st =? EHEM_BIP39_WORDS) then
            invalid (snprintf_trunc 64 (dec (sc_n st) +:+ " words, need exactly 24"))
          else
            let entropy := take (Z.to_nat EHEM_BIP39_ENTROPY_SIZE) (sc_bits st) in
            let* (rc, hash) := ask (fun n => p_sha256 n entropy) in
            if negb (bool_decide (rc = EHEM_OK)) then ret (say "", inr rc)
            else if negb (nth 0 hash 0 =? nth (Z.to_nat EHEM_BIP39_ENTROPY_SIZE) (sc_bits st) 0)
            then invalid "checksum mismatch - a word is wrong or out of order"
            else
              let* (rc, seed) := ask (fun n =>
                p_kdf_pbkdf2_sha512 n (bytes_of_string (sc_canon st))
                  (bytes_of_string BIP39_SALT) BIP39_ROUNDS) in
              ret (say "", if bool_decide (rc = EHEM_OK) then inl (master_slice seed) else inr rc)
      end
  | _, _ => invalid ""
  end.

(** ** The public wrappers ([src/proto_auth.c])

    Both accept a NULL context: [ctx] says that there is one. *)

Definition fail_if {A} (ctx : bool) (rc : ehem_rc) (msg : string) : M A :=
  if ctx then ehem_ctx_fail rc 0 None msg else throw rc.

Definition ehem_mnemonic_generate (ctx out : bool) : M string :=
  if negb out then throw EHEM_ERR_ARG
  else
    (if ctx then ehem_ctx_clear_error else ret tt) ;;;
    let* r := attempt (ehem_global_init ;;;
                       ehem_bip39_generate true EHEM_BIP39_MNEMONIC_CAP) in
    match r with
    | inr rc => fail_if ctx rc "mnemonic: entropy source failed"
    | inl words =>
        let* copy := dup_str words in
        match copy with
        | None => fail_if ctx EHEM_ERR_NOMEM "out of memory"
        | Some copy => ret copy
        end
    end.

Definition ehem_master_secret_from_mnemonic (ctx : bool) (words : option string)
    (secret : bool) : M bytes :=
  (if ctx then ehem_ctx_clear_error else ret tt) ;;;
  match words, secret with
  | Some words, true =>
      let* (reason, r) := ehem_bip39_to_master_secret (Some words) true 128 in
      match r with
      | inl secret => ret secret
      | inr rc =>
          fail_if ctx rc
            ("mnemonic: " +:+ if is_empty reason then "derivation failed" else reason)
      end
  | _, _ => throw EHEM_ERR_ARG
  end.
End Bip39.

(** ** Frames *)

Section Frames.
Context {P : Platform} (R : relation world) (A : relation (option ehem_auth))
        `{!FrameRel R A}.

Lemma keeps_fail_if {B} c rc msg : keeps R (fail_if (A:=B) c rc msg).
Proof. unfold fail_if. solve_keeps. Qed.
Lemma keeps_bip39_generate out cap : keeps R (ehem_bip39_generate out cap).
Proof. unfold ehem_bip39_generate, ehem_bip39_from_entropy. solve_keeps. Qed.
Lemma keeps_to_master_secret words secret cap :
  keeps R (ehem_bip39_to_master_secret words secret cap).
Proof. unfold ehem_bip39_to_master_secret. solve_keeps. Qed.
#[local] Hint Resolve keeps_fail_if keeps_bip39_generate keeps_to_master_secret : keeps.
Lemma keeps_mnemonic_generate ctx out : keeps R (ehem_mnemonic_generate ctx out).
Proof. unfold ehem_mnemonic_generate. solve_keeps. Qed.
Lemma keeps_master_secret ctx words secret :
  keeps R (ehem_master_secret_from_mnemonic ctx words secret).
Proof. unfold ehem_master_secret_from_mnemonic. solve_keeps. Qed.
End Frames.

#[export] Hint Resolve keeps_mnemonic_generate keeps_master_secret : keeps.
