(* ===== verification/Bip39Props.v ===== *)
(** * What the mnemonic code guarantees

    Theorems about Bip39.v: the binary search finds exactly the list's words,
    packing inverts encoding bit for bit, and the parser accepts exactly the
    mnemonics the encoder produces. *)

From stdpp Require Import sorting.
From S2P Require Import Prelude Base64 Json World Logic Context Ejwt Fake Wordlist Bip39.

Open Scope hem_scope.

(** ** The word search *)

Lemma word_cmp_lex a w b c :
  word_cmp (String a w) (String b c) =
    match byte_of_ascii a ?= byte_of_ascii b with Eq => word_cmp w c | o => o end.
Proof.
  unfold word_cmp. cbn [strncmp String.length].
  by destruct (byte_of_ascii a ?= byte_of_ascii b).
Qed.

Lemma word_cmp_eq w c : word_cmp w c = Eq -> w = c.
Proof.
  revert c; induction w as [|a w IH]; intros [|b c]; [done| | |].
  - done.
  - done.
  - rewrite word_cmp_lex. destruct (Z.compare_spec (byte_of_ascii a) (byte_of_ascii b));
      [|done..].
    intros Hc. f_equal; [|by apply IH].
    rewrite <- (ascii_of_byte_of_ascii a), <- (ascii_of_byte_of_ascii b). by f_equal.
Qed.

Definition word_lt (w c : string) : Prop := word_cmp w c = Lt.

Lemma word_lt_trans : Transitive word_lt.
Proof.
  intros w. induction w as [|a w IH]; intros [|b c] [|d e]; unfold word_lt; try done.
  rewrite !word_cmp_lex.
  destruct (Z.compare_spec (byte_of_ascii a) (byte_of_ascii b)) as [H1|H1|H1];
    destruct (Z.compare_spec (byte_of_ascii b) (byte_of_ascii d)) as [H2|H2|H2]; try done;
    destruct (Z.compare_spec (byte_of_ascii a) (byte_of_ascii d)); try lia; try done.
  apply IH.
Qed.

Lemma word_cmp_flip w c : word_cmp c w = CompOpp (word_cmp w c).
Proof.
  revert c; induction w as [|a w IH]; intros [|b c]; [done..|].
  rewrite !word_cmp_lex, (Z.compare_antisym (byte_of_ascii a)).
  destruct (byte_of_ascii a ?= byte_of_ascii b); [apply IH|done..].
Qed.

Lemma word_cmp_refl w : word_cmp w w = Eq.
Proof. induction w as [|a w IH]; [done|]. by rewrite word_cmp_lex, Z.compare_refl. Qed.

(** Adjacent words of the table are in order. *)
Fixpoint ascending (l : list string) : bool :=
  match l with
  | w :: (c :: _) as l' => match word_cmp w c with Lt => ascending l' | _ => false end
  | _ => true
  end.

Lemma ascending_sorted l : ascending l = true -> StronglySorted word_lt l.
Proof.
  intros H. apply Sorted_StronglySorted; [exact word_lt_trans|].
  induction l as [|w [|c l] IH]; [constructor|by repeat constructor|].
  cbn [ascending] in H. destruct (word_cmp w c) eqn:E; [done| |done].
  constructor; [by apply IH|by constructor].
Qed.

Lemma sorted_lt l i j v w :
  StronglySorted word_lt l -> l !! i = Some v -> l !! j = Some w -> (i < j)%nat -> word_lt v w.
Proof.
  intros Hs. revert i j; induction Hs as [|x l Hs IH Hx]; intros i j Hi Hj Hlt; [done|].
  destruct j as [|j]; [lia|]. destruct i as [|i]; cbn in Hi, Hj.
  - simplify_eq. rewrite Forall_forall in Hx. apply Hx. by eapply list_elem_of_lookup_2.
  - eapply IH; [exact Hi|exact Hj|lia].
Qed.

(** A probe sequence over [lo..hi] finds the word there, or refutes it. *)
Lemma word_search_spec l w fuel lo hi :
  StronglySorted word_lt l -> 0 <= lo -> lo <= hi + 1 -> hi < Z.of_nat (length l) ->
  hi - lo + 1 < 2 ^ Z.of_nat fuel ->
  exists r, word_search fuel l w lo hi = Some r /\
    ((lo <= r <= hi /\ l !! Z.to_nat r = Some w) \/
     (r = -1 /\ forall i, lo <= i <= hi -> l !! Z.to_nat i <> Some w)).
Proof.
  intros Hs. revert lo hi; induction fuel as [|fuel IH]; intros lo hi H1 H2 H3 H4.
  { cbn. change (2 ^ Z.of_nat 0) with 1 in H4. rewrite (proj2 (Z.ltb_lt hi lo)) by lia.
    exists (-1). split; [done|]. right. split; [done|]. lia. }
  cbn [word_search]. destruct (Z.ltb_spec hi lo).
  { exists (-1). split; [done|]. right. split; [done|]. lia. }
  rewrite Nat2Z.inj_succ, Z.pow_succ_r in H4 by lia.
  set (mid := lo + (hi - lo) / 2).
  assert (lo <= mid <= hi /\ hi - mid <= mid - lo + 1 /\ mid - lo <= hi - mid) as Hm.
  { pose proof (Z.div_mod (hi - lo) 2). pose proof (Z.mod_pos_bound (hi - lo) 2).
    unfold mid. lia. }
  destruct (lookup_lt_is_Some_2 l (Z.to_nat mid)) as [c Hc]; [lia|].
  unfold word_at. rewrite (nth_lookup_Some _ _ _ _ Hc).
  destruct (word_cmp w c) eqn:E.
  - apply word_cmp_eq in E as ->. exists mid. split; [done|]. left. split; [lia|done].
  - destruct (IH lo (mid - 1)) as (r & Hr & Hx); [lia..|].
    exists r. split; [done|]. destruct Hx as [[? ?]|[-> Hx]]; [left; split; [lia|done]|].
    right. split; [done|]. intros i Hi Hw.
    destruct (decide (i < mid)); [apply (Hx i); [lia|done]|].
    destruct (decide (i = mid)) as [->|]; [simplify_eq; by rewrite word_cmp_refl in E|].
    assert (word_lt c w) as Hlt by (apply (sorted_lt l _ _ _ _ Hs Hc Hw); lia).
    unfold word_lt in Hlt. by rewrite word_cmp_flip, E in Hlt.
  - destruct (IH (mid + 1) hi) as (r & Hr & Hx); [lia..|].
    exists r. split; [done|]. destruct Hx as [[? ?]|[-> Hx]]; [left; split; [lia|done]|].
    right. split; [done|]. intros i Hi Hw.
    destruct (decide (mid < i)); [apply (Hx i); [lia|done]|].
    destruct (decide (i = mid)) as [->|]; [simplify_eq; by rewrite word_cmp_refl in E|].
    assert (word_lt w c) as Hlt by (apply (sorted_lt l _ _ _ _ Hs Hw Hc); lia).
    unfold word_lt in Hlt. by rewrite E in Hlt.
Qed.

Lemma wordlist_sorted : StronglySorted word_lt ehem_bip39_wordlist_en.
Proof. apply ascending_sorted. vm_compute. reflexivity. Qed.
Lemma wordlist_length : length ehem_bip39_wordlist_en = 2048%nat.
Proof. vm_compute. reflexivity. Qed.

Lemma word_index_spec w :
  exists r, word_index w = Some r /\
    ((0 <= r < 2048 /\ ehem_bip39_wordlist_en !! Z.to_nat r = Some w) \/
     (r = -1 /\ w ∉ ehem_bip39_wordlist_en)).
Proof.
  destruct (word_search_spec ehem_bip39_wordlist_en w 12 0 2047) as (r & Hr & Hx);
    [exact wordlist_sorted|lia|lia|rewrite wordlist_length; lia|done|].
  exists r. split; [exact Hr|]. destruct Hx as [[? ?]|[-> Hx]]; [left; split; [lia|done]|].
  right. split; [done|]. intros [i Hi]%list_elem_of_lookup.
  apply (Hx (Z.of_nat i)); [|by rewrite Nat2Z.id].
  apply lookup_lt_Some in Hi. rewrite wordlist_length in Hi. lia.
Qed.

Lemma word_index_at i :
  0 <= i < 2048 -> word_index (word_at ehem_bip39_wordlist_en i) = Some i.
Proof.
  intros Hi. destruct (lookup_lt_is_Some_2 ehem_bip39_wordlist_en (Z.to_nat i)) as [c Hc].
  { rewrite wordlist_length. lia. }
  unfold word_at. rewrite (nth_lookup_Some _ _ _ _ Hc).
  destruct (word_index_spec c) as (r & Hr & [[Hb Hl]|[_ Hn]]).
  - rewrite Hr. f_equal.
    destruct (Z.lt_trichotomy r i) as [Hlt|[->|Hlt]]; [|done|]; exfalso.
    + assert (word_lt c c) as Hx by (apply (sorted_lt _ _ _ _ _ wordlist_sorted Hl Hc); lia).
      unfold word_lt in Hx. by rewrite word_cmp_refl in Hx.
    + assert (word_lt c c) as Hx by (apply (sorted_lt _ _ _ _ _ wordlist_sorted Hc Hl); lia).
      unfold word_lt in Hx. by rewrite word_cmp_refl in Hx.
  - destruct Hn. by eapply list_elem_of_lookup_2.
Qed.

(** ** Bits

    [bit_at bits k] is bit [k] of the buffer, most significant bit first. *)

Definition bit_at (bits : bytes) (k : Z) : bool :=
  Z.testbit (nth (Z.to_nat (k / 8)) bits 0) (7 - k mod 8).

Lemma shiftr_3 k : Z.shiftr k 3 = k / 8.
Proof. by rewrite Z.shiftr_div_pow2. Qed.
Lemma land_7 k : Z.land k 7 = k mod 8.
Proof. change 7 with (Z.ones 3). by rewrite Z.land_ones. Qed.
Lemma land_1 k : Z.land k 1 = Z.b2z (Z.testbit k 0).
Proof. change 1 with (Z.ones 1) at 1. rewrite Z.land_ones, Z.bit0_mod by lia. done. Qed.

Lemma get_bit_at bits k : get_bit bits k = Z.b2z (bit_at bits k).
Proof.
  unfold get_bit, bit_at. rewrite shiftr_3, land_7, land_1.
  pose proof (Z.mod_pos_bound k 8). by rewrite Z.shiftr_spec, Z.add_0_l by lia.
Qed.

Lemma put_bit_length bits k : length (put_bit bits k) = length bits.
Proof. apply length_alter. Qed.

Lemma shiftr_128 m : 0 <= m < 8 -> Z.shiftr 128 m = 2 ^ (7 - m).
Proof.
  intros. change 128 with (2 ^ 7). rewrite Z.shiftr_div_pow2 by lia.
  rewrite <- Z.pow_sub_r by lia. done.
Qed.

Lemma put_bit_at bits k j :
  0 <= k < 8 * Z.of_nat (length bits) -> 0 <= j ->
  bit_at (put_bit bits k) j = (j =? k) || bit_at bits j.
Proof.
  intros Hk Hj. unfold bit_at, put_bit. rewrite shiftr_3, land_7, !nth_lookup.
  pose proof (Z.mod_pos_bound k 8). pose proof (Z.mod_pos_bound j 8).
  pose proof (Z.div_mod k 8). pose proof (Z.div_mod j 8).
  assert (0 <= k / 8 < Z.of_nat (length bits)) as Hd
    by (split; [apply Z.div_pos|apply Z.div_lt_upper_bound]; lia).
  assert (0 <= j / 8) by (apply Z.div_pos; lia).
  destruct (decide (j / 8 = k / 8)) as [E|E].
  - rewrite E, list_lookup_alter_eq.
    destruct (lookup_lt_is_Some_2 bits (Z.to_nat (k / 8))) as [x Hx]; [lia|].
    rewrite Hx. cbn. rewrite shiftr_128, Z.lor_spec, Z.pow2_bits_eqb by lia.
    rewrite orb_comm. f_equal. lia.
  - rewrite list_lookup_alter_ne by lia. by rewrite (proj2 (Z.eqb_neq j k)) by congruence.
Qed.

(** Buffers of bytes with the same bits are the same. *)
Lemma bits_ext a b :
  length a = length b -> Forall is_byte a -> Forall is_byte b ->
  (forall k, 0 <= k < 8 * Z.of_nat (length a) -> bit_at a k = bit_at b k) -> a = b.
Proof.
  intros Hl Ha Hb H. apply (list_eq_same_length _ _ (length a)); [done|done|].
  intros i x y Hi Hx Hy.
  assert (is_byte x) as Bx by (rewrite Forall_forall in Ha; by eapply Ha, list_elem_of_lookup_2).
  assert (is_byte y) as By by (rewrite Forall_forall in Hb; by eapply Hb, list_elem_of_lookup_2).
  unfold is_byte in *. apply Z.bits_inj'. intros m Hm.
  destruct (decide (8 <= m)).
  { rewrite <- (Z.mod_small x (2 ^ 8)), <- (Z.mod_small y (2 ^ 8))
      by (change (2 ^ 8) with 256; lia).
    by rewrite !Z.mod_pow2_bits_high by lia. }
  specialize (H (8 * Z.of_nat i + (7 - m)) ltac:(lia)). unfold bit_at in H.
  rewrite !nth_lookup in H.
  replace ((8 * Z.of_nat i + (7 - m)) / 8) with (Z.of_nat i) in H
    by (apply Z.div_unique with (7 - m); lia).
  replace ((8 * Z.of_nat i + (7 - m)) mod 8) with (7 - m) in H
    by (apply Z.mod_unique with (Z.of_nat i); lia).
  rewrite Nat2Z.id, Hx, Hy in H. cbn in H. by replace (7 - (7 - m)) with m in H by lia.
Qed.

(** *** Reading an index *)

Lemma index_loop_spec bits i k b idx :
  0 <= b -> b + Z.of_nat k <= 11 -> 0 <= idx < 2 ^ b ->
  let r := index_loop k bits i b idx in
  0 <= r < 2 ^ (b + Z.of_nat k) /\
  forall j, 0 <= j -> Z.testbit r j =
    if j <? Z.of_nat k then bit_at bits (i * 11 + b + (Z.of_nat k - 1 - j))
    else Z.testbit idx (j - Z.of_nat k).
Proof.
  revert b idx; induction k as [|k IH]; intros b idx Hb Hk Hi r.
  { subst r. cbn [index_loop]. rewrite Z.add_0_r. split; [done|]. intros j Hj.
    rewrite (proj2 (Z.ltb_ge j _)) by lia. f_equal. lia. }
  subst r. cbn [index_loop].
  set (bit := bit_at bits (i * 11 + b)).
  assert (wrap_u32 (Z.lor (Z.shiftl idx 1) (get_bit bits (i * 11 + b)))
          = 2 * idx + Z.b2z bit) as ->.
  { rewrite get_bit_at. fold bit. rewrite lor_shiftl_add by (destruct bit; cbn; lia).
    pose proof (Z.pow_le_mono_r 2 b 10). unfold wrap_u32.
    rewrite Z.mod_small; [lia|]. destruct bit; cbn; lia. }
  destruct (IH (b + 1) (2 * idx + Z.b2z bit)) as [Hr Hj]; [lia|lia| |].
  { rewrite Z.pow_add_r by lia. destruct bit; cbn; lia. }
  split; [by replace (b + Z.of_nat (S k)) with (b + 1 + Z.of_nat k) by lia|].
  intros j Hj0. rewrite Hj by lia.
  destruct (Z.ltb_spec j (Z.of_nat k)).
  { rewrite (proj2 (Z.ltb_lt j _)) by lia. f_equal. lia. }
  destruct (Z.ltb_spec j (Z.of_nat (S k))).
  - replace (j - Z.of_nat k) with 0 by lia. rewrite Z.testbit_0_r.
    unfold bit. f_equal. lia.
  - replace (j - Z.of_nat k) with (Z.succ (j - Z.of_nat (S k))) by lia.
    by rewrite Z.testbit_succ_r by lia.
Qed.

Lemma read_index_spec bits i :
  0 <= read_index bits i < 2048 /\
  forall b, 0 <= b < 11 ->
    Z.testbit (read_index bits i) (10 - b) = bit_at bits (i * 11 + b).
Proof.
  destruct (index_loop_spec bits i 11 0 0) as [Hr Hb]; [lia..|].
  split; [exact Hr|]. intros b Hb'. unfold read_index. rewrite Hb by lia.
  rewrite (proj2 (Z.ltb_lt _ _)) by lia. f_equal. lia.
Qed.

(** *** Packing an index *)

Lemma pack_loop_spec k bits n idx b :
  0 <= n -> 0 <= b -> b + Z.of_nat k <= 11 -> 0 <= idx ->
  n * 11 + b + Z.of_nat k <= 8 * Z.of_nat (length bits) ->
  length (pack_loop k bits n idx b) = length bits /\
  forall j, 0 <= j -> bit_at (pack_loop k bits n idx b) j =
    bit_at bits j || ((n * 11 + b <=? j) && (j <? n * 11 + b + Z.of_nat k) &&
                      Z.testbit idx (10 - (j - n * 11))).
Proof.
  intros Hn. revert bits b; induction k as [|k IH]; intros bits b Hb Hk Hidx Hlen; cbn [pack_loop].
  { split; [done|]. intros j Hj.
    destruct (Z.leb_spec (n * 11 + b) j), (Z.ltb_spec j (n * 11 + b + Z.of_nat 0)); try lia;
      by rewrite orb_false_r. }
  rewrite land_1, Z.shiftr_spec, Z.add_0_l by lia.
  set (bits1 := if Z.b2z _ =? 0 then _ else _).
  assert (length bits1 = length bits) as Hl1
    by (unfold bits1; case_match; [done|apply put_bit_length]).
  destruct (IH bits1 (b + 1)) as [Hl Hj]; [lia|lia|done|rewrite Hl1; lia|].
  split; [by rewrite Hl|]. intros j Hj0. rewrite Hj by done.
  assert (bit_at bits1 j = bit_at bits j || ((j =? n * 11 + b) && Z.testbit idx (10 - b))) as ->.
  { unfold bits1. destruct (Z.testbit idx (10 - b)); cbn [Z.b2z Z.eqb].
    - rewrite put_bit_at by lia. by rewrite andb_true_r, orb_comm.
    - by rewrite andb_false_r, orb_false_r. }
  rewrite <- orb_assoc. f_equal.
  destruct (Z.eqb_spec j (n * 11 + b)) as [->|].
  - rewrite (proj2 (Z.leb_gt (n * 11 + (b + 1)) _)) by lia.
    cbn [andb]. rewrite orb_false_r.
    rewrite (proj2 (Z.leb_le (n * 11 + b) _)), (proj2 (Z.ltb_lt (n * 11 + b) _)) by lia.
    cbn [andb]. f_equal. lia.
  - cbn [andb orb]. f_equal. lia.
Qed.

Lemma pack_index_spec bits n idx :
  0 <= n -> 0 <= idx -> 11 * (n + 1) <= 8 * Z.of_nat (length bits) ->
  length (pack_index bits n idx) = length bits /\
  forall j, 0 <= j -> bit_at (pack_index bits n idx) j =
    bit_at bits j || ((n * 11 <=? j) && (j <? n * 11 + 11) && Z.testbit idx (10 - (j - n * 11))).
Proof.
  intros Hn Hi Hl. destruct (pack_loop_spec 11 bits n idx 0) as [H1 H2]; [lia..|].
  split; [exact H1|]. intros j Hj. unfold pack_index. rewrite H2 by done.
  by rewrite Z.add_0_r.
Qed.

Lemma lor_byte x y : is_byte x -> is_byte y -> is_byte (Z.lor x y).
Proof.
  unfold is_byte. intros Hx Hy.
  assert (Z.lor x y = Z.lor x y mod 2 ^ 8) as ->; [|by apply Z.mod_pos_bound].
  apply Z.bits_inj'. intros m Hm. destruct (decide (m < 8)).
  - by rewrite Z.mod_pow2_bits_low by lia.
  - rewrite Z.mod_pow2_bits_high, Z.lor_spec by lia.
    rewrite <- (Z.mod_small x (2 ^ 8)), <- (Z.mod_small y (2 ^ 8))
      by (change (2 ^ 8) with 256; lia).
    by rewrite !Z.mod_pow2_bits_high by lia.
Qed.

Lemma put_bit_bytes bits k : Forall is_byte bits -> Forall is_byte (put_bit bits k).
Proof.
  intros H. apply Forall_lookup_2. intros i x Hx. unfold put_bit in Hx.
  rewrite land_7 in Hx. pose proof (Z.mod_pos_bound k 8).
  destruct (decide (Z.to_nat (Z.shiftr k 3) = i)) as [<-|Hne].
  - rewrite list_lookup_alter_eq in Hx. destruct (bits !! _) as [y|] eqn:Hy; [|done].
    cbn in Hx. simplify_eq. assert (is_byte y) as By by (by eapply Forall_lookup_1).
    rewrite shiftr_128 by lia.
    apply lor_byte; [exact By|]. unfold is_byte.
    pose proof (Z.pow_pos_nonneg 2 (7 - k mod 8)).
    pose proof (Z.pow_lt_mono_r 2 (7 - k mod 8) 8). lia.
  - rewrite list_lookup_alter_ne in Hx by done. by eapply Forall_lookup_1.
Qed.

Lemma pack_index_bytes bits n idx : Forall is_byte bits -> Forall is_byte (pack_index bits n idx).
Proof.
  unfold pack_index. generalize 11%nat, 0. intros k. revert bits.
  induction k as [|k IH]; intros bits b H; cbn [pack_loop]; [done|].
  apply IH. case_match; [done|by apply put_bit_bytes].
Qed.

(** ** Words *)

(** The words of a text, separated by any white space. *)
Fixpoint words_of (s : string) : list string :=
  match s with
  | EmptyString => []
  | String c s' =>
      if is_space c then words_of s'
      else
        match s' with
        | EmptyString => [String c EmptyString]
        | String c' _ =>
            if is_space c' then String c EmptyString :: words_of s'
            else match words_of s' with
                 | [] => [String c EmptyString]
                 | w :: ws => String c w :: ws
                 end
        end
  end.

Lemma words_of_eq c s :
  words_of (String c s) =
    if is_space c then words_of s
    else match s with
         | EmptyString => [String c EmptyString]
         | String c' _ =>
             if is_space c' then String c EmptyString :: words_of s
             else match words_of s with
                  | [] => [String c EmptyString]
                  | w :: ws => String c w :: ws
                  end
         end.
Proof. reflexivity. Qed.

Lemma skip_space_length s : (String.length (skip_space s) <= String.length s)%nat.
Proof. induction s as [|c s IH]; cbn; [done|]. case_match; cbn; lia. Qed.

Lemma take_word_length s w r :
  take_word s = (w, r) -> (String.length w + String.length r = String.length s)%nat.
Proof.
  revert w r; induction s as [|c s IH]; intros w r; cbn; [by intros [= <- <-]|].
  case_match; [by intros [= <- <-]|].
  destruct (take_word s) as [w' r']. intros [= <- <-]. cbn. by rewrite (IH w' r').
Qed.

(** A text that begins with a word begins with that word. *)
Lemma words_of_take c s w r :
  is_space c = false -> take_word (String c s) = (w, r) -> words_of (String c s) = w :: words_of r.
Proof.
  revert c w r; induction s as [|c' s IH]; intros c w r Hc.
  { cbn. rewrite Hc. by intros [= <- <-]. }
  remember (String c' s) as t eqn:Et. cbn [take_word words_of]. rewrite Hc. subst t.
  destruct (is_space c') eqn:E.
  - cbn [take_word]. rewrite E. intros [= <- <-]. done.
  - destruct (take_word (String c' s)) as [w' r'] eqn:Et. intros [= <- <-].
    by rewrite (IH _ _ _ E Et).
Qed.

Lemma words_of_skip s : words_of (skip_space s) = words_of s.
Proof. induction s as [|c s IH]; [done|]. cbn. destruct (is_space c) eqn:E; [done|]. cbn. by rewrite E. Qed.

Lemma skip_space_head s c t : skip_space s = String c t -> is_space c = false.
Proof. induction s as [|d s IH]; cbn; [done|]. destruct (is_space d) eqn:E; [done|]. by intros [= <- <-]. Qed.

Lemma words_of_nonempty c s : is_space c = false -> words_of (String c s) <> [].
Proof.
  intros Hc. destruct (take_word (String c s)) as [w r] eqn:E.
  by rewrite (words_of_take _ _ _ _ Hc E).
Qed.

Lemma words_of_app s c t :
  is_space c = true -> words_of (s +:+ String c t) = words_of s ++ words_of t.
Proof.
  intros Hc. induction s as [|a s IH].
  { change (EmptyString +:+ String c t) with (String c t). cbn [words_of]. by rewrite Hc. }
  rewrite append_cons. destruct (is_space a) eqn:Ea.
  { cbn [words_of]. rewrite Ea. exact IH. }
  destruct s as [|b s].
  { change (EmptyString +:+ String c t) with (String c t) in *.
    cbn [words_of] in *. rewrite Ea, Hc. rewrite Hc in IH. done. }
  rewrite append_cons in *. pose proof (words_of_nonempty b s) as Hne.
  rewrite !(words_of_eq a), Ea. destruct (is_space b); [by rewrite IH|].
  rewrite IH. destruct (words_of (String b s)); [by destruct (Hne eq_refl)|done].
Qed.

(** The list's words: three to eight letters. *)
Definition plain_word (w : string) : bool :=
  (3 <=? strlen w) && (strlen w <=? 8) && string_forallb (fun c => negb (isspace c)) w.
Lemma wordlist_plain : forallb plain_word ehem_bip39_wordlist_en = true.
Proof. vm_compute. reflexivity. Qed.

Lemma word_at_plain i : 0 <= i < 2048 -> plain_word (word_at ehem_bip39_wordlist_en i) = true.
Proof.
  intros Hi. destruct (lookup_lt_is_Some_2 ehem_bip39_wordlist_en (Z.to_nat i)) as [c Hc].
  { rewrite wordlist_length. lia. }
  unfold word_at. rewrite (nth_lookup_Some _ _ _ _ Hc).
  pose proof wordlist_plain as H. rewrite forallb_forall in H. apply H.
  apply list_elem_of_In. by eapply list_elem_of_lookup_2.
Qed.

#[local] Opaque ehem_bip39_wordlist_en.

Lemma words_of_word c s :
  string_forallb (fun c => negb (isspace c)) (String c s) = true ->
  words_of (String c s) = [String c s].
Proof.
  revert c; induction s as [|d s IH]; intros c; cbn [string_forallb].
  { unfold words_of, is_space. by destruct (isspace _). }
  intros [Hc H]%andb_prop. specialize (IH d H). rewrite words_of_eq, IH.
  cbn [string_forallb] in H. apply andb_prop in H as [Hd _]. unfold is_space.
  by destruct (isspace (byte_of_ascii c)), (isspace (byte_of_ascii d)).
Qed.

Lemma words_of_plain w : plain_word w = true -> words_of w = [w].
Proof.
  unfold plain_word. intros [[H _]%andb_prop Hs]%andb_prop.
  destruct w as [|c w]; [done|]. by apply words_of_word.
Qed.

(** ** The scan *)

Definition add_index (st : scan) (i : Z) : scan :=
  scan_add st (word_at ehem_bip39_wordlist_en i) i.

Definition in_list (i : Z) : Prop := 0 <= i < 2048.

Lemma scan_step fuel p st c s :
  skip_space p = String c s ->
  scan_words (S fuel) p st =
    let (w, rest) := take_word (String c s) in
    if sc_n st =? EHEM_BIP39_WORDS then Some (inr "more than 24 words"%string)
    else
      match (if (3 <=? strlen w) && (strlen w <=? 8) then word_index w else Some (-1)) with
      | None => None
      | Some idx =>
          if idx <? 0 then Some (inr (not_in_list (sc_n st) w))
          else scan_words fuel rest (scan_add st w idx)
      end.
Proof. intros H. cbn [scan_words]. by rewrite H. Qed.

Lemma scan_end fuel p st : skip_space p = EmptyString -> scan_words (S fuel) p st = Some (inl st).
Proof. intros H. cbn [scan_words]. by rewrite H. Qed.

(** List words are scanned into their indices. *)
Lemma scan_accepts ixs fuel p st :
  words_of p = map (word_at ehem_bip39_wordlist_en) ixs -> Forall in_list ixs ->
  0 <= sc_n st -> sc_n st + Z.of_nat (length ixs) <= 24 ->
  (String.length p < fuel)%nat ->
  scan_words fuel p st = Some (inl (fold_left add_index ixs st)).
Proof.
  revert fuel p st; induction ixs as [|i ixs IH]; intros fuel p st Hw Hi Hn Hc Hf;
    (destruct fuel as [|fuel]; [lia|]); rewrite <- words_of_skip in Hw;
    pose proof (skip_space_length p) as Hl.
  - destruct (skip_space p) as [|c s] eqn:E; [by apply scan_end|].
    by destruct (words_of_nonempty c s (skip_space_head _ _ _ E)).
  - destruct (skip_space p) as [|c s] eqn:E; [done|]. rewrite (scan_step _ _ _ _ _ E).
    pose proof (skip_space_head _ _ _ E) as Hsp.
    destruct (take_word (String c s)) as [w rest] eqn:Et.
    rewrite (words_of_take _ _ _ _ Hsp Et) in Hw. cbn [map] in Hw. injection Hw as -> Hw.
    apply Forall_cons in Hi as [Hi His].
    pose proof (word_at_plain i Hi) as Hp. unfold plain_word in Hp.
    apply andb_prop in Hp as [Hp _]. apply take_word_length in Et.
    rewrite Hp, word_index_at by done. unfold EHEM_BIP39_WORDS. cbn [length] in *.
    rewrite (proj2 (Z.eqb_neq (sc_n st) 24)), (proj2 (Z.ltb_ge i 0)) by (unfold in_list in Hi; lia).
    apply andb_prop in Hp as [Hp _]. unfold strlen in Hp.
    apply IH; cbn [sc_n scan_add]; [done|done|lia|lia|cbn [String.length] in *; lia].
Qed.

(** Whatever the text, the scan ends; a finished scan read only list words. *)
Lemma scan_returns fuel p st :
  (String.length p < fuel)%nat -> 0 <= sc_n st <= 24 ->
  exists r, scan_words fuel p st = Some r /\
    forall st', r = inl st' ->
      exists ixs, Forall in_list ixs /\ words_of p = map (word_at ehem_bip39_wordlist_en) ixs /\
        st' = fold_left add_index ixs st /\ sc_n st + Z.of_nat (length ixs) <= 24.
Proof.
  revert p st; induction fuel as [|fuel IH]; intros p st Hf Hn; [lia|].
  pose proof (skip_space_length p) as Hl. rewrite <- words_of_skip.
  destruct (skip_space p) as [|c s] eqn:E.
  { rewrite scan_end by done. eexists. split; [done|]. intros st' [= <-].
    exists []. split_and!; [done|done|done|cbn; lia]. }
  rewrite (scan_step _ _ _ _ _ E). pose proof (skip_space_head _ _ _ E) as Hsp.
  destruct (take_word (String c s)) as [w rest] eqn:Et.
  rewrite (words_of_take _ _ _ _ Hsp Et). apply take_word_length in Et.
  destruct (Z.eqb_spec (sc_n st) EHEM_BIP39_WORDS) as [|H24]; [by eexists|].
  unfold EHEM_BIP39_WORDS in H24.
  destruct ((3 <=? strlen w) && (strlen w <=? 8)) eqn:Hlen; [|by eexists].
  destruct (word_index_spec w) as (r & -> & [[Hr Hw]|[-> _]]); [|by eexists].
  rewrite (proj2 (Z.ltb_ge r 0)) by lia. unfold strlen in Hlen.
  destruct (IH rest (scan_add st w r)) as (r' & Hr' & Hacc);
    [cbn [String.length] in *; lia|cbn; lia|].
  exists r'. split; [done|]. intros st' Hst.
  destruct (Hacc st' Hst) as (ixs & H1 & H2 & H3 & H4).
  assert (w = word_at ehem_bip39_wordlist_en r) as Hwr
    by (unfold word_at; by rewrite (nth_lookup_Some _ _ _ _ Hw)).
  exists (r :: ixs). cbn [map fold_left]. rewrite <- Hwr. split_and!.
  - by constructor.
  - by rewrite H2.
  - unfold add_index at 2. by rewrite <- Hwr.
  - cbn in H4 |- *. lia.
Qed.

(** What a scan accumulates: the count, the text, the bits. *)
Lemma fold_scan_n ixs st : sc_n (fold_left add_index ixs st) = sc_n st + Z.of_nat (length ixs).
Proof. revert st; induction ixs as [|i ixs IH]; intros st; cbn; [lia|]. rewrite IH. cbn. lia. Qed.

(** The indices of words [i], [i + 1], ... of a bit buffer. *)
Fixpoint indices (bits : bytes) (i : Z) (k : nat) : list Z :=
  match k with O => [] | S k => read_index bits i :: indices bits (i + 1) k end.

Lemma indices_length bits i k : length (indices bits i k) = k.
Proof. revert i; induction k as [|k IH]; intros i; [done|]. cbn. by rewrite IH. Qed.
Lemma indices_nth bits i k m :
  (m < k)%nat -> nth m (indices bits i k) 0 = read_index bits (i + Z.of_nat m).
Proof.
  revert i m; induction k as [|k IH]; intros i [|m] H; [lia..| |].
  - cbn [indices nth]. by rewrite Z.add_0_r.
  - cbn [indices nth]. rewrite IH by lia.
    by replace (i + 1 + Z.of_nat m) with (i + Z.of_nat (S m)) by lia.
Qed.
Lemma indices_in_list bits i k : Forall in_list (indices bits i k).
Proof.
  revert i; induction k as [|k IH]; intros i; constructor; [apply read_index_spec|apply IH].
Qed.

Lemma fold_scan_canon bits k st :
  sc_canon (fold_left add_index (indices bits (sc_n st) k) st)
  = encode_words k bits (sc_n st) (sc_canon st).
Proof.
  revert st; induction k as [|k IH]; intros st; [done|].
  exact (IH (add_index st (read_index bits (sc_n st)))).
Qed.

Lemma fold_scan_bits ixs st :
  0 <= sc_n st -> Forall in_list ixs ->
  11 * (sc_n st + Z.of_nat (length ixs)) <= 8 * Z.of_nat (length (sc_bits st)) ->
  Forall is_byte (sc_bits st) ->
  let st' := fold_left add_index ixs st in
  length (sc_bits st') = length (sc_bits st) /\ Forall is_byte (sc_bits st') /\
  forall j, 0 <= j -> bit_at (sc_bits st') j =
    bit_at (sc_bits st) j ||
    ((11 * sc_n st <=? j) && (j <? 11 * (sc_n st + Z.of_nat (length ixs))) &&
     Z.testbit (nth (Z.to_nat (j / 11 - sc_n st)) ixs 0) (10 - j mod 11)).
Proof.
  revert st; induction ixs as [|x ixs IH]; intros st Hn Hx Hl Hb st'; subst st'.
  { cbn [fold_left]. split_and!; [done..|]. intros j Hj.
    destruct (Z.leb_spec (11 * sc_n st) j),
      (Z.ltb_spec j (11 * (sc_n st + Z.of_nat (length (@nil Z))))); cbn [length] in *; try lia;
      by rewrite orb_false_r. }
  apply Forall_cons in Hx as [Hx Hxs]. unfold in_list in Hx. cbn [fold_left length] in *.
  destruct (pack_index_spec (sc_bits st) (sc_n st) x) as [Pl Pb]; [lia..|].
  destruct (IH (add_index st x)) as (Il & Iy & Ib); cbn [sc_n sc_bits scan_add add_index];
    [lia|done|rewrite Pl; lia|by apply pack_index_bytes|].
  cbn [sc_n sc_bits scan_add add_index] in *.
  split_and!; [by rewrite Il|done|]. intros j Hj. rewrite Ib, Pb by done.
  rewrite <- orb_assoc. f_equal.
  pose proof (Z.div_mod j 11). pose proof (Z.mod_pos_bound j 11).
  destruct (decide (j / 11 = sc_n st)) as [E|E].
  - rewrite (proj2 (Z.leb_gt (11 * (sc_n st + 1)) j)) by lia.
    rewrite E, Z.sub_diag. cbn [nth Z.to_nat andb].
    rewrite orb_false_r. f_equal; [|f_equal; lia]. f_equal; lia.
  - destruct (Z.leb_spec (sc_n st * 11) j), (Z.ltb_spec j (sc_n st * 11 + 11)); try lia;
      cbn [andb orb]; rewrite ?andb_false_r; cbn [andb orb].
    destruct (Z.leb_spec (11 * (sc_n st + 1)) j), (Z.leb_spec (11 * sc_n st) j); try lia.
    replace (Z.to_nat (j / 11 - sc_n st)) with (S (Z.to_nat (j / 11 - (sc_n st + 1)))) by lia.
    cbn [nth andb]. f_equal. f_equal. lia.
Qed.

(** The text the encoder writes: its words, and its length. *)
Lemma plain_length w : plain_word w = true -> strlen w <= 8.
Proof. unfold plain_word. intros [[_ H]%andb_prop _]%andb_prop. lia. Qed.

Lemma encode_words_words k bits i out :
  (i = 0 -> out = EmptyString) -> 0 <= i ->
  words_of (encode_words k bits i out)
  = words_of out ++ map (word_at ehem_bip39_wordlist_en) (indices bits i k).
Proof.
  revert i out; induction k as [|k IH]; intros i out Hout Hi; cbn [encode_words indices map].
  { by rewrite app_nil_r. }
  pose proof (word_at_plain _ (proj1 (read_index_spec bits i))) as Hw%words_of_plain.
  rewrite IH by lia. revert Hw. generalize (word_at ehem_bip39_wordlist_en (read_index bits i)).
  intros w Hw.
  rewrite cons_middle, app_assoc. f_equal.
  destruct (Z.eqb_spec i 0) as [->|].
  - rewrite Hout by done. exact Hw.
  - change (" " +:+ w) with (String " " w). by rewrite words_of_app, Hw.
Qed.

Lemma encode_words_length k bits i out :
  0 <= i -> strlen out <= Z.max 0 (9 * i - 1) ->
  strlen (encode_words k bits i out) <= Z.max 0 (9 * (i + Z.of_nat k) - 1).
Proof.
  revert i out; induction k as [|k IH]; intros i out Hi Ho; cbn [encode_words];
    [by rewrite Z.add_0_r|].
  pose proof (word_at_plain _ (proj1 (read_index_spec bits i))) as Hw%plain_length.
  revert Hw. generalize (word_at ehem_bip39_wordlist_en (read_index bits i)). intros w Hw.
  eapply Z.le_trans; [apply IH; [lia|]|lia].
  unfold strlen in *. rewrite !string_length_app.
  destruct (Z.eqb_spec i 0); cbn [String.length]; lia.
Qed.

Lemma start_bits j : bit_at (sc_bits scan_start) j = false.
Proof.
  unfold bit_at, scan_start, sc_bits. rewrite nth_repeat. apply Z.testbit_0_l.
Qed.

(** A scan of the words of a 33-byte buffer gives back the buffer. *)
Lemma fold_scan_roundtrip bits :
  length bits = 33%nat -> Forall is_byte bits ->
  sc_bits (fold_left add_index (indices bits 0 24) scan_start) = bits.
Proof.
  intros Hl Hb.
  destruct (fold_scan_bits (indices bits 0 24) scan_start) as (L & B & H);
    [done|apply indices_in_list|rewrite indices_length; done|by repeat constructor|].
  apply bits_ext; [by rewrite L, Hl|done|done|]. intros j Hj. rewrite L in Hj.
  cbn [sc_bits scan_start length] in Hj. rewrite repeat_length in Hj.
  change (Z.of_nat (Z.to_nat BIP39_BYTES)) with 33 in Hj.
  rewrite H, indices_length by lia. cbn [sc_n scan_start].
  pose proof (Z.div_mod j 11). pose proof (Z.mod_pos_bound j 11).
  assert (0 <= j / 11 < 24) by (split; [apply Z.div_pos|apply Z.div_lt_upper_bound]; lia).
  rewrite start_bits.
  rewrite (proj2 (Z.leb_le (11 * 0) j)), (proj2 (Z.ltb_lt j _)) by lia. cbn [andb orb].
  rewrite indices_nth by lia. rewrite Z.sub_0_r, Z2Nat.id, Z.add_0_l by lia.
  rewrite (proj2 (read_index_spec bits (j / 11))) by lia. f_equal. lia.
Qed.

(** And the words read from a finished scan's buffer are the words scanned. *)
Lemma scan_fold_roundtrip ixs :
  length ixs = 24%nat -> Forall in_list ixs ->
  indices (sc_bits (fold_left add_index ixs scan_start)) 0 24 = ixs.
Proof.
  intros Hl Hi.
  destruct (fold_scan_bits ixs scan_start) as (L & B & H);
    [done|done|rewrite Hl; done|by repeat constructor|].
  set (bits := sc_bits _) in *. apply nth_ext with 0 0; [by rewrite indices_length, Hl|].
  rewrite indices_length. intros m Hm. rewrite indices_nth, Z.add_0_l by done.
  destruct (read_index_spec bits (Z.of_nat m)) as [Hr Hb].
  assert (in_list (nth m ixs 0)) as Hx.
  { rewrite Forall_forall in Hi. apply Hi, list_elem_of_In, nth_In. lia. }
  unfold in_list in Hx. change 2048 with (2 ^ 11) in *. apply Z.bits_inj'. intros q Hq.
  destruct (decide (q < 11)).
  - replace q with (10 - (10 - q)) by lia. rewrite Hb, H by lia.
    cbn [sc_n scan_start]. rewrite start_bits.
    replace ((Z.of_nat m * 11 + (10 - q)) / 11) with (Z.of_nat m)
      by (apply Z.div_unique with (10 - q); lia).
    replace ((Z.of_nat m * 11 + (10 - q)) mod 11) with (10 - q)
      by (apply Z.mod_unique with (Z.of_nat m); lia).
    rewrite (proj2 (Z.leb_le _ _)), (proj2 (Z.ltb_lt _ _)) by lia.
    by rewrite Z.sub_0_r, Nat2Z.id.
  - rewrite <- (Z.mod_small (read_index _ _) (2 ^ 11)), <- (Z.mod_small (nth m ixs 0) (2 ^ 11)) by done.
    by rewrite !Z.mod_pow2_bits_high by lia.
Qed.

(** ** The calls return *)

Section Totals.
Context {P : Platform} (b : bool).

Lemma total_fail_if {A} c rc msg : total b (fail_if (A:=A) c rc msg).
Proof. unfold fail_if. solve_total. Qed.
Lemma total_bip39_generate out cap : total b (ehem_bip39_generate out cap).
Proof. unfold ehem_bip39_generate, ehem_bip39_from_entropy. solve_total. Qed.
Lemma total_to_master_secret words secret cap :
  total b (ehem_bip39_to_master_secret words secret cap).
Proof.
  unfold ehem_bip39_to_master_secret. destruct words as [t|], secret; try solve [solve_total].
  destruct (scan_returns (S (String.length t)) t scan_start) as (r & -> & _); [lia|done|].
  solve_total.
Qed.
#[local] Hint Resolve total_fail_if total_bip39_generate total_to_master_secret : total.
Lemma total_mnemonic_generate ctx out : total b (ehem_mnemonic_generate ctx out).
Proof. unfold ehem_mnemonic_generate. solve_total. Qed.
Lemma total_master_secret ctx words secret :
  total b (ehem_master_secret_from_mnemonic ctx words secret).
Proof. unfold ehem_master_secret_from_mnemonic. solve_total. Qed.
End Totals.

#[export] Hint Resolve total_mnemonic_generate total_master_secret : total.

(** ** Theorems *)

(** SHA-256 is a function into byte strings, whenever it is computed. *)
Definition sha256_documented {P : Platform} : Prop :=
  (forall n n' x, p_sha256 n x = p_sha256 n' x) /\
  (forall n x, Forall is_byte (snd (p_sha256 n x))).

(** The outcome of the key derivation on a valid mnemonic. *)
Definition secret_of {P : Platform} (m : string) (n : nat) : bytes + ehem_rc :=
  match p_kdf_pbkdf2_sha512 n (bytes_of_string m) (bytes_of_string BIP39_SALT) BIP39_ROUNDS with
  | (EHEM_OK, seed) => inl (master_slice seed)
  | (rc, _) => inr rc
  end.

(** The hex digits of a buffer. *)
Definition nibbles (b : bytes) : list Z := concat (map (fun x => [x / 16; x mod 16]) b).

Lemma slice_step x y :
  is_byte x -> is_byte y ->
  let z := Z.land (Z.lor (Z.shiftl x 4) (Z.shiftr y 4)) 255 in z / 16 = x mod 16 /\ z mod 16 = y / 16.
Proof.
  unfold is_byte. intros Hx Hy. cbv zeta.
  change 255 with (Z.ones 8). rewrite Z.land_ones, (Z.shiftr_div_pow2 y) by lia.
  change (2 ^ 4) with 16. change (2 ^ 8) with 256.
  pose proof (Z.div_mod y 16). pose proof (Z.mod_pos_bound y 16).
  pose proof (Z.div_mod x 16). pose proof (Z.mod_pos_bound x 16).
  rewrite lor_shiftl_add by (change (2 ^ 4) with 16; lia). change (2 ^ 4) with 16.
  replace ((x * 16 + y / 16) mod 256) with (16 * (x mod 16) + y / 16)
    by (apply Z.mod_unique with (x / 16); lia).
  split; [symmetry; apply Z.div_unique with (y / 16)|symmetry; apply Z.mod_unique with (x mod 16)];
    lia.
Qed.

(** The slice is the hex of the seed from its second digit on. *)
Lemma slice_nibbles k seed :
  Forall is_byte seed -> (k < length seed)%nat ->
  nibbles (map (fun i => Z.land (Z.lor (Z.shiftl (nth i seed 0) 4)
                                       (Z.shiftr (nth (S i) seed 0) 4)) 255) (seq 0 k))
  = take (2 * k) (drop 1 (nibbles seed)).
Proof.
  revert seed; induction k as [|k IH]; intros [|x [|y seed]] Hs Hk; cbn [length] in Hk; try lia;
    [by rewrite ?take_0..|].
  apply Forall_cons in Hs as [Hx Hs]. pose proof (Forall_inv Hs) as Hy.
  destruct (slice_step x y Hx Hy) as [H1 H2].
  cbn [seq map]. rewrite <- seq_shift, map_map.
  specialize (IH (y :: seed) Hs ltac:(cbn; lia)). unfold nibbles in *. cbn [map concat app nth] in *.
  rewrite H1, H2. replace (2 * S k)%nat with (S (S (2 * k))) by lia. cbn [drop take] in *.
  do 2 f_equal. exact IH.
Qed.

(** C9: a generated mnemonic is always accepted back.  For 32 bytes of entropy
    the encoder fills at most the buffer sized for it ([EHEM_BIP39_MNEMONIC_CAP])
    with 24 words, and any text with the same words - whatever white space
    stands between and around them - passes every check of
    [ehem_bip39_to_master_secret] and derives from the canonical mnemonic. *)
Theorem bip39_roundtrip {P : Platform} (entropy : bytes) (m words : string) (w w' : world)
    (reason_cap : nat) (Hsha : sha256_documented)
    (He : length entropy = 32%nat) (Hb : Forall is_byte entropy)
    (Hgen : fst (ehem_bip39_from_entropy (Some entropy) true EHEM_BIP39_MNEMONIC_CAP w) = Ok m)
    (Hwords : words_of words = words_of m) :
  strlen m < EHEM_BIP39_MNEMONIC_CAP /\ length (words_of m) = 24%nat /\
  fst (ehem_bip39_to_master_secret (Some words) true reason_cap w')
  = Ok (""%string, secret_of m (S (w_tick w'))).
Proof.
  destruct Hsha as [Hdet Hbytes].
  unfold ehem_bip39_from_entropy, bind, ask, check_rc in Hgen. cbn [negb orb] in Hgen.
  rewrite (proj2 (Z.ltb_ge _ _)) in Hgen by lia. rewrite take_ge in Hgen by (rewrite He; done).
  destruct (p_sha256 (w_tick w) entropy) as [rc hash] eqn:Eh. cbn [fst snd] in Hgen.
  destruct rc; try discriminate.
  change (Z.to_nat EHEM_BIP39_WORDS) with 24%nat in Hgen. unfold ret in Hgen. cbn [fst] in Hgen.
  assert (m = encode_words 24 (entropy ++ [nth 0 hash 0]) 0 EmptyString) as -> by congruence.
  set (bits := entropy ++ [nth 0 hash 0]) in *.
  assert (length bits = 33%nat) as Hl by (unfold bits; by rewrite length_app, He).
  assert (Forall is_byte bits) as Hbits.
  { apply Forall_app. split; [done|]. constructor; [|done].
    pose proof (Hbytes (w_tick w) entropy) as Hh. rewrite Eh in Hh.
    destruct hash; [done|exact (Forall_inv Hh)]. }
  assert (words_of (encode_words 24 bits 0 EmptyString)
          = map (word_at ehem_bip39_wordlist_en) (indices bits 0 24)) as Hm
    by (rewrite encode_words_words; [reflexivity|reflexivity|lia]).
  clear Hgen. split; [|split].
  - pose proof (encode_words_length 24 bits 0 EmptyString ltac:(lia) ltac:(done)).
    unfold EHEM_BIP39_MNEMONIC_CAP, EHEM_BIP39_WORDS. lia.
  - by rewrite Hm, length_map, indices_length.
  - unfold ehem_bip39_to_master_secret.
    rewrite (scan_accepts (indices bits 0 24));
      [|by rewrite Hwords, Hm|apply indices_in_list|done|by rewrite indices_length|lia].
    rewrite fold_scan_n, indices_length, fold_scan_roundtrip by done.
    pose proof (fold_scan_canon bits 24 scan_start) as Hc. cbn [sc_n sc_canon scan_start] in Hc.
    rewrite Hc. cbn [sc_n scan_start].
    change (0 + Z.of_nat 24 =? EHEM_BIP39_WORDS) with true. cbn [negb].
    unfold bind, ask. cbn [fst snd w_tick].
    assert (take (Z.to_nat EHEM_BIP39_ENTROPY_SIZE) bits = entropy) as ->
      by (unfold bits; rewrite take_app_le, take_ge; rewrite ?He; done).
    rewrite (Hdet _ (w_tick w)), Eh. cbn [fst snd].
    assert (nth (Z.to_nat EHEM_BIP39_ENTROPY_SIZE) bits 0 = nth 0 hash 0) as ->
      by (change (Z.to_nat EHEM_BIP39_ENTROPY_SIZE) with 32%nat; rewrite <- He; apply nth_middle).
    rewrite Z.eqb_refl, bool_decide_eq_true_2, snprintf_trunc_nil by done. cbn [negb].
    unfold secret_of. destruct (p_kdf_pbkdf2_sha512 _ _ _ _) as [rc seed].
    destruct rc; reflexivity.
Qed.


Lemma fake_sha256_documented table : @sha256_documented (fake_platform table).
Proof. split; [done|]. intros n x. by repeat constructor. Qed.

(** The mnemonic of 32 bytes of 1 under the scripted platform, retyped with
    extra white space. *)
Definition spaced (m : string) : string := "  " +:+ m +:+ "  ".

Lemma bip39_roundtrip_witness :
  exists m, strlen m < EHEM_BIP39_MNEMONIC_CAP /\ length (words_of m) = 24%nat /\
  fst (@ehem_bip39_to_master_secret (fake_platform []) (Some (spaced m)) true 128
         (@fake_world [] [] true None))
  = Ok (""%string, secret_of (P := fake_platform []) m 1).
Proof.
  destruct (fst (@ehem_bip39_from_entropy (fake_platform []) (Some (repeat 1 32)) true
                  EHEM_BIP39_MNEMONIC_CAP (@fake_world [] [] true None))) as [m|rc|] eqn:E;
    [|exfalso; vm_compute in E; discriminate|exfalso; vm_compute in E; discriminate].
  exists m.
  apply (@bip39_roundtrip (fake_platform []) (repeat 1 32) m (spaced m)
           (@fake_world [] [] true None) (@fake_world [] [] true None) 128
           (fake_sha256_documented [])).
  - reflexivity.
  - by repeat constructor.
  - exact E.
  - vm_compute in E. injection E as <-. vm_compute. reflexivity.
Defined.

(** What a complete scan has collected: 33 bytes, the canonical text of their indices,
    and the words of the input. *)
Lemma scan_collected ixs :
  Forall in_list ixs -> sc_n (fold_left add_index ixs scan_start) = EHEM_BIP39_WORDS ->
  let st := fold_left add_index ixs scan_start in
  length (sc_bits st) = 33%nat /\ Forall is_byte (sc_bits st) /\
  sc_canon st = encode_words 24 (sc_bits st) 0 EmptyString /\
  words_of (encode_words 24 (sc_bits st) 0 EmptyString) = map (word_at ehem_bip39_wordlist_en) ixs.
Proof.
  intros Hin Hn st. assert (length ixs = 24%nat) as Hlen
    by (rewrite fold_scan_n in Hn; cbn in Hn; unfold EHEM_BIP39_WORDS in Hn; lia).
  pose proof (scan_fold_roundtrip ixs Hlen Hin) as Hix. fold st in Hix.
  destruct (fold_scan_bits ixs scan_start) as (L & B & _);
    [done|done|by rewrite Hlen|by repeat constructor|]. fold st in L, B.
  cbn [sc_bits scan_start] in L. rewrite repeat_length in L.
  pose proof (fold_scan_canon (sc_bits st) 24 scan_start) as Hc.
  cbn [sc_n sc_canon scan_start] in Hc. rewrite Hix in Hc. fold st in Hc.
  pose proof (encode_words_words 24 (sc_bits st) 0 EmptyString ltac:(done) ltac:(done)) as Hm.
  rewrite Hix in Hm. cbn [words_of app] in Hm. done.
Qed.

(** The last of 33 bytes is the checksum. *)
Lemma checksum_last (bits : bytes) :
  length bits = 33%nat -> bits = take 32 bits ++ [nth 32 bits 0].
Proof.
  intros L. rewrite <- (take_drop 32 bits) at 1. f_equal.
  assert (length (drop 32 bits) = 1%nat) as Hd by (rewrite length_drop, L; done).
  assert (nth 32 bits 0 = nth 0 (drop 32 bits) 0) as -> by (by rewrite nth_skipn).
  by destruct (drop 32 bits) as [|? [|]].
Qed.

(** C8: the parser accepts nothing else.  With no assumption on the library, a
    call that yields a secret was given - up to white space - the mnemonic the
    encoder writes for some 32 bytes of entropy, checksum included; the secret
    is then hex digits 2 to 65 of the PBKDF2 seed of that canonical text.  Every
    other call returns an error code, and none runs on for ever. *)
Theorem bip39_accepts_only {P : Platform} (words : option string) (out : bool)
    (reason_cap : nat) (w : world) :
  match fst (ehem_bip39_to_master_secret words out reason_cap w) with
  | Ok (reason, inl secret) =>
      reason = ""%string /\
      exists text entropy m seed,
        words = Some text /\ length entropy = 32%nat /\ Forall is_byte entropy /\
        fst (ehem_bip39_from_entropy (Some entropy) true EHEM_BIP39_MNEMONIC_CAP w) = Ok m /\
        words_of text = words_of m /\
        p_kdf_pbkdf2_sha512 (S (w_tick w)) (bytes_of_string m)
          (bytes_of_string BIP39_SALT) BIP39_ROUNDS = (EHEM_OK, seed) /\
        length secret = 32%nat /\
        (length seed = 64%nat -> Forall is_byte seed ->
         nibbles secret = take 64 (drop 1 (nibbles seed)))
  | Ok (_, inr rc) => rc <> EHEM_OK
  | _ => False
  end.
Proof.
  unfold ehem_bip39_to_master_secret.
  destruct words as [text|]; [|done]. destruct out; [|done].
  destruct (scan_returns (S (String.length text)) text scan_start) as (r & -> & Hacc);
    [lia|done|].
  destruct r as [st|why]; [|done].
  destruct (Hacc st eq_refl) as (ixs & Hin & Hwords & -> & _).
  destruct (Z.eqb_spec (sc_n (fold_left add_index ixs scan_start)) EHEM_BIP39_WORDS) as [Hn|];
    [|done]. cbn [negb].
  destruct (scan_collected ixs Hin Hn) as (L & B & Hc & Hm).
  revert L B Hc Hm. generalize (sc_bits (fold_left add_index ixs scan_start)),
    (sc_canon (fold_left add_index ixs scan_start)). intros bits canon L B Hc Hm.
  unfold bind, ask. destruct (p_sha256 (w_tick w) _) as [rc hash] eqn:Eh. cbn [fst snd w_tick].
  destruct (bool_decide_reflect (rc = EHEM_OK)) as [->|]; cbn [negb]; [|done].
  change (Z.to_nat EHEM_BIP39_ENTROPY_SIZE) with 32%nat in *.
  destruct (Z.eqb_spec (nth 0 hash 0) (nth 32 bits 0)) as [Hck|]; cbn [negb]; [|done].
  cbn [fst snd w_tick].
  destruct (p_kdf_pbkdf2_sha512 _ _ _ _) as [rc seed] eqn:Ek. cbn [fst snd ret].
  destruct (bool_decide_reflect (rc = EHEM_OK)) as [->|]; [|done].
  rewrite snprintf_trunc_nil. split; [done|].
  pose proof (checksum_last bits L) as Hbits. rewrite <- Hck in Hbits.
  exists text, (take 32 bits), (encode_words 24 bits 0 EmptyString), seed.
  split_and!.
  - done.
  - rewrite length_take, L. done.
  - by apply Forall_take.
  - unfold ehem_bip39_from_entropy, bind, ask. cbn [negb orb].
    rewrite (proj2 (Z.ltb_ge _ _)) by lia.
    change (Z.to_nat EHEM_BIP39_ENTROPY_SIZE) with 32%nat.
    rewrite take_take. cbn [Nat.min]. rewrite Eh. cbn [check_rc fst snd ret].
    by rewrite <- Hbits.
  - by rewrite Hwords, Hm.
  - by rewrite <- Hc.
  - unfold master_slice. by rewrite length_map, length_seq.
  - intros Hl Hb. unfold master_slice.
    apply (slice_nibbles 32 seed Hb). lia.
Qed.
