(* ===== verification/Bindings.v ===== *)
(** * What the protocol bindings share

    The files [src/proto_keymgmt.c], [proto_crypto.c], [proto_storage.c],
    [proto_system.c] and [proto_logger.c] repeat a handful of idioms: a body
    built member by member, a base64 response member decoded into a fresh
    buffer, the per-key scope, and the reading of an empty 200 as success.  Each
    idiom is one definition here; a binding is a composition of them. *)

From S2P Require Import Prelude Base64 Json World Logic Context Ejwt Proto Notify.

Open Scope hem_scope.

(** A [(pointer, length)] argument pair: the pointer may be NULL whatever the
    length says. *)
Record buf := { b_ptr : option bytes; b_len : Z }.

Definition no_buf : buf := {| b_ptr := None; b_len := 0 |}.
Definition buf_of (b : bytes) : buf := {| b_ptr := Some b; b_len := Z.of_nat (length b) |}.
Definition b_null (b : buf) : bool := match b_ptr b with None => true | Some _ => false end.
(** [ptr != NULL && len > 0] *)
Definition b_given (b : buf) : bool := negb (b_null b) && (0 <? b_len b).
(** [ptr == NULL && len != 0] *)
Definition b_dangling (b : buf) : bool := b_null b && negb (b_len b =? 0).
(** [len >= lo && len <= hi] *)
Definition b_within (lo hi : Z) (b : buf) : bool := (lo <=? b_len b) && (b_len b <=? hi).

(** The members of a request body, in the order they are added. *)
Inductive body_field :=
  | FieldStr (key val : string)
  | FieldB64 (key : string) (b : buf)
  | FieldInt (key : string) (v : Z)
  | FieldBool (key : string) (v : bool).

Definition opt_field (b : bool) (f : body_field) : list body_field :=
  if b then [f] else [].
Definition opt_str_field (key : string) (v : option string) : list body_field :=
  match v with Some v => [FieldStr key v] | None => [] end.

Section Bindings.
Context {P : Platform}.

(** [b64_dup] *)
Definition b64_dup (b : buf) : M (option string) :=
  let enc := ehem_b64_std_encoded_len (b_len b) in
  let* ok := malloc in
  ret (if ok then ehem_b64_std_encode (b_ptr b) (b_len b) false (enc + 1) else None).

Definition add_body_field (obj : json) (f : body_field) : M (option json) :=
  match f with
  | FieldStr k v => ehem_json_add_string obj k v
  | FieldB64 k b => let? s := b64_dup b in ehem_json_add_string obj k s
  | FieldInt k v => ehem_json_add_int64 obj k v
  | FieldBool k v => ehem_json_add_bool obj k v
  end.

Fixpoint add_body_fields (obj : json) (l : list body_field) : M (option json) :=
  match l with
  | [] => ret (Some obj)
  | f :: l => let? obj := add_body_field obj f in add_body_fields obj l
  end.

(** New object, the members, print; any NULL is "out of memory". *)
Definition build_body (l : list body_field) : M string :=
  let* body :=
    (let? obj := ehem_json_new_object in
     let? obj := add_body_fields obj l in
     ehem_json_print obj) in
  match body with Some b => ret b | None => out_of_memory end.

(** A refusal before anything is sent. *)
Definition arg_fail {A} (msg : string) : M A := ehem_ctx_fail EHEM_ERR_ARG 0 None msg.
Definition require (ok : bool) (msg : string) : M unit :=
  if ok then ret tt else arg_fail msg.

(** [snprintf(scope, cap, "keymgmt:use:%s", kid)] *)
Definition use_scope (cap : nat) (kid : string) : string :=
  snprintf_trunc cap ("keymgmt:use:" +:+ kid).

(** An OK, and the [EHEM_ERR_PROTOCOL] with status 200 the request path
    answers for an empty body, are success; [other] treats the rest. *)
Definition empty_200_ok (m : M string) (other : ehem_rc -> Z -> M unit) : M unit :=
  let* r := attempt m in
  match r with
  | inl _ => ehem_ctx_clear_error
  | inr rc =>
      let* e := ehem_last_error in
      if bool_decide (rc = EHEM_ERR_PROTOCOL) && (http_status e =? 200)
      then ehem_ctx_clear_error
      else other rc (http_status e)
  end.

(** [get_string(obj, key, &s) && s[0] != '\0'] *)
Definition nonempty_string (root : json) (key : string) : option string :=
  match ehem_json_get_string (Some root) key with
  | Some s => if is_empty s then None else Some s
  | None => None
  end.

(** [decode_opt_b64] of proto_keymgmt.c: [None] is the allocation failure. *)
Definition decode_opt_b64 (obj : jptr) (key : string) : M (option (option bytes)) :=
  match ehem_json_get_string obj key with
  | None => ret (Some None)
  | Some s =>
      if is_empty s then ret (Some None)
      else let* ok := malloc in
           if negb ok then ret None
           else ret (Some (std_decode s (strlen s)))
  end.

(** A required base64 member of a response, decoded into a fresh result. *)
Definition decode_into (b64 : string) (bad : string) : M bytes :=
  calloc_or_fail ;;;
  let* ok := malloc in
  if negb ok then out_of_memory
  else
    match std_decode b64 (strlen b64) with
    | None | Some [] => ehem_ctx_fail EHEM_ERR_PROTOCOL 200 None bad
    | Some b => ret b
    end.
End Bindings.

(** ** Lemmas *)

(** What [build_body] prints: the members in order, base64 members encoded. *)
Definition field_member (f : body_field) : option (string * json) :=
  match f with
  | FieldStr k v => Some (k, JString v)
  | FieldB64 k b =>
      s ← ehem_b64_std_encode (b_ptr b) (b_len b) false
            (ehem_b64_std_encoded_len (b_len b) + 1);
      Some (k, JString s)
  | FieldInt k v => Some (k, JNumber (double_of_int64 v))
  | FieldBool k v => Some (k, JBool v)
  end.

(** The runs of [empty_200_ok]. *)
Lemma empty_200_ok_run {P : Platform} m other (w : world) :
  empty_200_ok m other w =
    let '(o, w1) := m w in
    let e := World.last_error (w_ctx w1) in
    match o with
    | Ok _ => ehem_ctx_clear_error w1
    | Err rc =>
        if bool_decide (rc = EHEM_ERR_PROTOCOL) && (http_status e =? 200)
        then ehem_ctx_clear_error w1
        else other rc (http_status e) w1
    | Diverge => (Diverge, w1)
    end.
Proof.
  unfold empty_200_ok, bind, attempt, ehem_last_error.
  destruct (m w) as [[s|rc|] w1]; [done| |done]. cbn. by case_match.
Qed.

(** A call that is refused locally: [EHEM_ERR_ARG], and nothing is sent. *)
Section Refuses.
Context {P : Platform}.

Definition refuses {A} (m : M A) : Prop :=
  forall w, fst (m w) = Err EHEM_ERR_ARG /\ w_trace (snd (m w)) = w_trace w /\
            w_net (snd (m w)) = w_net w.

Lemma refuses_throw {A} : refuses (throw (A:=A) EHEM_ERR_ARG).
Proof. done. Qed.
Lemma refuses_fail {A} msg : refuses (arg_fail (A:=A) msg).
Proof. done. Qed.
Lemma refuses_clear {A} (k : M A) : refuses k -> refuses (ehem_ctx_clear_error ;;; k).
Proof. intros H w. apply (H (snd (ehem_ctx_clear_error w))). Qed.
Lemma refuses_require {A} ok msg (k : M A) :
  (ok = true -> refuses k) -> refuses (require ok msg ;;; k).
Proof. destruct ok; intros H; [by apply H|done]. Qed.
Lemma refuses_first {A B} (m : M A) (k : A -> M B) : refuses m -> refuses (bind m k).
Proof.
  intros H w. specialize (H w) as (H1 & H2). unfold bind.
  by destruct (m w) as [o w']; cbn in H1, H2; subst.
Qed.
End Refuses.

(** Discharge a refusal: step over what passes until the failing check. *)
Ltac solve_refuses :=
  repeat first
    [ apply refuses_throw | apply refuses_fail | apply refuses_clear
    | apply refuses_require; intros ?
    | congruence | case_match; simplify_eq ].

Section Frames.
Context {P : Platform} (R : relation world) (A : relation (option ehem_auth))
        `{!FrameRel R A}.

Lemma keeps_b64_dup b : keeps R (b64_dup b).
Proof. unfold b64_dup. solve_keeps. Qed.
#[local] Hint Resolve keeps_b64_dup : keeps.
Lemma keeps_add_body_field obj f : keeps R (add_body_field obj f).
Proof.
  unfold add_body_field, ehem_json_add_string, ehem_json_add_int64, ehem_json_add_bool.
  solve_keeps.
Qed.
Lemma keeps_add_body_fields l obj : keeps R (add_body_fields obj l).
Proof.
  revert obj; induction l as [|f l IH]; intros obj; [by eauto with keeps|].
  cbn. eapply keeps_bind; [apply _|apply keeps_add_body_field|].
  intros []; [apply IH|by eauto with keeps].
Qed.
#[local] Hint Resolve keeps_add_body_fields : keeps.
Lemma keeps_build_body l : keeps R (build_body l).
Proof. unfold build_body, ehem_json_new_object, ehem_json_print. solve_keeps. Qed.
Lemma keeps_arg_fail {B} msg : keeps R (arg_fail (A:=B) msg).
Proof. unfold arg_fail. solve_keeps. Qed.
#[local] Hint Resolve keeps_arg_fail : keeps.
Lemma keeps_require ok msg : keeps R (require ok msg).
Proof. unfold require. solve_keeps. Qed.
Lemma keeps_empty_200_ok m other :
  keeps R m -> (forall rc s, keeps R (other rc s)) -> keeps R (empty_200_ok m other).
Proof. intros. unfold empty_200_ok. solve_keeps. Qed.
Lemma keeps_decode_opt_b64 obj k : keeps R (decode_opt_b64 obj k).
Proof. unfold decode_opt_b64. solve_keeps. Qed.
Lemma keeps_decode_into s bad : keeps R (decode_into s bad).
Proof. unfold decode_into. solve_keeps. Qed.
End Frames.

Section Totals.
Context {P : Platform} (b : bool).

Lemma total_b64_dup x : total b (b64_dup x).
Proof. unfold b64_dup. solve_total. Qed.
#[local] Hint Resolve total_b64_dup : total.
Lemma total_add_body_field obj f : total b (add_body_field obj f).
Proof.
  unfold add_body_field, ehem_json_add_string, ehem_json_add_int64, ehem_json_add_bool.
  solve_total.
Qed.
Lemma total_add_body_fields l obj : total b (add_body_fields obj l).
Proof.
  revert obj; induction l as [|f l IH]; intros obj; [by eauto with total|].
  cbn. apply total_bind; [apply total_add_body_field|].
  intros []; [apply IH|by eauto with total].
Qed.
#[local] Hint Resolve total_add_body_fields : total.
Lemma total_build_body l : total b (build_body l).
Proof. unfold build_body, ehem_json_new_object, ehem_json_print. solve_total. Qed.
Lemma total_arg_fail {A} msg : total b (arg_fail (A:=A) msg).
Proof. unfold arg_fail. solve_total. Qed.
#[local] Hint Resolve total_arg_fail : total.
Lemma total_require ok msg : total b (require ok msg).
Proof. unfold require. solve_total. Qed.
Lemma total_empty_200_ok m other :
  total b m -> (forall rc s, total b (other rc s)) -> total b (empty_200_ok m other).
Proof. intros. unfold empty_200_ok. solve_total. Qed.
Lemma total_decode_opt_b64 obj k : total b (decode_opt_b64 obj k).
Proof. unfold decode_opt_b64. solve_total. Qed.
Lemma total_decode_into s bad : total b (decode_into s bad).
Proof. unfold decode_into. solve_total. Qed.
End Totals.

#[export] Hint Resolve keeps_b64_dup keeps_build_body keeps_arg_fail keeps_require
  keeps_empty_200_ok keeps_decode_opt_b64 keeps_decode_into keeps_request_json : keeps.
#[export] Hint Resolve total_b64_dup total_build_body total_arg_fail total_require
  total_empty_200_ok total_decode_opt_b64 total_decode_into : total.
