(* ===== verification/DeviceInit.v ===== *)
(** * Personalising a device: [ehem_device_init] ([src/proto_auth.c])

    The append-only parameter block, the [cfg] object and its JWT signed by the
    master key, the two requests of [/api/auth/init] and the session the
    context holds afterwards. *)

From S2P Require Import Prelude Base64 Json World Logic Context Ejwt Proto Checkin.
From S2P Require Import AuthState Notify Fake Bindings.

Open Scope hem_scope.

Definition AUTH_INIT_PATH : string := "/api/auth/init".
Definition EHEM_MASTER_SECRET_SIZE : nat := 32.

(** [abi_size] is what the caller's header said; the [int] flags are C truth
    values. *)
Record ehem_init_params := {
  ip_abi_size : Z;
  ip_passphrase : option string;
  ip_master_secret : option bytes;
  ip_user : option string;
  ip_email : option string;
  ip_hostname : option string;
  ip_ip : option string;
  ip_storage_mode : Z;
  ip_storage_disk0size : Z;
  ip_origin : option string;
  ip_dnsd : Z;
  ip_no_trusted_ts : Z;
  ip_no_trusted_backend : Z;
  ip_no_allow_keysearch : Z;
  ip_gen_csr : Z;
  ip_ctx_id : Z
}.

Definition SIZEOF_ehem_init_params : Z := 104.

Definition ehem_init_params_init : ehem_init_params :=
  {| ip_abi_size := SIZEOF_ehem_init_params; ip_passphrase := None; ip_master_secret := None;
     ip_user := None; ip_email := None; ip_hostname := None; ip_ip := None;
     ip_storage_mode := 0; ip_storage_disk0size := 0; ip_origin := None; ip_dnsd := 0;
     ip_no_trusted_ts := 0; ip_no_trusted_backend := 0; ip_no_allow_keysearch := 0;
     ip_gen_csr := 0; ip_ctx_id := 0 |}.

(** [memset] and the [memcpy] of [min(abi_size, sizeof p)] bytes: a field is
    read when it ends inside the caller's block (LP64 offsets; an [abi_size] is
    a [sizeof] of some version of the struct, so it cuts no field in two). *)
Definition init_params_read (p : ehem_init_params) : ehem_init_params :=
  let n := Z.min (ip_abi_size p) SIZEOF_ehem_init_params in
  let has e {A} (v d : A) := if e <=? n then v else d in
  {| ip_abi_size := ip_abi_size p;
     ip_passphrase := has 16 (ip_passphrase p) None;
     ip_master_secret := has 24 (ip_master_secret p) None;
     ip_user := has 32 (ip_user p) None;
     ip_email := has 40 (ip_email p) None;
     ip_hostname := has 48 (ip_hostname p) None;
     ip_ip := has 56 (ip_ip p) None;
     ip_storage_mode := has 60 (ip_storage_mode p) 0;
     ip_storage_disk0size := has 72 (ip_storage_disk0size p) 0;
     ip_origin := has 80 (ip_origin p) None;
     ip_dnsd := has 84 (ip_dnsd p) 0;
     ip_no_trusted_ts := has 88 (ip_no_trusted_ts p) 0;
     ip_no_trusted_backend := has 92 (ip_no_trusted_backend p) 0;
     ip_no_allow_keysearch := has 96 (ip_no_allow_keysearch p) 0;
     ip_gen_csr := has 100 (ip_gen_csr p) 0;
     ip_ctx_id := has 104 (ip_ctx_id p) 0 |}.

(** The six pointers a call cannot do without. *)
Record init_required := {
  ir_passphrase : string;
  ir_master_secret : bytes;
  ir_user : string;
  ir_email : string;
  ir_hostname : string;
  ir_ip : string
}.

Definition init_required_fields (p : ehem_init_params) : option init_required :=
  match ip_passphrase p, ip_master_secret p, ip_user p, ip_email p, ip_hostname p, ip_ip p with
  | Some pass, Some ms, Some user, Some email, Some hostname, Some ip =>
      Some {| ir_passphrase := pass; ir_master_secret := ms; ir_user := user;
              ir_email := email; ir_hostname := hostname; ir_ip := ip |}
  | _, _, _, _, _, _ => None
  end.

Record ehem_init_info := {
  ii_reboot_required : bool;
  ii_instanceid : string;
  ii_csr : option string;
  ii_genuine : option string
}.

(** The members of [cfg], in the order they are added. *)
Definition init_cfg_fields (p : ehem_init_params) (r : init_required)
    (master_b64 user_b64 : string) : list body_field :=
  [FieldStr "masterkey" master_b64; FieldStr "userkey" user_b64;
   FieldStr "user" (ir_user r); FieldStr "email" (ir_email r);
   FieldStr "hostname" (ir_hostname r); FieldStr "ip" (ir_ip r);
   FieldInt "storage_mode" (ip_storage_mode p);
   FieldInt "storage_disk0size" (ip_storage_disk0size p);
   FieldBool "dnsd" (negb (ip_dnsd p =? 0));
   FieldBool "trusted_ts" (ip_no_trusted_ts p =? 0);
   FieldBool "trusted_backend" (ip_no_trusted_backend p =? 0);
   FieldBool "allow_keysearch" (ip_no_allow_keysearch p =? 0);
   FieldStr "origin" (default "*" (ip_origin p));
   FieldInt "ctx" (ip_ctx_id p);
   FieldBool "gen_csr" (negb (ip_gen_csr p =? 0))].

Section DeviceInit.
Context {P : Platform}.

(** The object is linked into [root] first and filled in place. *)
Definition init_add_cfg (root : json) (p : ehem_init_params) (r : init_required)
    (master_b64 user_b64 : string) : M (option json) :=
  let? cfg := ehem_json_new_object in
  let? cfg := add_body_fields cfg (init_cfg_fields p r master_b64 user_b64) in
  ret (Some (json_add root "cfg" cfg)).

Definition build_init_body (jwt : string) : M (option string) := string_body [("init", jwt)].

Definition init_explain {A} (rc : ehem_rc) (leg : string) : M A :=
  let* e := ehem_last_error in
  let st := http_status e in
  let explained rc why : M A :=
    ehem_ctx_fail rc st None
      (AUTH_INIT_PATH +:+ " " +:+ leg +:+ ": HTTP " +:+ dec st +:+ " - " +:+ why) in
  if st =? 403 then explained EHEM_ERR_DEVICE "device RTC not set - run a check-in first"
  else if st =? 406 then explained rc "device already initialised - wipe it first"
  else if st =? 409 then explained rc "device self-test state is not 0 (fls_state)"
  else if st =? 400 then explained rc "cfg rejected - a field is missing or failed validation"
  else if st =? 401 then explained rc "init JWT rejected (signature or jti)"
  else throw rc.

(** Steps 2: both personas and the master's shared secret with the device. *)
Definition init_derive (r : init_required) (eid : string) (peer_pub : bytes)
  : M (bytes * string * string) :=
  let* seed := ask (fun n => p_kdf_pbkdf2_sha256 n (bytes_of_string (ir_passphrase r))
                               (bytes_of_string eid) AUTH_PBKDF2_ITERS) in
  let* seed := check_rc seed in
  let* user := ask (fun n => p_x25519_keypair_from_seed n seed) in
  let* (_, user_pub) := check_rc user in
  let* master := ask (fun n => p_x25519_keypair_from_seed n
                                 (take EHEM_MASTER_SECRET_SIZE (ir_master_secret r))) in
  let* (master_priv, master_pub) := check_rc master in
  let* shared := ask (fun n => p_x25519_shared n master_priv peer_pub) in
  let* shared := check_rc shared in
  match ehem_b64_std_encode (Some master_pub) (Z.of_nat EHEM_X25519_KEYSIZE) false 64,
        ehem_b64_std_encode (Some user_pub) (Z.of_nat EHEM_X25519_KEYSIZE) false 64 with
  | Some master_b64, Some user_b64 => ret (shared, master_b64, user_b64)
  | _, _ => throw EHEM_ERR_PROTOCOL
  end.

(** Step 3: the claims, printed. *)
Definition init_payload (p : ehem_init_params) (r : init_required) (jti spk : string)
    (exp now : Z) (master_b64 user_b64 : string) : M (option string) :=
  let? payload := ehem_json_new_object in
  let? payload := ehem_json_add_string payload "jti" jti in
  let? payload := ehem_json_add_string payload "aud" spk in
  let? payload := ehem_json_add_int64 payload "exp" exp in
  let? payload := ehem_json_add_int64 payload "iat" now in
  let? payload := ehem_json_add_string payload "iss" master_b64 in
  let? payload := init_add_cfg payload p r master_b64 user_b64 in
  ehem_json_print payload.

(** Steps 2 and 3: [time] is read whether or not the derivation worked. *)
Definition init_jwt (p : ehem_init_params) (r : init_required) (eid jti spk : string)
    (exp : Z) (peer_pub : bytes) : M string :=
  let* d := attempt (init_derive r eid peer_pub) in
  let* now := auth_now in
  match d with
  | inr rc => throw rc
  | inl (shared, master_b64, user_b64) =>
      let* payload_json := init_payload p r jti spk exp now master_b64 user_b64 in
      match payload_json with
      | None => throw EHEM_ERR_NOMEM
      | Some payload_json => ehem_ejwt_sign (Some EHEM_EJWT_HEADER) (Some payload_json) (Some shared)
      end
  end.

(** Step 5: the session for the new user persona, its bearer cached. *)
Definition init_session (passphrase token : string) : M unit :=
  ehem_login (Some passphrase) ;;;
  ehem_auth_cache_seed "system:config" token.

Definition opt_copy (obj : json) (key : string) : M (option string) :=
  match ehem_json_get_string (Some obj) key with
  | Some s => dup_str s
  | None => ret None
  end.

(** The copies of the optional texts may fail unnoticed, the UUID's may not. *)
Definition init_info (result : json) (instanceid : string) : M ehem_init_info :=
  calloc_or_fail ;;;
  let* uuid := dup_str instanceid in
  let* csr := opt_copy result "csr" in
  let* genuine := opt_copy result "genuine" in
  match uuid with
  | None => out_of_memory
  | Some uuid =>
      ret {| ii_reboot_required :=
               default false (ehem_json_get_bool (Some result) "reboot_required");
             ii_instanceid := uuid; ii_csr := csr; ii_genuine := genuine |}
  end.

Context `{Q : !Request}.

(** Steps 4 and 5, with the challenge in hand. *)
Definition init_commit (r : init_required) (jwt : string) (out : bool)
  : M (option ehem_init_info) :=
  let* body := build_init_body jwt in
  match body with
  | None => out_of_memory
  | Some body =>
      let* reply := attempt (ehem_proto_request_json EHEM_HTTP_POST AUTH_INIT_PATH
                               (Some body) None EHEM_TLS_REQ_DEFAULT) in
      match reply with
      | inr rc => init_explain rc "commit"
      | inl result =>
          match ehem_json_get_string (Some result) "token",
                ehem_json_get_string (Some result) "instanceid" with
          | Some token, Some instanceid =>
              init_session (ir_passphrase r) token ;;;
              if out then let* info := init_info result instanceid in ret (Some info)
              else ret None
          | _, _ =>
              ehem_ctx_fail EHEM_ERR_PROTOCOL 200 None
                (AUTH_INIT_PATH +:+ ": init reply lacks token/instanceid")
          end
      end
  end.

Definition init_exchange (p : ehem_init_params) (r : init_required) (out : bool)
  : M (option ehem_init_info) :=
  let* ch := attempt (ehem_proto_request_json EHEM_HTTP_GET AUTH_INIT_PATH None None
                        EHEM_TLS_REQ_DEFAULT) in
  match ch with
  | inr rc => init_explain rc "challenge"
  | inl challenge =>
      match ehem_json_get_string (Some challenge) "eid",
            ehem_json_get_string (Some challenge) "spk",
            ehem_json_get_string (Some challenge) "jti",
            ehem_json_get_int64 (Some challenge) "exp" with
      | Some eid, Some spk, Some jti, Some exp =>
          match ehem_b64_std_decode (Some spk) (strlen spk) false
                  (Z.of_nat EHEM_X25519_KEYSIZE) with
          | Some peer_pub =>
              if negb (length peer_pub =? EHEM_X25519_KEYSIZE)%nat then
                ehem_ctx_fail EHEM_ERR_PROTOCOL 0 None
                  (AUTH_INIT_PATH +:+ ": challenge spk is not a 32-byte X25519 key")
              else
                let* jwt := attempt (init_jwt p r eid jti spk exp peer_pub) in
                match jwt with
                | inr rc =>
                    ehem_ctx_fail
                      (if bool_decide (rc = EHEM_ERR_NOMEM) then rc else EHEM_ERR_PROTOCOL) 0 None
                      (AUTH_INIT_PATH +:+ ": init credential derivation failed")
                | inl jwt => init_commit r jwt out
                end
          | None =>
              ehem_ctx_fail EHEM_ERR_PROTOCOL 0 None
                (AUTH_INIT_PATH +:+ ": challenge spk is not a 32-byte X25519 key")
          end
      | _, _, _, _ =>
          ehem_ctx_fail EHEM_ERR_PROTOCOL 0 None
            (AUTH_INIT_PATH +:+ ": malformed init challenge (need eid, spk, jti, exp)")
      end
  end.

Definition ehem_device_init (params : option ehem_init_params) (out : bool)
  : M (option ehem_init_info) :=
  ehem_ctx_clear_error ;;;
  let unstamped : M (option ehem_init_info) :=
    ehem_ctx_fail EHEM_ERR_ARG 0 None
      (AUTH_INIT_PATH +:+ ": params must be stamped by ehem_init_params_init()") in
  match params with
  | None => unstamped
  | Some params =>
      if ip_abi_size params <? SIZEOF_abi_size then unstamped
      else
        let p := init_params_read params in
        match init_required_fields p with
        | None =>
            ehem_ctx_fail EHEM_ERR_ARG 0 None
              (AUTH_INIT_PATH +:+
               ": passphrase, master_secret, user, email, hostname and ip are required")
        | Some r =>
            if (ip_storage_mode p <=? 0) || (ip_storage_disk0size p <=? 0) then
              ehem_ctx_fail EHEM_ERR_ARG 0 None
                (AUTH_INIT_PATH +:+ ": storage_mode and storage_disk0size must be positive")
            else
              let* init := attempt ehem_global_init in
              match init with
              | inr rc =>
                  ehem_ctx_fail rc 0 None (AUTH_INIT_PATH +:+ ": process-global init failed")
              | inl _ => init_exchange p r out
              end
        end
  end.
End DeviceInit.

(** ** Frames *)

Section Frames.
Context {P : Platform} (R : relation world) (A : relation (option ehem_auth))
        `{!FrameRel R A, !AuthRel A}.

Lemma keeps_add_cfg root p r m u : keeps R (init_add_cfg root p r m u).
Proof.
  unfold init_add_cfg, ehem_json_new_object. pose proof (keeps_add_body_fields R A). solve_keeps.
Qed.
Lemma keeps_init_explain {B} rc leg : keeps R (init_explain (A:=B) rc leg).
Proof. unfold init_explain. solve_keeps. Qed.
Lemma keeps_init_derive r e p : keeps R (init_derive r e p).
Proof. unfold init_derive. solve_keeps. Qed.
#[local] Hint Resolve keeps_add_cfg keeps_init_explain keeps_init_derive : keeps.
Lemma keeps_init_payload p r j s e n m u : keeps R (init_payload p r j s e n m u).
Proof.
  unfold init_payload, ehem_json_new_object, ehem_json_add_string, ehem_json_add_int64,
    ehem_json_print. solve_keeps.
Qed.
#[local] Hint Resolve keeps_init_payload : keeps.
Lemma keeps_init_jwt p r e j s x pub : keeps R (init_jwt p r e j s x pub).
Proof. unfold init_jwt, ehem_ejwt_sign. solve_keeps. Qed.
Lemma keeps_init_info j i : keeps R (init_info j i).
Proof. unfold init_info, opt_copy. solve_keeps. Qed.
#[local] Hint Resolve keeps_init_jwt keeps_init_info : keeps.

Context `{Q : !Request, !RequestFrame R Q} (HL : forall p, keeps R (ehem_login p)).
Lemma keeps_init_session p t : keeps R (init_session p t).
Proof. unfold init_session. solve_keeps. Qed.
#[local] Hint Resolve keeps_init_session : keeps.
Lemma keeps_init_json m b :
  keeps R (ehem_proto_request_json m AUTH_INIT_PATH b None EHEM_TLS_REQ_DEFAULT).
Proof. apply (keeps_request_json R A), ok_args_device. done. Qed.
#[local] Hint Resolve keeps_init_json : keeps.
Lemma keeps_init_commit r jwt out : keeps R (init_commit r jwt out).
Proof. unfold init_commit, build_init_body. solve_keeps. Qed.
#[local] Hint Resolve keeps_init_commit : keeps.
Lemma keeps_init_exchange p r out : keeps R (init_exchange p r out).
Proof. unfold init_exchange. solve_keeps. Qed.
#[local] Hint Resolve keeps_init_exchange : keeps.
Lemma keeps_device_init p out : keeps R (ehem_device_init p out).
Proof. unfold ehem_device_init. solve_keeps. Qed.
End Frames.

Section Totals.
Context {P : Platform} (b : bool).

Lemma total_add_cfg root p r m u : total b (init_add_cfg root p r m u).
Proof.
  unfold init_add_cfg, ehem_json_new_object. pose proof (total_add_body_fields b). solve_total.
Qed.
Lemma total_init_explain {B} rc leg : total b (init_explain (A:=B) rc leg).
Proof. unfold init_explain. solve_total. Qed.
Lemma total_init_derive r e p : total b (init_derive r e p).
Proof. unfold init_derive. solve_total. Qed.
#[local] Hint Resolve total_add_cfg total_init_explain total_init_derive : total.
Lemma total_init_payload p r j s e n m u : total b (init_payload p r j s e n m u).
Proof.
  unfold init_payload, ehem_json_new_object, ehem_json_add_string, ehem_json_add_int64,
    ehem_json_print. solve_total.
Qed.
#[local] Hint Resolve total_init_payload : total.
Lemma total_init_jwt p r e j s x pub : total b (init_jwt p r e j s x pub).
Proof. unfold init_jwt, ehem_ejwt_sign. solve_total. Qed.
Lemma total_init_info j i : total b (init_info j i).
Proof. unfold init_info, opt_copy. solve_total. Qed.
Lemma total_init_session p t : total b (init_session p t).
Proof. unfold init_session, ehem_login. solve_total. Qed.
#[local] Hint Resolve total_init_jwt total_init_info total_init_session : total.

Context `{Q : !Request, !RequestTotal b (eq None) Q}.
Lemma total_init_json m body :
  total b (ehem_proto_request_json m AUTH_INIT_PATH body None EHEM_TLS_REQ_DEFAULT).
Proof. by apply (total_request_json b (eq None)). Qed.
#[local] Hint Resolve total_init_json : total.
Lemma total_init_commit r jwt out : total b (init_commit r jwt out).
Proof. unfold init_commit, build_init_body. solve_total. Qed.
#[local] Hint Resolve total_init_commit : total.
Lemma total_init_exchange p r out : total b (init_exchange p r out).
Proof. unfold init_exchange. solve_total. Qed.
#[local] Hint Resolve total_init_exchange : total.
Lemma total_device_init p out : total b (ehem_device_init p out).
Proof. unfold ehem_device_init. solve_total. Qed.
End Totals.

#[export] Hint Resolve total_device_init : total.
