(* ===== verification/Keymgmt.v ===== *)
(** * The key repository: [src/proto_keymgmt.c]

    The paginated inventory and its full walk, descr search, create, delete,
    update, import, derive and single-key get.  A NULL output argument is
    [out = false], a NULL string [None], a (pointer, length) pair a [buf]; the
    walks take fuel, which [walk_returns] shows to be enough for every device
    that reports a bounded total. *)

From S2P Require Import Prelude Base64 Json World Logic Context Ejwt Proto Notify Bindings.

Open Scope hem_scope.

Definition KEYMGMT_LIST_SCOPE : string := "keymgmt:list".
Definition KEYMGMT_GEN_SCOPE : string := "keymgmt:gen".
Definition KEYMGMT_DEL_SCOPE : string := "keymgmt:del".
Definition KEYMGMT_SEARCH_SCOPE : string := "keymgmt:search".
Definition KEYMGMT_UPD_SCOPE : string := "keymgmt:upd".
Definition KEYMGMT_IMP_SCOPE : string := "keymgmt:imp".
Definition KEYMGMT_WALK_PAGE : Z := 10.
Definition KEYMGMT_LABEL_MAX : Z := 32.
Definition KEYMGMT_DESCR_MAX : Z := 64.
Definition KEYMGMT_TYPE_MAX : Z := 16.
Definition KEYMGMT_PEER_PUBKEY_MAX : Z := 67.

Record ehem_key_entry := {
  ke_kid : string;
  ke_type : string;
  ke_label : option string;
  ke_descr : option bytes;
  ke_created : Z;
  ke_updated : Z
}.

(** [listed] is the length of [kp_entries]. *)
Record ehem_key_page := {
  kp_offset : Z;
  kp_total : Z;
  kp_entries : list ehem_key_entry
}.

Record ehem_key_details := {
  kd_type : string;
  kd_updated : Z;
  kd_pubkey : option bytes;
  kd_der : option bytes;
  kd_descr : option bytes
}.

Record ehem_key_create_params := {
  cp_type : option string;
  cp_label : option string;
  cp_mode : option string;
  cp_descr : buf
}.

Record ehem_key_import_params := {
  ip_type : option string;
  ip_label : option string;
  ip_mode : option string;
  ip_descr : buf;
  ip_pubkey : buf
}.

Definition listed (p : ehem_key_page) : Z := Z.of_nat (length (kp_entries p)).

Definition page_zero : ehem_key_page :=
  {| kp_offset := 0; kp_total := 0; kp_entries := [] |}.

Definition label_ok (label : string) : bool :=
  let n := strlen label in
  if (n <? 1) || (KEYMGMT_LABEL_MAX <? n) then false
  else string_forallb isprint label.

Definition EHEM_KEY_SEARCH_SUBSTRING : Z := 0.
Definition EHEM_KEY_SEARCH_PREFIX : Z := 1.
Definition EHEM_KEY_SEARCH_SUFFIX : Z := 2.

(** [descr != NULL && descr_len > max] *)
Definition descr_too_long (d : buf) : bool :=
  negb (b_null d) && (KEYMGMT_DESCR_MAX <? b_len d).

Definition search_args_ok (pattern : buf) (mode : Z) (out : bool) : bool :=
  if negb out then false
  else if b_null pattern && (0 <? b_len pattern) then false
  else (mode =? EHEM_KEY_SEARCH_SUBSTRING) || (mode =? EHEM_KEY_SEARCH_PREFIX) ||
       (mode =? EHEM_KEY_SEARCH_SUFFIX).

Definition list_path (offset limit : Z) : string :=
  snprintf_trunc 64
    (if 0 <? limit then "/api/keymgmt/list/" +:+ dec offset +:+ "/" +:+ dec limit
     else if 0 <? offset then "/api/keymgmt/list/" +:+ dec offset
     else "/api/keymgmt/list").

Section Parse.
Context {P : Platform}.

(** A failed entry: the required field it misses, or no memory. *)
Inductive entry_error := Missing (field : string) | EntryOom.

Definition required_copy (obj : jptr) (key : string) : M (entry_error + string) :=
  match ehem_json_get_string obj key with
  | None => ret (inl (Missing key))
  | Some s =>
      let* d := dup_str s in
      ret (match d with Some d => inr d | None => inl EntryOom end)
  end.

Definition parse_entry (obj : jptr) : M (entry_error + ehem_key_entry) :=
  let* kid := required_copy obj "kid" in
  match kid with
  | inl e => ret (inl e)
  | inr kid =>
      let* type := required_copy obj "type" in
      match type with
      | inl e => ret (inl e)
      | inr type =>
          let* label := opt_str obj "label" in
          match label with
          | None => ret (inl EntryOom)
          | Some label =>
              let* descr := decode_opt_b64 obj "descr" in
              match descr with
              | None => ret (inl EntryOom)
              | Some descr =>
                  ret (inr {| ke_kid := kid; ke_type := type; ke_label := label;
                              ke_descr := descr;
                              ke_created := default 0 (ehem_json_get_int64 obj "created");
                              ke_updated := default 0 (ehem_json_get_int64 obj "updated") |})
              end
          end
      end
  end.

(** [for (i = 0; i < n; i++)], from index [i] with [k] elements to go. *)
Fixpoint parse_entries (l : jptr) (i : Z) (k : nat) : M (list ehem_key_entry) :=
  match k with
  | O => ret []
  | S k =>
      let* e := parse_entry (ehem_json_array_get l i) in
      match e with
      | inr e => let* rest := parse_entries l (i + 1) k in ret (e :: rest)
      | inl (Missing field) =>
          ehem_ctx_fail EHEM_ERR_PROTOCOL 200 None
            ("keymgmt/list: entry " +:+ dec i +:+ " missing required field '" +:+
             field +:+ "'")
      | inl EntryOom => out_of_memory
      end
  end.

Definition parse_key_page (root : json) : M ehem_key_page :=
  calloc_or_fail ;;;
  let offset := default 0 (ehem_json_get_int64 (Some root) "offset") in
  let total := default 0 (ehem_json_get_int64 (Some root) "total") in
  let l := ehem_json_get (Some root) "list" in
  let n := if ehem_json_is_array l then ehem_json_array_size l else 0 in
  if n =? 0 then ret {| kp_offset := offset; kp_total := total; kp_entries := [] |}
  else
    calloc_or_fail ;;;
    let* entries := parse_entries l 0 (Z.to_nat n) in
    ret {| kp_offset := offset; kp_total := total; kp_entries := entries |}.

Definition parse_key_details (root : json) : M ehem_key_details :=
  calloc_or_fail ;;;
  match ehem_json_get_string (Some root) "type" with
  | None =>
      ehem_ctx_fail EHEM_ERR_PROTOCOL 200 None
        "keymgmt/get: missing required field 'type'"
  | Some type =>
      let* type := dup_or_fail type in
      let updated := default 0 (ehem_json_get_int64 (Some root) "updated") in
      let* blobs :=
        (let? pubkey := decode_opt_b64 (Some root) "pubkey" in
         let? der := decode_opt_b64 (Some root) "der" in
         let? descr := decode_opt_b64 (Some root) "descr" in
         ret (Some (pubkey, der, descr))) in
      match blobs with
      | None => out_of_memory
      | Some (pubkey, der, descr) =>
          ret {| kd_type := type; kd_updated := updated; kd_pubkey := pubkey;
                 kd_der := der; kd_descr := descr |}
      end
  end.

(** [page_append]: [None] is the failed [realloc]. *)
Definition page_append (dst src : ehem_key_page) : M (option ehem_key_page) :=
  if listed src =? 0 then ret (Some dst)
  else alloc {| kp_offset := kp_offset dst; kp_total := kp_total dst;
                kp_entries := kp_entries dst ++ kp_entries src |}.

(** The loop shared by [ehem_key_list_all] and [ehem_key_search_all]. *)
Fixpoint page_walk (fuel : nat) (fetch : Z -> M ehem_key_page) (offset : Z)
    (acc : ehem_key_page) : M ehem_key_page :=
  match fuel with
  | O => diverge
  | S fuel =>
      let* page := fetch offset in
      let acc := {| kp_offset := kp_offset acc; kp_total := kp_total page;
                    kp_entries := kp_entries acc |} in
      let* acc := page_append acc page in
      match acc with
      | None => out_of_memory
      | Some acc =>
          let offset := wrap_size (offset + listed page) in
          if (listed page =? 0) || (kp_total acc <=? wrap_i64 offset) then ret acc
          else page_walk fuel fetch offset acc
      end
  end.

(** [build_search_descr] *)
Definition build_search_descr (mode : Z) (pattern : buf) : M string :=
  let enc := ehem_b64_std_encoded_len (b_len pattern) in
  let* ok := malloc in
  if negb ok then throw EHEM_ERR_NOMEM
  else
    match ehem_b64_std_encode (b_ptr pattern) (b_len pattern) false (enc + 1) with
    | None => throw EHEM_ERR_NOMEM
    | Some b64 =>
        ret (if mode =? EHEM_KEY_SEARCH_PREFIX then "^" +:+ b64
             else if mode =? EHEM_KEY_SEARCH_SUFFIX then b64 +:+ "$"
             else b64)
    end.

Definition search_descr (mode : Z) (pattern : buf) : M string :=
  let* r := attempt (build_search_descr mode pattern) in
  match r with
  | inl d => ret d
  | inr rc => ehem_ctx_fail rc 0 None "out of memory"
  end.

(** [map_406_not_found] *)
Definition map_406_not_found {A} (rc : ehem_rc) (what : string) : M A :=
  let* e := ehem_last_error in
  if negb (bool_decide (rc = EHEM_ERR_DEVICE)) || negb (http_status e =? 406) then throw rc
  else
    let payload := snprintf_trunc 256 (default "" (device_payload e)) in
    ehem_ctx_fail EHEM_ERR_NOT_FOUND 406
      (if is_empty payload then None else Some payload) (what +:+ ": key not found").

(** The [kid] of a create, import or derive response. *)
Definition response_kid (what : string) (root : json) : M string :=
  match ehem_json_get_string (Some root) "kid" with
  | None =>
      ehem_ctx_fail EHEM_ERR_PROTOCOL 200 None (what +:+ ": response missing 'kid'")
  | Some kid =>
      if negb (ehem_proto_is_kid_hex kid) then
        ehem_ctx_fail EHEM_ERR_PROTOCOL 200 None (what +:+ ": 'kid' is not 32 hex chars")
      else ret kid
  end.
End Parse.

Definition KID_RULE (what : string) : string :=
  what +:+ ": kid must be exactly 32 hex chars".
Definition LABEL_RULE (what : string) : string :=
  what +:+ ": label must be 1..32 printable bytes".
Definition DESCR_RULE (what : string) : string :=
  what +:+ ": descr must be at most 64 bytes".

Section Keymgmt.
Context {P : Platform} `{Q : !Request}.

Definition ehem_key_list (offset limit : Z) (out : bool) : M ehem_key_page :=
  if negb out then throw EHEM_ERR_ARG
  else
    ehem_ctx_clear_error ;;;
    let* root := ehem_proto_request_json EHEM_HTTP_GET (list_path offset limit) None
                   (Some KEYMGMT_LIST_SCOPE) EHEM_TLS_REQ_DEFAULT in
    parse_key_page root.

Definition ehem_key_list_all (fuel : nat) (out : bool) : M ehem_key_page :=
  if negb out then throw EHEM_ERR_ARG
  else
    ehem_ctx_clear_error ;;;
    calloc_or_fail ;;;
    page_walk fuel (fun offset => ehem_key_list offset KEYMGMT_WALK_PAGE true) 0 page_zero.

Definition ehem_key_create (params : option ehem_key_create_params) (out : bool)
  : M string :=
  match params, out with
  | Some p, true =>
      match cp_type p, cp_label p with
      | Some type, Some label =>
          ehem_ctx_clear_error ;;;
          require (label_ok label) (LABEL_RULE "keymgmt/create") ;;;
          require (negb (descr_too_long (cp_descr p))) (DESCR_RULE "keymgmt/create") ;;;
          let* body := build_body
            ([FieldStr "type" type; FieldStr "label" label] ++
             opt_str_field "mode" (cp_mode p) ++
             opt_field (b_given (cp_descr p)) (FieldB64 "descr" (cp_descr p))) in
          let* root := ehem_proto_request_json EHEM_HTTP_POST "/api/keymgmt/create"
                         (Some body) (Some KEYMGMT_GEN_SCOPE) EHEM_TLS_REQ_DEFAULT in
          response_kid "keymgmt/create" root
      | _, _ => throw EHEM_ERR_ARG
      end
  | _, _ => throw EHEM_ERR_ARG
  end.

Definition ehem_key_delete (kid : option string) : M unit :=
  match kid with
  | None => throw EHEM_ERR_ARG
  | Some kid =>
      ehem_ctx_clear_error ;;;
      require (ehem_proto_is_kid_hex kid) (KID_RULE "keymgmt/delete") ;;;
      empty_200_ok
        (ehem_proto_request_raw EHEM_HTTP_DELETE
           (snprintf_trunc 64 ("/api/keymgmt/delete/" +:+ kid)) None
           (Some KEYMGMT_DEL_SCOPE) EHEM_TLS_REQ_DEFAULT)
        (fun rc _ => map_406_not_found rc "keymgmt/delete")
  end.

Definition ehem_key_update (kid label : option string) (descr : buf) : M unit :=
  match kid, label with
  | Some kid, Some label =>
      ehem_ctx_clear_error ;;;
      require (ehem_proto_is_kid_hex kid) (KID_RULE "keymgmt/update") ;;;
      require (label_ok label) (LABEL_RULE "keymgmt/update") ;;;
      require (negb (descr_too_long descr)) (DESCR_RULE "keymgmt/update") ;;;
      let* body := build_body
        ([FieldStr "kid" kid; FieldStr "label" label] ++
         opt_field (b_given descr) (FieldB64 "descr" descr)) in
      empty_200_ok
        (ehem_proto_request_raw EHEM_HTTP_POST "/api/keymgmt/update" (Some body)
           (Some KEYMGMT_UPD_SCOPE) EHEM_TLS_REQ_DEFAULT)
        (fun rc _ => map_406_not_found rc "keymgmt/update")
  | _, _ => throw EHEM_ERR_ARG
  end.

Definition ehem_key_import (params : option ehem_key_import_params) (out : bool)
  : M string :=
  match params, out with
  | Some p, true =>
      match ip_type p, ip_label p with
      | Some type, Some label =>
          if b_null (ip_pubkey p) || (b_len (ip_pubkey p) =? 0) then throw EHEM_ERR_ARG
          else
            ehem_ctx_clear_error ;;;
            require (label_ok label) (LABEL_RULE "keymgmt/import") ;;;
            require (negb (descr_too_long (ip_descr p))) (DESCR_RULE "keymgmt/import") ;;;
            let* body := build_body
              ([FieldStr "type" type; FieldStr "label" label;
                FieldB64 "pubkey" (ip_pubkey p)] ++
               opt_str_field "mode" (ip_mode p) ++
               opt_field (b_given (ip_descr p)) (FieldB64 "descr" (ip_descr p))) in
            let* root := ehem_proto_request_json EHEM_HTTP_POST "/api/keymgmt/import"
                           (Some body) (Some KEYMGMT_IMP_SCOPE) EHEM_TLS_REQ_DEFAULT in
            response_kid "keymgmt/import" root
      | _, _ => throw EHEM_ERR_ARG
      end
  | _, _ => throw EHEM_ERR_ARG
  end.

Definition ehem_key_derive (kid label type ext_kid : option string) (pubkey : buf)
    (mode : option string) (descr : buf) (out : bool) : M string :=
  let have_ext := bool_decide (ext_kid <> None) in
  let have_pub := b_given pubkey in
  match kid, label, type, out with
  | Some kid, Some label, Some type, true =>
      ehem_ctx_clear_error ;;;
      require (ehem_proto_is_kid_hex kid) (KID_RULE "keymgmt/derive") ;;;
      require (label_ok label) (LABEL_RULE "keymgmt/derive") ;;;
      require (negb (is_empty type || (KEYMGMT_TYPE_MAX <? strlen type)))
        "keymgmt/derive: type must be 1..16 chars" ;;;
      require (negb (Bool.eqb have_ext have_pub))
        "keymgmt/derive: exactly one of ext_kid / pubkey" ;;;
      require (negb (have_ext && negb (ehem_proto_is_kid_hex (default "" ext_kid))))
        "keymgmt/derive: ext_kid must be exactly 32 hex chars" ;;;
      require (negb (have_pub && (KEYMGMT_PEER_PUBKEY_MAX <? b_len pubkey)))
        "keymgmt/derive: pubkey must be at most 67 bytes" ;;;
      require (negb (descr_too_long descr)) (DESCR_RULE "keymgmt/derive") ;;;
      let* body := build_body
        ([FieldStr "kid" kid; FieldStr "label" label; FieldStr "type" type] ++
         opt_str_field "ext_kid" ext_kid ++
         opt_field have_pub (FieldB64 "pubkey" pubkey) ++
         opt_str_field "mode" mode ++
         opt_field (b_given descr) (FieldB64 "descr" descr)) in
      let* root := ehem_proto_request_json EHEM_HTTP_POST "/api/keymgmt/derive"
                     (Some body) (Some KEYMGMT_GEN_SCOPE) EHEM_TLS_REQ_DEFAULT in
      response_kid "keymgmt/derive" root
  | _, _, _, _ => throw EHEM_ERR_ARG
  end.

(** One search POST: a 404 is an empty page. *)
Definition search_one_page (descr : string) (offset limit : Z) : M ehem_key_page :=
  let* body := build_body
    [FieldStr "descr" descr; FieldInt "offset" (wrap_i64 offset);
     FieldInt "limit" (wrap_i64 limit)] in
  let* r := attempt (ehem_proto_request_json EHEM_HTTP_POST "/api/keymgmt/search"
              (Some body) (Some KEYMGMT_SEARCH_SCOPE) EHEM_TLS_REQ_DEFAULT) in
  match r with
  | inr EHEM_ERR_NOT_FOUND =>
      calloc_or_fail ;;; ehem_ctx_clear_error ;;; ret page_zero
  | inr rc => throw rc
  | inl root => parse_key_page root
  end.

Definition ehem_key_search (pattern : buf) (mode offset limit : Z) (out : bool)
  : M ehem_key_page :=
  if negb (search_args_ok pattern mode out) then throw EHEM_ERR_ARG
  else
    ehem_ctx_clear_error ;;;
    let* descr := search_descr mode pattern in
    search_one_page descr offset limit.

Definition ehem_key_search_all (fuel : nat) (pattern : buf) (mode : Z) (out : bool)
  : M ehem_key_page :=
  if negb (search_args_ok pattern mode out) then throw EHEM_ERR_ARG
  else
    ehem_ctx_clear_error ;;;
    let* descr := search_descr mode pattern in
    calloc_or_fail ;;;
    page_walk fuel (fun offset => search_one_page descr offset KEYMGMT_WALK_PAGE)
      0 page_zero.

Definition ehem_key_get (kid : option string) (out : bool) : M ehem_key_details :=
  match kid, out with
  | Some kid, true =>
      ehem_ctx_clear_error ;;;
      require (ehem_proto_is_kid_hex kid) (KID_RULE "keymgmt/get") ;;;
      let path := snprintf_trunc 64 ("/api/keymgmt/get/" +:+ kid) in
      let* r := attempt (ehem_proto_request_json EHEM_HTTP_GET path None
                  (Some (use_scope 64 kid)) EHEM_TLS_REQ_DEFAULT) in
      match r with
      | inr rc => map_406_not_found rc "keymgmt/get"
      | inl root => parse_key_details root
      end
  | _, _ => throw EHEM_ERR_ARG
  end.
End Keymgmt.

(** ** Frames *)

Section Frames.
Context {P : Platform} (R : relation world) (A : relation (option ehem_auth))
        `{!FrameRel R A} `{Q : !Request, !RequestFrame R Q}.

Lemma keeps_required_copy obj key : keeps R (required_copy obj key).
Proof. unfold required_copy. solve_keeps. Qed.
#[local] Hint Resolve keeps_required_copy : keeps.
Lemma keeps_parse_entry obj : keeps R (parse_entry obj).
Proof. unfold parse_entry. solve_keeps. Qed.
Lemma keeps_parse_entries l k i : keeps R (parse_entries l i k).
Proof.
  revert i; induction k as [|k IH]; intros i; [by eauto with keeps|].
  cbn [parse_entries]. pose proof keeps_parse_entry. solve_keeps.
Qed.
#[local] Hint Resolve keeps_parse_entries : keeps.
Lemma keeps_parse_key_page root : keeps R (parse_key_page root).
Proof. unfold parse_key_page. solve_keeps. Qed.
Lemma keeps_parse_key_details root : keeps R (parse_key_details root).
Proof. unfold parse_key_details. solve_keeps. Qed.
Lemma keeps_page_append d s : keeps R (page_append d s).
Proof. unfold page_append. solve_keeps. Qed.
#[local] Hint Resolve keeps_parse_key_page keeps_parse_key_details keeps_page_append : keeps.
Lemma keeps_page_walk fuel fetch o acc :
  (forall o, keeps R (fetch o)) -> keeps R (page_walk fuel fetch o acc).
Proof.
  intros Hf. revert o acc; induction fuel as [|fuel IH]; intros; [by eauto with keeps|].
  cbn [page_walk]. solve_keeps.
Qed.
Lemma keeps_search_descr m p : keeps R (search_descr m p).
Proof. unfold search_descr, build_search_descr. solve_keeps. Qed.
Lemma keeps_map_406 {B} rc w : keeps R (map_406_not_found (A:=B) rc w).
Proof. unfold map_406_not_found. solve_keeps. Qed.
Lemma keeps_response_kid w r : keeps R (response_kid w r).
Proof. unfold response_kid. solve_keeps. Qed.
#[local] Hint Resolve keeps_page_walk keeps_search_descr keeps_map_406
  keeps_response_kid : keeps.
#[local] Hint Extern 1 (keeps R (ehem_proto_request_raw _ _ _ _ _)) =>
  apply request_keeps : keeps.

Lemma list_path_device o l : device_path (list_path o l) = true.
Proof. unfold list_path. by repeat case_match. Qed.
#[local] Hint Resolve list_path_device : keeps.

Lemma keeps_key_list o l out : keeps R (ehem_key_list o l out).
Proof. unfold ehem_key_list. solve_keeps. Qed.
#[local] Hint Resolve keeps_key_list : keeps.
Lemma keeps_key_list_all fuel out : keeps R (ehem_key_list_all fuel out).
Proof. unfold ehem_key_list_all. solve_keeps. Qed.
Lemma keeps_key_create p out : keeps R (ehem_key_create p out).
Proof. unfold ehem_key_create. solve_keeps. Qed.
Lemma keeps_key_delete k : keeps R (ehem_key_delete k).
Proof. unfold ehem_key_delete. solve_keeps. Qed.
Lemma keeps_key_update k l d : keeps R (ehem_key_update k l d).
Proof. unfold ehem_key_update. solve_keeps. Qed.
Lemma keeps_key_import p out : keeps R (ehem_key_import p out).
Proof. unfold ehem_key_import. solve_keeps. Qed.
Lemma keeps_key_derive k l t x p m d out : keeps R (ehem_key_derive k l t x p m d out).
Proof. unfold ehem_key_derive. solve_keeps. Qed.
Lemma keeps_search_one_page d o l : keeps R (search_one_page d o l).
Proof. unfold search_one_page. solve_keeps. Qed.
#[local] Hint Resolve keeps_search_one_page : keeps.
Lemma keeps_key_search p m o l out : keeps R (ehem_key_search p m o l out).
Proof. unfold ehem_key_search. solve_keeps. Qed.
Lemma keeps_key_search_all fuel p m out : keeps R (ehem_key_search_all fuel p m out).
Proof. unfold ehem_key_search_all. solve_keeps. Qed.
Lemma keeps_key_get k out : keeps R (ehem_key_get k out).
Proof. unfold ehem_key_get. solve_keeps. Qed.
End Frames.

(** ** Totality *)

Section Totals.
Context {P : Platform} (b : bool).

Lemma total_required_copy obj key : total b (required_copy obj key).
Proof. unfold required_copy. solve_total. Qed.
#[local] Hint Resolve total_required_copy : total.
Lemma total_parse_entry obj : total b (parse_entry obj).
Proof. unfold parse_entry. solve_total. Qed.
Lemma total_parse_entries l k i : total b (parse_entries l i k).
Proof.
  revert i; induction k as [|k IH]; intros i; [by eauto with total|].
  cbn [parse_entries]. pose proof total_parse_entry. solve_total.
Qed.
#[local] Hint Resolve total_parse_entries : total.
Lemma total_parse_key_page root : total b (parse_key_page root).
Proof. unfold parse_key_page. solve_total. Qed.
Lemma total_parse_key_details root : total b (parse_key_details root).
Proof. unfold parse_key_details. solve_total. Qed.
Lemma total_page_append d s : total b (page_append d s).
Proof. unfold page_append. solve_total. Qed.
#[local] Hint Resolve total_parse_key_page total_parse_key_details total_page_append : total.
Lemma total_search_descr m p : total b (search_descr m p).
Proof. unfold search_descr, build_search_descr. solve_total. Qed.
Lemma total_map_406 {B} rc w : total b (map_406_not_found (A:=B) rc w).
Proof. unfold map_406_not_found. solve_total. Qed.
Lemma total_response_kid w r : total b (response_kid w r).
Proof. unfold response_kid. solve_total. Qed.
#[local] Hint Resolve total_search_descr total_map_406 total_response_kid : total.

Context `{Q : !Request, !RequestTotal b (fun _ => True) Q}.
Lemma total_raw m p body s o : total b (ehem_proto_request_raw m p body s o).
Proof. by apply request_total. Qed.
Lemma total_json m p body s o : total b (ehem_proto_request_json m p body s o).
Proof. by eapply total_request_json. Qed.
#[local] Hint Resolve total_raw total_json : total.

Lemma total_key_list o l out : total b (ehem_key_list o l out).
Proof. unfold ehem_key_list. solve_total. Qed.
Lemma total_key_create p out : total b (ehem_key_create p out).
Proof. unfold ehem_key_create. solve_total. Qed.
Lemma total_key_delete k : total b (ehem_key_delete k).
Proof. unfold ehem_key_delete. solve_total. Qed.
Lemma total_key_update k l d : total b (ehem_key_update k l d).
Proof. unfold ehem_key_update. solve_total. Qed.
Lemma total_key_import p out : total b (ehem_key_import p out).
Proof. unfold ehem_key_import. solve_total. Qed.
Lemma total_key_derive k l t x p m d out : total b (ehem_key_derive k l t x p m d out).
Proof. unfold ehem_key_derive. solve_total. Qed.
Lemma total_search_one_page d o l : total b (search_one_page d o l).
Proof. unfold search_one_page. solve_total. Qed.
#[local] Hint Resolve total_search_one_page : total.
Lemma total_key_search p m o l out : total b (ehem_key_search p m o l out).
Proof. unfold ehem_key_search. solve_total. Qed.
Lemma total_key_get k out : total b (ehem_key_get k out).
Proof. unfold ehem_key_get. solve_total. Qed.
End Totals.
