(* ===== verification/Crypto.v ===== *)
(** * The crypto bindings: [src/proto_crypto.c]

    Signing and verification, ECDH, HMAC, the AES cipher, key wrap, the PQC
    endpoints and the device RNG.  All authenticate with the per-key scope
    [keymgmt:use:<kid>].  A (pointer, length) pair is a [buf]; a [*_build]
    helper that returns NULL with its code in [*rc_out] is a call that fails. *)

From S2P Require Import Prelude Base64 Json World Logic Context Ejwt Proto Notify Bindings.

Open Scope hem_scope.

Definition EHEM_SIGN_MSG_MAX : Z := 2048.
Definition EHEM_SIGN_SIG_CTX_MAX : Z := 255.
Definition EHEM_VERIFY_SIG_MAX : Z := 148.
Definition EHEM_ECDH_PUBKEY_MAX : Z := 67.
Definition EHEM_HMAC_MAC_MAX : Z := 64.
Definition EHEM_CIPHER_MSG_MAX : Z := 2048.
Definition EHEM_CIPHER_CT_MAX : Z := 2064.
Definition EHEM_CIPHER_AAD_MAX : Z := 16.
Definition EHEM_CIPHER_IV_LEN : Z := 16.
Definition EHEM_CIPHER_TAG_LEN : Z := 16.
Definition EHEM_CIPHER_HKDF_CTX_MAX : Z := 64.
Definition EHEM_WRAP_IV_LEN : Z := 8.
Definition EHEM_WRAP_MSG_MAX : Z := 2048.
Definition EHEM_MLKEM_SS_LEN : Z := 32.
Definition EHEM_MLKEM_CT_MAX : Z := 1568.
Definition EHEM_MLDSA_SIG_MAX : Z := 4627.
Definition EHEM_PQC_ALG_SIZE : nat := 16.
Definition EHEM_CIPHER_ALG_AES128_CBC : string := "AES128-CBC".

Record ehem_ciphertext := { ct_bytes : bytes; ct_iv : option bytes; ct_tag : option bytes }.
Record ehem_mlkem_encaps_result := { me_alg : string; me_ss : bytes; me_ct : bytes }.
Record ehem_mlkem_secret := { ms_alg : string; ms_ss : bytes }.
Record ehem_mldsa_signature := { md_alg : string; md_sig : bytes }.

Definition kid_rule (what : string) : string := what +:+ ": kid must be exactly 32 hex chars".
Definition range_rule (what field : string) (max : Z) : string :=
  what +:+ ": " +:+ field +:+ " must be 1.." +:+ dec max +:+ " bytes".
Definition cap_rule (what field : string) (max : Z) : string :=
  what +:+ ": " +:+ field +:+ " must be at most " +:+ dec max +:+ " bytes".
Definition exact_rule (what field : string) (n : Z) : string :=
  what +:+ ": " +:+ field +:+ " must be exactly " +:+ dec n +:+ " bytes when given".

(** [(p == NULL && len != 0) || len > max] *)
Definition opt_too_long (max : Z) (b : buf) : bool := b_dangling b || (max <? b_len b).
(** [(p != NULL || len != 0) && (p == NULL || len != n)] *)
Definition not_exact (n : Z) (b : buf) : bool :=
  (negb (b_null b) || negb (b_len b =? 0)) && (b_null b || negb (b_len b =? n)).
(** The peer key counts as given when either half of the pair is set. *)
Definition pub_given (b : buf) : bool := negb (b_null b) || negb (b_len b =? 0).
Definition is_some {A} (o : option A) : bool := match o with Some _ => true | None => false end.

(** The optional peer members. *)
Definition peer_fields (ext_kid : option string) (pubkey : buf) : list body_field :=
  opt_str_field "ext_kid" ext_kid ++ opt_field (b_given pubkey) (FieldB64 "pubkey" pubkey).

Section Helpers.
Context {P : Platform}.

Definition check_peer_args (what : string) (ext_kid : option string) (pubkey : buf)
    (allow_none : bool) : M unit :=
  let have_ext := is_some ext_kid in
  let have_pub := pub_given pubkey in
  require (negb (have_ext && have_pub))
    (what +:+ ": give either ext_kid or pubkey, not both") ;;;
  require (have_ext || have_pub || allow_none)
    (what +:+ ": a peer is required (ext_kid or pubkey)") ;;;
  require (negb (have_ext && negb (ehem_proto_is_kid_hex (default "" ext_kid))))
    (what +:+ ": ext_kid must be exactly 32 hex chars") ;;;
  require (negb (have_pub && (b_null pubkey || (b_len pubkey <? 1) ||
                              (EHEM_ECDH_PUBKEY_MAX <? b_len pubkey))))
    (range_rule what "pubkey" EHEM_ECDH_PUBKEY_MAX).

Definition hmac_build (what kid : string) (alg : option string) (msg mac : buf)
    (ext_kid : option string) (pubkey : buf) : M string :=
  let derived := is_some ext_kid || pub_given pubkey in
  require (ehem_proto_is_kid_hex kid) (kid_rule what) ;;;
  require (b_within 1 EHEM_SIGN_MSG_MAX msg) (range_rule what "msg" EHEM_SIGN_MSG_MAX) ;;;
  require (negb (negb (b_null mac) && negb (b_within 1 EHEM_HMAC_MAC_MAX mac)))
    (range_rule what "mac" EHEM_HMAC_MAC_MAX) ;;;
  check_peer_args what ext_kid pubkey true ;;;
  require (negb (negb (is_some alg) && derived))
    (what +:+ ": alg is required in the ECDH-derived flow") ;;;
  require (negb (is_some alg && is_empty (default "" alg)))
    (what +:+ ": alg must be non-empty when given") ;;;
  build_body
    ([FieldStr "kid" kid; FieldB64 "msg" msg] ++
     opt_field (negb (b_null mac)) (FieldB64 "mac" mac) ++
     opt_str_field "alg" alg ++ peer_fields ext_kid pubkey).

Definition cipher_build (what kid alg : string) (msg : buf) (msg_max : Z)
    (iv tag aad : buf) (ext_kid : option string) (pubkey hkdf_ctx : buf) : M string :=
  require (ehem_proto_is_kid_hex kid) (kid_rule what) ;;;
  require (strlen alg =? 10)
    (what +:+ ": alg must be one of the 10-char AES selectors") ;;;
  require (b_within 1 msg_max msg) (range_rule what "msg" msg_max) ;;;
  require (negb (not_exact EHEM_CIPHER_IV_LEN iv)) (exact_rule what "iv" EHEM_CIPHER_IV_LEN) ;;;
  require (negb (not_exact EHEM_CIPHER_TAG_LEN tag))
    (exact_rule what "tag" EHEM_CIPHER_TAG_LEN) ;;;
  require (negb (opt_too_long EHEM_CIPHER_AAD_MAX aad))
    (cap_rule what "aad" EHEM_CIPHER_AAD_MAX) ;;;
  check_peer_args what ext_kid pubkey true ;;;
  require (negb (opt_too_long EHEM_CIPHER_HKDF_CTX_MAX hkdf_ctx))
    (cap_rule what "hkdf_ctx" EHEM_CIPHER_HKDF_CTX_MAX) ;;;
  build_body
    ([FieldStr "kid" kid; FieldB64 "msg" msg; FieldStr "alg" alg] ++
     opt_field (negb (b_null iv)) (FieldB64 "iv" iv) ++
     opt_field (negb (b_null tag)) (FieldB64 "tag" tag) ++
     opt_field (b_given aad) (FieldB64 "aad" aad) ++
     peer_fields ext_kid pubkey ++
     opt_field (b_given hkdf_ctx) (FieldB64 "ctx" hkdf_ctx)).

Definition wrap_alg_ok (alg : option string) : bool :=
  match alg with
  | None => true
  | Some a => String.eqb a "AES128" || String.eqb a "AES192" || String.eqb a "AES256"
  end.

Definition build_wrap_body (what kid : string) (alg : option string) (msg : buf)
    (ext_kid : option string) (pubkey hkdf_ctx iv : buf) : M string :=
  require (ehem_proto_is_kid_hex kid) (kid_rule what) ;;;
  require (negb (b_null msg) && b_within 1 EHEM_WRAP_MSG_MAX msg)
    (range_rule what "msg" EHEM_WRAP_MSG_MAX) ;;;
  require (wrap_alg_ok alg) (what +:+ ": alg must be AES128, AES192 or AES256") ;;;
  check_peer_args what ext_kid pubkey true ;;;
  require (negb (opt_too_long EHEM_CIPHER_HKDF_CTX_MAX hkdf_ctx))
    (cap_rule what "hkdf_ctx" EHEM_CIPHER_HKDF_CTX_MAX) ;;;
  require (negb (not_exact EHEM_WRAP_IV_LEN iv)) (exact_rule what "iv" EHEM_WRAP_IV_LEN) ;;;
  build_body
    ([FieldStr "kid" kid; FieldB64 "msg" msg] ++
     opt_str_field "alg" alg ++ peer_fields ext_kid pubkey ++
     opt_field (b_given hkdf_ctx) (FieldB64 "ctx" hkdf_ctx) ++
     opt_field (negb (b_null iv)) (FieldB64 "iv" iv)).

Definition mldsa_build (what kid : string) (msg sig sig_ctx : buf) : M string :=
  require (ehem_proto_is_kid_hex kid) (kid_rule what) ;;;
  require (b_within 1 EHEM_SIGN_MSG_MAX msg) (range_rule what "msg" EHEM_SIGN_MSG_MAX) ;;;
  require (negb (negb (b_null sig) && negb (b_within 1 EHEM_MLDSA_SIG_MAX sig)))
    (range_rule what "sig" EHEM_MLDSA_SIG_MAX) ;;;
  require (negb (opt_too_long EHEM_SIGN_SIG_CTX_MAX sig_ctx))
    (cap_rule what "sig_ctx" EHEM_SIGN_SIG_CTX_MAX) ;;;
  build_body
    ([FieldStr "kid" kid; FieldB64 "msg" msg] ++
     opt_field (negb (b_null sig)) (FieldB64 "sign" sig) ++
     opt_field (b_given sig_ctx) (FieldB64 "ctx" sig_ctx)).

(** [decode_fixed_field]: [None] is a malformed value. *)
Definition decode_fixed_field (root : json) (name : string) (want_len : Z)
  : option (option bytes) :=
  match nonempty_string root name with
  | None => Some None
  | Some b64 =>
      match std_decode b64 32 with
      | Some b => if Z.of_nat (length b) =? want_len then Some (Some b) else None
      | None => None
      end
  end.

Definition copy_alg (root : json) : string :=
  match ehem_json_get_string (Some root) "alg" with
  | Some alg => snprintf_trunc EHEM_PQC_ALG_SIZE alg
  | None => ""
  end.

Definition decode_ss (root : json) : option bytes :=
  match nonempty_string root "ss" with
  | None => None
  | Some b64 =>
      match std_decode b64 (EHEM_MLKEM_SS_LEN + 4) with
      | Some b => if Z.of_nat (length b) =? EHEM_MLKEM_SS_LEN then Some b else None
      | None => None
      end
  end.

(** The response member [field], present and non-empty, decoded. *)
Definition decode_required (root : json) (field missing bad : string) : M bytes :=
  match nonempty_string root field with
  | None => ehem_ctx_fail EHEM_ERR_PROTOCOL 200 None missing
  | Some b64 => decode_into b64 bad
  end.
End Helpers.

(** ** The endpoints *)

Section Crypto.
Context {P : Platform} `{Q : !Request}.

Definition post_json (path body : string) (scope : string) : M json :=
  ehem_proto_request_json EHEM_HTTP_POST path (Some body) (Some scope)
    EHEM_TLS_REQ_DEFAULT.
Definition post_raw (path body : string) (scope : string) : M string :=
  ehem_proto_request_raw EHEM_HTTP_POST path (Some body) (Some scope)
    EHEM_TLS_REQ_DEFAULT.

Definition ehem_sign (kid alg : option string) (msg sig_ctx : buf) (out : bool) : M bytes :=
  match kid, alg with
  | Some kid, Some alg =>
      if b_null msg || negb out then throw EHEM_ERR_ARG
      else
        ehem_ctx_clear_error ;;;
        require (ehem_proto_is_kid_hex kid) (kid_rule "crypto/sign") ;;;
        require (negb (is_empty alg)) "crypto/sign: alg must be non-empty" ;;;
        require (b_within 1 EHEM_SIGN_MSG_MAX msg)
          (range_rule "crypto/sign" "msg" EHEM_SIGN_MSG_MAX +:+
           " (the device rejects an empty message)") ;;;
        require (negb (opt_too_long EHEM_SIGN_SIG_CTX_MAX sig_ctx))
          (cap_rule "crypto/sign" "sig_ctx" EHEM_SIGN_SIG_CTX_MAX) ;;;
        let* body := build_body
          ([FieldStr "kid" kid; FieldB64 "msg" msg; FieldStr "alg" alg] ++
           opt_field (b_given sig_ctx) (FieldB64 "ctx" sig_ctx)) in
        let* root := post_json "/api/crypto/exdsa/sign" body (use_scope 64 kid) in
        decode_required root "sign" "crypto/sign: response missing 'sign'"
          "crypto/sign: 'sign' is not valid base64"
  | _, _ => throw EHEM_ERR_ARG
  end.

(** The result of the three verify endpoints: nothing but the code. *)
Definition ehem_verify (kid alg : option string) (msg sig_ctx sig : buf) : M unit :=
  match kid, alg with
  | Some kid, Some alg =>
      if b_null msg || b_null sig then throw EHEM_ERR_ARG
      else
        ehem_ctx_clear_error ;;;
        require (ehem_proto_is_kid_hex kid) (kid_rule "crypto/verify") ;;;
        require (negb (is_empty alg)) "crypto/verify: alg must be non-empty" ;;;
        require (b_within 1 EHEM_SIGN_MSG_MAX msg)
          (range_rule "crypto/verify" "msg" EHEM_SIGN_MSG_MAX) ;;;
        require (b_within 1 EHEM_VERIFY_SIG_MAX sig)
          (range_rule "crypto/verify" "sig" EHEM_VERIFY_SIG_MAX) ;;;
        require (negb (opt_too_long EHEM_SIGN_SIG_CTX_MAX sig_ctx))
          (cap_rule "crypto/verify" "sig_ctx" EHEM_SIGN_SIG_CTX_MAX) ;;;
        let* body := build_body
          ([FieldStr "kid" kid; FieldB64 "msg" msg; FieldB64 "sign" sig;
            FieldStr "alg" alg] ++
           opt_field (b_given sig_ctx) (FieldB64 "ctx" sig_ctx)) in
        empty_200_ok (post_raw "/api/crypto/exdsa/verify" body (use_scope 64 kid))
          (fun rc _ => throw rc)
  | _, _ => throw EHEM_ERR_ARG
  end.

Definition ehem_ecdh (kid ext_kid : option string) (pubkey : buf) (alg : option string)
    (out : bool) : M bytes :=
  match kid, out with
  | Some kid, true =>
      ehem_ctx_clear_error ;;;
      require (ehem_proto_is_kid_hex kid) (kid_rule "crypto/ecdh") ;;;
      check_peer_args "crypto/ecdh" ext_kid pubkey false ;;;
      require (negb (is_some alg && is_empty (default "" alg)))
        "crypto/ecdh: alg must be non-empty when given" ;;;
      let* body := build_body
        ([FieldStr "kid" kid] ++ peer_fields ext_kid pubkey ++ opt_str_field "alg" alg) in
      let* root := post_json "/api/crypto/ecdh" body (use_scope 64 kid) in
      decode_required root "ecdh" "crypto/ecdh: response missing 'ecdh'"
        "crypto/ecdh: 'ecdh' is not valid base64"
  | _, _ => throw EHEM_ERR_ARG
  end.

Definition ehem_hmac (kid alg : option string) (msg : buf) (ext_kid : option string)
    (pubkey : buf) (out : bool) : M bytes :=
  match kid, out with
  | Some kid, true =>
      if b_null msg then throw EHEM_ERR_ARG
      else
        ehem_ctx_clear_error ;;;
        let* body := hmac_build "crypto/hmac/hash" kid alg msg no_buf ext_kid pubkey in
        let* root := post_json "/api/crypto/hmac/hash" body (use_scope 64 kid) in
        decode_required root "mac" "crypto/hmac/hash: response missing 'mac'"
          "crypto/hmac/hash: 'mac' is not valid base64"
  | _, _ => throw EHEM_ERR_ARG
  end.

Definition ehem_hmac_verify (kid alg : option string) (msg mac : buf)
    (ext_kid : option string) (pubkey : buf) : M unit :=
  match kid with
  | Some kid =>
      if b_null msg || b_null mac then throw EHEM_ERR_ARG
      else
        ehem_ctx_clear_error ;;;
        let* body := hmac_build "crypto/hmac/verify" kid alg msg mac ext_kid pubkey in
        empty_200_ok (post_raw "/api/crypto/hmac/verify" body (use_scope 64 kid))
          (fun rc _ => throw rc)
  | None => throw EHEM_ERR_ARG
  end.

Definition ehem_encrypt (kid alg : option string) (msg aad : buf)
    (ext_kid : option string) (pubkey hkdf_ctx : buf) (out : bool) : M ehem_ciphertext :=
  match kid, alg with
  | Some kid, Some alg =>
      if b_null msg || negb out then throw EHEM_ERR_ARG
      else
        ehem_ctx_clear_error ;;;
        let* body := cipher_build "crypto/cipher/encrypt" kid alg msg EHEM_CIPHER_MSG_MAX
                       no_buf no_buf aad ext_kid pubkey hkdf_ctx in
        let* root := post_json "/api/crypto/cipher/encrypt" body (use_scope 64 kid) in
        let malformed := "crypto/cipher/encrypt: malformed response field" in
        let* ct := decode_required root "ciphertext"
          "crypto/cipher/encrypt: response missing 'ciphertext'" malformed in
        match decode_fixed_field root "iv" EHEM_CIPHER_IV_LEN with
        | None => ehem_ctx_fail EHEM_ERR_PROTOCOL 200 None malformed
        | Some iv =>
            match decode_fixed_field root "tag" EHEM_CIPHER_TAG_LEN with
            | None => ehem_ctx_fail EHEM_ERR_PROTOCOL 200 None malformed
            | Some tag => ret {| ct_bytes := ct; ct_iv := iv; ct_tag := tag |}
            end
        end
  | _, _ => throw EHEM_ERR_ARG
  end.

Definition ehem_decrypt (kid alg : option string) (msg iv tag aad : buf)
    (ext_kid : option string) (pubkey hkdf_ctx : buf) (out : bool) : M bytes :=
  match kid, alg with
  | Some kid, Some alg =>
      if b_null msg || negb out then throw EHEM_ERR_ARG
      else
        ehem_ctx_clear_error ;;;
        let* body := cipher_build "crypto/cipher/decrypt" kid alg msg EHEM_CIPHER_CT_MAX
                       iv tag aad ext_kid pubkey hkdf_ctx in
        let* root := post_json "/api/crypto/cipher/decrypt" body (use_scope 64 kid) in
        match ehem_json_get_string (Some root) "plaintext" with
        | None =>
            ehem_ctx_fail EHEM_ERR_PROTOCOL 200 None
              "crypto/cipher/decrypt: response missing 'plaintext'"
        | Some b64 =>
            calloc_or_fail ;;;
            let* ok := malloc in
            if negb ok then out_of_memory
            else if is_empty b64 then ret []
            else
              match std_decode b64 (strlen b64) with
              | None =>
                  ehem_ctx_fail EHEM_ERR_PROTOCOL 200 None
                    "crypto/cipher/decrypt: 'plaintext' is not valid base64"
              | Some b => ret b
              end
        end
  | _, _ => throw EHEM_ERR_ARG
  end.

Definition wrap_request (path scope body resp_field : string) : M bytes :=
  let* root := post_json path body scope in
  match nonempty_string root resp_field with
  | None =>
      ehem_ctx_fail EHEM_ERR_PROTOCOL 200 None
        (path +:+ ": response missing '" +:+ resp_field +:+ "'")
  | Some b64 =>
      let* ok := malloc in
      if negb ok then out_of_memory
      else
        match std_decode b64 (strlen b64) with
        | None | Some [] =>
            ehem_ctx_fail EHEM_ERR_PROTOCOL 200 None
              (path +:+ ": '" +:+ resp_field +:+ "' is not valid base64")
        | Some b => ret b
        end
  end.

Definition ehem_wrap (kid alg : option string) (msg : buf) (ext_kid : option string)
    (pubkey hkdf_ctx iv : buf) (out : bool) : M bytes :=
  match kid, out with
  | Some kid, true =>
      ehem_ctx_clear_error ;;;
      let* body := build_wrap_body "crypto/cipher/wrap" kid alg msg ext_kid pubkey
                     hkdf_ctx iv in
      calloc_or_fail ;;;
      wrap_request "/api/crypto/cipher/wrap" (use_scope 48 kid) body "wrapped"
  | _, _ => throw EHEM_ERR_ARG
  end.

Definition ehem_unwrap (kid alg : option string) (msg : buf) (ext_kid : option string)
    (pubkey hkdf_ctx iv : buf) (out : bool) : M bytes :=
  match kid, out with
  | Some kid, true =>
      ehem_ctx_clear_error ;;;
      let* body := build_wrap_body "crypto/cipher/unwrap" kid alg msg ext_kid pubkey
                     hkdf_ctx iv in
      calloc_or_fail ;;;
      wrap_request "/api/crypto/cipher/unwrap" (use_scope 48 kid) body "unwrapped"
  | _, _ => throw EHEM_ERR_ARG
  end.
End Crypto.

(** ** Post-quantum endpoints and the RNG *)

(** [memset(p, 0, n)] and [memcpy] into the caller's buffer. *)
Definition buf_zero (n : Z) (b : bytes) : bytes :=
  replicate (Z.to_nat n) 0 ++ drop (Z.to_nat n) b.
Definition buf_write (off : Z) (data b : bytes) : bytes :=
  take (Z.to_nat off) b ++ data ++ drop (Z.to_nat off + length data) b.

Section Pqc.
Context {P : Platform} `{Q : !Request}.

Definition ehem_mlkem_encaps (kid : option string) (out : bool)
  : M ehem_mlkem_encaps_result :=
  match kid, out with
  | Some kid, true =>
      ehem_ctx_clear_error ;;;
      require (ehem_proto_is_kid_hex kid) (kid_rule "crypto/mlkem/encaps") ;;;
      let* body := build_body [FieldStr "kid" kid] in
      let* root := post_json "/api/crypto/pqc/mlkem/encaps" body (use_scope 64 kid) in
      let* ct := decode_required root "ct" "crypto/mlkem/encaps: response missing 'ct'"
                   "crypto/mlkem/encaps: malformed 'ct'/'ss'" in
      match decode_ss root with
      | None =>
          ehem_ctx_fail EHEM_ERR_PROTOCOL 200 None
            "crypto/mlkem/encaps: malformed 'ct'/'ss'"
      | Some ss => ret {| me_alg := copy_alg root; me_ss := ss; me_ct := ct |}
      end
  | _, _ => throw EHEM_ERR_ARG
  end.

(** The body of a decapsulation: the ciphertext is encoded first. *)
Definition decaps_body (kid : string) (ct : buf) : M string :=
  let* obj := ehem_json_new_object in
  match obj with
  | None => out_of_memory
  | Some obj =>
      let* field := b64_dup ct in
      let* body :=
        (let? obj := ehem_json_add_string obj "kid" kid in
         match field with
         | None => ret None
         | Some field =>
             let? obj := ehem_json_add_string obj "ct" field in
             ehem_json_print obj
         end) in
      match body with Some b => ret b | None => out_of_memory end
  end.

Definition ehem_mlkem_decaps (kid : option string) (ct : buf) (out : bool)
  : M ehem_mlkem_secret :=
  match kid, out with
  | Some kid, true =>
      if b_null ct then throw EHEM_ERR_ARG
      else
        ehem_ctx_clear_error ;;;
        require (ehem_proto_is_kid_hex kid) (kid_rule "crypto/mlkem/decaps") ;;;
        require (b_within 1 EHEM_MLKEM_CT_MAX ct)
          (range_rule "crypto/mlkem/decaps" "ct" EHEM_MLKEM_CT_MAX +:+
           " (the key's set demands its exact size)") ;;;
        let* body := decaps_body kid ct in
        let* root := post_json "/api/crypto/pqc/mlkem/decaps" body (use_scope 64 kid) in
        calloc_or_fail ;;;
        match decode_ss root with
        | None =>
            ehem_ctx_fail EHEM_ERR_PROTOCOL 200 None
              "crypto/mlkem/decaps: response missing/bad 'ss'"
        | Some ss => ret {| ms_alg := copy_alg root; ms_ss := ss |}
        end
  | _, _ => throw EHEM_ERR_ARG
  end.

Definition ehem_mldsa_sign (kid : option string) (msg sig_ctx : buf) (out : bool)
  : M ehem_mldsa_signature :=
  match kid, out with
  | Some kid, true =>
      if b_null msg then throw EHEM_ERR_ARG
      else
        ehem_ctx_clear_error ;;;
        let* body := mldsa_build "crypto/mldsa/sign" kid msg no_buf sig_ctx in
        let* root := post_json "/api/crypto/pqc/mldsa/sign" body (use_scope 64 kid) in
        let* sig := decode_required root "sign" "crypto/mldsa/sign: response missing 'sign'"
                      "crypto/mldsa/sign: 'sign' is not valid base64" in
        ret {| md_alg := copy_alg root; md_sig := sig |}
  | _, _ => throw EHEM_ERR_ARG
  end.

(** The raw status of a failed verify. *)
Definition mldsa_raw_status (rc : ehem_rc) (status : Z) : M unit :=
  if bool_decide (rc = EHEM_ERR_PROTOCOL) && negb (status =? 0) then
    ehem_ctx_fail EHEM_ERR_DEVICE status None
      ("crypto/mldsa/verify: device reported failure (raw status " +:+
       dec status +:+ " - fw v1.2.2 emits its crypto error code here)")
  else throw rc.

Definition ehem_mldsa_verify (kid : option string) (msg sig_ctx sig : buf) : M unit :=
  match kid with
  | Some kid =>
      if b_null msg || b_null sig then throw EHEM_ERR_ARG
      else
        ehem_ctx_clear_error ;;;
        let* body := mldsa_build "crypto/mldsa/verify" kid msg sig sig_ctx in
        empty_200_ok (post_raw "/api/crypto/pqc/mldsa/verify" body (use_scope 64 kid))
          mldsa_raw_status
  | None => throw EHEM_ERR_ARG
  end.

(** The harvest loop: the return code and the caller's buffer.  Every round
    fills at least one byte, so [len] rounds are enough. *)
Fixpoint random_loop (fuel : nat) (kid : string) (len filled : Z) (b : bytes)
  : M (ehem_rc * bytes) :=
  if len <=? filled then ret (EHEM_OK, b)
  else
    match fuel with
    | O => diverge
    | S fuel =>
        let* r := attempt (ehem_encrypt (Some kid) (Some EHEM_CIPHER_ALG_AES128_CBC)
                             (buf_of [0]) no_buf None no_buf no_buf true) in
        match r with
        | inr rc => ret (rc, buf_zero filled b)
        | inl ct =>
            match ct_iv ct with
            | None =>
                let* r := attempt (ehem_ctx_fail (A:=unit) EHEM_ERR_PROTOCOL 200 None
                            "crypto/random: encrypt response carried no iv") in
                ret (EHEM_ERR_PROTOCOL, buf_zero filled b)
            | Some iv =>
                let n := Z.min (len - filled) EHEM_CIPHER_IV_LEN in
                random_loop fuel kid len (filled + n)
                  (buf_write filled (take (Z.to_nat n) iv) b)
            end
        end
    end.

Definition ehem_random (kid : option string) (b : buf) : M (ehem_rc * bytes) :=
  match kid, b_ptr b with
  | Some kid, Some mem =>
      ehem_ctx_clear_error ;;;
      require (ehem_proto_is_kid_hex kid) (kid_rule "crypto/random") ;;;
      require (1 <=? b_len b) "crypto/random: len must be at least 1" ;;;
      random_loop (Z.to_nat (b_len b)) kid (b_len b) 0 mem
  | _, _ => throw EHEM_ERR_ARG
  end.
End Pqc.

(** ** Frames *)

Section Frames.
Context {P : Platform} (R : relation world) (A : relation (option ehem_auth))
        `{!FrameRel R A} `{Q : !Request, !RequestFrame R Q}.

Lemma keeps_check_peer_args w e p n : keeps R (check_peer_args w e p n).
Proof. unfold check_peer_args. solve_keeps. Qed.
#[local] Hint Resolve keeps_check_peer_args : keeps.
Lemma keeps_hmac_build w k a m c e p : keeps R (hmac_build w k a m c e p).
Proof. unfold hmac_build. solve_keeps. Qed.
Lemma keeps_cipher_build w k a m n i t d e p h :
  keeps R (cipher_build w k a m n i t d e p h).
Proof. unfold cipher_build. solve_keeps. Qed.
Lemma keeps_wrap_body w k a m e p h i : keeps R (build_wrap_body w k a m e p h i).
Proof. unfold build_wrap_body. solve_keeps. Qed.
Lemma keeps_mldsa_build w k m s c : keeps R (mldsa_build w k m s c).
Proof. unfold mldsa_build. solve_keeps. Qed.
Lemma keeps_decode_required r f m b : keeps R (decode_required r f m b).
Proof. unfold decode_required. solve_keeps. Qed.
#[local] Hint Resolve keeps_hmac_build keeps_cipher_build keeps_wrap_body
  keeps_mldsa_build keeps_decode_required : keeps.

Lemma keeps_post_json p b s : device_path p = true -> keeps R (post_json p b s).
Proof. intros. unfold post_json. solve_keeps. Qed.
Lemma keeps_post_raw p b s : device_path p = true -> keeps R (post_raw p b s).
Proof. intros. unfold post_raw. apply request_keeps. by apply ok_args_device. Qed.
#[local] Hint Resolve keeps_post_json keeps_post_raw : keeps.

Lemma keeps_sign k a m c o : keeps R (ehem_sign k a m c o).
Proof. unfold ehem_sign. solve_keeps. Qed.
Lemma keeps_verify k a m c s : keeps R (ehem_verify k a m c s).
Proof. unfold ehem_verify. solve_keeps. Qed.
Lemma keeps_ecdh k e p a o : keeps R (ehem_ecdh k e p a o).
Proof. unfold ehem_ecdh. solve_keeps. Qed.
Lemma keeps_hmac k a m e p o : keeps R (ehem_hmac k a m e p o).
Proof. unfold ehem_hmac. solve_keeps. Qed.
Lemma keeps_hmac_verify k a m c e p : keeps R (ehem_hmac_verify k a m c e p).
Proof. unfold ehem_hmac_verify. solve_keeps. Qed.
Lemma keeps_encrypt k a m d e p h o : keeps R (ehem_encrypt k a m d e p h o).
Proof. unfold ehem_encrypt. solve_keeps. Qed.
Lemma keeps_decrypt k a m i t d e p h o : keeps R (ehem_decrypt k a m i t d e p h o).
Proof. unfold ehem_decrypt. solve_keeps. Qed.
Lemma keeps_wrap_request p s b f :
  device_path p = true -> keeps R (wrap_request p s b f).
Proof. intros. unfold wrap_request. solve_keeps. Qed.
#[local] Hint Resolve keeps_wrap_request keeps_encrypt : keeps.
Lemma keeps_wrap k a m e p h i o : keeps R (ehem_wrap k a m e p h i o).
Proof. unfold ehem_wrap. solve_keeps. Qed.
Lemma keeps_unwrap k a m e p h i o : keeps R (ehem_unwrap k a m e p h i o).
Proof. unfold ehem_unwrap. solve_keeps. Qed.
Lemma keeps_mlkem_encaps k o : keeps R (ehem_mlkem_encaps k o).
Proof. unfold ehem_mlkem_encaps. solve_keeps. Qed.
Lemma keeps_decaps_body k c : keeps R (decaps_body k c).
Proof.
  unfold decaps_body, ehem_json_new_object, ehem_json_add_string, ehem_json_print.
  solve_keeps.
Qed.
#[local] Hint Resolve keeps_decaps_body : keeps.
Lemma keeps_mlkem_decaps k c o : keeps R (ehem_mlkem_decaps k c o).
Proof. unfold ehem_mlkem_decaps. solve_keeps. Qed.
Lemma keeps_mldsa_sign k m c o : keeps R (ehem_mldsa_sign k m c o).
Proof. unfold ehem_mldsa_sign. solve_keeps. Qed.
Lemma keeps_mldsa_raw_status rc s : keeps R (mldsa_raw_status rc s).
Proof. unfold mldsa_raw_status. solve_keeps. Qed.
#[local] Hint Resolve keeps_mldsa_raw_status : keeps.
Lemma keeps_mldsa_verify k m c s : keeps R (ehem_mldsa_verify k m c s).
Proof. unfold ehem_mldsa_verify. solve_keeps. Qed.
Lemma keeps_random_loop fuel k len f b : keeps R (random_loop fuel k len f b).
Proof.
  revert f b; induction fuel as [|fuel IH]; intros f b; cbn [random_loop]; solve_keeps.
Qed.
#[local] Hint Resolve keeps_random_loop : keeps.
Lemma keeps_random k b : keeps R (ehem_random k b).
Proof. unfold ehem_random. solve_keeps. Qed.
End Frames.

(** ** Totality *)

Section Totals.
Context {P : Platform} (b : bool).

Lemma total_check_peer_args w e p n : total b (check_peer_args w e p n).
Proof. unfold check_peer_args. solve_total. Qed.
#[local] Hint Resolve total_check_peer_args : total.
Lemma total_hmac_build w k a m c e p : total b (hmac_build w k a m c e p).
Proof. unfold hmac_build. solve_total. Qed.
Lemma total_cipher_build w k a m n i t d e p h :
  total b (cipher_build w k a m n i t d e p h).
Proof. unfold cipher_build. solve_total. Qed.
Lemma total_wrap_body w k a m e p h i : total b (build_wrap_body w k a m e p h i).
Proof. unfold build_wrap_body. solve_total. Qed.
Lemma total_mldsa_build w k m s c : total b (mldsa_build w k m s c).
Proof. unfold mldsa_build. solve_total. Qed.
Lemma total_decode_required r f m x : total b (decode_required r f m x).
Proof. unfold decode_required. solve_total. Qed.
#[local] Hint Resolve total_hmac_build total_cipher_build total_wrap_body
  total_mldsa_build total_decode_required : total.
Lemma total_decaps_body k c : total b (decaps_body k c).
Proof.
  unfold decaps_body, ehem_json_new_object, ehem_json_add_string, ehem_json_print.
  solve_total.
Qed.
#[local] Hint Resolve total_decaps_body : total.

Context `{Q : !Request, !RequestTotal b (fun _ => True) Q}.
Lemma total_post_json p x s : total b (post_json p x s).
Proof. by eapply total_request_json. Qed.
Lemma total_post_raw p x s : total b (post_raw p x s).
Proof. unfold post_raw; by apply request_total. Qed.
#[local] Hint Resolve total_post_json total_post_raw : total.

Lemma total_sign k a m c o : total b (ehem_sign k a m c o).
Proof. unfold ehem_sign. solve_total. Qed.
Lemma total_verify k a m c s : total b (ehem_verify k a m c s).
Proof. unfold ehem_verify. solve_total. Qed.
Lemma total_ecdh k e p a o : total b (ehem_ecdh k e p a o).
Proof. unfold ehem_ecdh. solve_total. Qed.
Lemma total_hmac k a m e p o : total b (ehem_hmac k a m e p o).
Proof. unfold ehem_hmac. solve_total. Qed.
Lemma total_hmac_verify k a m c e p : total b (ehem_hmac_verify k a m c e p).
Proof. unfold ehem_hmac_verify. solve_total. Qed.
Lemma total_encrypt k a m d e p h o : total b (ehem_encrypt k a m d e p h o).
Proof. unfold ehem_encrypt. solve_total. Qed.
Lemma total_decrypt k a m i t d e p h o : total b (ehem_decrypt k a m i t d e p h o).
Proof. unfold ehem_decrypt. solve_total. Qed.
Lemma total_wrap_request p s x f : total b (wrap_request p s x f).
Proof. unfold wrap_request. solve_total. Qed.
#[local] Hint Resolve total_wrap_request : total.
Lemma total_wrap k a m e p h i o : total b (ehem_wrap k a m e p h i o).
Proof. unfold ehem_wrap. solve_total. Qed.
Lemma total_unwrap k a m e p h i o : total b (ehem_unwrap k a m e p h i o).
Proof. unfold ehem_unwrap. solve_total. Qed.
Lemma total_mlkem_encaps k o : total b (ehem_mlkem_encaps k o).
Proof. unfold ehem_mlkem_encaps. solve_total. Qed.
Lemma total_mlkem_decaps k c o : total b (ehem_mlkem_decaps k c o).
Proof. unfold ehem_mlkem_decaps. solve_total. Qed.
Lemma total_mldsa_sign k m c o : total b (ehem_mldsa_sign k m c o).
Proof. unfold ehem_mldsa_sign. solve_total. Qed.
Lemma total_mldsa_raw_status rc s : total b (mldsa_raw_status rc s).
Proof. unfold mldsa_raw_status. solve_total. Qed.
#[local] Hint Resolve total_mldsa_raw_status : total.
Lemma total_mldsa_verify k m c s : total b (ehem_mldsa_verify k m c s).
Proof. unfold ehem_mldsa_verify. solve_total. Qed.

(** A round fills at least one byte. *)
Lemma total_random_loop fuel k len f x :
  len - f <= Z.of_nat fuel -> total b (random_loop fuel k len f x).
Proof.
  revert f x; induction fuel as [|fuel IH]; intros f x Hf; cbn [random_loop].
  - case_match; [by eauto with total|lia].
  - pose proof total_encrypt. case_match; [by eauto with total|].
    apply total_bind; [apply total_attempt; auto|]. intros [ct|rc]; [|by eauto with total].
    destruct (ct_iv ct); [|solve_total]. apply IH.
    unfold EHEM_CIPHER_IV_LEN. lia.
Qed.
Lemma total_random k x : total b (ehem_random k x).
Proof.
  unfold ehem_random. pose proof total_random_loop as H.
  destruct k; [|by eauto with total]. destruct (b_ptr x); [|by eauto with total].
  apply total_bind; [by eauto with total|intros _].
  apply total_bind; [by eauto with total|intros _].
  apply total_bind; [by eauto with total|intros _]. apply H. lia.
Qed.
End Totals.
