(* ===== verification/System.v ===== *)
(** * The system bindings

    [src/proto_system.c] without the check-in flow (Checkin.v): status,
    version, certificate inspection, config, certificate install, reboot,
    wipeout, selftest, attestation, TLS recovery, shutdown.  With them the two
    small groups of [proto_storage.c] and [proto_logger.c]. *)

From S2P Require Import Prelude Base64 Json World Logic Context Ejwt Proto AuthState Notify.
From S2P Require Import Bindings.

Open Scope hem_scope.

Record ehem_status_info := {
  si_ctx : Z; si_fls_state : Z; si_uptime : Z; si_temp : spec_float;
  si_ts : option string; si_hostname : option string; si_format : option string;
  si_time : option Z; si_fw_upgrade : option bool; si_inited : option bool;
  si_https : option bool; si_tts : option bool; si_storage : list string
}.

Record ehem_version_info := {
  vi_hwv : string; vi_fwv : string; vi_blv : option string; vi_fwk : option string;
  vi_fws : option string; vi_blk : option string; vi_bls : option string;
  vi_uis : option string; vi_sd_csd : option string; vi_sd_cid : option string
}.

Record ehem_cert_info := {
  cert_serial : string; cert_subject_cn : string;
  cert_not_before : string; cert_not_after : string
}.

(** An optional number or boolean is its [has_*] flag and value. *)
Record ehem_config_info := {
  co_devid : string; co_hostname : string; co_user : string;
  co_email : option string; co_eid : option string; co_instanceid : option string;
  co_origin : option string; co_ip : option string; co_genuine_id : option string;
  co_iat : option Z; co_uts : option Z; co_ctx : option Z; co_storage_mode : option Z;
  co_storage_disk0size : option Z; co_storage_capacity : option Z;
  co_dnsd : option bool; co_trusted_ts : option bool; co_trusted_backend : option bool;
  co_allow_keysearch : option bool; co_http_hsts : option bool
}.

Record ehem_cert_install_info := { in_updated : bool; in_reboot_required : bool }.

Record ehem_selftest_info := {
  st_fls_state : Z; st_selftest_ts : Z; st_last_selftest_ts : Z; st_last_fls_state : Z;
  st_last_entropytest_ts : Z; st_last_kat_ts : Z; st_kat_busy : bool; st_se_state : Z;
  st_repo_total : Z; st_repo_deleted : Z; st_repo_invalid : Z;
  st_repo_fragmented : Z; st_repo_freeslots : Z
}.

Record ehem_attestation_info := {
  at_genuine : string; at_crt_b64 : option string;
  at_csr_pem : option string; at_key_b64 : option string
}.

Definition EHEM_DEFAULT_REGISTER_URL : string :=
  "https://api.encedo.com/domain/register/my".

(** [{"wipeout":true}] and the splice around a bundle. *)
Definition WIPEOUT_BODY : string := quoted "{#wipeout#:true}".
Definition tls_body (bundle : string) : string :=
  quoted "{#tls#:" +:+ bundle +:+ "}".

Section Parse.
Context {P : Platform}.

Definition missing_field {A} (what key : string) : M A :=
  ehem_ctx_fail EHEM_ERR_PROTOCOL 200 None
    (what +:+ ": missing required field '" +:+ key +:+ "'").

(** A required string, copied. *)
Definition required_str (root : json) (what key : string) : M string :=
  match ehem_json_get_string (Some root) key with
  | None => missing_field what key
  | Some s => dup_or_fail s
  end.

(** The string elements of an array, from index [i] with [k] to go. *)
Fixpoint copy_strings (l : jptr) (i : Z) (k : nat) : M (option (list string)) :=
  match k with
  | O => ret (Some [])
  | S k =>
      match ehem_json_as_string (ehem_json_array_get l i) with
      | None => copy_strings l (i + 1) k
      | Some v =>
          let? v := dup_str v in
          let? rest := copy_strings l (i + 1) k in
          ret (Some (v :: rest))
      end
  end.

Definition status_storage (root : json) : M (option (list string)) :=
  let node := ehem_json_get (Some root) "storage" in
  let n := if ehem_json_is_array node then ehem_json_array_size node else 0 in
  if 0 <? n then
    let* ok := malloc in
    if ok then copy_strings node 0 (Z.to_nat n) else ret None
  else ret (Some []).

Definition parse_status (root : json) : M ehem_status_info :=
  let i64 := ehem_json_get_int64 (Some root) in
  let bool_ := ehem_json_get_bool (Some root) in
  calloc_or_fail ;;;
  match i64 "ctx" with
  | None => missing_field "system/status" "ctx"
  | Some ctx =>
  match i64 "fls_state" with
  | None => missing_field "system/status" "fls_state"
  | Some fls =>
  match i64 "uptime" with
  | None => missing_field "system/status" "uptime"
  | Some uptime =>
  match ehem_json_get_double (Some root) "temp" with
  | None => missing_field "system/status" "temp"
  | Some temp =>
      let* r :=
        (let? ts := opt_str (Some root) "ts" in
         let? hostname := opt_str (Some root) "hostname" in
         let? format := opt_str (Some root) "format" in
         let? storage := status_storage root in
         ret (Some {| si_ctx := ctx; si_fls_state := fls; si_uptime := uptime;
                      si_temp := temp; si_ts := ts; si_hostname := hostname;
                      si_format := format; si_time := i64 "time";
                      si_fw_upgrade := bool_ "fw_upgrade"; si_inited := bool_ "inited";
                      si_https := bool_ "https"; si_tts := bool_ "tts";
                      si_storage := storage |})) in
      match r with Some r => ret r | None => out_of_memory end
  end end end end.

Definition parse_version (root : json) : M ehem_version_info :=
  calloc_or_fail ;;;
  let* hwv := required_str root "system/version" "hwv" in
  let* fwv := required_str root "system/version" "fwv" in
  let* r :=
    (let? blv := opt_str (Some root) "blv" in
     let? fwk := opt_str (Some root) "fwk" in
     let? fws := opt_str (Some root) "fws" in
     let? blk := opt_str (Some root) "blk" in
     let? bls := opt_str (Some root) "bls" in
     let? uis := opt_str (Some root) "uis" in
     let? csd := opt_str (Some root) "sd_csd" in
     let? cid := opt_str (Some root) "sd_cid" in
     ret (Some {| vi_hwv := hwv; vi_fwv := fwv; vi_blv := blv; vi_fwk := fwk;
                  vi_fws := fws; vi_blk := blk; vi_bls := bls; vi_uis := uis;
                  vi_sd_csd := csd; vi_sd_cid := cid |})) in
  match r with Some r => ret r | None => out_of_memory end.

Definition parse_config (root : json) : M ehem_config_info :=
  let i64 := ehem_json_get_int64 (Some root) in
  let bool_ := ehem_json_get_bool (Some root) in
  calloc_or_fail ;;;
  let* devid := required_str root "system/config" "devid" in
  let* hostname := required_str root "system/config" "hostname" in
  let* user := required_str root "system/config" "user" in
  let* r :=
    (let? email := opt_str (Some root) "email" in
     let? eid := opt_str (Some root) "eid" in
     let? instanceid := opt_str (Some root) "instanceid" in
     let? origin := opt_str (Some root) "origin" in
     let? ip := opt_str (Some root) "ip" in
     let? genuine_id := opt_str (Some root) "genuine_id" in
     ret (Some {| co_devid := devid; co_hostname := hostname; co_user := user;
                  co_email := email; co_eid := eid; co_instanceid := instanceid;
                  co_origin := origin; co_ip := ip; co_genuine_id := genuine_id;
                  co_iat := i64 "iat"; co_uts := i64 "uts"; co_ctx := i64 "ctx";
                  co_storage_mode := i64 "storage_mode";
                  co_storage_disk0size := i64 "storage_disk0size";
                  co_storage_capacity := i64 "storage_capacity";
                  co_dnsd := bool_ "dnsd"; co_trusted_ts := bool_ "trusted_ts";
                  co_trusted_backend := bool_ "trusted_backend";
                  co_allow_keysearch := bool_ "allow_keysearch";
                  co_http_hsts := bool_ "http_option_hsts" |})) in
  match r with Some r => ret r | None => out_of_memory end.

(** The optional result of a certificate install. *)
Definition install_result (root : json) (out : bool) : M (option ehem_cert_install_info) :=
  if out then
    calloc_or_fail ;;;
    ret (Some {| in_updated := default false (ehem_json_get_bool (Some root) "updated");
                 in_reboot_required :=
                   default false (ehem_json_get_bool (Some root) "reboot_required") |})
  else ret None.

Definition ehem_cert_inspect (crt_b64 : option string) (out : bool) : M ehem_cert_info :=
  match crt_b64, out with
  | Some crt, true =>
      ehem_ctx_clear_error ;;;
      if strlen crt =? 0 then
        ehem_ctx_fail EHEM_ERR_PROTOCOL 0 None "cert: empty certificate string"
      else
        let* ok := malloc in
        if negb ok then out_of_memory
        else
          match std_decode crt (strlen crt) with
          | None => ehem_ctx_fail EHEM_ERR_PROTOCOL 0 None "cert: not valid base64"
          | Some der =>
              let* (rc, f) := ask (fun n => p_cert_parse_leaf n der) in
              if negb (ok_rc rc) then
                ehem_ctx_fail EHEM_ERR_PROTOCOL 0 None
                  "cert: could not parse X.509 leaf certificate"
              else
                calloc_or_fail ;;;
                let* serial := dup_str (cf_serial_hex f) in
                let* cn := dup_str (cf_subject_cn f) in
                let* nb := dup_str (cf_not_before f) in
                let* na := dup_str (cf_not_after f) in
                match serial, cn, nb, na with
                | Some serial, Some cn, Some nb, Some na =>
                    ret {| cert_serial := serial; cert_subject_cn := cn;
                           cert_not_before := nb; cert_not_after := na |}
                | _, _, _, _ => out_of_memory
                end
          end
  | _, _ => throw EHEM_ERR_ARG
  end.
End Parse.

Section System.
Context {P : Platform} `{Q : !Request}.

Definition get_json (path : string) (scope : option string) : M json :=
  ehem_proto_request_json EHEM_HTTP_GET path None scope EHEM_TLS_REQ_DEFAULT.

Definition ehem_system_status (out : bool) : M ehem_status_info :=
  if negb out then throw EHEM_ERR_ARG
  else
    ehem_ctx_clear_error ;;;
    let* root := get_json "/api/system/status" None in
    parse_status root.

Definition ehem_system_version (out : bool) : M ehem_version_info :=
  if negb out then throw EHEM_ERR_ARG
  else
    ehem_ctx_clear_error ;;;
    let* root := get_json "/api/system/version" None in
    parse_version root.

Definition ehem_system_config (out : bool) : M ehem_config_info :=
  if negb out then throw EHEM_ERR_ARG
  else
    ehem_ctx_clear_error ;;;
    let* root := get_json "/api/system/config" (Some "system:config") in
    parse_config root.

(** The body is one nested object, then a print: four allocations. *)
Definition ehem_system_config_install_cert (crt_b64 : option string) (out : bool)
  : M (option ehem_cert_install_info) :=
  match crt_b64 with
  | None => throw EHEM_ERR_ARG
  | Some crt =>
      ehem_ctx_clear_error ;;;
      let* body :=
        (let? obj := ehem_json_new_object in
         let? tls := alloc json_new_object in
         let? tls := ehem_json_add_string tls "crt" crt in
         ehem_json_print (json_add obj "tls" tls)) in
      match body with
      | None => out_of_memory
      | Some body =>
          let* root := ehem_proto_request_json EHEM_HTTP_POST "/api/system/config"
                         (Some body) (Some "system:config") EHEM_TLS_REQ_DEFAULT in
          install_result root out
      end
  end.

(** Reboot and shutdown: any success drops every cached token. *)
Definition power_call (path scope : string) : M unit :=
  ehem_ctx_clear_error ;;;
  let* r := attempt (ehem_proto_request_raw EHEM_HTTP_GET path None (Some scope)
                       EHEM_TLS_REQ_DEFAULT) in
  let* e := ehem_last_error in
  match r with
  | inl _ => ehem_auth_invalidate None ;;; ehem_ctx_clear_error
  | inr rc =>
      if bool_decide (rc = EHEM_ERR_PROTOCOL) && (http_status e =? 200)
      then ehem_auth_invalidate None ;;; ehem_ctx_clear_error
      else throw rc
  end.
Definition ehem_system_reboot : M unit := power_call "/api/system/reboot" "system:config".
Definition ehem_system_shutdown : M unit :=
  power_call "/api/system/shutdown" "system:shutdown".

Definition ehem_system_wipeout : M unit :=
  ehem_ctx_clear_error ;;;
  let* r := attempt (ehem_proto_request_raw EHEM_HTTP_POST "/api/system/config"
                       (Some WIPEOUT_BODY) (Some "system:config") EHEM_TLS_REQ_DEFAULT) in
  let* e := ehem_last_error in
  match r with
  | inl _ => ehem_logout
  | inr rc =>
      if bool_decide (rc = EHEM_ERR_PROTOCOL) && (http_status e =? 200)
      then ehem_logout
      else throw rc
  end.

Definition ehem_system_selftest (out : bool) : M ehem_selftest_info :=
  if negb out then throw EHEM_ERR_ARG
  else
    ehem_ctx_clear_error ;;;
    let* root := get_json "/api/system/selftest" (Some "system:config") in
    let i64 d key := default d (ehem_json_get_int64 (Some root) key) in
    let stat key := default (-1) (ehem_json_get_int64
                      (ehem_json_get (Some root) "repo_stats") key) in
    calloc_or_fail ;;;
    match ehem_json_get_int64 (Some root) "fls_state" with
    | None =>
        ehem_ctx_fail EHEM_ERR_PROTOCOL 200 None
          "system/selftest: response missing 'fls_state'"
    | Some fls =>
        ret {| st_fls_state := fls; st_selftest_ts := i64 0 "selftest_ts";
               st_last_selftest_ts := i64 0 "last_selftest_ts";
               st_last_fls_state := i64 0 "last_fls_state";
               st_last_entropytest_ts := i64 0 "last_entropytest_ts";
               st_last_kat_ts := i64 0 "last_kat_ts";
               st_kat_busy := default false (ehem_json_get_bool (Some root) "kat_busy");
               st_se_state := i64 (-1) "se_state";
               st_repo_total := stat "total"; st_repo_deleted := stat "deleted";
               st_repo_invalid := stat "invalid"; st_repo_fragmented := stat "fragmented";
               st_repo_freeslots := stat "freeslots" |}
    end.

Definition ehem_system_attestation (out : bool) : M ehem_attestation_info :=
  if negb out then throw EHEM_ERR_ARG
  else
    ehem_ctx_clear_error ;;;
    let* root := get_json "/api/system/config/attestation" (Some "system:config") in
    calloc_or_fail ;;;
    match ehem_json_get_string (Some root) "genuine" with
    | None =>
        ehem_ctx_fail EHEM_ERR_PROTOCOL 200 None
          "system/config/attestation: response missing 'genuine'"
    | Some genuine =>
        let* r :=
          (let? genuine := dup_str genuine in
           let? crt := opt_str (Some root) "crt" in
           let? csr := opt_str (Some root) "csr" in
           let? key := opt_str (Some root) "key" in
           ret (Some {| at_genuine := genuine; at_crt_b64 := crt; at_csr_pem := csr;
                        at_key_b64 := key |})) in
        match r with Some r => ret r | None => out_of_memory end
    end.

Definition ehem_tls_recover (register_url : option string) (out : bool)
  : M (option ehem_cert_install_info) :=
  let url := default EHEM_DEFAULT_REGISTER_URL register_url in
  ehem_ctx_clear_error ;;;
  let* att := ehem_system_attestation true in
  let* body := body_or_fail [("genuine", at_genuine att)] in
  let* bundle := ehem_proto_request_raw EHEM_HTTP_POST url (Some body) None
                   EHEM_TLS_REQ_VERIFY in
  match ehem_json_get_string (ehem_json_parse bundle) "crt" with
  | None =>
      ehem_ctx_fail EHEM_ERR_PROTOCOL 0 None
        "tls-recover: the cloud delivered no usable bundle (no JSON object with 'crt')"
  | Some _ =>
      let* ok := malloc in
      if negb ok then out_of_memory
      else
        let* root := ehem_proto_request_json EHEM_HTTP_POST "/api/system/config"
                       (Some (tls_body bundle)) (Some "system:config")
                       EHEM_TLS_REQ_DEFAULT in
        install_result root out
  end.
End System.

(** ** Storage and logger *)

Definition LOGGER_SCOPE : string := "logger:get".
Definition EHEM_LOGGER_KEY_SIZE : Z := 32.
Definition EHEM_LOGGER_NONCE_SIZE : Z := 32.
Definition EHEM_LOGGER_SIG_SIZE : Z := 64.

Record ehem_logger_key_info := { lk_key : bytes; lk_nonce : bytes; lk_nonce_signed : bytes }.
Record ehem_logger_page := { lp_total : Z; lp_ids : list string }.

Definition storage_scope (disk : Z) (suffix : string) : string :=
  snprintf_trunc 32 ("storage:disk" +:+ dec disk +:+ suffix).

Section StorageLogger.
Context {P : Platform} `{Q : !Request}.

Definition storage_call (path scope : string) : M unit :=
  empty_200_ok
    (ehem_proto_request_raw EHEM_HTTP_GET path None (Some scope) EHEM_TLS_REQ_DEFAULT)
    (fun rc _ => throw rc).

Definition ehem_storage_unlock (disk writable : Z) : M unit :=
  ehem_ctx_clear_error ;;;
  require (negb ((disk <? 0) || (2 <? disk))) "storage/unlock: disk must be 0..2" ;;;
  storage_call "/api/storage/unlock"
    (storage_scope disk (if writable =? 0 then "" else ":rw")).

Definition ehem_storage_lock (disk : Z) : M unit :=
  ehem_ctx_clear_error ;;;
  require (negb ((disk <? 0) || (2 <? disk))) "storage/lock: disk must be 0..2" ;;;
  storage_call "/api/storage/lock" (storage_scope disk "").

(** [decode_fixed_b64] *)
Definition decode_fixed_b64 (root : json) (key : string) (want : Z) : option bytes :=
  s ← ehem_json_get_string (Some root) key;
  b ← std_decode s 128;
  if Z.of_nat (length b) =? want then Some b else None.

Definition ehem_logger_key (out : bool) : M ehem_logger_key_info :=
  if negb out then throw EHEM_ERR_ARG
  else
    ehem_ctx_clear_error ;;;
    let* root := get_json "/api/logger/key" (Some LOGGER_SCOPE) in
    calloc_or_fail ;;;
    match decode_fixed_b64 root "key" EHEM_LOGGER_KEY_SIZE,
          decode_fixed_b64 root "nonce" EHEM_LOGGER_NONCE_SIZE,
          decode_fixed_b64 root "nonce_signed" EHEM_LOGGER_SIG_SIZE with
    | Some k, Some n, Some s => ret {| lk_key := k; lk_nonce := n; lk_nonce_signed := s |}
    | _, _, _ =>
        ehem_ctx_fail EHEM_ERR_PROTOCOL 200 None
          "logger/key: key/nonce/nonce_signed must base64-decode to 32/32/64 bytes"
    end.

(** The elements of [id], from index [i] with [k] to go. *)
Fixpoint logger_ids (l : jptr) (i : Z) (k : nat) : M (list string) :=
  match k with
  | O => ret []
  | S k =>
      match ehem_json_as_string (ehem_json_array_get l i) with
      | None =>
          ehem_ctx_fail EHEM_ERR_PROTOCOL 200 None
            ("logger/list: 'id' element " +:+ dec i +:+ " is not a string")
      | Some s =>
          let* s := dup_or_fail s in
          let* rest := logger_ids l (i + 1) k in
          ret (s :: rest)
      end
  end.

Definition ehem_logger_list (offset : Z) (out : bool) : M ehem_logger_page :=
  if negb out then throw EHEM_ERR_ARG
  else
    ehem_ctx_clear_error ;;;
    let path := snprintf_trunc 64 ("/api/logger/list/" +:+ dec offset) in
    let* root := get_json path (Some LOGGER_SCOPE) in
    calloc_or_fail ;;;
    let total := default 0 (ehem_json_get_int64 (Some root) "total") in
    let ids := ehem_json_get (Some root) "id" in
    let n := if ehem_json_is_array ids then ehem_json_array_size ids else 0 in
    if 0 <? n then
      calloc_or_fail ;;;
      let* l := logger_ids ids 0 (Z.to_nat n) in
      ret {| lp_total := total; lp_ids := l |}
    else ret {| lp_total := total; lp_ids := [] |}.

(** The file, as its text; [*len] is its [strlen]. *)
Definition ehem_logger_get (id : option string) (out : bool) : M string :=
  match id, out with
  | Some id, true =>
      if is_empty id then throw EHEM_ERR_ARG
      else
        ehem_ctx_clear_error ;;;
        require (string_forallb is_hex_char id) "logger/get: id must be hex" ;;;
        require (strlen id <? 32) "logger/get: id too long" ;;;
        ehem_proto_request_raw EHEM_HTTP_GET (snprintf_trunc 96 ("/api/logger/" +:+ id)) None
          (Some LOGGER_SCOPE) EHEM_TLS_REQ_DEFAULT
  | _, _ => throw EHEM_ERR_ARG
  end.
End StorageLogger.

(** ** Frames *)

Section Frames.
Context {P : Platform} (R : relation world) (A : relation (option ehem_auth))
        `{!FrameRel R A, !AuthRel A} `{Q : !Request, !RequestFrame R Q}.

Lemma keeps_missing_field {B} w k : keeps R (missing_field (A:=B) w k).
Proof. unfold missing_field. solve_keeps. Qed.
#[local] Hint Resolve keeps_missing_field : keeps.
Lemma keeps_required_str r w k : keeps R (required_str r w k).
Proof. unfold required_str. solve_keeps. Qed.
Lemma keeps_copy_strings l i k : keeps R (copy_strings l i k).
Proof.
  revert i; induction k as [|k IH]; intros i; [by eauto with keeps|].
  cbn [copy_strings]. solve_keeps.
Qed.
#[local] Hint Resolve keeps_required_str keeps_copy_strings : keeps.
Lemma keeps_status_storage r : keeps R (status_storage r).
Proof. unfold status_storage. solve_keeps. Qed.
#[local] Hint Resolve keeps_status_storage : keeps.
Lemma keeps_parse_status r : keeps R (parse_status r).
Proof. unfold parse_status. solve_keeps. Qed.
Lemma keeps_parse_version r : keeps R (parse_version r).
Proof. unfold parse_version. solve_keeps. Qed.
Lemma keeps_parse_config r : keeps R (parse_config r).
Proof. unfold parse_config. solve_keeps. Qed.
Lemma keeps_install_result r o : keeps R (install_result r o).
Proof. unfold install_result. solve_keeps. Qed.
Lemma keeps_cert_inspect c o : keeps R (ehem_cert_inspect c o).
Proof. unfold ehem_cert_inspect. solve_keeps. Qed.
#[local] Hint Resolve keeps_parse_status keeps_parse_version keeps_parse_config
  keeps_install_result : keeps.

Lemma keeps_get_json p s : device_path p = true -> keeps R (get_json p s).
Proof. intros. unfold get_json. solve_keeps. Qed.
#[local] Hint Resolve keeps_get_json : keeps.
Lemma keeps_status o : keeps R (ehem_system_status o).
Proof. unfold ehem_system_status. solve_keeps. Qed.
Lemma keeps_version o : keeps R (ehem_system_version o).
Proof. unfold ehem_system_version. solve_keeps. Qed.
Lemma keeps_config o : keeps R (ehem_system_config o).
Proof. unfold ehem_system_config. solve_keeps. Qed.
Lemma keeps_install_cert c o : keeps R (ehem_system_config_install_cert c o).
Proof.
  unfold ehem_system_config_install_cert, ehem_json_new_object, ehem_json_add_string,
    ehem_json_print. solve_keeps.
Qed.
#[local] Hint Extern 1 (keeps R (ehem_proto_request_raw _ _ _ _ _)) =>
  apply request_keeps : keeps.
Lemma keeps_power_call p s : device_path p = true -> keeps R (power_call p s).
Proof. intros. unfold power_call. solve_keeps. Qed.
Lemma keeps_selftest o : keeps R (ehem_system_selftest o).
Proof. unfold ehem_system_selftest. solve_keeps. Qed.
Lemma keeps_attestation o : keeps R (ehem_system_attestation o).
Proof. unfold ehem_system_attestation. solve_keeps. Qed.
#[local] Hint Resolve keeps_attestation : keeps.
Lemma keeps_tls_recover u o : keeps R (ehem_tls_recover u o).
Proof. unfold ehem_tls_recover. solve_keeps. Qed.

Lemma keeps_storage_call p s : device_path p = true -> keeps R (storage_call p s).
Proof.
  intros. unfold storage_call. apply (keeps_empty_200_ok R A); [|by eauto with keeps].
  by apply request_keeps, ok_args_device.
Qed.
#[local] Hint Resolve keeps_storage_call : keeps.
Lemma keeps_storage_unlock d w : keeps R (ehem_storage_unlock d w).
Proof. unfold ehem_storage_unlock. solve_keeps. Qed.
Lemma keeps_storage_lock d : keeps R (ehem_storage_lock d).
Proof. unfold ehem_storage_lock. solve_keeps. Qed.
Lemma keeps_logger_key o : keeps R (ehem_logger_key o).
Proof. unfold ehem_logger_key. solve_keeps. Qed.
Lemma keeps_logger_ids l i k : keeps R (logger_ids l i k).
Proof.
  revert i; induction k as [|k IH]; intros i; [by eauto with keeps|].
  cbn [logger_ids]. solve_keeps.
Qed.
#[local] Hint Resolve keeps_logger_ids : keeps.
Lemma keeps_logger_list o out : keeps R (ehem_logger_list o out).
Proof. unfold ehem_logger_list. solve_keeps. Qed.
Lemma keeps_logger_get i out : keeps R (ehem_logger_get i out).
Proof. unfold ehem_logger_get. solve_keeps. Qed.
End Frames.

(** ** Totality *)

Section Totals.
Context {P : Platform} (b : bool).

Lemma total_missing_field {B} w k : total b (missing_field (A:=B) w k).
Proof. unfold missing_field. solve_total. Qed.
#[local] Hint Resolve total_missing_field : total.
Lemma total_required_str r w k : total b (required_str r w k).
Proof. unfold required_str. solve_total. Qed.
Lemma total_copy_strings l i k : total b (copy_strings l i k).
Proof.
  revert i; induction k as [|k IH]; intros i; [by eauto with total|].
  cbn [copy_strings]. solve_total.
Qed.
#[local] Hint Resolve total_required_str total_copy_strings : total.
Lemma total_status_storage r : total b (status_storage r).
Proof. unfold status_storage. solve_total. Qed.
#[local] Hint Resolve total_status_storage : total.
Lemma total_parse_status r : total b (parse_status r).
Proof. unfold parse_status. solve_total. Qed.
Lemma total_parse_version r : total b (parse_version r).
Proof. unfold parse_version. solve_total. Qed.
Lemma total_parse_config r : total b (parse_config r).
Proof. unfold parse_config. solve_total. Qed.
Lemma total_install_result r o : total b (install_result r o).
Proof. unfold install_result. solve_total. Qed.
Lemma total_cert_inspect c o : total b (ehem_cert_inspect c o).
Proof. unfold ehem_cert_inspect. solve_total. Qed.
Lemma total_logout : total b ehem_logout.
Proof. unfold ehem_logout. apply total_bind; [by eauto with total|]. by intros; apply total_step. Qed.
#[local] Hint Resolve total_parse_status total_parse_version total_parse_config
  total_install_result total_logout : total.

Context `{Q : !Request, !RequestTotal b (fun _ => True) Q}.
Lemma total_get_json p s : total b (get_json p s).
Proof. by eapply total_request_json. Qed.
Lemma total_any_raw m p x s o : total b (ehem_proto_request_raw m p x s o).
Proof. by apply request_total. Qed.
Lemma total_any_json m p x s o : total b (ehem_proto_request_json m p x s o).
Proof. by eapply total_request_json. Qed.
#[local] Hint Resolve total_get_json total_any_raw total_any_json : total.
Lemma total_status o : total b (ehem_system_status o).
Proof. unfold ehem_system_status. solve_total. Qed.
Lemma total_version o : total b (ehem_system_version o).
Proof. unfold ehem_system_version. solve_total. Qed.
Lemma total_config o : total b (ehem_system_config o).
Proof. unfold ehem_system_config. solve_total. Qed.
Lemma total_install_cert c o : total b (ehem_system_config_install_cert c o).
Proof.
  unfold ehem_system_config_install_cert, ehem_json_new_object, ehem_json_add_string,
    ehem_json_print. solve_total.
Qed.
Lemma total_power_call p s : total b (power_call p s).
Proof. unfold power_call. solve_total. Qed.
Lemma total_wipeout : total b ehem_system_wipeout.
Proof. unfold ehem_system_wipeout. solve_total. Qed.
Lemma total_selftest o : total b (ehem_system_selftest o).
Proof. unfold ehem_system_selftest. solve_total. Qed.
Lemma total_attestation o : total b (ehem_system_attestation o).
Proof. unfold ehem_system_attestation. solve_total. Qed.
#[local] Hint Resolve total_attestation : total.
Lemma total_tls_recover u o : total b (ehem_tls_recover u o).
Proof. unfold ehem_tls_recover. solve_total. Qed.
Lemma total_storage_call p s : total b (storage_call p s).
Proof. unfold storage_call. solve_total. Qed.
#[local] Hint Resolve total_storage_call : total.
Lemma total_storage_unlock d w : total b (ehem_storage_unlock d w).
Proof. unfold ehem_storage_unlock. solve_total. Qed.
Lemma total_storage_lock d : total b (ehem_storage_lock d).
Proof. unfold ehem_storage_lock. solve_total. Qed.
Lemma total_logger_key o : total b (ehem_logger_key o).
Proof. unfold ehem_logger_key. solve_total. Qed.
Lemma total_logger_ids l i k : total b (logger_ids l i k).
Proof.
  revert i; induction k as [|k IH]; intros i; [by eauto with total|].
  cbn [logger_ids]. solve_total.
Qed.
#[local] Hint Resolve total_logger_ids : total.
Lemma total_logger_list o out : total b (ehem_logger_list o out).
Proof. unfold ehem_logger_list. solve_total. Qed.
Lemma total_logger_get i out : total b (ehem_logger_get i out).
Proof. unfold ehem_logger_get. solve_total. Qed.
End Totals.
