(* ===== verification/ContextProps.v ===== *)
(** * What the context lifecycle guarantees

    Theorems about Context.v: process-global initialisation, [ehem_ctx_create]
    and the append-only options block. *)

From S2P Require Import Prelude Json World Logic Context Fake.

Open Scope hem_scope.

(** ** Theorems *)

Section Theorems.
Context {P : Platform}.

(** Two option blocks of the same [abi_size] that agree on every field lying
    wholly inside it. *)
Definition opts_agree (o o' : ehem_options) : Prop :=
  let same {A} (f : ehem_options -> A) (e : Z) := e <= abi_size o -> f o = f o' in
  abi_size o = abi_size o' /\
  same opt_connect_timeout_ms END_connect_timeout_ms /\
  same opt_total_timeout_ms END_total_timeout_ms /\
  same opt_tls_mode END_tls_mode /\ same opt_ca_file END_ca_file /\
  same opt_transport END_transport /\
  same opt_no_auto_checkin END_no_auto_checkin /\
  same opt_checkin_url END_checkin_url /\
  same opt_no_credential_retention END_no_credential_retention /\
  same opt_request_pace_ms END_request_pace_ms /\
  same opt_checkin_on_login END_checkin_on_login /\
  same opt_confirm_timeout_ms END_confirm_timeout_ms /\
  same opt_confirm_notice END_confirm_notice /\
  same opt_confirm_notice_arg END_confirm_notice_arg.

Lemma opt_has_agree {A B} (o o' : ehem_options) (f : ehem_options -> A) e (g : A -> B) d :
  abi_size o = abi_size o' -> (e <= abi_size o -> f o = f o') ->
  (if EHEM_OPT_HAS o e then g (f o) else d) = (if EHEM_OPT_HAS o' e then g (f o') else d).
Proof.
  unfold EHEM_OPT_HAS. intros <- Hf. destruct (e <=? abi_size o) eqn:E; [|done].
  rewrite Hf; [done|lia].
Qed.

Lemma opt_pos_agree (o o' : ehem_options) (f : ehem_options -> Z) e d :
  abi_size o = abi_size o' -> (e <= abi_size o -> f o = f o') ->
  (if EHEM_OPT_HAS o e && (0 <? f o) then f o else d) =
  (if EHEM_OPT_HAS o' e && (0 <? f o') then f o' else d).
Proof.
  unfold EHEM_OPT_HAS. intros <- Hf. destruct (e <=? abi_size o) eqn:E; [|done].
  rewrite Hf; [done|lia].
Qed.

(** C40: the options block grows append-only without breaking callers compiled
    against an older header: [ehem_ctx_create] reads no field that is not
    wholly inside the caller's [abi_size] - two blocks that agree on the
    fields inside it configure the same context, in every world. *)
Theorem ehem_ctx_create_abi_prefix (u : option string) (o o' : ehem_options)
    (out : bool) (w : world) (Ho : opts_agree o o') :
  ehem_ctx_create u (Some o) out w = ehem_ctx_create u (Some o') out w.
Proof.
  destruct Ho as (Habi & H1 & H2 & H3 & H4 & H5 & H6 & H7 & H8 & H9 & H10 & H11 & H12 & H13).
  assert (apply_options (Some o) = apply_options (Some o')) as E.
  { unfold apply_options. cbv beta zeta.
    rewrite (opt_pos_agree o o' opt_connect_timeout_ms), (opt_pos_agree o o' opt_total_timeout_ms),
      (opt_pos_agree o o' opt_request_pace_ms), (opt_pos_agree o o' opt_confirm_timeout_ms) by done.
    rewrite (opt_has_agree o o' opt_tls_mode _ id), (opt_has_agree o o' opt_ca_file _ id),
      (opt_has_agree o o' opt_transport _ id), (opt_has_agree o o' opt_checkin_url _ id),
      (opt_has_agree o o' opt_confirm_notice _ id),
      (opt_has_agree o o' opt_confirm_notice_arg _ id) by done.
    rewrite (opt_has_agree o o' opt_no_auto_checkin _ (fun z => negb (z =? 0))),
      (opt_has_agree o o' opt_checkin_on_login _ (fun z => negb (z =? 0))),
      (opt_has_agree o o' opt_no_credential_retention _ (fun z => negb (z =? 0))) by done.
    done. }
  unfold ehem_ctx_create. by rewrite E, Habi.
Qed.

(** What a usable configuration satisfies. *)
Definition config_ok (u : string) (c : ctx_config net) : Prop :=
  url c = u /\ 0 < connect_timeout_ms c /\ 0 < total_timeout_ms c /\
  0 <= request_pace_ms c /\ 0 < confirm_timeout_ms c /\
  (tls_mode c = EHEM_TLS_CA_FILE -> is_Some (ca_file c)) /\ is_Some (transport c).

Lemma wp_dup_str s (Q : outcome (option string) -> world -> Prop) w :
  (forall w', w_ctx w' = w_ctx w -> w_trace w' = w_trace w -> w_net w' = w_net w ->
     w_global_ready w' = w_global_ready w -> Q (Ok (Some s)) w' /\ Q (Ok None) w') ->
  wp (dup_str s) Q w.
Proof.
  intros H. unfold wp, dup_str, malloc, ask, bind. cbn.
  destruct (p_malloc (w_tick w)); by apply H.
Qed.

(** What the phases before the transport is chosen leave alone. *)
Definition same_but_tick (w w' : world) : Prop :=
  w_ctx w' = w_ctx w /\ w_trace w' = w_trace w /\ w_net w' = w_net w /\
  w_global_ready w' = w_global_ready w.

Lemma opt_pos_positive (b : bool) (v d : Z) :
  0 < d -> 0 < (if b && (0 <? v) then v else d).
Proof. intros. case_match; lia. Qed.

Lemma opt_pos_nonneg (b : bool) (v d : Z) :
  0 <= d -> 0 <= (if b && (0 <? v) then v else d).
Proof. intros. case_match; lia. Qed.

Lemma wp_apply_options opts w :
  wp (apply_options opts) (fun o w' =>
    same_but_tick w w' /\
    match o with
    | Ok c => forall u t own, config_ok u (config_set_url u (Some t) own c)
    | Err rc => rc = EHEM_ERR_NOMEM \/ rc = EHEM_ERR_ARG
    | Diverge => False
    end) w.
Proof.
  unfold apply_options. destruct opts as [o|]; apply wp_bind.
  - set (ca := if EHEM_OPT_HAS o END_ca_file then opt_ca_file o else None).
    assert (forall Q : outcome (option string) -> world -> Prop,
      (forall w' x, same_but_tick w w' -> Q (Ok x) w') ->
      (forall w', same_but_tick w w' -> Q (Err EHEM_ERR_NOMEM) w') ->
      wp match ca with
         | Some s => let* c := dup_str s in
             match c with Some c => ret (Some c) | None => throw EHEM_ERR_NOMEM end
         | None => ret None
         end Q w) as Hca.
    { intros Q HO HE. destruct ca as [s|]; [|by apply HO].
      apply wp_bind, wp_dup_str. intros w' ? ? ? ?. split;
        [apply HO|apply HE]; by repeat split. }
    apply Hca; [|by auto]. intros w1 cav Hw1. apply wp_bind, wp_dup_str.
    intros w2 E1 E2 E3 E4. destruct Hw1 as (? & ? & ? & ?).
    assert (same_but_tick w w2) by (repeat split; congruence).
    split; [|by split; [|left]].
    destruct (_ && _) eqn:Ec; [by split; [|right]|].
    split; [done|]. intros u t own. unfold config_ok. cbn.
    repeat split; try (apply opt_pos_positive; reflexivity); try (by exists t).
    { by apply opt_pos_nonneg. }
    intros Hm. apply andb_false_iff in Ec as [Ec|Ec]; apply bool_decide_eq_false in Ec.
    + by rewrite Hm in Ec.
    + by apply not_eq_None_Some.
  - apply wp_dup_str. intros w' ? ? ? ?. split; (split; [by repeat split|]).
    + intros u t own. repeat split; try done; by exists t.
    + by left.
Qed.

(** [ehem_global_init] is idempotent and all-or-nothing: once it has
    returned success every later call succeeds without touching either
    backend, and after a failure the library is still uninitialised, so the
    next call checks the backends again. *)
Theorem ehem_global_init_latch (w : world) :
  let '(o, w') := ehem_global_init w in
  w_global_ready w' = bool_decide (rc_of o = Some EHEM_OK) /\
  (o = Ok tt -> ehem_global_init w' = (Ok tt, w')) /\ w_ctx w' = w_ctx w.
Proof.
  unfold ehem_global_init, bind, get_global_ready, set_global_ready, check_rc, ask.
  destruct (w_global_ready w) eqn:Er; cbn.
  { by rewrite Er. }
  destruct (p_crypto_global_init _) eqn:E1; cbn; try by rewrite Er.
  destruct (p_transport_global_init _) eqn:E2; cbn; by try rewrite Er.
Qed.

Lemma wp_global_init w :
  wp ehem_global_init (fun o w' =>
    w_ctx w' = w_ctx w /\ w_trace w' = w_trace w /\ w_net w' = w_net w /\
    o <> Diverge /\ o <> Err EHEM_OK /\ (o = Ok tt -> w_global_ready w' = true)) w.
Proof.
  unfold wp, ehem_global_init, bind, get_global_ready, set_global_ready, check_rc, ask.
  destruct (w_global_ready w) eqn:Er; cbn; [done|].
  destruct (p_crypto_global_init _); cbn; try done.
  by destruct (p_transport_global_init _).
Qed.

(** [ehem_ctx_create] either installs a fresh, logged-out context - with
    the given URL, strictly positive timeouts, a transport (the caller's,
    borrowed, or the default one, owned and created only after the process
    was initialised) and a CA file whenever the CA_FILE trust mode needs one -
    or fails and hands out nothing.  It sends nothing. *)
Theorem ehem_ctx_create_spec (u : option string) (opts : option ehem_options)
    (out : bool) (w : world) :
  wp (ehem_ctx_create u opts out) (fun o w' =>
    w_trace w' = w_trace w /\ w_net w' = w_net w /\
    match o with
    | Ok _ => exists c v, u = Some v /\ url_is_valid u = true /\
        w_ctx w' = ctx_new c /\ config_ok v c /\
        (owns_transport c = true -> w_global_ready w' = true)
    | Err rc => w_ctx w' = w_ctx w /\ rc <> EHEM_OK
    | Diverge => False
    end) w.
Proof.
  unfold ehem_ctx_create.
  destruct out; [|done]. cbn [negb].
  destruct (url_is_valid u) eqn:Hu; [|done]. cbn [negb].
  destruct u as [v|]; [|done].
  case_match; [done|].
  apply wp_bind. unfold malloc, ask, wp at 1. cbn [fst snd].
  destruct (p_malloc _); [|done]. cbn [negb].
  apply wp_bind. eapply wp_mono; [apply wp_apply_options|].
  intros o w1 [(C1 & T1 & N1 & R1) Hc]. cbn in C1, T1, N1, R1.
  destruct o as [c|rc|]; [|destruct Hc as [-> | ->]; by rewrite T1, N1, C1|done].
  apply wp_bind, wp_dup_str. intros w2 C2 T2 N2 R2.
  rewrite C1 in C2; rewrite T1 in T2; rewrite N1 in N2. split; [|by repeat split].
  destruct (transport c) as [t|].
  { unfold wp, upd_ctx. cbn. do 2 (split; [done|]). eexists _, v. repeat split; by try apply Hc. }
  apply wp_bind. eapply wp_mono; [apply wp_global_init|]. cbn.
  intros o w3 (C3 & T3 & N3 & D3 & E3 & R3).
  destruct o as [[]|rc|]; [|repeat split; congruence|done].
  apply wp_bind. unfold ask, wp at 1. cbn [fst snd].
  destruct (p_transport_default _ _ _ _) as [t|]; unfold wp, upd_ctx, throw; cbn.
  - do 2 (split; [congruence|]). eexists _, v.
    split; [done|]. split; [done|]. split; [done|]. split; [apply Hc|].
    intros _. by apply R3.
  - repeat split; congruence.
Qed.
End Theorems.

(** A block of an older header, which ended before [request_pace_ms], and the
    same block with other bytes behind it. *)
Definition old_options (pace confirm : Z) : @ehem_options (fake_platform []) :=
  {| abi_size := END_no_credential_retention;
     opt_connect_timeout_ms := 5000; opt_total_timeout_ms := 0;
     opt_tls_mode := EHEM_TLS_SYSTEM; opt_ca_file := None; opt_transport := None;
     opt_no_auto_checkin := 1; opt_checkin_url := None; opt_no_credential_retention := 0;
     opt_request_pace_ms := pace; opt_checkin_on_login := confirm;
     opt_confirm_timeout_ms := confirm; opt_confirm_notice := true;
     opt_confirm_notice_arg := pace |}.

Lemma ehem_ctx_create_abi_prefix_witness :
  ehem_ctx_create (Some "https://hem.local") (Some (old_options 0 0)) true
    (fake_world [] true None)
  = ehem_ctx_create (Some "https://hem.local") (Some (old_options 77 99)) true
      (fake_world [] true None).
Proof.
  apply ehem_ctx_create_abi_prefix. unfold opts_agree.
  split_and!; try done; cbn; unfold END_no_credential_retention, END_request_pace_ms,
    END_checkin_on_login, END_confirm_timeout_ms, END_confirm_notice_arg; lia.
Defined.
