(* ===== verification/Bounds.v ===== *)
(** * How much traffic one call can cause

    Upper bounds on what a request of a passphrase session sends, whatever the
    device, the cloud and the allocator answer: every recovery composes with
    the others and none multiplies without bound.  The count is weighted, so
    that one development bounds both all requests and the requests that carry
    a bearer. *)

From S2P Require Import Prelude Base64 Json World Logic Context Ejwt Proto Checkin.
From S2P Require Import AuthState Notify Ext Auth Session Fake.

Open Scope hem_scope.

Create HintDb bounded.

Section Bounds.
Context {P : Platform}.
Context (weight : ehem_request -> nat).
(** The configuration of the context, and whether it lets calls recover. *)
Context (c0 : ctx_config net).
(** Whether the check-in guard is up. *)
Context (g : bool).

Definition recovers : nat := if no_auto_checkin c0 then 0 else 1.
Definition proactive : nat := if checkin_on_login c0 then 1 else 0.

Fixpoint cost_of (t : list event) : nat :=
  match t with
  | [] => O
  | EvSend r :: t => (weight r + cost_of t)%nat
  | _ :: t => cost_of t
  end.
Definition cost (w : world) : nat := cost_of (w_trace w).

(** A passphrase session of that configuration. *)
Definition scene (w : world) : Prop :=
  cfg (w_ctx w) = c0 /\ is_mobile (w_ctx w) = false /\ in_checkin (w_ctx w) = g.

Definition bounded (k : nat) {A} (m : M A) : Prop :=
  forall w, scene w -> fst (m w) <> Diverge ->
    (cost (snd (m w)) <= cost w + k)%nat /\ scene (snd (m w)).

End Bounds.

Section Rules.
Context {P : Platform}.
Context (weight : ehem_request -> nat).
Context (c0 : ctx_config net) (g : bool).
Abbreviation bounded := (bounded weight c0 g).
Abbreviation cost := (cost weight).
Abbreviation cost_of := (cost_of weight).

(** ** Rules *)

Lemma cost_of_app t t' : cost_of (t ++ t') = (cost_of t + cost_of t')%nat.
Proof. induction t as [|[] t IH]; cbn; rewrite ?IH; lia. Qed.

Lemma bounded_bind k1 k2 k {A B} (m : M A) (f : A -> M B) :
  bounded k1 m -> (forall x, bounded k2 (f x)) -> (k1 + k2 <= k)%nat ->
  bounded k (bind m f).
Proof.
  intros Hm Hf Hk w Hw. unfold bind. specialize (Hm w Hw).
  destruct (m w) as [[x|rc|] w']; cbn in *; [| |done].
  - intros Hd. destruct (Hm ltac:(done)) as [H1 H2].
    destruct (Hf x w' H2 Hd) as [H3 H4]. split; [lia|done].
  - intros _. destruct (Hm ltac:(done)) as [H1 H2]. split; [lia|done].
Qed.

Lemma bounded_weaken k k' {A} (m : M A) :
  bounded k m -> (k <= k')%nat -> bounded k' m.
Proof. intros Hm Hk w Hw Hd. destruct (Hm w Hw Hd). split; [lia|done]. Qed.

Lemma bounded_attempt k {A} (m : M A) : bounded k m -> bounded k (attempt m).
Proof.
  intros Hm w Hw. unfold attempt. specialize (Hm w Hw).
  destruct (m w) as [[x|rc|] w']; cbn in *; [..|done]; intros _; by apply Hm.
Qed.

Lemma bounded_get_ctx k {A} (f : ehem_ctx net -> M A) :
  (forall c, cfg c = c0 -> is_mobile c = false -> in_checkin c = g -> bounded k (f c)) ->
  bounded k (bind get_ctx f).
Proof. intros Hf w Hw. cbn. by apply Hf; try apply Hw. Qed.

(** Calls that send nothing. *)
Abbreviation free m := (bounded O m).

Lemma free_bind k {A B} (m : M A) (f : A -> M B) :
  free m -> (forall x, bounded k (f x)) -> bounded k (bind m f).
Proof. intros. by eapply bounded_bind. Qed.

Lemma free_then k {A B} (m : M A) (f : A -> M B) :
  bounded k m -> (forall x, free (f x)) -> bounded k (bind m f).
Proof. intros. eapply bounded_bind; [done..|lia]. Qed.

Lemma free_any k {A} (m : M A) : free m -> bounded k m.
Proof. intros. eapply bounded_weaken; [done|lia]. Qed.

Lemma free_step {A} (m : M A) :
  (forall w, cost (snd (m w)) = cost w /\
             cfg (w_ctx (snd (m w))) = cfg (w_ctx w) /\
             is_mobile (w_ctx (snd (m w))) = is_mobile (w_ctx w) /\
             in_checkin (w_ctx (snd (m w))) = in_checkin (w_ctx w)) -> free m.
Proof.
  intros H w (H1 & H2 & H3) _. destruct (H w) as (E1 & E2 & E3 & E4). rewrite E1.
  split; [lia|]. split_and!; congruence.
Qed.

Lemma free_ret {A} (x : A) : free (ret x).
Proof. by apply free_step. Qed.
Lemma free_throw {A} rc : free (throw (A:=A) rc).
Proof. by apply free_step. Qed.
Lemma free_check_rc {A} (p : ehem_rc * A) : free (check_rc p).
Proof. apply free_step. intros w. unfold check_rc. by destruct p as [[] ?]. Qed.
Lemma free_ctx : free get_ctx.
Proof. by apply free_step. Qed.
Lemma free_net : free get_net.
Proof. by apply free_step. Qed.
Lemma free_ready : free get_global_ready.
Proof. by apply free_step. Qed.
Lemma free_ask {A} (f : nat -> A) : free (ask f).
Proof. by apply free_step. Qed.
Lemma free_set_net n : free (set_net n).
Proof. by apply free_step. Qed.
Lemma free_set_ready r : free (set_global_ready r).
Proof. by apply free_step. Qed.
Lemma free_upd_error f : free (upd_ctx (fun c => ctx_set_error (f c) c)).
Proof. by apply free_step. Qed.
Lemma free_upd_done v : free (upd_ctx (ctx_set_checkin_done v)).
Proof. by apply free_step. Qed.
Lemma free_upd_refreshed v : free (upd_ctx (ctx_set_cert_refreshed v)).
Proof. by apply free_step. Qed.
Lemma free_upd_auth f : (forall x, mobile (f x) = mobile x) -> free (upd_auth f).
Proof.
  intros Hf. apply free_step. intros w. unfold is_mobile. cbn.
  destruct (auth (w_ctx w)); cbn; [by rewrite Hf|done].
Qed.
Lemma free_malloc : free malloc.
Proof. apply free_ask. Qed.
Lemma free_sleep ms : free (ehem_proto_sleep_ms ms).
Proof.
  unfold ehem_proto_sleep_ms. destruct (ms <=? 0); [apply free_ret|].
  apply free_step. intros w. unfold cost. cbn. rewrite cost_of_app. cbn.
  split; [lia|done].
Qed.

End Rules.

#[export] Hint Resolve free_ret free_throw free_check_rc free_ctx free_net free_ready
  free_ask free_set_net free_set_ready free_upd_error free_upd_done free_upd_refreshed
  free_upd_auth free_malloc free_sleep : bounded.

(** Decompose a bound of zero along the structure of the call. *)
Ltac free_tac :=
  match goal with
  | |- bounded _ _ _ _ (bind _ _) => apply free_bind; [|intros ?]
  | |- bounded _ _ _ _ (attempt _) => apply bounded_attempt
  | |- bounded _ _ _ _ (let '(_, _) := ?x in _) => destruct x
  | |- bounded _ _ _ _ (match ?x with _ => _ end) => destruct x
  | |- bounded _ _ _ _ _ => solve [eauto 3 with bounded]
  end.
Ltac solve_free := intros; repeat (free_tac; cbn beta iota zeta).

Section Free.
Context {P : Platform}.
(** The weight of a request: at most [a] without a bearer, at most [b]. *)
Context (weight : ehem_request -> nat) (a b : nat).
Context (Ha : forall r, has_bearer r = false -> (weight r <= a)%nat)
        (Hb : forall r, (weight r <= b)%nat).
Context (c0 : ctx_config net) (g : bool).
Abbreviation bounded := (bounded weight c0 g).
Abbreviation free m := (bounded O m).

Lemma free_dup_str s : free (dup_str s).
Proof. unfold dup_str. apply free_bind; [apply free_malloc|]. solve_free. Qed.
Lemma free_alloc {A} (x : A) : free (alloc x).
Proof. unfold alloc. solve_free. Qed.
#[local] Hint Resolve free_dup_str free_alloc : bounded.
Lemma free_ctx_fail {A} rc st p msg : free (ehem_ctx_fail (A:=A) rc st p msg).
Proof. unfold ehem_ctx_fail. solve_free. Qed.
Lemma free_last_error : free ehem_last_error.
Proof. unfold ehem_last_error. solve_free. Qed.
Lemma free_set_expired e : free (set_tls_expired e).
Proof. unfold set_tls_expired. solve_free. Qed.
Lemma free_transport : free ehem_ctx_transport.
Proof. unfold ehem_ctx_transport. solve_free. Qed.
Lemma free_detail t : free (ehem_transport_last_detail t).
Proof. unfold ehem_transport_last_detail. solve_free. Qed.
Lemma free_expired t : free (ehem_transport_last_tls_expired t).
Proof. unfold ehem_transport_last_tls_expired. solve_free. Qed.
Lemma free_global_init : free ehem_global_init.
Proof. unfold ehem_global_init. solve_free. Qed.
Lemma free_auth_now : free auth_now.
Proof. unfold auth_now. solve_free. Qed.
Lemma free_get_auth : free get_auth.
Proof. unfold get_auth. solve_free. Qed.
Lemma free_oom {A} : free (out_of_memory (A:=A)).
Proof. unfold out_of_memory. apply free_ctx_fail. Qed.
#[local] Hint Resolve free_ctx_fail free_last_error free_set_expired free_transport
  free_detail free_expired free_global_init free_auth_now free_get_auth free_oom : bounded.
Lemma free_add_strings l obj : free (json_add_strings obj l).
Proof.
  revert obj; induction l as [|[k v] l IH]; intros obj; cbn; [by eauto with bounded|].
  apply free_bind; [apply free_alloc|intros []; [apply IH|by eauto with bounded]].
Qed.
#[local] Hint Resolve free_add_strings : bounded.
Lemma free_string_body l : free (string_body l).
Proof. unfold string_body, ehem_json_new_object, ehem_json_print. solve_free. Qed.
Lemma free_sign h p k : free (sign_compact h p k).
Proof. unfold sign_compact, nomem_or_protocol. solve_free. Qed.
#[local] Hint Resolve free_string_body free_sign : bounded.
Lemma free_ejwt j s c p h n e : free (ehem_ejwt_build j s c p h n e).
Proof.
  unfold ehem_ejwt_build, ehem_json_new_object, ehem_json_add_string,
    ehem_json_add_int64, ehem_json_print. solve_free.
Qed.
#[local] Hint Resolve free_ejwt : bounded.
Lemma free_derive j s e c p n : free (derive_ejwt j s e c p n).
Proof. unfold derive_ejwt. solve_free. Qed.
Lemma free_cache_put s t e : free (cache_put s t e).
Proof. unfold cache_put. solve_free. Qed.
Lemma free_invalidate s : free (ehem_auth_invalidate s).
Proof. unfold ehem_auth_invalidate. solve_free. Qed.
Lemma free_finish p r : free (finish p r).
Proof. unfold finish. solve_free. Qed.
Lemma free_send_failed {A} t p rc : free (send_failed (A:=A) t p rc).
Proof. unfold send_failed. solve_free. Qed.
#[local] Hint Resolve free_derive free_cache_put free_invalidate free_finish
  free_send_failed : bounded.

(** ** One send *)

Lemma bounded_transport_send k t req :
  (weight req <= k)%nat -> bounded k (ehem_transport_send t req).
Proof.
  intros Hk. unfold ehem_transport_send.
  destruct (t ≫= t_ops) as [ops|]; [|by apply free_any, free_ret].
  destruct (op_send ops) as [f|]; [|by apply free_any, free_ret].
  eapply bounded_bind with (k1 := k) (k2 := O); [|solve_free|lia].
  intros w Hw _. unfold cost. cbn. rewrite cost_of_app. cbn.
  split; [lia|exact Hw].
Qed.

Lemma bounded_do_send t m p body bearer ov fresh :
  bounded (match bearer with Some _ => b | None => a end)
    (do_send t m p body bearer ov fresh).
Proof.
  unfold do_send. apply free_bind; [eauto with bounded|intros c].
  apply free_bind; [eauto with bounded|intros _].
  apply bounded_transport_send. destruct bearer; [apply Hb|apply Ha].
  unfold has_bearer. cbn [req_headers]. by rewrite has_bearer_headers.
Qed.
End Free.

#[export] Hint Resolve free_dup_str free_alloc free_ctx_fail
  free_last_error free_set_expired free_transport free_detail free_expired
  free_global_init free_auth_now free_get_auth free_oom free_string_body free_derive
  free_cache_put free_invalidate free_finish free_send_failed : bounded.

(** ** The request path *)

Section Path.
Context {P : Platform}.
Context (weight : ehem_request -> nat) (a b : nat).
Context (Ha : forall r, has_bearer r = false -> (weight r <= a)%nat)
        (Hb : forall r, (weight r <= b)%nat).
Context (c0 : ctx_config net).
Abbreviation bounded g := (bounded weight c0 g).
Abbreviation r0 := (recovers c0).

(** A check-in is three bare requests; an open request is one, and with
    recovery a check-in and a resend more. *)
Definition k_checkin : nat := 3 * a.
Definition k_open : nat := a + r0 * (k_checkin + a).
Definition k_challenge : nat := k_open + r0 * (k_checkin + k_open).
Definition k_acquire : nat := k_challenge + k_open.
Definition k_ensure : nat :=
  proactive c0 * k_checkin + k_acquire + r0 * (k_checkin + k_acquire).
Definition k_scoped : nat := k_ensure + b + r0 * (k_checkin + b) + k_ensure + b.

Class RequestBound (g : bool) (k : nat) (Q : Request) : Prop :=
  request_bound m p body o : bounded g k (@ehem_proto_request_raw P Q m p body None o).

Lemma bounded_json g k `{Q : !Request, !RequestBound g k Q} m p body o :
  bounded g k (ehem_proto_request_json m p body None o).
Proof.
  unfold ehem_proto_request_json. apply free_then; [apply request_bound|]. solve_free.
Qed.

Lemma recovers_off : no_auto_checkin c0 = true \/ r0 = 1%nat.
Proof. unfold recovers. destruct (no_auto_checkin c0); auto. Qed.

Section Recovery.
Context `{Q : !Request, !RequestBound true a Q}.

Lemma bounded_checkin_run relax :
  bounded false k_checkin (ehem_checkin_run relax false).
Proof.
  assert (bounded true k_checkin
            (checkin_legs (dev_override relax) false)) as Hlegs.
  { unfold checkin_legs, k_checkin.
    apply (bounded_bind _ _ _ a (2 * a)); [apply request_bound|intros ch|lia].
    apply free_bind; [eauto with bounded|intros c].
    apply (bounded_bind _ _ _ a a); [apply request_bound|intros v|lia].
    apply free_then; [apply bounded_json, _|]. intros root. apply free_ret. }
  intros w (H1 & H2 & H3). rewrite checkin_run_eq.
  specialize (Hlegs (with_ctx w (ctx_set_in_checkin true (w_ctx w))) ltac:(by split_and!)).
  destruct (checkin_legs _ _ _) as [[] w']; cbn in *; [..|done]; intros _;
    destruct (Hlegs ltac:(done)) as [Hk (S1 & S2 & S3)]; by split; [|split_and!].
Qed.

Lemma bounded_checkin relax : bounded false k_checkin (checkin_quietly relax).
Proof.
  unfold checkin_quietly. apply free_then; [apply bounded_checkin_run|]. solve_free.
Qed.
End Recovery.

(** The part of [request_raw_body] after the bearer, up to the 401 check. *)
Lemma bounded_recovery checkin t m p body bearer ov rc :
  bounded false k_checkin (checkin true) ->
  let k := match bearer with Some _ => b | None => a end in
  bounded false (k_checkin + k) (cert_recovery checkin t m p body bearer ov rc).
Proof.
  intros Hc k. unfold cert_recovery.
  apply free_bind; [eauto with bounded|intros d].
  apply (bounded_bind _ _ _ k_checkin k); [by apply bounded_attempt| |lia].
  intros [u|e]; [|by apply free_any; solve_free].
  apply free_then; [by apply (bounded_do_send weight a b Ha Hb)|]. solve_free.
Qed.

(** First send, and the recovery if the configuration and the guard let it. *)
Definition first_send (checkin : bool -> M unit) t m p body bearer ov
  : M (ehem_rc * ehem_response) :=
  let* first := do_send t m p body bearer ov false in
  let* expired := ehem_transport_last_tls_expired t in
  let* c := get_ctx in
  (if negb (ok_rc (fst first)) && expired && negb (no_auto_checkin (cfg c)) &&
      negb (in_checkin c) && bool_decide (ov = EHEM_TLS_REQ_DEFAULT)
   then cert_recovery checkin t m p body bearer ov (fst first)
   else ret first).

Lemma bounded_first_send (g : bool) checkin t m p body bearer ov :
  (g = false -> bounded false k_checkin (checkin true)) ->
  let k := match bearer with Some _ => b | None => a end in
  bounded g (if g then k else k + r0 * (k_checkin + k))
    (first_send checkin t m p body bearer ov).
Proof.
  intros Hc k. unfold first_send.
  apply (bounded_bind _ _ _ k (if g then 0 else r0 * (k_checkin + k)));
    [by apply (bounded_do_send weight a b Ha Hb)|intros first|destruct g; lia].
  apply free_bind; [eauto with bounded|intros e].
  apply bounded_get_ctx. intros c E1 _ E3. rewrite E1, E3.
  destruct g; cbn [negb]; [rewrite andb_false_r, andb_false_l; apply free_any, free_ret|].
  destruct (no_auto_checkin c0) eqn:Ea; cbn [negb].
  { rewrite andb_false_r, !andb_false_l. apply free_any, free_ret. }
  assert (r0 = 1%nat) as -> by (unfold recovers; by rewrite Ea).
  case_match; [|apply free_any, free_ret].
  eapply bounded_weaken; [by apply bounded_recovery, Hc|]. unfold k. lia.
Qed.

(** The two forms of the body in terms of [first_send]. *)
Lemma body_open_eq checkin ensure inval m p body ov w :
  request_raw_body checkin ensure inval m p body None ov w =
  (let* t := ehem_ctx_transport in
   match t with
   | None => ehem_ctx_fail EHEM_ERR_ARG 0 None "no transport configured"
   | Some _ =>
       let* (rc, resp) := first_send checkin t m p body None ov in
       if negb (ok_rc rc) then send_failed t p rc else finish p resp
   end) w.
Proof.
  unfold request_raw_body, ehem_ctx_transport, first_send, bind, get_ctx, ret.
  cbv beta iota. destruct (transport (cfg (w_ctx w))) as [t|]; [|done].
  cbv beta iota.
  destruct (do_send _ _ _ _ _ _ _ _) as [[first|rc|] w1]; [|done..].
  destruct (ehem_transport_last_tls_expired _ w1) as [[e|rc|] w2]; [|done..].
  cbv beta iota. destruct (_ && _); [|by destruct first].
  by destruct (cert_recovery _ _ _ _ _ _ _ _) as [[[rc resp]|rc|] w3].
Qed.

Lemma bounded_open (g : bool) checkin ensure inval m p body ov :
  (g = false -> bounded false k_checkin (checkin true)) ->
  bounded g (if g then a else k_open)
    (request_raw_body checkin ensure inval m p body None ov).
Proof.
  intros Hc w. rewrite body_open_eq. revert w.
  match goal with |- forall w, _ -> fst (?m w) <> _ -> _ =>
    change (bounded g (if g then a else k_open) m) end.
  apply free_bind; [eauto with bounded|intros [t|]]; [|apply free_any; eauto with bounded].
  apply free_then; [|solve_free].
  eapply bounded_weaken; [by apply bounded_first_send|]. by destruct g.
Qed.

Lemma request_bound_busy n : RequestBound true a (request_n (S n)).
Proof. intros m p body o. apply (bounded_open true). done. Qed.

Lemma request_bound_open n : RequestBound false k_open (request_n (S (S n))).
Proof.
  intros m p body o. apply (bounded_open false). intros _.
  pose proof (request_bound_busy n). apply bounded_checkin.
Qed.

(** ** The session engine *)

Section Engine.
Context `{Q : !Request, !RequestBound true a Q, !RequestBound false k_open Q}.

(** One recovery check-in and one more try, where recoveries are on. *)
Lemma bounded_challenge s : bounded false k_challenge (fetch_challenge s).
Proof.
  unfold fetch_challenge, k_challenge.
  apply (bounded_bind _ _ _ k_open (r0 * (k_checkin + k_open)));
    [by apply bounded_attempt, bounded_json, _|intros [ch|rc]|lia];
    [apply free_any, free_ret|].
  apply free_bind; [eauto with bounded|intros e].
  apply bounded_get_ctx. intros c E1 _ E3. rewrite E1, E3.
  unfold recovers. destruct (no_auto_checkin c0); cbn [negb].
  { rewrite andb_false_r, andb_false_l. apply free_any, free_ret. }
  case_match; [|apply free_any, free_ret].
  apply (bounded_bind _ _ _ k_checkin k_open);
    [apply bounded_attempt, bounded_checkin|intros [u|e']|lia];
    [|apply free_any; solve_free].
  apply free_then; [by apply bounded_attempt, bounded_json, _|]. solve_free.
Qed.

Lemma bounded_exchange s n c : bounded false k_open (exchange_token s n c).
Proof.
  unfold exchange_token, build_auth_body.
  pose proof (fun m p bd o => bounded_json false k_open m p bd o).
  assert (free_retention : bounded false 0 (upd_auth
            (fun a => if retain a then a else scrub_passphrase a))).
  { apply free_upd_auth. intros x. by destruct (retain x). }
  do 3 (case_match; [|apply free_any; solve_free]).
  apply free_bind; [case_match; solve_free|intros _].
  case_match; [|apply free_any; solve_free].
  case_match; [apply free_any; solve_free|].
  apply free_bind; [solve_free|intros [ejwt|rc]]; [|apply free_any; solve_free].
  apply free_bind; [solve_free|intros [bd|]]; [|apply free_any; solve_free].
  apply free_then; [done|]. solve_free.
Qed.

Lemma bounded_acquire s n r d : bounded false k_acquire (acquire_token s n r d).
Proof.
  unfold acquire_token, k_acquire.
  apply free_bind; [solve_free|intros [u|rc]]; [|apply free_any; solve_free].
  apply (bounded_bind _ _ _ k_challenge k_open);
    [apply bounded_challenge|intros [sp [ch|rc]]|lia]; [|apply free_any, free_ret].
  apply free_then; [apply bounded_attempt, bounded_exchange|]. solve_free.
Qed.

Lemma bounded_proactive : bounded false (proactive c0 * k_checkin) proactive_checkin.
Proof.
  unfold proactive_checkin. apply bounded_get_ctx. intros c E1 _ _. rewrite E1.
  unfold proactive. destruct (checkin_on_login c0); cbn [andb];
    [|apply free_any, free_ret].
  case_match; [|apply free_any, free_ret].
  apply free_bind; [eauto with bounded|intros _].
  apply free_then; [|solve_free].
  eapply bounded_weaken; [apply bounded_attempt, bounded_checkin|lia].
Qed.

Lemma bounded_passphrase s n : bounded false k_ensure (acquire_passphrase s n).
Proof.
  unfold acquire_passphrase, k_ensure.
  apply (bounded_bind _ _ _ (proactive c0 * k_checkin)
           (k_acquire + r0 * (k_checkin + k_acquire)));
    [apply bounded_proactive|intros pf|lia].
  apply (bounded_bind _ _ _ k_acquire (r0 * (k_checkin + k_acquire)));
    [apply bounded_acquire|intros [[sp dr] r]|lia].
  apply free_bind; [eauto with bounded|intros e].
  apply bounded_get_ctx. intros c E1 _ E3. rewrite E1, E3.
  apply free_then; [|solve_free].
  destruct r as [tk|rc]; [apply free_any, free_ret|].
  unfold recovers. destruct (no_auto_checkin c0); cbn [negb].
  { rewrite andb_false_r, andb_false_l. apply free_any, free_ret. }
  case_match; [|apply free_any, free_ret].
  apply (bounded_bind _ _ _ k_checkin k_acquire);
    [apply bounded_attempt, bounded_checkin|intros [u|e']|lia];
    [|apply free_any; solve_free].
  apply free_bind; [eauto with bounded|intros now].
  apply free_then; [apply bounded_acquire|]. solve_free.
Qed.

Lemma bounded_ensure s : bounded false k_ensure (ehem_auth_ensure_token s).
Proof.
  intros w Hw. pose proof Hw as (_ & Hm & _).
  unfold ehem_auth_ensure_token, get_auth, auth_now, bind, get_ctx, ask, ret.
  cbn [fst snd]. unfold is_mobile in Hm.
  set (w' := Build_world _ _ _ _ _) in *.
  assert (scene c0 false w') as Hw' by exact Hw.
  change (cost weight w) with (cost weight w').
  destruct (fresh_token _ _ _); [by apply (free_any weight c0 false), Hw'; try apply free_ret|].
  destruct (auth (w_ctx w)) as [x|].
  - rewrite Hm. destruct (passphrase x).
    + by apply bounded_passphrase.
    + by apply (free_any weight c0 false), Hw'; try apply free_ctx_fail.
  - by apply (free_any weight c0 false), Hw'; try apply free_ctx_fail.
Qed.
End Engine.

Lemma bounded_acquire_bearer ensure s :
  bounded false k_ensure (ensure s) -> bounded false k_ensure (acquire_bearer ensure s).
Proof.
  intros. unfold acquire_bearer, make_bearer. apply free_then; [done|]. solve_free.
Qed.

Lemma body_scoped_eq checkin ensure inval m p body s ov w :
  request_raw_body checkin ensure inval m p body (Some s) ov w =
  (let* t := ehem_ctx_transport in
   match t with
   | None => ehem_ctx_fail EHEM_ERR_ARG 0 None "no transport configured"
   | Some _ =>
       let* br := acquire_bearer ensure s in
       let* (rc, resp) := first_send checkin t m p body (Some br) ov in
       if negb (ok_rc rc) then send_failed t p rc
       else
         let* resp := (if resp_status resp =? 401
                       then auth_retry ensure inval t m p body s ov else ret resp) in
         finish p resp
   end) w.
Proof.
  unfold request_raw_body, ehem_ctx_transport, first_send, bind, get_ctx, ret.
  cbv beta iota. destruct (transport (cfg (w_ctx w))) as [t|]; [|done].
  cbv beta iota. destruct (acquire_bearer ensure s w) as [[br|rc|] w0]; [|done..].
  destruct (do_send _ _ _ _ _ _ _ _) as [[first|rc|] w1]; [|done..].
  destruct (ehem_transport_last_tls_expired _ w1) as [[e|rc|] w2]; [|done..].
  cbv beta iota. destruct (_ && _); [|by destruct first].
  by destruct (cert_recovery _ _ _ _ _ _ _ _) as [[[rc resp]|rc|] w3].
Qed.

Lemma bounded_scoped checkin ensure m p body s ov :
  bounded false k_checkin (checkin true) ->
  (forall s, bounded false k_ensure (ensure s)) ->
  bounded false k_scoped
    (request_raw_body checkin ensure (fun s => ehem_auth_invalidate (Some s))
       m p body (Some s) ov).
Proof.
  intros Hc He w. rewrite body_scoped_eq. revert w.
  match goal with |- forall w, _ -> fst (?m w) <> _ -> _ =>
    change (bounded false k_scoped m) end.
  unfold k_scoped.
  apply free_bind; [eauto with bounded|intros [t|]]; [|apply free_any; eauto with bounded].
  apply (bounded_bind _ _ _ k_ensure (b + r0 * (k_checkin + b) + k_ensure + b));
    [by apply bounded_acquire_bearer|intros br|lia].
  apply (bounded_bind _ _ _ (b + r0 * (k_checkin + b)) (k_ensure + b));
    [by apply (bounded_first_send false)|intros [rc resp]|lia].
  case_match; [apply free_any; eauto with bounded|].
  apply free_then; [|eauto with bounded].
  case_match; [|apply free_any; eauto with bounded].
  unfold auth_retry. apply free_bind; [eauto with bounded|intros _].
  apply (bounded_bind _ _ _ k_ensure b); [by apply bounded_acquire_bearer|intros br'|lia].
  apply free_then; [by apply (bounded_do_send weight a b Ha Hb)|]. solve_free.
Qed.

Lemma session_bound m p body s ov :
  bounded false (match s with Some _ => k_scoped | None => k_open end)
    (@ehem_proto_request_raw P session_request m p body s ov).
Proof.
  destruct s as [s|]; [|apply (request_bound_open 1)].
  pose proof (request_bound_busy 1). pose proof (request_bound_open 0).
  apply bounded_scoped; [apply bounded_checkin|intros; apply bounded_ensure].
Qed.
End Path.

(** ** Theorems *)

(** C6: one call causes a bounded amount of traffic, whatever the device, the
    cloud and the allocator answer.  In a passphrase session an authenticated
    request sends at most 90 requests with every recovery and the session-start
    check-in enabled, at most 6 with both disabled (challenge, token, request,
    and the same again after a 401); an open one at most 5, or 1.  And the
    request itself - the sends that carry a bearer - goes out at most three
    times: the first try, one after a certificate recovery, one after a 401. *)
Theorem request_traffic_bounded {P : Platform} (m : ehem_http_method) (p : string)
    (body scope : option string) (ov : ehem_tls_req_override) (w : world)
    (Hidle : in_checkin (w_ctx w) = false) (Hmode : is_mobile (w_ctx w) = false) :
  let w' := snd (@ehem_proto_request_raw P session_request m p body scope ov w) in
  let bearers w := length (filter has_bearer (sends (w_trace w))) in
  let recovery := negb (no_auto_checkin (cfg (w_ctx w))) in
  let proactive := checkin_on_login (cfg (w_ctx w)) in
  (nsends w' <= nsends w +
     match scope with
     | Some _ => if recovery || proactive then 90 else 6
     | None => if recovery then 5 else 1
     end)%nat /\
  (bearers w' <= bearers w +
     match scope with Some _ => if recovery then 3 else 2 | None => 0 end)%nat.
Proof.
  intros w' bearers recovery proactive.
  assert (fst (@ehem_proto_request_raw P session_request m p body scope ov w) <> Diverge)
    as Hd by by apply session_total.
  assert (scene (cfg (w_ctx w)) false w) as Hs by by split_and!.
  split.
  - assert (forall t, cost_of (fun _ => 1%nat) t = length (sends t)) as Hcost.
    { intros t. induction t as [|[] t IH]; cbn; by rewrite ?IH. }
    destruct (session_bound (fun _ => 1%nat) 1 1 (fun _ _ => le_n _) (fun _ => le_n _)
                (cfg (w_ctx w)) m p body scope ov w Hs Hd) as [H _].
    unfold cost in H. rewrite !Hcost in H. unfold nsends. fold w' in H.
    etrans; [exact H|]. apply Nat.add_le_mono_l.
    unfold k_scoped, k_ensure, k_acquire, k_challenge, k_open, k_checkin, recovers,
      Bounds.proactive, recovery, proactive.
    by destruct scope, (no_auto_checkin _), (checkin_on_login _); cbn; lia.
  - set (wt r := if has_bearer r then 1%nat else 0%nat).
    assert (forall t, cost_of wt t = length (filter has_bearer (sends t))) as Hcost.
    { intros t. induction t as [|[r| |] t IH]; cbn; [done|..|done|done].
      rewrite IH. unfold wt. by destruct (has_bearer r) eqn:E; rewrite ?filter_cons, ?E. }
    destruct (session_bound wt 0 1) with (c0 := cfg (w_ctx w)) (m := m) (p := p)
      (body := body) (s := scope) (ov := ov) (w := w) as [H _]; try done.
    { intros r E. unfold wt. by rewrite E. }
    { intros r. unfold wt. case_match; lia. }
    unfold cost in H. rewrite !Hcost in H. unfold bearers. fold w' in H.
    etrans; [exact H|]. apply Nat.add_le_mono_l.
    unfold k_scoped, k_ensure, k_acquire, k_challenge, k_open, k_checkin, recovers,
      Bounds.proactive, recovery.
    by destruct scope, (no_auto_checkin _), (checkin_on_login _); cbn; lia.
Qed.

Lemma request_traffic_bounded_witness :
  (nsends (snd (@ehem_proto_request_raw (fake_platform []) session_request EHEM_HTTP_GET
     "/api/system/config" None (Some "system:config") EHEM_TLS_REQ_DEFAULT
     (fake_world [http 401 "{}"; http 500 "{}"] true
        (Some (fake_session "system:config" "tok"))))) <= 6)%nat.
Proof.
  exact (proj1 (@request_traffic_bounded (fake_platform []) EHEM_HTTP_GET "/api/system/config"
    None (Some "system:config") EHEM_TLS_REQ_DEFAULT
    (fake_world [http 401 "{}"; http 500 "{}"] true
       (Some (fake_session "system:config" "tok"))) eq_refl eq_refl)).
Defined.
