(* ===== verification/SessionProps.v ===== *)
(** * What a session guarantees

    The theorems about the closed request path of Session.v: it returns, keeps
    its posture, preserves the session, fills and honours the token cache,
    reduces to a plain exchange inside a check-in, and touches no network where
    it promises not to. *)

From S2P Require Import Prelude Base64 Json World Logic Context Ejwt Proto Checkin.
From S2P Require Import AuthState Notify Ext Auth Session Fake.

Open Scope hem_scope.

(** ** Termination and posture *)

(** C3: every request of an idle context returns - the mutual recursion of the
    request path, the token acquisition and the check-in never nests more than
    three deep, because a check-in leg recovers from nothing - the check-in
    guard is down again, and the answer does not depend on the fuel. *)
Theorem request_terminates {P : Platform} (m : ehem_http_method) (p : string)
    (body scope : option string) (ov : ehem_tls_req_override) (w : world) (n : nat)
    (Hidle : in_checkin (w_ctx w) = false) (Hn : (FUEL <= n)%nat) :
  fst (@ehem_proto_request_raw P session_request m p body scope ov w) <> Diverge /\
  in_checkin (w_ctx (snd (@ehem_proto_request_raw P session_request m p body scope ov w)))
    = false /\
  request_n n m p body scope ov w =
    @ehem_proto_request_raw P session_request m p body scope ov w.
Proof.
  destruct (session_total m p body scope ov I w Hidle) as [H1 H2].
  split_and!; [done|done|]. by apply request_n_stable.
Qed.

Lemma request_terminates_witness :
  @request_n (fake_platform []) 50 EHEM_HTTP_GET "/api/system/status" None None
    EHEM_TLS_REQ_DEFAULT (fake_world [http 200 "{}"] false None)
  = @ehem_proto_request_raw (fake_platform []) session_request EHEM_HTTP_GET
      "/api/system/status" None None EHEM_TLS_REQ_DEFAULT
      (fake_world [http 200 "{}"] false None).
Proof.
  refine (proj2 (proj2 (@request_terminates (fake_platform []) EHEM_HTTP_GET
    "/api/system/status" None None EHEM_TLS_REQ_DEFAULT
    (fake_world [http 200 "{}"] false None) 50 eq_refl _))).
  unfold FUEL. lia.
Defined.

(** C4: transport security of everything one request causes, recoveries and
    nested logins included: only device paths ever go out without full TLS
    verification, a bearer is sent to the device only and under the configured
    trust only, and only the check-in path is ever relaxed.  The configuration
    is untouched and earlier trace is never rewritten. *)
Theorem request_posture {P : Platform} (m : ehem_http_method) (p : string)
    (body scope : option string) (ov : ehem_tls_req_override) (w : world)
    (Hidle : in_checkin (w_ctx w) = false) (Hargs : ok_args p scope ov) :
  let w' := snd (@ehem_proto_request_raw P session_request m p body scope ov w) in
  cfg (w_ctx w') = cfg (w_ctx w) /\
  exists l, w_trace w' = w_trace w ++ l /\
    Forall (fun r =>
      (device_path (req_path r) = true \/ req_tls_override r = EHEM_TLS_REQ_VERIFY) /\
      (has_bearer r = true ->
         device_path (req_path r) = true /\ req_tls_override r = EHEM_TLS_REQ_DEFAULT) /\
      (req_tls_override r = EHEM_TLS_REQ_RELAX -> req_path r = CHECKIN_PATH)) (sends l).
Proof.
  intros w'. destruct (session_total m p body scope ov I w Hidle) as [Hd _].
  destruct (session_request_frame evolves (fun _ _ => True) m p body scope ov Hargs w Hd)
    as [Hc _ _ _ _ (l & El & Hl)].
  split; [done|]. exists l. split; [done|].
  clear El. induction Hl as [|[r| |] l Hg _ IH]; cbn; [constructor|..]; try done.
  constructor; [|done]. destruct Hg. auto.
Qed.

Lemma request_posture_witness :
  exists l,
    w_trace (snd (@ehem_proto_request_raw (fake_platform []) session_request EHEM_HTTP_GET
      "/api/system/config" None (Some "system:config") EHEM_TLS_REQ_DEFAULT
      (fake_world [http 200 "{}"] false (Some (fake_session "system:config" "tok")))))
    = [] ++ l /\ sends l <> [].
Proof.
  destruct (@request_posture (fake_platform []) EHEM_HTTP_GET "/api/system/config" None
    (Some "system:config") EHEM_TLS_REQ_DEFAULT
    (fake_world [http 200 "{}"] false (Some (fake_session "system:config" "tok")))
    eq_refl (ok_args_device "/api/system/config" _ eq_refl)) as (_ & l & E & _).
  exists l. split; [exact E|]. vm_compute in E. subst l. discriminate.
Defined.

(** ** The session state *)

(** What a request may do to the session: no switch of mode, no new credential,
    the credential dropped only under the retention opt-out, one entry per
    scope. *)
Definition session_step (x y : option ehem_auth) : Prop :=
  match x, y with
  | None, None => True
  | None, Some b => passphrase b = None /\ mobile b = false /\ NoDup (scopes (cache b))
  | Some a, Some b =>
      mobile b = mobile a /\ retain b = retain a /\
      (passphrase b = passphrase a \/ retain a = false /\ passphrase b = None) /\
      (NoDup (scopes (cache a)) -> NoDup (scopes (cache b)))
  | Some _, None => False
  end.

#[export] Instance session_step_preorder : PreOrder session_step.
Proof.
  split.
  - intros [a|]; cbn; auto.
  - intros [a|] [b|] [c|]; cbn; try done.
    + intros (M1 & R1 & P1 & C1) (M2 & R2 & P2 & C2).
      rewrite M2, R2. split; [done|]. split; [done|]. split; [|auto].
      rewrite R1 in P2. destruct P1 as [E1|[E1 E1']], P2 as [E2|[E2 E2']]; rewrite ?E2; auto.
    + intros (P1 & M1 & C1) (M2 & R2 & P2 & C2). rewrite M2. split; [|auto].
      destruct P2 as [E2|[E2 E2']]; congruence.
Qed.

Lemma cache_step_nodup l l' :
  cache_step l l' -> NoDup (scopes l) -> NoDup (scopes l').
Proof.
  intros [e He|s t x|s|] Hl.
  - constructor; [by apply cache_find_none|done].
  - by rewrite scopes_replace.
  - destruct (submseteq_Permutation _ _ (scopes_remove l s)) as [k Hk].
    rewrite Hk in Hl. apply NoDup_app in Hl as [Hl _]. exact Hl.
  - constructor.
Qed.

#[export] Instance session_step_auth : AuthRel session_step.
Proof.
  split; cbn.
  - apply _.
  - split; [done|]. split; [done|]. constructor.
  - intros a l Hl. do 2 (split; [done|]). split; [auto|]. by apply cache_step_nodup.
  - intros a u. by split_and!; [..|left|].
  - intros a Ha. by split_and!; [..|right|].
Qed.

(** C30: no request - whatever the peers answer - changes how the caller logged
    in: the mode and the credential stay, except that a credential whose
    retention was opted out may be scrubbed; the session is never dropped and
    the token cache keeps at most one entry per scope. *)
Theorem request_keeps_session {P : Platform} (m : ehem_http_method) (p : string)
    (body scope : option string) (ov : ehem_tls_req_override) (w : world)
    (Hidle : in_checkin (w_ctx w) = false) (Hargs : ok_args p scope ov) :
  session_step (auth (w_ctx w))
    (auth (w_ctx (snd (@ehem_proto_request_raw P session_request m p body scope ov w)))).
Proof.
  destruct (session_total m p body scope ov I w Hidle) as [Hd _].
  exact (session_request_frame (on_auth session_step) session_step m p body scope ov
           Hargs w Hd).
Qed.

Lemma request_keeps_session_witness :
  session_step (Some (fake_session "system:config" "tok"))
    (auth (w_ctx (snd (@ehem_proto_request_raw (fake_platform []) session_request
       EHEM_HTTP_GET "/api/system/config" None (Some "system:config") EHEM_TLS_REQ_DEFAULT
       (fake_world [http 401 "{}"; http 500 "{}"] true
          (Some (fake_session "system:config" "tok"))))))).
Proof.
  exact (@request_keeps_session (fake_platform []) EHEM_HTTP_GET "/api/system/config" None
    (Some "system:config") EHEM_TLS_REQ_DEFAULT
    (fake_world [http 401 "{}"; http 500 "{}"] true
       (Some (fake_session "system:config" "tok")))
    eq_refl (ok_args_device "/api/system/config" _ eq_refl)).
Defined.

(** ** The token chokepoint *)

(** Once there is a session it stays. *)
Definition session_stays (x y : option ehem_auth) : Prop := x <> None -> y <> None.

#[export] Instance session_stays_preorder : PreOrder session_stays.
Proof. unfold session_stays. split; [by intros x|]. intros x y z. auto. Qed.
#[export] Instance session_stays_auth : AuthRel session_stays.
Proof. unfold session_stays. by split; try apply _. Qed.

Section Chokepoint.
Context {P : Platform}.

Definition in_session (w : world) : Prop := auth (w_ctx w) <> None.

(** [scope] has a cached entry with that token, and a session that opted out
    of retention holds no credential any more. *)
Definition acquired (scope token : string) (w : world) : Prop :=
  exists a e, auth (w_ctx w) = Some a /\ cache_find (cache a) scope = Some e /\
    te_token e = token /\ (retain a = false -> passphrase a = None).

Definition cached (scope token : string) (w : world) : Prop :=
  exists a e, auth (w_ctx w) = Some a /\ cache_find (cache a) scope = Some e /\
    te_token e = token.

Lemma stays_keeps {A} (m : M A) :
  keeps (on_auth session_stays) m -> keeps (fun w w' => in_session w -> in_session w') m.
Proof. done. Qed.

(** What the end of the exchange establishes. *)
Lemma put_and_scrub scope token exp :
  hoare in_session
    (let* entry := cache_put scope token exp in
     match entry with
     | None => out_of_memory
     | Some entry =>
         upd_auth (fun a => if retain a then a else scrub_passphrase a) ;;;
         ret (te_token entry)
     end) (acquired scope).
Proof.
  intros w Hw. unfold bind.
  destruct (cache_put_run scope token exp w Hw)
    as (w' & Hm & [->|(a & Ea & ->)]).
  - pose proof (ehem_ctx_fail_not_ok (A:=string) EHEM_ERR_NOMEM 0 None "out of memory" w')
      as Hn.
    unfold out_of_memory. destruct (ehem_ctx_fail _ _ _ _ _) as [[t| |] ?]; [|done..].
    by destruct (Hn t).
  - cbn. unfold acquired. cbn. destruct (retain a) eqn:Er; cbn.
    + eexists _, _. split; [reflexivity|]. cbn.
      rewrite cache_find_update, Er. cbn. rewrite String.eqb_refl. by split_and!.
    + eexists _, _. split; [reflexivity|]. cbn.
      rewrite cache_find_update. cbn. by rewrite String.eqb_refl.
Qed.

Lemma acquired_mem scope t w w' : acquired scope t w -> mem_step w w' -> acquired scope t w'.
Proof. intros (a & e & E & H) Hm. exists a, e. by rewrite (mem_auth _ _ Hm). Qed.

Context `{Q : !Request, !RequestFrame (on_auth session_stays) Q}.

Lemma hoare_fail {A} (I : world -> Prop) rc st p msg (S : A -> world -> Prop) :
  hoare I (ehem_ctx_fail rc st p msg) S.
Proof.
  intros w _. pose proof (ehem_ctx_fail_not_ok (A:=A) rc st p msg w) as H.
  destruct (ehem_ctx_fail _ _ _ _ w) as [[a| |] ?]; [by destruct (H a)|done..].
Qed.

Lemma exchange_acquired scope now ch :
  hoare in_session (exchange_token scope now ch) (acquired scope).
Proof.
  unfold exchange_token, build_auth_body, out_of_memory.
  do 3 (case_match; [|apply hoare_fail]).
  apply hoare_skip; [apply stays_keeps|intros _].
  { case_match; [|apply (keeps_ret _ session_stays)].
    pose proof (keeps_username (on_auth session_stays) session_stays). solve_keeps. }
  case_match; [|apply hoare_fail]. case_match; [apply hoare_fail|].
  apply hoare_skip; [apply stays_keeps, (keeps_attempt _),
    (keeps_derive_ejwt _ session_stays)|intros [ejwt|]]; [|apply hoare_fail].
  apply hoare_skip; [apply stays_keeps, (keeps_string_body _ session_stays)|intros [bd|]];
    [|apply hoare_fail].
  apply hoare_skip; [by apply stays_keeps, (keeps_token_json _ session_stays)|intros root].
  case_match; [|apply hoare_fail]. apply put_and_scrub.
Qed.

(** A token, if there is one, is acquired. *)
Definition got (scope : string) (r : string + ehem_rc) (w : world) : Prop :=
  in_session w /\ match r with inl t => acquired scope t w | inr _ => True end.

Lemma acquired_in_session scope t w : acquired scope t w -> in_session w.
Proof. intros (a & e & E & _). unfold in_session. by rewrite E. Qed.

Lemma acquire_token_acquired scope now s d :
  hoare in_session (acquire_token scope now s d) (fun r => got scope (snd r)).
Proof.
  unfold acquire_token.
  apply hoare_skip; [apply stays_keeps, (keeps_attempt _), (keeps_global_init _ session_stays)
                    |intros [u|rc]].
  - apply hoare_skip; [apply stays_keeps, (keeps_fetch_challenge _ session_stays)
                      |intros [sp [ch|rc]]].
    + eapply hoare_bind; [apply hoare_attempt;
        [apply exchange_acquired|apply stays_keeps, (keeps_exchange_token _ session_stays)]|].
      intros [t|rc]; apply hoare_ret; intros w Hw; split; cbn; try done.
      by eapply acquired_in_session.
    + by apply hoare_ret.
  - eapply hoare_bind; [apply hoare_attempt; [apply hoare_fail|
      apply stays_keeps, (keeps_ctx_fail _ session_stays)]|].
    intros [t|rc']; apply hoare_ret; intros w Hw; [|done].
    instantiate (1 := fun t => acquired scope t) in Hw.
    split; [by eapply acquired_in_session|done].
Qed.

Lemma acquired_same scope t w w' :
  acquired scope t w -> auth (w_ctx w') = auth (w_ctx w) -> acquired scope t w'.
Proof. intros (a & e & E & H) Ha. exists a, e. by rewrite Ha. Qed.

(** Reading the context and the last error in between loses nothing. *)
Lemma hoare_read {A B} (I : world -> Prop) (m : M A) (f : A -> M B) S :
  (forall w, exists a, m w = (Ok a, w)) -> (forall a, hoare I (f a) S) ->
  hoare I (bind m f) S.
Proof. intros Hm Hf w Hw. unfold bind. destruct (Hm w) as [a ->]. by apply Hf. Qed.

Lemma passphrase_acquired scope now :
  hoare in_session (acquire_passphrase scope now) (acquired scope).
Proof.
  unfold acquire_passphrase.
  apply hoare_skip; [apply stays_keeps, (keeps_proactive _ session_stays)|intros pf].
  eapply hoare_bind; [apply acquire_token_acquired|intros [[sp dr] r]]. cbn [snd].
  apply hoare_read; [by intros; eexists|intros e].
  apply hoare_read; [by intros; eexists|intros c].
  apply (hoare_bind _ (got scope)).
  - destruct r as [t|rc]; [by apply hoare_ret|].
    case_match; [|by apply hoare_ret].
    eapply hoare_weaken with (I := in_session);
      [|intros w Hw; apply Hw|intros r w Hr; exact Hr].
    apply hoare_skip; [apply stays_keeps, (keeps_attempt _),
      (keeps_checkin_quietly _ session_stays)|intros [u|rc']].
    + apply hoare_skip; [apply stays_keeps, (keeps_auth_now _ session_stays)|intros n].
      eapply hoare_bind; [apply acquire_token_acquired|intros [[sp' dr'] r]].
      by apply hoare_ret.
    + apply hoare_read; [by intros; eexists|intros e'].
      eapply hoare_weaken; [apply hoare_attempt; [apply (hoare_fail in_session)|
        apply stays_keeps, (keeps_ctx_fail _ session_stays)]|done|].
      intros [t|rc''] w Hw; [|done].
      instantiate (1 := fun t => acquired scope t) in Hw.
      split; [by eapply acquired_in_session|done].
  - intros [t|rc']; [|apply hoare_throw].
    apply (hoare_bind _ (fun _ => acquired scope t)); [|intros _; by apply hoare_ret].
    destruct pf; [|by apply hoare_ret; intros w [_ Hw]].
    intros w [_ Hw]. cbn. by eapply acquired_same.
Qed.

(** The mobile acquisition ends with the cache lookup itself. *)
Lemma mobile_cached scope :
  hoare in_session (acquire_mobile scope) (cached scope).
Proof.
  unfold acquire_mobile.
  apply hoare_skip; [apply stays_keeps, (keeps_proactive _ session_stays)|intros pf].
  apply hoare_skip; [apply stays_keeps, (keeps_confirm_begin _ session_stays)|intros c].
  apply hoare_read; [by intros; eexists|intros cx].
  apply hoare_skip; [apply stays_keeps, (keeps_confirm_wait _ session_stays)|intros [c' r]].
  destruct r as [u|rc]; [|apply hoare_throw].
  intros w Hw. unfold bind, get_auth, get_ctx, ret. cbn.
  unfold in_session in Hw. destruct (auth (w_ctx w)) as [a|] eqn:Ea; [|done].
  destruct (cache_find (cache a) scope) as [e|] eqn:Ef.
  - unfold bind. cbn. by exists a, e.
  - done.
Qed.
End Chokepoint.

(** C31: the token chokepoint: whenever [ehem_auth_ensure_token] succeeds, the
    token it hands out is the one cached for the scope, so the next call reuses
    it; and if it had to run the login exchange in a session that opted out of
    credential retention, the passphrase is gone. *)
Theorem ensure_token_cached {P : Platform} (scope token : string) (w w' : world)
    (Hok : @ehem_auth_ensure_token P session_request scope w = (Ok token, w')) :
  cached scope token w' /\
  (forall a, auth (w_ctx w) = Some a -> mobile a = false ->
     fresh_token (Some a) scope (p_time (w_tick w)) = None ->
     forall a', auth (w_ctx w') = Some a' -> retain a' = false -> passphrase a' = None).
Proof.
  revert Hok. unfold ehem_auth_ensure_token, bind at 1 2, get_auth, auth_now, get_ctx, ask, ret, bind.
  cbn [fst snd].
  set (w1 := {| w_net := w_net w |}).
  destruct (auth (w_ctx w)) as [a|] eqn:Ea.
  - destruct (fresh_token (Some a) scope _) as [t|] eqn:Ef.
    + intros [= <- <-]. unfold fresh_token in Ef. cbn in Ef.
      destruct (cache_find (cache a) scope) as [e|] eqn:Ec; cbn in Ef; [|done].
      case_match; [|done]. injection Ef as <-. split; [by exists a, e|].
      intros a0 [= <-] _ Hn. unfold fresh_token in Hn. cbn in Hn.
      rewrite Ec in Hn. cbn in Hn. by rewrite H in Hn.
    + assert (in_session w1) as Hs by (unfold in_session; cbn; by rewrite Ea).
      destruct (mobile a) eqn:Em.
      * intros Hr. pose proof (mobile_cached scope w1 Hs) as Hc. rewrite Hr in Hc.
        split; [done|]. intros a0 [= <-] Hm. by rewrite Em in Hm.
      * destruct (passphrase a) as [ps|].
        -- intros Hr. pose proof (passphrase_acquired scope (p_time (w_tick w)) w1 Hs) as Hc.
           rewrite Hr in Hc. destruct Hc as (a' & e & E1 & E2 & E3 & E4).
           split; [by exists a', e|]. intros _ _ _ _ a'' E. rewrite E1 in E.
           by injection E as <-.
        -- done.
  - done.
Qed.

Lemma run_eq {A B} (x : A * B) o : fst x = o -> x = (o, snd x).
Proof. by destruct x; cbn; intros ->. Qed.

(** A scripted login: a challenge, a token. *)
Definition login_table : list (string * json) :=
  [("CHALLENGE", JObject [("eid", JString "device"); ("jti", JString "nonce");
      ("spk", JString "CAgICAgICAgICAgICAgICAgICAgICAgICAgICAgICAg=");
      ("exp", JNumber (double_of_int64 1790000060))]);
   ("TOKEN", JObject [("token", JString "header.payload.tag")])].

Definition login_world : @world (fake_platform login_table) :=
  fake_world [http 200 "CHALLENGE"; http 200 "TOKEN"] false
    (Some {| passphrase := Some "correct horse"; retain := false; username := None;
             mobile := false; cache := [] |}).

Lemma ensure_token_cached_witness :
  let run := @ehem_auth_ensure_token (fake_platform login_table) session_request
               "keymgmt:list" login_world in
  fst run = Ok "header.payload.tag" /\
  cached "keymgmt:list" "header.payload.tag" (snd run) /\
  forall a', auth (w_ctx (snd run)) = Some a' -> retain a' = false -> passphrase a' = None.
Proof.
  assert (fst (@ehem_auth_ensure_token (fake_platform login_table) session_request
                 "keymgmt:list" login_world) = Ok "header.payload.tag") as E
    by (vm_compute; reflexivity).
  split; [exact E|].
  destruct (@ensure_token_cached (fake_platform login_table) "keymgmt:list"
              "header.payload.tag" login_world _ (run_eq _ _ E)) as [H1 H2].
  split; [exact H1|]. eapply H2; reflexivity.
Defined.

(** Where the session promises no network there is none: an unexpired cached
    token is handed out, and a session without a credential (or no session at
    all) refuses with AUTH_EXPIRED, and in both cases nothing is sent, nothing
    sleeps, and the session is untouched. *)
Theorem ensure_token_offline {P : Platform} (scope : string) (w : world) :
  let '(o, w') := @ehem_auth_ensure_token P session_request scope w in
  let a := auth (w_ctx w) in
  (forall e x, a = Some x -> cache_find (cache x) scope = Some e ->
     p_time (w_tick w) < te_exp e ->
     o = Ok (te_token e) /\ w_trace w' = w_trace w /\ w_ctx w' = w_ctx w) /\
  (fresh_token a scope (p_time (w_tick w)) = None ->
   match a with Some x => mobile x = false /\ passphrase x = None | None => True end ->
   o = Err EHEM_ERR_AUTH_EXPIRED /\ w_trace w' = w_trace w /\ auth (w_ctx w') = a /\
   w_net w' = w_net w).
Proof.
  unfold ehem_auth_ensure_token, bind at 1 2, get_auth, auth_now, get_ctx, ask, ret, bind.
  cbn [fst snd].
  destruct (auth (w_ctx w)) as [a|] eqn:Ea.
  - unfold fresh_token. cbn [mbind option_bind].
    destruct (cache_find (cache a) scope) as [e|] eqn:Ec; cbn [mbind option_bind].
    + destruct (p_time (w_tick w) <? te_exp e) eqn:Et.
      * split; [|done]. intros e' x [= <-] He _. rewrite Ec in He. by injection He as <-.
      * destruct (mobile a) eqn:Em; [|destruct (passphrase a) eqn:Ep].
        -- destruct (acquire_mobile _ _) as [o w']. split; [|by intros _ [? _]].
           intros e' x [= <-] He Hlt. rewrite Ec in He. injection He as <-. lia.
        -- destruct (acquire_passphrase _ _ _) as [o w']. split; [|by intros _ [_ ?]].
           intros e' x [= <-] He Hlt. rewrite Ec in He. injection He as <-. lia.
        -- cbn. split; [|intros _ _; by split_and!].
           intros e' x [= <-] He Hlt. rewrite Ec in He. injection He as <-. lia.
    + destruct (mobile a) eqn:Em; [|destruct (passphrase a) eqn:Ep].
      * destruct (acquire_mobile _ _) as [o w']. split; [|by intros _ [? _]].
        intros e' x [= <-] He. by rewrite Ec in He.
      * destruct (acquire_passphrase _ _ _) as [o w']. split; [|by intros _ [_ ?]].
        intros e' x [= <-] He. by rewrite Ec in He.
      * cbn. split; [|intros _ _; by split_and!]. intros e' x [= <-] He. by rewrite Ec in He.
  - cbn. split; [done|intros _ _; by split_and!].
Qed.

(** ** Login and logout *)

(** The session after a successful login. *)
Definition login_session {N} (c : ctx_config N) (pass : string) : ehem_auth :=
  {| passphrase := Some pass; retain := negb (no_credential_retention c);
     username := None; mobile := false; cache := [] |}.

(** A login is memory steps and then one replacement of the session. *)
Lemma ehem_login_run {P : Platform} (pass : string) (w : world) :
  exists w', mem_step w w' /\
    (ehem_login (Some pass) w = (Err EHEM_ERR_NOMEM, w') \/
     ehem_login (Some pass) w =
       (Ok tt, with_ctx w' (ctx_set_auth (Some (login_session (cfg (w_ctx w)) pass)) (w_ctx w')))).
Proof.
  unfold ehem_login, ehem_ctx_clear_error, ensure_auth, dup_str, get_auth, upd_auth, upd_ctx,
    malloc, ask, get_ctx, ret, bind. cbn.
  destruct (p_malloc (w_tick w)); cbn; [|eexists; split; [|by left]; by split].
  destruct (auth (w_ctx w)) as [a|] eqn:Ea; cbn.
  { rewrite Ea. cbn. eexists (with_ctx (at_tick (S (w_tick w)) w)
      (ctx_set_error error_clear (w_ctx w))). split; [by split|by right]. }
  destruct (p_malloc (S (w_tick w))); cbn; [|eexists; split; [|by left]; by split].
  eexists (with_ctx (at_tick (S (S (w_tick w))) w)
      (ctx_set_error error_clear (w_ctx w))). split; [by split|by right].
Qed.

(** [ehem_login] replaces the whole session or leaves the old one intact:
    on success the context holds exactly the new credential (retained as the
    options say), no token, no mobile mode; on failure - only a missing
    argument or no memory - the previous session is as it was.  Nothing is
    sent. *)
Theorem ehem_login_replaces {P : Platform} (pass : option string) (w : world) :
  let '(o, w') := ehem_login pass w in
  w_trace w' = w_trace w /\ cfg (w_ctx w') = cfg (w_ctx w) /\
  match o with
  | Ok _ => exists p, pass = Some p /\
      auth (w_ctx w') = Some
        {| passphrase := Some p; retain := negb (no_credential_retention (cfg (w_ctx w)));
           username := None; mobile := false; cache := [] |}
  | Err rc =>
      (rc = EHEM_ERR_ARG /\ pass = None \/ rc = EHEM_ERR_NOMEM) /\
      auth (w_ctx w') = auth (w_ctx w)
  | Diverge => False
  end.
Proof.
  destruct pass as [p|]; [|cbn; split_and!; auto].
  destruct (ehem_login_run p w) as (w1 & Hm & [->| ->]); split_and!;
    try apply (mem_trace _ _ Hm); try apply (mem_cfg _ _ Hm); [auto|apply (mem_auth _ _ Hm)|].
  by exists p.
Qed.

(** Switching to mobile mode scrubs the passphrase session (or fails for
    lack of memory and changes nothing), and after [ehem_logout] every
    authenticated request is refused with AUTH_EXPIRED without sending. *)
Theorem mode_switch_and_logout {P : Platform} (w : world) :
  (let '(o, w') := ehem_login_mobile w in
   w_trace w' = w_trace w /\
   match o with
   | Ok _ => exists r, auth (w_ctx w') = Some
       {| passphrase := None; retain := r; username := None; mobile := true; cache := [] |}
   | Err rc => rc = EHEM_ERR_NOMEM /\ auth (w_ctx w') = auth (w_ctx w)
   | Diverge => False
   end) /\
  (let '(o, w') := ehem_logout w in
   o = Ok tt /\ auth (w_ctx w') = None /\
   forall m p body scope ov, is_Some (transport (cfg (w_ctx w))) ->
     let '(o2, w2) := @ehem_proto_request_raw P session_request m p body (Some scope) ov w' in
     o2 = Err EHEM_ERR_AUTH_EXPIRED /\ w_trace w2 = w_trace w).
Proof.
  split.
  - unfold ehem_login_mobile, ehem_ctx_clear_error, ensure_auth, get_auth, upd_auth, upd_ctx,
      malloc, ask, get_ctx, ret, bind. cbn.
    destruct (auth (w_ctx w)) as [a|] eqn:Ea; cbn.
    { split; [done|]. rewrite Ea. cbn. by eexists. }
    destruct (p_malloc (w_tick w)); cbn; [|by rewrite Ea].
    split; [done|]. by eexists.
  - cbn. split_and!; [done..|]. intros m p body scope ov [t Ht].
    unfold ehem_proto_request_raw, session_request, request_n, FUEL, request_raw_body,
      ehem_ctx_transport, acquire_bearer, ehem_auth_ensure_token, get_auth, auth_now, bind,
      get_ctx, ret, ask. cbn. rewrite Ht. by cbn.
Qed.

(** ** The cache as a map *)

(** C32: the linked list of token entries behaves as a map from scopes: a put
    binds exactly its scope (replacing in place, never duplicating) and a
    failed put changes nothing; invalidating a scope unbinds exactly it, and
    invalidating without a scope empties the cache. *)
Theorem token_cache_is_map {P : Platform} (w : world) (a : ehem_auth)
    (Ha : auth (w_ctx w) = Some a) (Hu : NoDup (scopes (cache a))) :
  (forall scope token exp,
     let '(o, w') := cache_put scope token exp w in
     exists a', auth (w_ctx w') = Some a' /\ NoDup (scopes (cache a')) /\
       match o with
       | Ok (Some e) =>
           e = {| te_scope := scope; te_token := token; te_exp := exp |} /\
           forall s, cache_find (cache a') s =
                       if String.eqb scope s then Some e else cache_find (cache a) s
       | Ok None => a' = a
       | _ => False
       end) /\
  (forall scope,
     let '(o, w') := ehem_auth_invalidate scope w in
     exists a', auth (w_ctx w') = Some a' /\ NoDup (scopes (cache a')) /\ o = Ok tt /\
       forall s, cache_find (cache a') s =
         match scope with
         | Some k => if String.eqb k s then None else cache_find (cache a) s
         | None => None
         end).
Proof.
  split.
  - intros scope token exp.
    destruct (cache_put_run scope token exp w ltac:(by rewrite Ha))
      as (w' & Hm & [->|(a0 & Ea & ->)]).
    { exists a. by rewrite (mem_auth _ _ Hm). }
    rewrite Ha in Ea. injection Ea as <-. cbn. eexists. split; [done|].
    split; [|split; [done|intros s; apply cache_find_update]].
    eapply cache_step_nodup; [apply cache_update_step|done].
  - intros [k|]; cbn; rewrite Ha; cbn; eexists; (split; [reflexivity|]); cbn.
    + split; [eapply cache_step_nodup; [apply step_remove|done]|].
      split; [done|]. intros s. by apply cache_find_remove.
    + split; [constructor|done].
Qed.

Lemma token_cache_is_map_witness :
  let w := @fake_world [] [] false (Some (fake_session "system:config" "old")) in
  exists a', auth (w_ctx (snd (@cache_put (fake_platform []) "keymgmt:list" "new" 7 w)))
               = Some a' /\
    cache_find (cache a') "system:config" =
      Some {| te_scope := "system:config"; te_token := "old"; te_exp := 1790003540 |}.
Proof.
  intros w.
  destruct (@token_cache_is_map (fake_platform []) w (fake_session "system:config" "old")
              eq_refl (NoDup_singleton _)) as [H _].
  specialize (H "keymgmt:list" "new" 7). revert H.
  destruct (cache_put _ _ _ _) as [o w'] eqn:Er. vm_compute in Er. injection Er as <- <-.
  intros (a' & E & _ & _ & H). exists a'. split; [exact E|]. rewrite H. reflexivity.
Defined.
