(* ===== verification/Wire.v ===== *)
(** * What an answer rests on

    The closed request path against the wire: a success is the device's answer
    to exactly this request, sent last, under the bearer of the requested
    scope; the "empty 200" failure the bindings read as success is either the
    device's own empty 200 to it, or a bearer that could not be had.  The
    theorems about bindings that report what the device said build on these. *)

From S2P Require Import Prelude Base64 Json World Logic Context Ejwt Proto Checkin.
From S2P Require Import AuthState Notify Ext Auth Session SessionProps Fake.

Open Scope hem_scope.

(** ** Both outcomes of a call *)

Section Triples.
Context {P : Platform}.

(** From [I], a success ends in [Q] and a failure in [E]. *)
Definition triple {A} (I : world -> Prop) (m : M A) (Q : A -> world -> Prop)
    (E : ehem_rc -> world -> Prop) : Prop :=
  forall w, I w -> match m w with
                   | (Ok a, w') => Q a w'
                   | (Err rc, w') => E rc w'
                   | (Diverge, _) => True
                   end.

Lemma triple_ret {A} (I : world -> Prop) (a : A) (Q : A -> world -> Prop) E :
  (forall w, I w -> Q a w) -> triple I (ret a) Q E.
Proof. intros H w Hw. by apply H. Qed.

Lemma triple_throw {A} (I : world -> Prop) rc (Q : A -> world -> Prop)
    (E : ehem_rc -> world -> Prop) :
  (forall w, I w -> E rc w) -> triple I (throw rc) Q E.
Proof. intros H w Hw. by apply H. Qed.

Lemma triple_bind {A B} I Q1 (m : M A) (f : A -> M B) Q E :
  triple I m Q1 E -> (forall a, triple (Q1 a) (f a) Q E) -> triple I (bind m f) Q E.
Proof.
  intros Hm Hf w Hw. unfold bind. specialize (Hm w Hw).
  destruct (m w) as [[a|rc|] w']; [by apply Hf|done..].
Qed.

Lemma triple_weaken {A} (I I' : world -> Prop) (Q Q' : A -> world -> Prop)
    (E E' : ehem_rc -> world -> Prop) m :
  triple I m Q E -> (forall w, I' w -> I w) -> (forall a w, Q a w -> Q' a w) ->
  (forall rc w, E rc w -> E' rc w) -> triple I' m Q' E'.
Proof.
  intros H HI HQ HE w Hw. specialize (H w (HI w Hw)).
  destruct (m w) as [[a|rc|] w']; [by apply HQ|by apply HE|done].
Qed.

Lemma triple_attempt {A} I (m : M A) Q E E' :
  triple I m Q E ->
  triple I (attempt m) (fun r w => match r with inl a => Q a w | inr rc => E rc w end) E'.
Proof.
  intros H w Hw. unfold attempt. specialize (H w Hw).
  by destruct (m w) as [[a|rc|] w'].
Qed.

Lemma triple_keeps {A} (I : world -> Prop) (m : M A) :
  keeps (fun w w' => I w -> I w') m -> triple I m (fun _ => I) (fun _ => I).
Proof.
  intros H w Hw. specialize (H w).
  destruct (m w) as [[a|rc|] w']; cbn in *; [by apply H|by apply H|done].
Qed.

(** A call that only reads. *)
Lemma triple_read {A B} (I : world -> Prop) (m : M A) (f : A -> M B) Q E :
  (forall w, exists a, m w = (Ok a, w)) -> (forall a, triple I (f a) Q E) ->
  triple I (bind m f) Q E.
Proof. intros Hm Hf w Hw. unfold bind. destruct (Hm w) as [a ->]. by apply Hf. Qed.

Lemma triple_hoare {A} (I : world -> Prop) (m : M A) (Q : A -> world -> Prop) E :
  triple I m Q E -> hoare I m Q.
Proof. intros H w Hw. specialize (H w Hw). by destruct (m w) as [[a|rc|] w']. Qed.

(** The failure helper: its code and status, nothing said or heard. *)
Definition failed_after (rc : ehem_rc) (st : Z) (I : world -> Prop) (rc' : ehem_rc)
    (w : world) : Prop :=
  rc' = rc /\ http_status (last_error (w_ctx w)) = st /\
  exists w1, I w1 /\ w_trace w = w_trace w1 /\ w_net w = w_net w1.

Lemma triple_fail {A} (I : world -> Prop) rc st p msg (Q : A -> world -> Prop) :
  triple I (ehem_ctx_fail rc st p msg) Q (failed_after rc st I).
Proof.
  intros w Hw.
  assert (wp (ehem_ctx_fail (A:=A) rc st p msg)
    (fun o w' => o = Err rc /\ failed_after rc st I rc w') w) as H.
  { apply wp_ctx_fail. intros w' p' Hc _ Ht Hn _. split; [done|].
    split; [done|]. split; [by rewrite Hc|by exists w]. }
  unfold wp in H. destruct (ehem_ctx_fail _ _ _ _ w) as [o w']. cbn in H.
  by destruct H as [-> H].
Qed.

(** *** A call that returned *)

Lemma bind_inv {A B} (m : M A) (f : A -> M B) w b w' :
  bind m f w = (Ok b, w') -> exists a w1, m w = (Ok a, w1) /\ f a w1 = (Ok b, w').
Proof. unfold bind. destruct (m w) as [[a|rc|] w1]; [by eauto|done..]. Qed.

Lemma ehem_ctx_fail_ok {A} rc st p msg w (a : A) w' :
  ehem_ctx_fail rc st p msg w = (Ok a, w') -> False.
Proof. intros E. apply (ehem_ctx_fail_not_ok rc st p msg w a). by rewrite E. Qed.
End Triples.

(** ** Exchanges *)

Section Exchange.
Context {P : Platform}.

(** Since [w0], the last thing sent was [req], through the transport of the
    context, which answered [rc] and [resp] and is now in the state it answered
    in. *)
Definition exchanged (req : ehem_request) (rc : ehem_rc) (resp : ehem_response)
    (w0 w : world) : Prop :=
  exists ops send n pre,
    transport (cfg (w_ctx w0)) ≫= t_ops = Some ops /\ op_send ops = Some send /\
    send n req = (rc, resp, w_net w) /\ w_trace w = w_trace w0 ++ pre ++ [EvSend req].

Lemma exchanged_same req rc resp w0 w w' :
  w_trace w' = w_trace w -> w_net w' = w_net w ->
  exchanged req rc resp w0 w -> exchanged req rc resp w0 w'.
Proof. unfold exchanged. by intros -> ->. Qed.

Lemma exchanged_from req rc resp w0 w1 w :
  evolves w0 w1 -> exchanged req rc resp w1 w -> exchanged req rc resp w0 w.
Proof.
  intros [Hc _ _ _ _ (l & El & _)] (ops & send & n & pre & Ht & Hs & Hn & Etr).
  exists ops, send, n, (l ++ pre). rewrite <- Hc. split_and!; [done..|].
  by rewrite Etr, El, <- !app_assoc.
Qed.

(** [w] after the transport moved to [n] and [l] was said. *)
Definition after (w : world) (n : net) (l : list event) : world :=
  {| w_net := n; w_tick := w_tick w; w_global_ready := w_global_ready w;
     w_ctx := w_ctx w; w_trace := w_trace w ++ l |}.

(** What of a request its caller chooses. *)
Definition requests (m : ehem_http_method) (p : string) (body bearer : option string)
    (ov : ehem_tls_req_override) (req : ehem_request) : Prop :=
  req_method req = m /\ req_path req = p /\ req_body req = body /\
  req_tls_override req = ov /\ req_headers req = request_headers body bearer.

(** A send is a pause and one call of the transport. *)
Lemma do_send_run t m p body bearer ov fresh w :
  exists req l, requests m p body bearer ov req /\ sends l = [] /\
    do_send t m p body bearer ov fresh w =
      match (ops ← t ≫= t_ops; op_send ops) with
      | Some send =>
          let '(rc, resp, n') := send (w_net w) req in
          (Ok (rc, resp), after w n' (l ++ [EvSend req]))
      | None => (Ok (EHEM_ERR_ARG, response_zero), after w (w_net w) l)
      end.
Proof.
  unfold do_send, bind, get_ctx, ehem_proto_sleep_ms.
  match goal with |- context [ehem_transport_send t ?r] => set (req := r) end.
  exists req.
  exists (if request_pace_ms (cfg (w_ctx w)) <=? 0 then []
          else [EvSleep (request_pace_ms (cfg (w_ctx w)))]).
  split; [by split_and!|]. clearbody req.
  destruct (request_pace_ms (cfg (w_ctx w)) <=? 0); (split; [done|]);
    unfold after, ehem_transport_send, emit, bind, get_net, set_net, ret; cbn;
    (destruct t as [t|]; cbn; [|destruct w; cbn; by rewrite ?app_nil_r]);
    (destruct (t_ops t) as [ops|]; cbn; [|destruct w; cbn; by rewrite ?app_nil_r]);
    (destruct (op_send ops); cbn; [|destruct w; cbn; by rewrite ?app_nil_r]);
    destruct (_ (w_net w) req) as [[rc resp] n']; cbn; by rewrite <- ?app_assoc.
Qed.

(** The bearer of a request: none, or the one the session engine handed out for
    the scope since [w0]. *)
Definition bearer_for (scope : option string) (w0 : world) (bearer : option string) : Prop :=
  match scope, bearer with
  | None, None => True
  | Some s, Some b => exists token w1 w2,
      evolves w0 w1 /\ ehem_auth_ensure_token s w1 = (Ok token, w2) /\
      b = ("Bearer " +:+ token)%string
  | _, _ => False
  end.

(** [req] is the request the caller asked for. *)
Record asks (w0 : world) (m : ehem_http_method) (p : string) (body scope : option string)
    (ov : ehem_tls_req_override) (req : ehem_request) : Prop := {
  asks_method : req_method req = m;
  asks_path : req_path req = p;
  asks_body : req_body req = body;
  asks_override : req_tls_override req = ov;
  asks_headers : exists bearer,
    req_headers req = request_headers body bearer /\ bearer_for scope w0 bearer
}.

Lemma bearer_for_from scope w0 w1 b :
  evolves w0 w1 -> bearer_for scope w1 b -> bearer_for scope w0 b.
Proof.
  intros He. destruct scope, b; cbn; try done. intros (t & w2 & w3 & H2 & Ht & ->).
  exists t, w2, w3. split_and!; [by etrans|done..].
Qed.

Lemma asks_from w0 w1 m p body scope ov req :
  evolves w0 w1 -> asks w1 m p body scope ov req -> asks w0 m p body scope ov req.
Proof.
  intros He [? ? ? ? (b & Hb & Hf)]. split; try done. exists b. split; [done|].
  by eapply bearer_for_from.
Qed.

(** The device answered this request with status [resp_status resp]. *)
Definition answered (w0 : world) (m : ehem_http_method) (p : string)
    (body scope : option string) (ov : ehem_tls_req_override) (resp : ehem_response)
    (w : world) : Prop :=
  exists req, asks w0 m p body scope ov req /\ exchanged req EHEM_OK resp w0 w.

Lemma answered_same w0 m p body scope ov resp w w' :
  w_trace w' = w_trace w -> w_net w' = w_net w ->
  answered w0 m p body scope ov resp w -> answered w0 m p body scope ov resp w'.
Proof. intros Ht Hn (req & Ha & He). exists req. split; [done|]. by eapply exchanged_same. Qed.

Lemma answered_from w0 w1 m p body scope ov resp w :
  evolves w0 w1 -> answered w1 m p body scope ov resp w ->
  answered w0 m p body scope ov resp w.
Proof.
  intros He (req & Ha & Hx). exists req.
  split; [by eapply asks_from|by eapply exchanged_from].
Qed.

(** A 2xx with the text [b] in it. *)
Definition body_of (resp : ehem_response) (b : string) : Prop :=
  200 <= resp_status resp < 300 /\
  exists raw, resp_body resp = Some raw /\ raw <> ""%string /\ b = c_str raw.

(** A 200 with nothing in it. *)
Definition empty_200 (resp : ehem_response) : Prop :=
  resp_status resp = 200 /\ default ""%string (resp_body resp) = ""%string.

(** The bearer could not be had, with the very failure that an empty 200 gives:
    at the first attempt, or after the device had answered 401 to the request. *)
Definition bearer_lost (w0 : world) (m : ehem_http_method) (p : string)
    (body scope : option string) (ov : ehem_tls_req_override) (w : world) : Prop :=
  exists s w1 w2, scope = Some s /\ evolves w0 w1 /\
    (w_trace w1 = w_trace w0 /\ w_net w1 = w_net w0 \/
     exists resp, answered w0 m p body scope ov resp w1 /\ resp_status resp = 401) /\
    ehem_auth_ensure_token s w1 = (Err EHEM_ERR_PROTOCOL, w2) /\
    http_status (last_error (w_ctx w2)) = 200 /\
    w_trace w = w_trace w2 /\ w_net w = w_net w2.
End Exchange.

(** ** The body of the request path *)

Section Body.
Context {P : Platform} (checkin_run : bool -> M unit) (ensure : string -> M string).
Context (Hcheckin : forall r, keeps evolves (checkin_run r))
        (Hensure : forall s, keeps evolves (ensure s))
        (Hsame : forall s w, fst (ensure s w) <> Diverge ->
                   ensure s w = ehem_auth_ensure_token s w).
Context (w0 : world) (m : ehem_http_method) (p : string) (body scope : option string)
        (ov : ehem_tls_req_override) (Hargs : ok_args p scope ov).

(** The state between the steps: the frame, and the bearer in hand. *)
Definition holding (bearer : option string) (w : world) : Prop :=
  evolves w0 w /\ bearer_for scope w0 bearer.

(** What a send gave, if it gave anything. *)
Definition sent (r : ehem_rc * ehem_response) (w : world) : Prop :=
  evolves w0 w /\ (fst r = EHEM_OK -> answered w0 m p body scope ov (snd r) w).

(** What the whole request may report. *)
Definition good_end (b : string) (w : world) : Prop :=
  exists resp, answered w0 m p body scope ov resp w /\ body_of resp b.
Definition bad_end (rc : ehem_rc) (w : world) : Prop :=
  rc = EHEM_ERR_PROTOCOL -> http_status (last_error (w_ctx w)) = 200 ->
  (exists resp, answered w0 m p body scope ov resp w /\ empty_200 resp) \/
  bearer_lost w0 m p body scope ov w.

Lemma evolves_keeps {A} (q : M A) :
  keeps evolves q -> keeps (fun w w' => evolves w0 w -> evolves w0 w') q.
Proof. intros H w Hw He. etrans; [exact He|by apply H]. Qed.

Lemma triple_evolves {A} (q : M A) :
  keeps evolves q -> triple (evolves w0) q (fun _ => evolves w0) (fun _ => evolves w0).
Proof. intros H. by apply triple_keeps, evolves_keeps. Qed.

Lemma bearer_ok bearer : bearer_for scope w0 bearer -> ok_args p bearer ov.
Proof.
  destruct scope, bearer; cbn; try done. intros _. by eapply ok_args_bearer.
Qed.

Lemma do_send_sent bearer fresh E :
  triple (holding bearer) (do_send (transport (cfg (w_ctx w0))) m p body bearer ov fresh) sent E.
Proof.
  intros w [He Hb].
  pose proof (keeps_do_send evolves (fun _ _ => True) (transport (cfg (w_ctx w0))) m p body
    bearer ov fresh (bearer_ok _ Hb) w) as Hk.
  destruct (do_send_run (transport (cfg (w_ctx w0))) m p body bearer ov fresh w)
    as (req & l & (? & ? & ? & ? & Hh) & _ & Er).
  assert (asks w0 m p body scope ov req) as Hreq by (split; try done; by exists bearer).
  rewrite Er in Hk |- *.
  destruct (transport (cfg (w_ctx w0)) ≫= t_ops) as [ops|] eqn:Eo; cbn [mbind option_bind] in *;
    [|split; [etrans; [exact He|by apply Hk]|done]].
  destruct (op_send ops) as [snd_op|] eqn:Ep; [|split; [etrans; [exact He|by apply Hk]|done]].
  destruct (snd_op (w_net w) req) as [[rc resp] n'] eqn:En.
  split; [etrans; [exact He|by apply Hk]|]. cbn. intros ->. exists req. split; [done|].
  destruct He as [_ _ _ _ _ (k & Ek & _)].
  exists ops, snd_op, (w_net w), (k ++ l). split_and!; [done..|].
  cbn. by rewrite Ek, <- !app_assoc.
Qed.

(** Steps that say nothing and change neither trace nor transport. *)
Lemma fails_bad {A} rc st q msg I (Q : A -> world -> Prop) :
  rc <> EHEM_ERR_PROTOCOL \/ st <> 200 -> triple I (ehem_ctx_fail rc st q msg) Q bad_end.
Proof.
  intros H. eapply triple_weaken; [apply (triple_fail I)|done|done|].
  intros rc' w (-> & Hst & _) E1 E2. exfalso. destruct H; congruence.
Qed.

Lemma acquire_bearer_ok s (Hs : scope = Some s) (I : world -> Prop) :
  (forall w, I w -> evolves w0 w /\
     (w_trace w = w_trace w0 /\ w_net w = w_net w0 \/
      exists resp, answered w0 m p body scope ov resp w /\ resp_status resp = 401)) ->
  triple I (acquire_bearer ensure s) (fun b => holding (Some b)) bad_end.
Proof.
  intros HI w Hw. destruct (HI w Hw) as [He Hwhen]. unfold acquire_bearer, bind at 1.
  pose proof (Hsame s w) as Heq. pose proof (Hensure s w) as Hk.
  destruct (ensure s w) as [[token|rc|] w2] eqn:Ee; [|intros -> Hst|done].
  - specialize (Heq ltac:(done)). specialize (Hk ltac:(done)). cbn in Hk.
    unfold make_bearer, alloc, bind, malloc, ask, ret.
    destruct (p_malloc (w_tick w2)).
    + split.
      * etrans; [exact He|]. etrans; [exact Hk|].
        by apply (frame_mem (A:=fun _ _ => True)).
      * rewrite Hs. cbn. by exists token, w, w2.
    + by intros ?.
  - specialize (Heq ltac:(done)). right. exists s, w, w2. by split_and!.
Qed.

Lemma set_expired_bad {A} rc st q msg b (Q : A -> world -> Prop) I :
  st <> 200 ->
  triple I (let* r := attempt (ehem_ctx_fail (A:=unit) rc st q msg) in
            set_tls_expired b ;;; throw rc) Q bad_end.
Proof.
  intros Hst. eapply triple_bind; [apply triple_attempt, (triple_fail I rc st q msg (fun _ _ => False))|].
  intros [[]|rc']; [by intros w|]. intros w (_ & Hs & _). cbn.
  intros _ H. cbn in H. congruence.
Qed.

Lemma sent_same r w w' :
  evolves w w' -> w_trace w' = w_trace w -> w_net w' = w_net w -> sent r w -> sent r w'.
Proof.
  intros He Ht Hn [H1 H2]. split; [by etrans|]. intros Hr. eapply answered_same; [..|by apply H2]; done.
Qed.

Lemma refreshed_sent r E :
  triple (sent r) (upd_ctx (ctx_set_cert_refreshed true) ;;; ret r) sent E.
Proof.
  intros w Hw. cbn. eapply sent_same; [..|exact Hw]; try done.
  apply (session_refreshed (R:=evolves) (A:=fun _ _ => True)).
Qed.

Lemma last_detail_read (t : option (ehem_transport net)) w :
  exists a, ehem_transport_last_detail t w = (Ok a, w).
Proof. by eexists. Qed.
Lemma tls_expired_read (t : option (ehem_transport net)) w :
  exists a, ehem_transport_last_tls_expired t w = (Ok a, w).
Proof. by eexists. Qed.
Lemma last_error_read w : exists a, ehem_last_error w = (Ok a, w).
Proof. by eexists. Qed.
Lemma get_ctx_read w : exists a, get_ctx w = (Ok a, w).
Proof. by eexists. Qed.

Lemma cert_recovery_sent bearer rc (Hb : bearer_for scope w0 bearer) :
  triple (evolves w0)
    (cert_recovery checkin_run (transport (cfg (w_ctx w0))) m p body bearer ov rc) sent bad_end.
Proof.
  unfold cert_recovery. apply triple_read; [apply last_detail_read|intros detail].
  eapply triple_bind; [apply triple_attempt, triple_evolves, Hcheckin|].
  intros [[]|rc'].
  - eapply triple_bind; [eapply triple_weaken;
      [apply (do_send_sent bearer)|by intros w Hw; split|done|done]|intros r].
    destruct (ok_rc (fst r)); [apply refreshed_sent|].
    apply triple_read; [apply tls_expired_read|intros []]; [|by apply triple_ret].
    by apply set_expired_bad.
  - apply triple_read; [apply last_error_read|intros e]. by apply set_expired_bad.
Qed.

Lemma send_failed_bad {A} t rc I (Q : A -> world -> Prop) :
  triple I (send_failed t p rc) Q bad_end.
Proof.
  unfold send_failed. apply triple_read; [apply tls_expired_read|intros x].
  apply triple_read; [apply last_detail_read|intros d]. by apply set_expired_bad.
Qed.

Lemma invalidate_same s w :
  exists w', ehem_auth_invalidate (Some s) w = (Ok tt, w') /\
    w_trace w' = w_trace w /\ w_net w' = w_net w.
Proof. cbn. by eexists. Qed.

Lemma auth_retry_sent s resp (Hs : scope = Some s) :
  resp_status resp = 401 ->
  triple (fun w => evolves w0 w /\ answered w0 m p body scope ov resp w)
    (auth_retry ensure (fun s => ehem_auth_invalidate (Some s)) (transport (cfg (w_ctx w0)))
       m p body s ov)
    (fun resp w => answered w0 m p body scope ov resp w) bad_end.
Proof.
  intros Hst. unfold auth_retry.
  eapply triple_bind with (Q1 := fun _ w => evolves w0 w /\ answered w0 m p body scope ov resp w).
  - intros w [He Ha]. destruct (invalidate_same s w) as (w' & Ew & Ht & Hn).
    pose proof (keeps_invalidate evolves (fun _ _ => True) (Some s) w) as Hk.
    rewrite Ew in Hk |- *. split; [etrans; [exact He|by apply Hk]|]. by eapply answered_same.
  - intros _. eapply triple_bind.
    { apply (acquire_bearer_ok s Hs). intros w [He Ha]. split; [done|right]. by exists resp. }
    intros b. eapply triple_bind; [apply do_send_sent|]. intros [rc r].
    destruct (ok_rc rc) eqn:Er.
    + apply triple_ret. intros w [_ H]. apply H. by apply bool_decide_eq_true in Er.
    + apply triple_read; [apply last_detail_read|intros d]. apply fails_bad. by right.
Qed.

Lemma finish_ends resp :
  triple (answered w0 m p body scope ov resp) (finish p resp) good_end bad_end.
Proof.
  unfold finish. destruct (_ || _) eqn:Est.
  { apply fails_bad. destruct (decide (resp_status resp = 200)) as [E|]; [|by right].
    rewrite E in Est. done. }
  assert (200 <= resp_status resp < 300) as Hst by lia.
  assert (forall msg, default ""%string (resp_body resp) = ""%string ->
    triple (answered w0 m p body scope ov resp)
      (ehem_ctx_fail EHEM_ERR_PROTOCOL (resp_status resp) None msg) good_end bad_end) as Hempty.
  { intros msg Hb. eapply triple_weaken; [apply triple_fail|done|done|].
    intros rc w (_ & Hs & w1 & Ha & Ht & Hn) _ H2. left. exists resp.
    split; [by eapply answered_same|]. split; [congruence|done]. }
  destruct (resp_body resp) as [raw|] eqn:Eb; [|by apply Hempty].
  destruct (is_empty raw) eqn:Ee; [destruct raw; [by apply Hempty|done]|].
  apply triple_ret. intros w Ha. exists resp. split; [done|]. split; [done|].
  exists raw. split_and!; [done| |done]. by intros ->.
Qed.

Lemma bearer_held :
  triple (eq w0)
    (match scope with
     | Some s => let* b := acquire_bearer ensure s in ret (Some b)
     | None => ret None
     end) holding bad_end.
Proof.
  destruct scope as [s|] eqn:Es.
  - eapply triple_bind.
    + apply (acquire_bearer_ok s Es). intros w <-. split; [reflexivity|by left].
    + intros b. by apply triple_ret.
  - apply triple_ret. intros w <-. split; [reflexivity|by rewrite Es].
Qed.

Lemma request_raw_body_ends :
  triple (eq w0)
    (request_raw_body checkin_run ensure (fun s => ehem_auth_invalidate (Some s)) m p body scope ov)
    good_end bad_end.
Proof.
  intros w <-. unfold request_raw_body, bind at 1, ehem_ctx_transport, bind at 1, get_ctx at 1, ret at 1.
  destruct (transport (cfg (w_ctx w0))) as [t|] eqn:Et.
  2:{ apply (fails_bad EHEM_ERR_ARG 0 None _ (fun _ => True)); [by left|done]. }
  rewrite <- Et.
  match goal with |- match ?q w0 with _ => _ end => enough (triple (eq w0) q good_end bad_end) as H end.
  { by apply H. }
  eapply triple_bind; [apply bearer_held|intros bearer].
  eapply triple_bind with (Q1 := fun r w => sent r w /\ bearer_for scope w0 bearer).
  { intros w Hw. pose proof (do_send_sent bearer false bad_end w Hw) as H.
    destruct (do_send _ _ _ _ _ _ _ w) as [[]]; [|done..]. split; [done|apply Hw]. }
  intros first. apply triple_read; [apply tls_expired_read|intros expired].
  apply triple_read; [apply get_ctx_read|intros c].
  eapply triple_bind with (Q1 := sent).
  - case_match; [|apply triple_ret; by intros w [? _]].
    intros w [[He _] Hb]. by apply cert_recovery_sent.
  - intros [rc resp]. destruct (ok_rc rc) eqn:Erc; cbn [negb]; [|apply send_failed_bad].
    apply bool_decide_eq_true in Erc as ->.
    set (Q1 := fun resp w => answered w0 m p body scope ov resp w).
    apply triple_bind with (Q1 := Q1); [|intros r; apply finish_ends].
    assert (triple (sent (EHEM_OK, resp)) (ret resp) Q1 bad_end) as Hret.
    { apply triple_ret. intros w [_ H]. by apply H. }
    assert (scope = None \/ exists s, scope = Some s) as [Es|[s Es]]
      by (destruct scope; eauto); rewrite Es; [done|].
    destruct (Z.eqb_spec (resp_status resp) 401); [|done].
    eapply triple_weaken; [by eapply auth_retry_sent| |done|done].
    intros w [He H]. split; [done|by apply H].
Qed.
End Body.

(** ** The closed request path *)

Section Closed.
Context {P : Platform}.

Lemma checkin_evolves (Q : Request) (HQ : RequestFrame evolves Q) r :
  keeps evolves (@checkin_quietly P Q r).
Proof. apply (keeps_checkin_quietly evolves (fun _ _ => True)). Qed.
Lemma ensure_evolves (Q : Request) (HQ : RequestFrame evolves Q) s :
  keeps evolves (@ehem_auth_ensure_token P Q s).
Proof. apply (keeps_ensure_token evolves (fun _ _ => True)). Qed.

Lemma ensure_inner_same s w :
  fst (@ehem_auth_ensure_token P (request_n 2) s w) <> Diverge ->
  @ehem_auth_ensure_token P (request_n 2) s w = ehem_auth_ensure_token s w.
Proof.
  intros Hd. destruct (approx_ensure (request_n 2) (request_n 3) (request_n_approx 2) s w)
    as [H|H]; [destruct (Hd H)|exact H].
Qed.

Lemma session_request_unfold m p b s o :
  @ehem_proto_request_raw P session_request m p b s o =
  request_raw_body (@checkin_quietly P (request_n 2)) (@ehem_auth_ensure_token P (request_n 2))
    (fun s => ehem_auth_invalidate (Some s)) m p b s o.
Proof. reflexivity. Qed.

Lemma request_ends w0 m p body scope ov :
  ok_args p scope ov ->
  triple (eq w0) (@ehem_proto_request_raw P session_request m p body scope ov)
    (good_end w0 m p body scope ov) (bad_end w0 m p body scope ov).
Proof.
  intros Hargs. pose proof (request_n_frame evolves (fun _ _ => True) 2) as HQ.
  exact (request_raw_body_ends _ _ (checkin_evolves _ HQ) (ensure_evolves _ HQ)
           ensure_inner_same w0 m p body scope ov Hargs).
Qed.
End Closed.

(** ** A request whose first answer stands *)

(** The device answers what it is asked under this bearer, without a transport
    failure. *)
Definition replies {N} (c : ctx_config N) (n : N) (m : ehem_http_method) (p : string)
    (body bearer : option string) (ov : ehem_tls_req_override) (resp : ehem_response)
    (n' : N) : Prop :=
  exists t ops send, transport c = Some t /\ t_ops t = Some ops /\ op_send ops = Some send /\
    forall req, requests m p body bearer ov req -> send n req = (EHEM_OK, resp, n').

Section Forward.
Context {P : Platform} (checkin_run : bool -> M unit) (ensure : string -> M string)
        (invalidate : string -> M unit).

Lemma do_send_forward m p body bearer ov fresh resp n' w :
  replies (cfg (w_ctx w)) (w_net w) m p body bearer ov resp n' ->
  exists req l, requests m p body bearer ov req /\ sends l = [] /\
    do_send (transport (cfg (w_ctx w))) m p body bearer ov fresh w =
      (Ok (EHEM_OK, resp), after w n' (l ++ [EvSend req])).
Proof.
  intros (t & ops & send & -> & Eo & Es & Hsend).
  destruct (do_send_run (Some t) m p body bearer ov fresh w) as (req & l & Hr & Hl & ->).
  exists req, l. split_and!; [done..|]. cbn. rewrite Eo. cbn. rewrite Es.
  by rewrite (Hsend req Hr).
Qed.

(** With the bearer in hand, a reply that is not a 401 to it is the answer. *)
Lemma request_forward m p body scope bearer ov resp n' w w1 :
  (match scope with
   | Some s => let* b := acquire_bearer ensure s in ret (Some b)
   | None => ret None
   end) w = (Ok bearer, w1) ->
  cfg (w_ctx w1) = cfg (w_ctx w) ->
  replies (cfg (w_ctx w)) (w_net w1) m p body bearer ov resp n' ->
  scope = None \/ resp_status resp <> 401 ->
  exists req l, requests m p body bearer ov req /\ sends l = [] /\
    request_raw_body checkin_run ensure invalidate m p body scope ov w =
      finish p resp (after w1 n' (l ++ [EvSend req])).
Proof.
  intros Hb Hc Hr Hst. pose proof Hr as (t & _ & _ & Et & _).
  rewrite <- Hc in Hr.
  destruct (do_send_forward m p body bearer ov false resp n' w1 Hr) as (req & l & Hq & Hl & Ed).
  rewrite Hc, Et in Ed. exists req, l. split_and!; [done..|].
  unfold request_raw_body, bind at 1, ehem_ctx_transport, bind at 1, get_ctx at 1, ret at 1.
  rewrite Et. unfold bind at 1. rewrite Hb. unfold bind at 1. rewrite Ed.
  unfold bind, ehem_transport_last_tls_expired, get_net, get_ctx, bind, ret.
  do 2 (change (ok_rc EHEM_OK) with true; cbn -[Z.eqb ok_rc]). destruct Hst as [->|Hst]; [done|]. destruct scope; [|done].
  by rewrite (proj2 (Z.eqb_neq _ _) Hst).
Qed.
End Forward.

Section Json.
Context {P : Platform}.

(** The root object of the answer to this request. *)
Definition answered_json (w0 : world) (m : ehem_http_method) (p : string)
    (body scope : option string) (ov : ehem_tls_req_override) (root : json) (w : world) : Prop :=
  exists resp b, answered w0 m p body scope ov resp w /\ body_of resp b /\
    cJSON_Parse b = Some root.

Lemma answered_json_same w0 m p body scope ov root w w' :
  w_trace w' = w_trace w -> w_net w' = w_net w ->
  answered_json w0 m p body scope ov root w -> answered_json w0 m p body scope ov root w'.
Proof.
  intros Ht Hn (resp & b & Ha & H). exists resp, b. split; [by eapply answered_same|done].
Qed.

Lemma answered_json_from w0 w1 m p body scope ov root w :
  evolves w0 w1 -> answered_json w1 m p body scope ov root w ->
  answered_json w0 m p body scope ov root w.
Proof.
  intros He (resp & b & Ha & H). exists resp, b. split; [by eapply answered_from|done].
Qed.

Lemma request_json_answered w0 m p body scope ov :
  ok_args p scope ov ->
  hoare (eq w0) (ehem_proto_request_json m p body scope ov)
    (answered_json w0 m p body scope ov).
Proof.
  intros Hargs. unfold ehem_proto_request_json. eapply hoare_bind.
  { apply (triple_hoare _ _ _ _ (request_ends w0 m p body scope ov Hargs)). }
  intros b w (resp & Ha & Hb). destruct (ehem_json_parse b) as [root|] eqn:E.
  2:{ by apply (hoare_fail (fun _ => True)). }
  destruct (ehem_json_is_object _); [|by apply (hoare_fail (fun _ => True))].
  by exists resp, b.
Qed.

(** The same in the middle of a call. *)
Lemma request_json_hoare_answered w0 m p body scope ov :
  ok_args p scope ov ->
  hoare (evolves w0) (ehem_proto_request_json m p body scope ov)
    (answered_json w0 m p body scope ov).
Proof.
  intros Hargs w He. pose proof (request_json_answered w m p body scope ov Hargs w eq_refl) as H.
  destruct (ehem_proto_request_json m p body scope ov w) as [[root| |] w']; [|done..].
  by eapply answered_json_from.
Qed.

(** A held bearer costs one reading of the clock and one allocation. *)
Lemma bearer_forward `{Q : !Request} s token w :
  fresh_token (auth (w_ctx w)) s (p_time (w_tick w)) = Some token ->
  p_malloc (S (w_tick w)) = true ->
  (let* b := acquire_bearer ehem_auth_ensure_token s in ret (Some b)) w =
    (Ok (Some ("Bearer " +:+ token)), at_tick (S (S (w_tick w))) w).
Proof.
  intros Hf Hm. unfold acquire_bearer, ehem_auth_ensure_token, get_auth, auth_now, make_bearer,
    alloc, malloc, bind, get_ctx, ask, ret. cbn. rewrite Hf. cbn. by rewrite Hm.
Qed.

Lemma json_forward m p body s ov token resp raw root n' w :
  fresh_token (auth (w_ctx w)) s (p_time (w_tick w)) = Some token ->
  p_malloc (S (w_tick w)) = true ->
  replies (cfg (w_ctx w)) (w_net w) m p body (Some ("Bearer " +:+ token)%string) ov resp n' ->
  200 <= resp_status resp < 300 -> resp_body resp = Some raw -> raw <> ""%string ->
  cJSON_Parse (c_str raw) = Some root -> ehem_json_is_object (Some root) = true ->
  exists l, ehem_proto_request_json m p body (Some s) ov w =
    (Ok root, after (at_tick (S (S (w_tick w))) w) n' l).
Proof.
  intros Hf Hm Hr Hst Hb Hne Hp Ho.
  destruct (request_forward (@checkin_quietly P (request_n 2)) (@ehem_auth_ensure_token P (request_n 2))
    (fun s => ehem_auth_invalidate (Some s)) m p body (Some s) _ ov resp n' w _
    (@bearer_forward (request_n 2) s token w Hf Hm) eq_refl Hr ltac:(right; lia))
    as (req & l & _ & _ & E).
  rewrite <- session_request_unfold in E.
  exists (l ++ [EvSend req]). unfold ehem_proto_request_json, bind. rewrite E.
  unfold finish. rewrite Hb.
  destruct (Z.ltb_spec (resp_status resp) 200); [lia|].
  destruct (Z.leb_spec 300 (resp_status resp)); [lia|]. cbn [orb].
  destruct raw as [|c raw]; [done|]. cbn [is_empty ret].
  unfold ehem_json_parse. by rewrite Hp, Ho.
Qed.
End Json.


(** A refused bearer, a new login, and the answer to the resend. *)
Definition retry_world : @world (fake_platform login_table) :=
  fake_world [http 401 "{}"; http 200 "CHALLENGE"; http 200 "TOKEN"; http 200 "[7]"] true
    (Some (fake_session "system:config" "old")).

