(* ===== verification/RecoveryProps.v ===== *)
(** * Check-in, session start and push confirmation

    What the recoveries do exactly: inside a check-in the request path is one
    plain exchange, so the check-in is its three legs with their postures; the
    session-start check-in happens once; a confirmation that was approved has
    cached its bearer. *)

From S2P Require Import Prelude Base64 Json World Logic Context Ejwt Proto Checkin.
From S2P Require Import AuthState Notify Ext Auth Session Fake SessionProps.

Open Scope hem_scope.

(** ** The plain exchange *)

Section Plain.
Context {P : Platform}.

(** One send, no bearer, no recovery. *)
Definition plain_request : Request :=
  fun m p b _ ov =>
    let* t := ehem_ctx_transport in
    match t with
    | None => ehem_ctx_fail EHEM_ERR_ARG 0 None "no transport configured"
    | Some _ =>
        let* (rc, resp) := do_send t m p b None ov false in
        if negb (ok_rc rc) then send_failed t p rc else finish p resp
    end.

(** Two calls that agree where the guard is up. *)
Definition eq_busy {A} (m m' : M A) : Prop :=
  forall w, in_checkin (w_ctx w) = true -> m w = m' w.

Lemma eq_busy_refl {A} (m : M A) : eq_busy m m.
Proof. done. Qed.

Lemma eq_busy_bind {A B} (m m' : M A) (f f' : A -> M B) :
  eq_busy m m' -> total true m' -> (forall a, eq_busy (f a) (f' a)) ->
  eq_busy (bind m f) (bind m' f').
Proof.
  intros Hm Ht Hf w Hw. unfold bind. rewrite (Hm w Hw). specialize (Ht w Hw).
  destruct (m' w) as [[a|rc|] w']; [by apply Hf, Ht|done..].
Qed.

Lemma busy_is_plain n m p b ov :
  eq_busy (request_n (S n) m p b None ov) (plain_request m p b None ov).
Proof.
  intros w Hw. cbn [request_n].
  unfold request_raw_body, plain_request, ehem_ctx_transport, bind, get_ctx, ret.
  cbv beta iota. destruct (transport (cfg (w_ctx w))) as [t|]; [|done].
  cbv beta iota.
  pose proof (total_do_send true (Some t) m p b None ov false w Hw) as Ht.
  destruct (do_send _ _ _ _ _ _ _ _) as [[[rc resp]|rc|] w1]; cbn in Ht; [|done..].
  destruct Ht as [_ Hg].
  unfold ehem_transport_last_tls_expired, bind, get_net, ret. cbv beta iota.
  rewrite Hg. cbn [negb]. by rewrite andb_false_r, andb_false_l.
Qed.

#[export] Instance plain_total b S : RequestTotal b S plain_request.
Proof.
  intros m p body s o _. unfold ehem_proto_request_raw, plain_request. solve_total.
Qed.

Lemma legs_plain ov want :
  eq_busy (@checkin_legs P session_request ov want) (@checkin_legs P plain_request ov want).
Proof.
  unfold checkin_legs, ehem_proto_request_json.
  apply eq_busy_bind; [apply busy_is_plain|by apply (plain_total true (eq None))|intros c].
  apply eq_busy_bind; [done|eauto with total|intros cx].
  apply eq_busy_bind; [apply busy_is_plain|by apply (plain_total true (eq None))|intros v].
  apply eq_busy_bind; [|by apply (total_request_json true (eq None))|intros r; apply eq_busy_refl].
  apply eq_busy_bind; [apply busy_is_plain|by apply (plain_total true (eq None))|intros r].
  apply eq_busy_refl.
Qed.

Lemma checkin_plain relax want w :
  @ehem_checkin_run P session_request relax want w =
  @ehem_checkin_run P plain_request relax want w.
Proof. rewrite !checkin_run_eq. by rewrite legs_plain. Qed.

(** *** What one plain exchange sends *)

Definition leg (c : ctx_config net) (m : ehem_http_method) (p : string)
    (body : option string) (ov : ehem_tls_req_override) : ehem_request :=
  {| req_method := m; req_path := p; req_headers := request_headers body None;
     req_body := body; req_connect_timeout_ms := connect_timeout_ms c;
     req_total_timeout_ms := total_timeout_ms c; req_tls_override := ov;
     req_fresh_connection := false |}.

Definition can_send (c : ctx_config net) : Prop :=
  exists ops, (transport c ≫= t_ops) = Some ops /\ is_Some (op_send ops).

(** The rest of the call after a send that emitted [l]. *)
Definition emitted (l : list ehem_request) (w w' : world) : Prop :=
  cfg (w_ctx w') = cfg (w_ctx w) /\
  exists t, w_trace w' = w_trace w ++ t /\ sends t = l.

Lemma emitted_trans l1 l2 w1 w2 w3 :
  emitted l1 w1 w2 -> emitted l2 w2 w3 -> emitted (l1 ++ l2) w1 w3.
Proof.
  intros [C1 (t1 & E1 & S1)] [C2 (t2 & E2 & S2)]. split; [congruence|].
  exists (t1 ++ t2). rewrite E2, E1, app_assoc. split; [done|].
  unfold sends in *. by rewrite omap_app, S1, S2.
Qed.

(** Calls that emit nothing at all. *)
Definition mute {A} (m : M A) : Prop := forall w, emitted [] w (snd (m w)).

Lemma mute_bind {A B} (m : M A) (f : A -> M B) :
  mute m -> (forall a, mute (f a)) -> mute (bind m f).
Proof.
  intros Hm Hf w. unfold bind. specialize (Hm w).
  destruct (m w) as [[a|rc|] w']; [|done..].
  apply (emitted_trans [] [] _ w'); [exact Hm|apply Hf].
Qed.

Lemma mute_mem {A} (m : M A) : keeps mem_step m -> total true m -> total false m -> mute m.
Proof.
  intros Hk Ht Hf w. destruct (Hk w) as [Hc _ _ _ _ _ Htr].
  - destruct (in_checkin (w_ctx w)) eqn:E; [by apply Ht|by apply Hf].
  - split; [done|]. exists []. by rewrite app_nil_r.
Qed.

Lemma mute_attempt {A} (m : M A) : mute m -> mute (attempt m).
Proof. intros Hm w. specialize (Hm w). unfold attempt. by destruct (m w) as [[] ?]. Qed.

Lemma mute_same {A} (m : M A) :
  (forall w, w_trace (snd (m w)) = w_trace w /\ cfg (w_ctx (snd (m w))) = cfg (w_ctx w)) ->
  mute m.
Proof.
  intros H w. destruct (H w) as [Ht Hc]. split; [done|]. exists [].
  by rewrite app_nil_r.
Qed.

Lemma mute_ctx_fail {A} rc st p msg : mute (ehem_ctx_fail (A:=A) rc st p msg).
Proof.
  apply mute_same. intros w.
  apply (wp_ctx_fail rc st p msg (fun _ w' => w_trace w' = w_trace w /\
           cfg (w_ctx w') = cfg (w_ctx w))).
  intros w' p' E _ Ht _ _. by rewrite E.
Qed.

Lemma mute_finish p resp : mute (finish p resp).
Proof.
  unfold finish. repeat case_match; try apply mute_ctx_fail. by apply mute_same.
Qed.

Lemma mute_send_failed {A} t p rc : mute (send_failed (A:=A) t p rc).
Proof.
  unfold send_failed. do 2 (apply mute_bind; [by apply mute_same|intros ?]).
  apply mute_bind; [apply mute_attempt, mute_ctx_fail|intros ?].
  apply mute_bind; [by apply mute_same|intros ?]. by apply mute_same.
Qed.

Lemma do_send_emits t m p b ov w :
  (exists ops, (Some t ≫= t_ops) = Some ops /\ is_Some (op_send ops)) ->
  emitted [leg (cfg (w_ctx w)) m p b ov] w (snd (do_send (Some t) m p b None ov false w)).
Proof.
  intros (ops & Ho & f & Hf).
  unfold do_send, ehem_transport_send, ehem_proto_sleep_ms, bind, get_ctx, get_net,
    set_net, emit, ret. rewrite Ho, Hf. cbv beta iota.
  destruct (request_pace_ms (cfg (w_ctx w)) <=? 0); cbn.
  - destruct (f _ _) as [[rc resp] n']. split; [done|]. by eexists.
  - destruct (f _ _) as [[rc resp] n']. split; [done|]. cbn.
    rewrite <- app_assoc. by eexists.
Qed.

Lemma plain_emits m p b ov w :
  can_send (cfg (w_ctx w)) ->
  emitted [leg (cfg (w_ctx w)) m p b ov] w (snd (plain_request m p b None ov w)).
Proof.
  intros Hc. unfold plain_request, ehem_ctx_transport, bind at 1, bind at 1, get_ctx, ret.
  destruct Hc as (ops & Ho & Hf).
  destruct (transport (cfg (w_ctx w))) as [t|]; [|done]. cbv beta iota.
  pose proof (do_send_emits t m p b ov w ltac:(by exists ops)) as He.
  unfold bind. destruct (do_send _ _ _ _ _ _ _ w) as [[[rc resp]|rc|] w']; [|done..].
  apply (emitted_trans [leg (cfg (w_ctx w)) m p b ov] [] _ w'); [exact He|].
  destruct (negb _); [apply mute_send_failed|apply mute_finish].
Qed.
End Plain.

#[global] Arguments plain_request : simpl never.

Create HintDb mute.
#[export] Hint Resolve mute_ctx_fail mute_finish mute_send_failed : mute.
Ltac mute_tac :=
  match goal with
  | |- mute (bind _ _) => apply mute_bind; [|intros ?]
  | |- mute (attempt _) => apply mute_attempt
  | |- mute (let '(_, _) := ?x in _) => destruct x
  | |- mute (match ?x with _ => _ end) => destruct x
  | |- mute _ => first [solve [eauto 2 with mute] | by apply mute_same]
  end.
Ltac solve_mute := intros; repeat (mute_tac; cbn beta iota zeta).

Section Legs.
Context {P : Platform}.

Lemma mute_dup_str s : mute (dup_str s).
Proof. apply mute_same. intros w. unfold dup_str, bind. by cbn. Qed.
#[local] Hint Resolve mute_dup_str : mute.
Lemma mute_harvest e k c : mute (harvest_jwt_claim e k c).
Proof. unfold harvest_jwt_claim. solve_mute. Qed.
#[local] Hint Resolve mute_harvest : mute.
Lemma mute_serial c : mute (harvest_current_serial c).
Proof. unfold harvest_current_serial. solve_mute. Qed.
Lemma mute_opt_str o k : mute (opt_str o k).
Proof. unfold opt_str. solve_mute. Qed.
#[local] Hint Resolve mute_serial mute_opt_str : mute.
Lemma mute_parse r : mute (parse_checkin r).
Proof. unfold parse_checkin. solve_mute. Qed.
#[local] Hint Resolve mute_parse : mute.
Lemma mute_details c v r : mute (checkin_details c v r).
Proof. unfold checkin_details. solve_mute. Qed.

Lemma emitted_bind {A B} l1 l2 (m : M A) (f : A -> M B) w :
  emitted l1 w (snd (m w)) ->
  match m w with
  | (Ok a, w1) => emitted l2 w1 (snd (f a w1))
  | _ => l2 = []
  end ->
  emitted (l1 ++ l2) w (snd (bind m f w)).
Proof.
  unfold bind. destruct (m w) as [[a|rc|] w1]; cbn; intros H1 H2;
    [by eapply emitted_trans|subst; by rewrite app_nil_r..].
Qed.

Definition cloud_leg (c : ctx_config net) (challenge : string) : ehem_request :=
  leg c EHEM_HTTP_POST (checkin_url c) (Some challenge) EHEM_TLS_REQ_VERIFY.
Definition relay (c : ctx_config net) (challenge : string) : M string :=
  plain_request EHEM_HTTP_POST (checkin_url c) (Some challenge) None EHEM_TLS_REQ_VERIFY.

(** The requests of a check-in begun in [w]: each leg needs the one before. *)
Definition legs_of (ov : ehem_tls_req_override) (w : world) : list ehem_request :=
  let c := cfg (w_ctx w) in
  leg c EHEM_HTTP_GET CHECKIN_PATH None ov ::
  match plain_request EHEM_HTTP_GET CHECKIN_PATH None None ov w with
  | (Ok challenge, w1) =>
      cloud_leg c challenge ::
      match fst (relay c challenge w1) with
      | Ok verified => [leg c EHEM_HTTP_POST CHECKIN_PATH (Some verified) ov]
      | _ => []
      end
  | _ => []
  end.

Lemma legs_emit ov want w :
  can_send (cfg (w_ctx w)) ->
  emitted (legs_of ov w) w (snd (@checkin_legs P plain_request ov want w)) /\
  forall r, fst (@checkin_legs P plain_request ov want w) = Ok r ->
    length (legs_of ov w) = 3%nat.
Proof.
  intros Hc. set (c := cfg (w_ctx w)).
  pose proof (plain_emits EHEM_HTTP_GET CHECKIN_PATH None ov w Hc) as E1.
  unfold legs_of, checkin_legs, ehem_proto_request_json, relay. fold c.
  change (@ehem_proto_request_raw P plain_request) with (@plain_request P). split.
  - apply (emitted_bind [_]); [exact E1|].
    destruct (plain_request EHEM_HTTP_GET _ _ _ _ w) as [[ch|rc|] w1]; [|done..].
    cbn [snd] in E1. destruct E1 as [C1 _]. fold c in C1.
    apply (emitted_bind []); [by apply mute_same|]. cbn. rewrite C1.
    pose proof (plain_emits EHEM_HTTP_POST (checkin_url c) (Some ch) EHEM_TLS_REQ_VERIFY w1
                  ltac:(by rewrite C1)) as E2. rewrite C1 in E2.
    apply (emitted_bind [cloud_leg c ch]); [exact E2|].
    destruct (plain_request _ (checkin_url c) _ _ _ w1) as [[v|rc|] w2]; [|done..].
    cbn [snd fst] in *. destruct E2 as [C2 _]. rewrite C1 in C2.
    pose proof (plain_emits EHEM_HTTP_POST CHECKIN_PATH (Some v) ov w2
                  ltac:(by rewrite C2)) as E3. rewrite C2 in E3.
    rewrite bind_bind.
    apply (emitted_bind [_] []); [exact E3|].
    destruct (plain_request _ CHECKIN_PATH _ _ _ w2) as [[body|rc|] w3]; [|done..].
    refine ((_ : mute _) w3). pose proof mute_details. solve_mute.
  - intros r. unfold bind at 1.
    destruct (plain_request EHEM_HTTP_GET _ _ _ _ w) as [[ch|rc|] w1]; [|done..].
    cbn [snd] in E1. destruct E1 as [C1 _]. fold c in C1.
    unfold bind at 1, get_ctx at 1. cbv beta iota. rewrite C1.
    unfold bind at 1.
    by destruct (plain_request _ (checkin_url c) _ _ _ w1) as [[v|rc|] w2].
Qed.

(** C33: a check-in is exactly its three legs: the challenge fetched from the
    device, relayed verbatim to the cloud - that leg always fully verified -
    and the cloud's answer handed back verbatim to the device; the device legs
    carry the relaxed posture when asked for, no leg carries a bearer, recovers
    or repeats, each happens only if the one before succeeded, and the guard
    is down at the end.  A successful check-in sent all three. *)
Theorem checkin_three_legs (relax want : bool) (w : world)
    (Hcan : can_send (cfg (w_ctx w))) :
  let w0 := with_ctx w (ctx_set_in_checkin true (w_ctx w)) in
  let '(o, w') := @ehem_checkin_run P session_request relax want w in
  in_checkin (w_ctx w') = false /\
  exists t, w_trace w' = w_trace w ++ t /\ sends t = legs_of (dev_override relax) w0 /\
    forall r, o = Ok r -> length (sends t) = 3%nat.
Proof.
  intros w0. pose proof (checkin_run_returns relax want w) as [Hret Hguard].
  rewrite checkin_plain in Hret, Hguard |- *. rewrite checkin_run_eq in Hret, Hguard |- *.
  fold w0 in Hret, Hguard |- *.
  destruct (legs_emit (dev_override relax) want w0 Hcan) as [[_ (t & Ht & Hs)] Hl].
  destruct (checkin_legs _ _ w0) as [[r|rc|] w']; cbn in *; [..|by destruct Hret];
    (split; [done|]); exists t; rewrite Hs; by split_and!; [..|intros; eauto].
Qed.
End Legs.

Definition checkin_table : list (string * json) := [("RESULT", JObject [])].
Definition checkin_world : @world (fake_platform checkin_table) :=
  fake_world [http 200 "CHALLENGE"; http 200 "VERIFIED"; http 200 "RESULT"] false None.

Lemma checkin_three_legs_witness :
  let run := @ehem_checkin_run (fake_platform checkin_table) session_request true false
               checkin_world in
  exists t, w_trace (snd run) = [] ++ t /\ length (sends t) = 3%nat /\
    in_checkin (w_ctx (snd run)) = false.
Proof.
  intros run.
  assert (fst run = Ok None) as E by (vm_compute; reflexivity).
  assert (@can_send (fake_platform checkin_table) (cfg (w_ctx checkin_world))) as Hc.
  { eexists. split; [reflexivity|]. eexists. reflexivity. }
  pose proof (@checkin_three_legs (fake_platform checkin_table) true false checkin_world Hc)
    as H.
  change (ehem_checkin_run true false checkin_world) with run in H.
  cbv zeta in H. destruct run as [o w']. cbn in E. subst o.
  destruct H as (Hg & t & Ht & _ & Hl). exists t. split; [exact Ht|].
  split; [exact (Hl None eq_refl)|exact Hg].
Defined.

(** ** The session-start check-in *)

(** The proactive check-in of [checkin_on_login] runs at most once per
    context, best effort: the latch is set before the attempt, so even a failed
    one is never repeated, its failure is only a flag and never an error, and
    once the latch is set the step does nothing at all. *)
Theorem proactive_checkin_once {P : Platform} (w : world)
    (Hidle : in_checkin (w_ctx w) = false) :
  let '(o, w1) := @proactive_checkin P session_request w in
  exists failed, o = Ok failed /\
  (checkin_on_login (cfg (w_ctx w)) = true -> checkin_on_login_done (w_ctx w1) = true) /\
  (checkin_on_login (cfg (w_ctx w)) = false \/ checkin_on_login_done (w_ctx w) = true ->
     failed = false /\ w1 = w) /\
  @proactive_checkin P session_request w1 = (Ok false, w1).
Proof.
  unfold proactive_checkin, bind at 1, get_ctx at 1. cbv beta iota. rewrite Hidle.
  destruct (checkin_on_login (cfg (w_ctx w))) eqn:Ec; cbn [andb].
  2:{ cbn. exists false. split_and!; try done. by rewrite Ec. }
  destruct (checkin_on_login_done (w_ctx w)) eqn:Ed; cbn [andb negb].
  { cbn. exists false. split_and!; try done. by rewrite Ec, Ed. }
  set (w0 := with_ctx w (ctx_set_checkin_done true (w_ctx w))).
  unfold bind at 1, upd_ctx. fold w0. cbv beta iota.
  pose proof (total_checkin_quietly true w0 Hidle) as [Hd _].
  pose proof (keeps_checkin_quietly evolves (fun _ _ => True) true w0 Hd) as [Hcfg _ Hdone _ _ _].
  unfold bind at 1, attempt.
  destruct (checkin_quietly true w0) as [[u|rc|] w1]; cbn in *; [..|done].
  1: exists false. 2: exists true.
  all: specialize (Hdone eq_refl); rewrite Hcfg, Hdone; cbn; rewrite Ec; cbn;
    split_and!; try done; by intros [|].
Qed.

Lemma proactive_checkin_once_witness :
  snd (@proactive_checkin (fake_platform []) session_request (fake_world [] false None))
  = fake_world [] false None.
Proof.
  pose proof (@proactive_checkin_once (fake_platform []) (fake_world [] false None) eq_refl)
    as H.
  destruct (proactive_checkin (fake_world [] false None)) as [o w1].
  destruct H as (f & _ & _ & H & _). apply (H (or_introl eq_refl)).
Defined.

(** ** The confirm engine *)

Section Confirm.
Context {P : Platform}.

(** [ehem_auth_cache_seed] succeeds only with the bearer in the cache. *)
Lemma cache_seed_cached scope token w :
  match ehem_auth_cache_seed scope token w with
  | (Ok _, w') => cached scope token w'
  | _ => True
  end.
Proof.
  unfold ehem_auth_cache_seed, bind at 1.
  pose proof (total_ensure_auth (in_checkin (w_ctx w)) w eq_refl) as [Hd _].
  destruct (ensure_auth w) as [[ok|rc|] w1] eqn:Ee; [|done..].
  destruct ok; cbn [negb].
  - assert (auth (w_ctx w1) <> None) as Ha.
    { revert Ee. unfold ensure_auth, get_auth, bind, get_ctx, malloc, ask, upd_ctx, ret.
      cbn. destruct (auth (w_ctx w)) as [a|] eqn:Ea; cbn; [by intros [= <-]; rewrite Ea|].
      destruct (p_malloc _); by intros [= <-]. }
    set (m := match decode_bearer_exp token with Some e => ret e | None => _ end).
    assert (forall w, exists z n, m w = (Ok z, at_tick n w)) as Hm.
    { intros v. unfold m. destruct (decode_bearer_exp token) as [z|].
      - exists z, (w_tick v). by destruct v.
      - by eexists _, (S (w_tick v)). }
    unfold bind at 1. destruct (Hm w1) as (z & n & ->).
    unfold bind.
    destruct (cache_put_run scope token (cache_expiry z) (at_tick n w1) Ha)
      as (w' & Hw' & [->|(a & Ea & ->)]).
    + pose proof (ehem_ctx_fail_not_ok (A:=unit) EHEM_ERR_NOMEM 0 None "out of memory" w') as H.
      destruct (ehem_ctx_fail _ _ _ _ _) as [[u| |] ?]; [by destruct (H u)|done..].
    + cbn. eexists _, _. split; [reflexivity|]. cbn.
      rewrite cache_find_update. cbn. by rewrite String.eqb_refl.
  - pose proof (ehem_ctx_fail_not_ok (A:=unit) EHEM_ERR_NOMEM 0 None "out of memory" w1) as H.
    destruct (ehem_ctx_fail _ _ _ _ _) as [[u| |] ?]; [by destruct (H u)|done..].
Qed.

(** The result of a poll and its handle. *)
Definition poll_result (c : ehem_ext_confirm)
    (r : ehem_ext_confirm * (ehem_confirm_status + ehem_rc)) (w : world) : Prop :=
  let '(c', s) := r in
  xc_scope c' = xc_scope c /\
  match s with
  | inl EHEM_CONFIRM_APPROVED =>
      xc_terminal c' = true /\ exists token, cached (xc_scope c) token w
  | inl EHEM_CONFIRM_PENDING => c' = c /\ xc_terminal c = false
  | inr _ => True
  end.

Lemma confirm_poll_result c :
  hoare (fun _ => True) (@ehem_ext_confirm_poll P session_request c) (poll_result c).
Proof.
  intros w _. unfold ehem_ext_confirm_poll.
  destruct (xc_terminal c) eqn:Et.
  { unfold bind, attempt. cbn. done. }
  unfold bind at 1, attempt at 1.
  destruct (ehem_notify_event_check _ _ _ w) as [[r|rc|] w1]; [|done..].
  destruct (ner_pending r); [by cbn|]. destruct (ner_denied r).
  { unfold bind, attempt. by cbn. }
  unfold bind at 1, attempt at 1, bind at 1.
  destruct (ehem_ext_token _ _ w1) as [[token|rc|] w2]; [|done..].
  pose proof (cache_seed_cached (xc_scope c) token w2) as Hs.
  destruct (ehem_auth_cache_seed _ _ w2) as [[u|rc|] w3]; [|done..].
  cbn. split; [done|]. split; [done|]. by exists token.
Qed.

(** The engine reports through its result, never through the monad. *)
Definition no_err {A} (m : M A) : Prop := forall w rc, fst (m w) <> Err rc.

Lemma no_err_bind {A B} (m : M A) (f : A -> M B) :
  no_err m -> (forall a, no_err (f a)) -> no_err (bind m f).
Proof.
  intros Hm Hf w rc. unfold bind. specialize (Hm w).
  destruct (m w) as [[a|rc'|] w']; [apply Hf|by destruct (Hm rc')|done].
Qed.
Lemma no_err_attempt {A} (m : M A) : no_err (attempt m).
Proof. intros w rc. unfold attempt. by destruct (m w) as [[] ?]. Qed.
Lemma no_err_ret {A} (a : A) : no_err (ret a).
Proof. done. Qed.

Lemma confirm_poll_no_err `{Q : !Request} c : no_err (ehem_ext_confirm_poll c).
Proof.
  unfold ehem_ext_confirm_poll.
  repeat first [apply no_err_ret | apply no_err_attempt | case_match
               | apply no_err_bind; [|intros ?]].
Qed.

(** The loop: approved means cached. *)
Lemma confirm_wait_loop_result fuel c e t w :
  match @confirm_wait_loop P session_request fuel c e t w with
  | (Ok (c', s), w') =>
      xc_scope c' = xc_scope c /\
      (s = inl tt -> xc_terminal c' = true /\ exists token, cached (xc_scope c) token w')
  | (Err _, _) => False
  | (Diverge, _) => True
  end.
Proof.
  revert e w; induction fuel as [|fuel IH]; intros e w; cbn [confirm_wait_loop]; [done|].
  unfold bind at 1. pose proof (confirm_poll_result c w I) as H.
  pose proof (confirm_poll_no_err (Q := session_request) c w) as Hn.
  destruct (ehem_ext_confirm_poll c w) as [[[c' s]|rc|] w1];
    [|by destruct (Hn rc)|done].
  destruct H as (Hsc & Hs). destruct s as [[]|rc]; [|done|done].
  destruct Hs as [-> Hlive]. destruct (t <=? e); [done|].
  unfold bind, ehem_proto_sleep_ms. destruct (_ <=? 0); apply IH.
Qed.

End Confirm.

Definition confirm_table : list (string * json) :=
  [("APPROVED", JObject [("authreply", JString "reply")]);
   ("MINTED", JObject [("token", JString "bearer")])].
Definition confirm_world : @world (fake_platform confirm_table) :=
  fake_world [http_empty 202; http 200 "APPROVED"; http 200 "MINTED"] false None.
Definition confirm_handle : ehem_ext_confirm :=
  {| xc_notify_url := None; xc_scope := "keymgmt:list"; xc_eventid := Some "event";
     xc_terminal := false |}.

