(* ===== verification/KeymgmtProps.v ===== *)
(** * What the key-repository bindings guarantee

    Theorems about Keymgmt.v over the closed request path: the repository walk
    ends and returns the whole repository, bad arguments never reach the device,
    returned key ids are well formed, and how the statuses of the device are
    read. *)

From S2P Require Import Prelude Base64 Json World Logic Context Ejwt Proto AuthState Notify Auth.
From S2P Require Import Session Fake Wire Bindings Keymgmt.

Open Scope hem_scope.

(** ** The walk *)

Section Walk.
Context {P : Platform}.

Lemma array_size_range l : 0 <= ehem_json_array_size l <= INT_MAX.
Proof.
  unfold ehem_json_array_size, wrap_i32, INT_MAX.
  destruct l as [[]|]; try lia. case_match; [|lia].
  pose proof (Z.mod_pos_bound (Z.of_nat (length l) + 2 ^ 31) (2 ^ 32)). lia.
Qed.

Lemma hoare_any {A} I (m : M A) : hoare I m (fun _ _ => True).
Proof. intros w _. by destruct (m w) as [[] ?]. Qed.

Lemma hoare_then {A B} I (m : M A) (f : A -> M B) Q :
  (forall a, hoare (fun _ => True) (f a) Q) -> hoare I (bind m f) Q.
Proof. intros H. eapply hoare_bind; [apply hoare_any|exact H]. Qed.

Lemma fail_hoare {A} I rc st p msg (Q : A -> world -> Prop) :
  hoare I (ehem_ctx_fail rc st p msg) Q.
Proof.
  intros w _. unfold ehem_ctx_fail, dup_str, malloc, ask, bind, ret, throw, upd_ctx.
  by destruct p.
Qed.

Lemma parse_entries_hoare l k i :
  hoare (fun _ => True) (parse_entries l i k) (fun es _ => length es = k).
Proof.
  revert i; induction k as [|k IH]; intros i; [by apply hoare_ret|].
  cbn [parse_entries]. apply hoare_then. intros [[]|e]; try apply fail_hoare.
  eapply hoare_bind; [apply IH|]. intros es. apply hoare_ret. cbn. by intros w <-.
Qed.

(** A page never lists more than the [int] count of cJSON, and its total is
    the one the device reported. *)
Lemma parse_key_page_hoare root :
  hoare (fun _ => True) (parse_key_page root)
    (fun p _ => listed p <= INT_MAX /\
      kp_total p = default 0 (ehem_json_get_int64 (Some root) "total")).
Proof.
  unfold parse_key_page. apply hoare_then. intros _.
  set (n := if ehem_json_is_array _ then _ else 0).
  assert (0 <= n <= INT_MAX) as Hn.
  { unfold n. case_match; [apply array_size_range|unfold INT_MAX; lia]. }
  case_match.
  - apply hoare_ret. intros w _. unfold listed, INT_MAX. cbn. lia.
  - apply hoare_then. intros _. eapply hoare_bind; [apply parse_entries_hoare|].
    intros es. apply hoare_ret. unfold listed. cbn. intros w ->. lia.
Qed.

Lemma request_json_hoare `{Q : !Request} m p b s o :
  hoare (fun _ => True) (ehem_proto_request_json m p b s o)
    (fun r _ => exists body, cJSON_Parse body = Some r).
Proof.
  unfold ehem_proto_request_json. apply hoare_then. intros body.
  destruct (ehem_json_parse body) as [r|] eqn:E; [|apply fail_hoare].
  case_match; [|apply fail_hoare]. apply hoare_ret. intros w _. by exists body.
Qed.

(** The append: nothing to add, no memory, or the concatenation. *)
Lemma page_append_run d s w :
  (page_append d s w = (Ok (Some d), w) /\ (listed s =? 0) = true) \/
  (page_append d s w = (Ok None, snd (malloc w)) /\ (listed s =? 0) = false) \/
  (exists w', page_append d s w =
     (Ok (Some {| kp_offset := kp_offset d; kp_total := kp_total d;
                  kp_entries := kp_entries d ++ kp_entries s |}), w') /\
     w_ctx w' = w_ctx w).
Proof.
  unfold page_append. destruct (listed s =? 0); [by left|right].
  unfold alloc, malloc, ask, bind, ret. destruct (p_malloc _); [right|by left].
  by eexists.
Qed.

(** The context talks to [t]. *)
Definition device_at (t : option (ehem_transport net)) (w : world) : Prop :=
  transport (cfg (w_ctx w)) = t.

Lemma device_at_evolves t w w' : evolves w w' -> device_at t w -> device_at t w'.
Proof. intros [Hc _ _ _ _ _]. unfold device_at. by rewrite Hc. Qed.

(** Every page fetched from [t] reports a total of at most [T]. *)
Definition bounded_fetch (t : option (ehem_transport net)) (T : Z)
    (fetch : Z -> M ehem_key_page) : Prop :=
  forall o, hoare (device_at t) (fetch o)
              (fun p _ => listed p <= INT_MAX /\ kp_total p <= T).

(** [total] at one world. *)
Definition settles {A} (b : bool) (m : M A) (w : world) : Prop :=
  fst (m w) <> Diverge /\ in_checkin (w_ctx (snd (m w))) = b.

Lemma settles_bind {A B} b (m : M A) (f : A -> M B) w o w' :
  m w = (o, w') -> o <> Diverge -> in_checkin (w_ctx w') = b ->
  (forall a, o = Ok a -> settles b (f a) w') -> settles b (bind m f) w.
Proof.
  intros E Hd Hi Hf. unfold settles, bind. rewrite E.
  destruct o as [a|rc|]; [by apply Hf|by split|done].
Qed.

Lemma walk_returns t T fetch b :
  0 <= T < 2 ^ 62 -> bounded_fetch t T fetch -> (forall o, total b (fetch o)) ->
  (forall o, keeps evolves (fetch o)) ->
  forall fuel o acc w, 0 <= o -> (o <= T \/ o = 0) -> T - o < Z.of_nat fuel ->
    device_at t w -> in_checkin (w_ctx w) = b -> settles b (page_walk fuel fetch o acc) w.
Proof.
  intros HT Hb Ht Hk. induction fuel as [|fuel IH]; intros o acc w Ho HoT Hf Hat Hw;
    [exfalso; lia|].
  cbn [page_walk]. pose proof (Ht o w Hw) as [Hd Hi]. pose proof (Hk o w Hd) as He.
  specialize (Hb o w Hat). destruct (fetch o w) as [out w'] eqn:E.
  refine (settles_bind b _ _ w out w' E Hd Hi _). intros page ->.
  destruct Hb as [Hl Htot]. cbn in He.
  assert (0 <= listed page) by (unfold listed; lia).
  unfold INT_MAX in Hl. cbn in Hi.
  assert (wrap_size (o + listed page) = o + listed page) as ->
    by (unfold wrap_size; apply Z.mod_small; lia).
  assert (wrap_i64 (o + listed page) = o + listed page) as ->
    by (unfold wrap_i64; rewrite Z.mod_small; lia).
  match goal with |- context [page_append ?a _] => set (acc0 := a) end.
  destruct (page_append_run acc0 page w') as [[Ea E0]|[[Ea E0]|(w2 & Ea & Hw2)]];
    refine (settles_bind b _ _ w' _ _ Ea ltac:(done) _ _);
    cbn; rewrite ?Hw2; try done; intros acc1 ?; simplify_eq.
  - rewrite E0. by split.
  - by apply (total_oom _).
  - destruct (listed page =? 0) eqn:E0; cbn [orb kp_total]; [by split; cbn; rewrite ?Hw2|].
    case_match eqn:E1; [by split; cbn; rewrite ?Hw2|].
    apply IH; cbn in *; [lia..| |by rewrite Hw2].
    unfold device_at in *. rewrite Hw2. by eapply device_at_evolves.
Qed.

(** What comes before a walk. *)
Lemma settles_then {A B} b t (m : M A) (f : A -> M B) w :
  total b m -> keeps evolves m -> device_at t w -> in_checkin (w_ctx w) = b ->
  (forall a w', device_at t w' -> in_checkin (w_ctx w') = b -> settles b (f a) w') ->
  settles b (bind m f) w.
Proof.
  intros Ht Hk Hat Hb Hf. destruct (Ht w Hb) as [Hd Hi]. pose proof (Hk w Hd) as He.
  destruct (m w) as [o w'] eqn:E. cbn in *.
  refine (settles_bind b _ _ w o w' E Hd Hi _). intros a ->. apply Hf; [|done].
  by eapply device_at_evolves.
Qed.

Lemma settles_total {A} b (m : M A) w :
  total b m -> in_checkin (w_ctx w) = b -> settles b m w.
Proof. intros Ht Hb. by apply Ht. Qed.
End Walk.

(** The device behind [t], in whatever state and to whatever request, never
    answers with a total above [T]. *)
Definition reports_at_most {P : Platform} (T : Z) (t : option (ehem_transport net)) : Prop :=
  forall ops send n req resp n' raw root,
    t ≫= t_ops = Some ops -> op_send ops = Some send -> send n req = (EHEM_OK, resp, n') ->
    resp_body resp = Some raw -> cJSON_Parse (c_str raw) = Some root ->
    default 0 (ehem_json_get_int64 (Some root) "total") <= T.

Section Bounded.
Context {P : Platform} (T : Z) (t : option (ehem_transport net)) (HT : reports_at_most T t)
        (H0 : 0 <= T).

Lemma answered_total w m p body s o root w' :
  device_at t w -> answered_json w m p body s o root w' ->
  default 0 (ehem_json_get_int64 (Some root) "total") <= T.
Proof.
  intros Hat (resp & b & (req & _ & ops & send & n & pre & Ho & Hs & Hn & _) &
    (_ & raw & Hr & _ & ->) & Hp).
  rewrite Hat in Ho. by eapply HT.
Qed.

Lemma page_bounded root w :
  default 0 (ehem_json_get_int64 (Some root) "total") <= T ->
  match parse_key_page root w with
  | (Ok p, _) => listed p <= INT_MAX /\ kp_total p <= T | _ => True end.
Proof.
  intros Ht. pose proof (parse_key_page_hoare root w I) as H.
  destruct (parse_key_page root w) as [[page| |] ?]; [|done..].
  destruct H as [Hl ->]. done.
Qed.

Lemma request_total_bounded m p body s o (Hargs : ok_args p s o) :
  hoare (device_at t) (ehem_proto_request_json m p body s o)
    (fun root _ => default 0 (ehem_json_get_int64 (Some root) "total") <= T).
Proof.
  intros w Hat. pose proof (request_json_answered w m p body s o Hargs w eq_refl) as H.
  destruct (ehem_proto_request_json m p body s o w) as [[root| |] w']; [|done..].
  by eapply answered_total.
Qed.

Lemma device_at_skip {A B} (m : M A) (f : A -> M B) Q :
  keeps evolves m -> (forall a, hoare (device_at t) (f a) Q) ->
  hoare (device_at t) (bind m f) Q.
Proof.
  intros Hm. apply hoare_skip. intros w Hd. by apply device_at_evolves, Hm.
Qed.

Lemma key_list_bounded limit :
  bounded_fetch t T (fun o => ehem_key_list o limit true).
Proof.
  intros o. unfold ehem_key_list. cbn [negb].
  apply device_at_skip; [solve_keeps|intros _].
  eapply hoare_bind; [apply request_total_bounded, ok_args_device, list_path_device|].
  intros root w Hw. by apply page_bounded.
Qed.

Lemma search_page_bounded descr limit :
  bounded_fetch t T (fun o => search_one_page descr o limit).
Proof.
  intros o. unfold search_one_page. apply device_at_skip; [solve_keeps|intros body].
  eapply hoare_bind with
    (Q1 := fun r _ => match r with
             | inl root => default 0 (ehem_json_get_int64 (Some root) "total") <= T
             | inr _ => True end).
  - intros w Hw. unfold attempt.
    pose proof (request_total_bounded EHEM_HTTP_POST "/api/keymgmt/search" (Some body)
      (Some KEYMGMT_SEARCH_SCOPE) EHEM_TLS_REQ_DEFAULT
      (ok_args_device "/api/keymgmt/search" _ eq_refl) w Hw) as H.
    by destruct (ehem_proto_request_json _ _ _ _ _ w) as [[] ?].
  - intros [root|rc].
    + intros w Hw. by apply page_bounded.
    + assert (forall I, hoare I (throw (A:=ehem_key_page) rc)
        (fun p _ => listed p <= INT_MAX /\ kp_total p <= T)) by (intros; apply hoare_throw).
      destruct rc; try done.
      eapply hoare_weaken with (I := fun _ => True) (Q := fun p _ => p = page_zero);
        [|done|]; [|intros ? w ->; unfold listed, page_zero, INT_MAX; cbn; lia].
      apply hoare_then. intros _. apply hoare_then. intros _. by apply hoare_ret.
Qed.
End Bounded.

Section Walks.
Context {P : Platform} (T : Z) (t : option (ehem_transport net)) (HT : reports_at_most T t)
        (Hrange : 0 <= T < 2 ^ 62) (fuel : nat) (Hfuel : T < Z.of_nat fuel).

Lemma walk_settles fetch w :
  bounded_fetch t T fetch -> (forall o, total false (fetch o)) ->
  (forall o, keeps evolves (fetch o)) -> device_at t w -> in_checkin (w_ctx w) = false ->
  settles false (page_walk fuel fetch 0 page_zero) w.
Proof.
  intros Hb Ht Hk Hat Hw. eapply walk_returns; [exact Hrange|done..|lia|by right|lia|done|done].
Qed.

Lemma key_list_all_settles out w :
  device_at t w -> in_checkin (w_ctx w) = false -> settles false (ehem_key_list_all fuel out) w.
Proof.
  intros Hat Hw. unfold ehem_key_list_all.
  destruct out; cbn [negb]; [|apply settles_total; [by eauto with total|done]].
  eapply settles_then; [by eauto with total|solve_keeps|exact Hat|exact Hw|intros _ w1 Hat1 Hw1].
  eapply settles_then; [by eauto with total|solve_keeps|exact Hat1|exact Hw1|intros _ w2 Hat2 Hw2].
  apply walk_settles; [apply key_list_bounded, HT|..|done|done]; intros o.
  - apply (total_key_list false).
  - apply (keeps_key_list evolves (fun _ _ => True)).
Qed.

Lemma key_search_all_settles pattern mode out w :
  device_at t w -> in_checkin (w_ctx w) = false ->
  settles false (ehem_key_search_all fuel pattern mode out) w.
Proof.
  intros Hat Hw. unfold ehem_key_search_all.
  destruct (negb _); [apply settles_total; [by eauto with total|done]|].
  eapply settles_then; [by eauto with total|solve_keeps|exact Hat|exact Hw|intros _ w1 Hat1 Hw1].
  eapply settles_then; [apply total_search_descr|apply (keeps_search_descr evolves (fun _ _ => True))
    |exact Hat1|exact Hw1|intros descr w2 Hat2 Hw2].
  eapply settles_then; [by eauto with total|solve_keeps|exact Hat2|exact Hw2|intros _ w3 Hat3 Hw3].
  apply walk_settles; [by apply search_page_bounded; [|lia]|..|done|done]; intros o.
  - apply (total_search_one_page false).
  - apply (keeps_search_one_page evolves (fun _ _ => True)).
Qed.
End Walks.

(** C27: the full-repository walks return.  Against any device - lying about
    its totals, listing short or endless pages, failing half way - whose answers
    never report a total above [T], [T + 1] page requests are enough for
    [ehem_key_list_all] and [ehem_key_search_all] to come to an end, and the
    context is idle again: every page that does not end the walk advances the
    offset, which never overflows. *)
Theorem key_walks_return {P : Platform} (T : Z) (fuel : nat) (pattern : buf) (mode : Z)
    (out : bool) (w : world) (Hidle : in_checkin (w_ctx w) = false)
    (Hrange : 0 <= T < 2 ^ 62) (HT : reports_at_most T (transport (cfg (w_ctx w))))
    (Hfuel : T < Z.of_nat fuel) :
  (fst (ehem_key_list_all fuel out w) <> Diverge /\
   in_checkin (w_ctx (snd (ehem_key_list_all fuel out w))) = false) /\
  (fst (ehem_key_search_all fuel pattern mode out w) <> Diverge /\
   in_checkin (w_ctx (snd (ehem_key_search_all fuel pattern mode out w))) = false).
Proof.
  split.
  - by eapply key_list_all_settles.
  - by eapply key_search_all_settles.
Qed.

(** One key per page, two announced; and a page that announces 2^62, which the
    parser would read all the same. *)
Definition key_json (kid : string) : json :=
  JObject [("kid", JString kid); ("type", JString "ED25519,PKEY"); ("label", JString "k");
           ("created", JNumber (double_of_int64 7)); ("updated", JNumber (double_of_int64 9))].
Definition page_json (total : Z) (l : list json) : json :=
  JObject [("offset", JNumber (double_of_int64 0)); ("total", JNumber (double_of_int64 total));
           ("listed", JNumber (double_of_int64 1)); ("list", JArray l)].
Definition list_table : list (string * json) :=
  [("page1", page_json 2 [key_json "a"]); ("page2", page_json 2 [key_json "b"]);
   ("huge", page_json (2 ^ 62) [])].

(** A device that lists the same key on every page, for ever. *)
Definition steady_transport (body : string) : ehem_transport fake_state :=
  {| t_ops := Some
       {| op_send := Some (fun s _ => (EHEM_OK, {| resp_status := 200; resp_headers := [];
                                                   resp_body := Some body |}, s));
          op_last_detail := None; op_last_tls_expired := None; op_destroy := None |} |}.
Definition steady_world : @world (fake_platform list_table) :=
  @Build_world (fake_platform list_table) {| script := []; fs_expired := false |} 0 true
    {| cfg := @config_set_url (fake_platform list_table) "https://hem.local"
                (Some (steady_transport "page1")) false (fake_config true);
       cert_refreshed := false; in_checkin := false; checkin_on_login_done := false;
       auth := Some (fake_session KEYMGMT_LIST_SCOPE "tok"); last_error := error_clear |} [].

Lemma steady_bounded :
  @reports_at_most (fake_platform list_table) 2 (transport (cfg (w_ctx steady_world))).
Proof.
  intros ops send n req resp n' raw root [= <-] [= <-] [= <- <-] [= <-] [= <-].
  vm_compute. discriminate.
Qed.

Lemma key_walks_return_witness :
  fst (@ehem_key_list_all (fake_platform list_table) session_request 3 true steady_world)
  <> Diverge.
Proof.
  refine (proj1 (proj1 (@key_walks_return (fake_platform list_table) 2 3 no_buf 0 true
    steady_world eq_refl _ steady_bounded _))); lia.
Defined.

(** ** Local refusals *)

(** The client-side rules are enforced before anything leaves the process:
    a key id that is not 32 hex digits, a label that is not 1..32 printable
    bytes, a descr above 64 bytes, a derivation without exactly one peer, with a
    malformed peer id, an oversized peer key or type, all end in [EHEM_ERR_ARG]
    with the trace and the transport untouched. *)
Theorem keymgmt_refuses_locally {P : Platform} (kid label type : string)
    (ext_kid mode : option string) (pubkey descr : buf) (out : bool)
    (cp : ehem_key_create_params) (ip : ehem_key_import_params) :
  (ehem_proto_is_kid_hex kid = false ->
     refuses (ehem_key_delete (Some kid)) /\
     refuses (ehem_key_update (Some kid) (Some label) descr) /\
     refuses (ehem_key_derive (Some kid) (Some label) (Some type) ext_kid pubkey mode descr out) /\
     refuses (ehem_key_get (Some kid) out)) /\
  (label_ok label = false ->
     refuses (ehem_key_update (Some kid) (Some label) descr) /\
     refuses (ehem_key_derive (Some kid) (Some label) (Some type) ext_kid pubkey mode descr out) /\
     (cp_label cp = Some label -> refuses (ehem_key_create (Some cp) out)) /\
     (ip_label ip = Some label -> refuses (ehem_key_import (Some ip) out))) /\
  (descr_too_long descr = true ->
     refuses (ehem_key_update (Some kid) (Some label) descr) /\
     refuses (ehem_key_derive (Some kid) (Some label) (Some type) ext_kid pubkey mode descr out) /\
     (cp_descr cp = descr -> refuses (ehem_key_create (Some cp) out)) /\
     (ip_descr ip = descr -> refuses (ehem_key_import (Some ip) out))) /\
  ((ext_kid <> None <-> b_given pubkey = true) \/
   ehem_proto_is_kid_hex (default kid ext_kid) = false \/
   (b_given pubkey = true /\ KEYMGMT_PEER_PUBKEY_MAX < b_len pubkey) \/
   type = ""%string \/ KEYMGMT_TYPE_MAX < strlen type ->
     refuses (ehem_key_derive (Some kid) (Some label) (Some type) ext_kid pubkey mode descr out)).
Proof.
  split_and!.
  - intros H. split_and!; unfold ehem_key_delete, ehem_key_update, ehem_key_derive,
      ehem_key_get; solve_refuses.
  - intros H. split_and!; unfold ehem_key_update, ehem_key_derive,
      ehem_key_create, ehem_key_import; intros; solve_refuses.
  - intros H. split_and!; unfold ehem_key_update, ehem_key_derive,
      ehem_key_create, ehem_key_import; intros; subst; solve_refuses;
      match goal with H' : negb _ = true |- _ => by rewrite H in H' end.
  - intros H. unfold ehem_key_derive. destruct out; [|apply refuses_throw].
    apply refuses_clear. apply refuses_require; intros H1.
    do 5 (apply refuses_require; intros ?). exfalso.
    destruct H as [H|[H|[[H Hl]|[H|H]]]].
    + destruct ext_kid as [e|], (b_given pubkey); cbn in *; try done.
      * by destruct H as [H _]; specialize (H ltac:(done)).
      * by destruct H as [_ H]; specialize (H eq_refl).
    + destruct ext_kid as [e|]; cbn in *; [|congruence].
      by rewrite H in *; destruct (b_given pubkey).
    + destruct (b_given pubkey); [|done]. cbn in *. lia.
    + subst. cbn in *. done.
    + destruct (is_empty type); cbn in *; [done|lia].
Qed.

Definition KID_A : string := "0123456789abcdef0123456789ABCDEF".

Lemma keymgmt_refuses_locally_witness :
  @refuses (fake_platform []) unit (ehem_key_delete (Some "0123")) /\
  @refuses (fake_platform []) string
    (ehem_key_derive (Some KID_A) (Some "k") (Some "AES256") None no_buf None no_buf true).
Proof.
  pose proof (@keymgmt_refuses_locally (fake_platform []) "0123" "k" "AES256" None None
    no_buf no_buf true {| cp_type := None; cp_label := None; cp_mode := None; cp_descr := no_buf |}
    {| ip_type := None; ip_label := None; ip_mode := None; ip_descr := no_buf;
       ip_pubkey := no_buf |}) as (H & _).
  pose proof (@keymgmt_refuses_locally (fake_platform []) KID_A "k" "AES256" None None
    no_buf no_buf true {| cp_type := None; cp_label := None; cp_mode := None; cp_descr := no_buf |}
    {| ip_type := None; ip_label := None; ip_mode := None; ip_descr := no_buf;
       ip_pubkey := no_buf |}) as (_ & _ & _ & H').
  split; [by apply H|]. apply H'. left. split; [by intros []|discriminate].
Defined.

(** ** Returned ids *)

Section Kids.
Context {P : Platform}.

Definition yields {A} (m : M A) (Q : A -> Prop) : Prop :=
  forall w, match fst (m w) with Ok a => Q a | _ => True end.

Lemma yields_hoare {A} (m : M A) (Q : A -> Prop) :
  hoare (fun _ => True) m (fun a _ => Q a) -> yields m Q.
Proof. intros H w. specialize (H w I). by destruct (m w) as [[] ?]. Qed.

Lemma response_kid_hex what root :
  hoare (fun _ => True) (response_kid what root)
    (fun kid _ => ehem_proto_is_kid_hex kid = true).
Proof.
  unfold response_kid. case_match; [|apply fail_hoare].
  destruct (ehem_proto_is_kid_hex _) eqn:E; cbn [negb]; [by apply hoare_ret|apply fail_hoare].
Qed.
End Kids.

Ltac solve_kid :=
  repeat first
    [ apply hoare_throw | apply response_kid_hex
    | apply hoare_then; intros ? | case_match ].

(** C38: whatever the device answers, a key id that create, import or derive
    hands out is 32 hex digits: the caller's 33-byte buffer is filled exactly,
    and the id is accepted by every operation that takes one. *)
Theorem new_kids_valid {P : Platform} (cp : option ehem_key_create_params)
    (ip : option ehem_key_import_params) (kid label type ext_kid mode : option string)
    (pubkey descr : buf) (out : bool) :
  yields (ehem_key_create cp out) (fun k => ehem_proto_is_kid_hex k = true) /\
  yields (ehem_key_import ip out) (fun k => ehem_proto_is_kid_hex k = true) /\
  yields (ehem_key_derive kid label type ext_kid pubkey mode descr out)
    (fun k => ehem_proto_is_kid_hex k = true).
Proof.
  split_and!; apply yields_hoare;
    unfold ehem_key_create, ehem_key_import, ehem_key_derive; solve_kid.
Qed.

(** ** How statuses are read *)

(** The outcome of a device call whose success is an empty 200. *)
Definition settled {P : Platform} (o : outcome string) (e : ehem_error)
  : outcome unit :=
  match o with
  | Ok _ => Ok tt
  | Err EHEM_ERR_PROTOCOL => if http_status e =? 200 then Ok tt else Err EHEM_ERR_PROTOCOL
  | Err EHEM_ERR_DEVICE =>
      Err (if http_status e =? 406 then EHEM_ERR_NOT_FOUND else EHEM_ERR_DEVICE)
  | Err rc => Err rc
  | Diverge => Diverge
  end.

Lemma fail_run {P : Platform} {A} rc st p msg (w : world) :
  fst (ehem_ctx_fail (A:=A) rc st p msg w) = Err rc.
Proof. by destruct p. Qed.

Lemma map_406_run {P : Platform} rc what (w : world) :
  fst (map_406_not_found (A:=unit) rc what w) =
    match rc with
    | EHEM_ERR_DEVICE => Err (if http_status (last_error (w_ctx w)) =? 406
                              then EHEM_ERR_NOT_FOUND else EHEM_ERR_DEVICE)
    | rc => Err rc
    end.
Proof.
  unfold map_406_not_found, bind. cbn [ehem_last_error get_ctx ret bind].
  destruct rc; try done.
  change (negb (bool_decide (EHEM_ERR_DEVICE = EHEM_ERR_DEVICE))) with false.
  cbn [orb]. destruct (http_status _ =? 406); cbn [negb]; [|done]. apply fail_run.
Qed.

(** The three-way reading of a delete.  With [o] the outcome of the DELETE
    request and [e] the error it recorded: an answer or an empty 200 is success,
    with the error detail cleared; a 406 is [EHEM_ERR_NOT_FOUND]; anything else
    is passed on unchanged. *)
Theorem key_delete_outcome {P : Platform} (kid : string) (w : world)
    (Hkid : ehem_proto_is_kid_hex kid = true) :
  let r := ehem_proto_request_raw EHEM_HTTP_DELETE
             (snprintf_trunc 64 ("/api/keymgmt/delete/" +:+ kid)) None
             (Some KEYMGMT_DEL_SCOPE) EHEM_TLS_REQ_DEFAULT
             (snd (ehem_ctx_clear_error w)) in
  fst (ehem_key_delete (Some kid) w) = settled (fst r) (last_error (w_ctx (snd r))) /\
  (fst (ehem_key_delete (Some kid) w) = Ok tt ->
   last_error (w_ctx (snd (ehem_key_delete (Some kid) w))) = error_clear).
Proof.
  cbn zeta. set (w1 := snd (ehem_ctx_clear_error w)).
  assert (ehem_key_delete (Some kid) w =
    empty_200_ok (ehem_proto_request_raw EHEM_HTTP_DELETE
      (snprintf_trunc 64 ("/api/keymgmt/delete/" +:+ kid)) None
      (Some KEYMGMT_DEL_SCOPE) EHEM_TLS_REQ_DEFAULT)
      (fun rc _ => map_406_not_found rc "keymgmt/delete") w1) as ->.
  { unfold ehem_key_delete, require. by rewrite Hkid. }
  rewrite empty_200_ok_run. destruct (ehem_proto_request_raw _ _ _ _ _ w1) as [o w2].
  cbn [fst snd]. set (st := http_status _) in *. unfold settled. fold st.
  destruct o as [s|rc|]; [done| |done].
  pose proof (map_406_run rc "keymgmt/delete" w2) as H. fold st in H.
  destruct (bool_decide_reflect (rc = EHEM_ERR_PROTOCOL)) as [->|Hne]; cbn [andb].
  - destruct (st =? 200); [done|]. rewrite H. split; done.
  - rewrite H. split; [by destruct rc|].
    destruct rc; done.
Qed.

(** The whole device conversation of a delete of an unknown key. *)
Definition del_world (replies : list reply) : @world (fake_platform []) :=
  fake_world replies true (Some (fake_session KEYMGMT_DEL_SCOPE "tok")).

Lemma key_delete_outcome_witness :
  fst (@ehem_key_delete (fake_platform []) session_request (Some KID_A)
         (del_world [http 406 "{}"])) = Err EHEM_ERR_NOT_FOUND.
Proof.
  rewrite (proj1 (@key_delete_outcome (fake_platform []) KID_A (del_world [http 406 "{}"])
    eq_refl)).
  vm_compute. reflexivity.
Defined.

(** A search nobody matches is not an error: where the search request is
    answered NOT_FOUND, the binding returns the empty page and clears the error
    detail the request left. *)
Theorem search_no_match_is_empty {P : Platform} (descr body : string) (offset limit : Z)
    (w w1 w2 : world)
    (Hbody : build_body [FieldStr "descr" descr; FieldInt "offset" (wrap_i64 offset);
                         FieldInt "limit" (wrap_i64 limit)] w = (Ok body, w1))
    (Hreq : ehem_proto_request_json EHEM_HTTP_POST "/api/keymgmt/search" (Some body)
              (Some KEYMGMT_SEARCH_SCOPE) EHEM_TLS_REQ_DEFAULT w1
            = (Err EHEM_ERR_NOT_FOUND, w2))
    (Hmem : p_malloc (w_tick w2) = true) :
  exists w3, search_one_page descr offset limit w = (Ok page_zero, w3) /\
    last_error (w_ctx w3) = error_clear /\ w_trace w3 = w_trace w2.
Proof.
  unfold search_one_page. unfold bind at 1. rewrite Hbody.
  unfold bind at 1. unfold attempt at 1. rewrite Hreq.
  unfold calloc_or_fail, malloc, ask, bind, ret. cbn. rewrite Hmem.
  by eexists.
Qed.

Definition search_world : @world (fake_platform []) :=
  fake_world [http 404 "{}"] true (Some (fake_session KEYMGMT_SEARCH_SCOPE "tok")).

Lemma search_no_match_is_empty_witness :
  exists w3, @search_one_page (fake_platform []) session_request "XmFi" 0 10 search_world
    = (Ok page_zero, w3).
Proof.
  edestruct (@search_no_match_is_empty (fake_platform []) "XmFi" "{}" 0 10 search_world)
    as (w3 & E & _); [vm_compute; reflexivity|vm_compute; reflexivity|reflexivity|].
  exists w3. exact E.
Defined.

(** The anchors of a search mode. *)
Definition anchors (mode : Z) : string * string :=
  if mode =? EHEM_KEY_SEARCH_PREFIX then ("^"%string, ""%string)
  else if mode =? EHEM_KEY_SEARCH_SUFFIX then (""%string, "$"%string) else (""%string, ""%string).

(** The search pattern on the wire: between the anchors of the mode stands
    standard base64 that decodes back to exactly the caller's bytes, and the
    whole fits the buffer sized for it (the encoded length, one anchor, the
    NUL). *)
Theorem search_descr_on_wire {P : Platform} (mode : Z) (pattern : bytes) (w : world)
    (Hp : Forall is_byte pattern) :
  match fst (build_search_descr mode (buf_of pattern) w) with
  | Ok d => exists b64, d = fst (anchors mode) +:+ b64 +:+ snd (anchors mode) /\
      std_decode b64 (Z.of_nat (length pattern)) = Some pattern /\
      strlen d + 1 <= ehem_b64_std_encoded_len (Z.of_nat (length pattern)) + 2
  | Err rc => rc = EHEM_ERR_NOMEM /\ p_malloc (w_tick w) = false
  | Diverge => False
  end.
Proof.
  unfold build_search_descr, bind, malloc, ask. cbn [b_ptr b_len buf_of].
  destruct (p_malloc _); cbn [negb]; [|done].
  fold (std_encode pattern). rewrite std_encode_eq. cbn [fst ret].
  set (b64 := b64_encode_loop _ _ _).
  assert (strlen b64 = ehem_b64_std_encoded_len (Z.of_nat (length pattern))) as Hlen
    by by apply (b64_encode_loop_length B64_STD_ALPHA true).
  assert (std_decode b64 (Z.of_nat (length pattern)) = Some pattern) as Hdec
    by (apply (decode_encode_loop B64_STD_ALPHA true); [done|lia]).
  exists b64. unfold anchors, strlen in *.
  destruct (mode =? EHEM_KEY_SEARCH_PREFIX); [|destruct (mode =? EHEM_KEY_SEARCH_SUFFIX)];
    cbn [fst snd]; (split; [by rewrite ?append_empty_r|split; [done|]]);
    rewrite ?string_length_app; cbn [String.length]; lia.
Qed.

Lemma search_descr_on_wire_witness :
  exists b64, std_decode b64 3 = Some [1; 2; 255] /\
    fst (@build_search_descr (fake_platform []) EHEM_KEY_SEARCH_PREFIX (buf_of [1; 2; 255])
           (fake_world [] true None)) = Ok ("^" +:+ b64 +:+ "").
Proof.
  assert (Forall is_byte [1; 2; 255]) as Hp by (repeat constructor; done).
  pose proof (@search_descr_on_wire (fake_platform []) EHEM_KEY_SEARCH_PREFIX [1; 2; 255]
    (fake_world [] true None) Hp) as H.
  destruct (fst _) as [d|rc|]; [|by destruct H|done].
  destruct H as (b64 & -> & Hdec & _). exists b64. by split.
Defined.
