(* ===== verification/KeymgmtHonest.v ===== *)
(** * The repository walk against an honest device

    What a device answers that holds a repository and pages through it, said in
    terms of the wire only - path, bearer, status and the members of the JSON
    objects - and that [ehem_key_list_all] then returns this repository. *)

From S2P Require Import Prelude Base64 Json World Logic Context Ejwt Proto AuthState Notify Auth.
From S2P Require Import Session Fake Wire Bindings Keymgmt KeymgmtProps.

Open Scope hem_scope.

(** ** Objects *)

Definition json_num (v : Z) : json := JNumber (double_of_int64 v).

(** An optional text member: present with this text, or absent. *)
Definition opt_member (ms : list (string * json)) (key : string) (v : option string) : Prop :=
  match v with Some s => (key, JString s) ∈ ms | None => key ∉ map fst ms end.

(** The object describes the key; the members may come in any order, and other
    members may be among them. *)
Record entry_object (ms : list (string * json)) (e : ehem_key_entry) : Prop := {
  eo_unique : NoDup (map fst ms);
  eo_kid : ("kid"%string, JString (ke_kid e)) ∈ ms;
  eo_type : ("type"%string, JString (ke_type e)) ∈ ms;
  eo_label : opt_member ms "label" (ke_label e);
  eo_descr : match ke_descr e with
             | Some d => d <> [] /\ Forall is_byte d /\ exists s, std_encode d = Some s /\
                           ("descr"%string, JString s) ∈ ms
             | None => "descr"%string ∉ map fst ms
             end;
  eo_created : ("created"%string, json_num (ke_created e)) ∈ ms /\ Z.abs (ke_created e) < 2 ^ 53;
  eo_updated : ("updated"%string, json_num (ke_updated e)) ∈ ms /\ Z.abs (ke_updated e) < 2 ^ 53
}.

(** The object is a page of [es] out of [total] keys. *)
Record page_object (ms : list (string * json)) (total : Z) (es : list ehem_key_entry) : Prop := {
  po_unique : NoDup (map fst ms);
  po_total : ("total"%string, json_num total) ∈ ms;
  po_list : exists nodes, ("list"%string, JArray (map JObject nodes)) ∈ ms /\
              Forall2 entry_object nodes es
}.

Section Members.
Context `{CJson}.

Lemma object_item_member (ms : list (string * json)) k v :
  NoDup (map fst ms) -> (k, v) ∈ ms -> object_item ms k = Some v.
Proof.
  unfold object_item. induction ms as [|[k' v'] ms IH]; cbn; [by intros _ ?%elem_of_nil|].
  intros [Hn Hu]%NoDup_cons [[= <- <-]|Hin]%elem_of_cons.
  - by rewrite String.eqb_refl.
  - destruct (String.eqb_spec k' k) as [->|]; [|by apply IH].
    destruct Hn. apply list_elem_of_fmap. by exists (k, v).
Qed.

Lemma object_item_absent (ms : list (string * json)) k :
  k ∉ map fst ms -> object_item ms k = None.
Proof.
  unfold object_item. induction ms as [|[k' v'] ms IH]; cbn; [done|].
  intros [Hn Hu]%not_elem_of_cons. destruct (String.eqb_spec k' k); [by subst|by apply IH].
Qed.

Lemma get_num ms k v :
  NoDup (map fst ms) -> (k, json_num v) ∈ ms -> Z.abs v < 2 ^ 53 ->
  ehem_json_get_int64 (Some (JObject ms)) k = Some v.
Proof.
  intros Hu Hin Hv. pose proof (json_int64_exact v k [] Hv) as E.
  unfold ehem_json_get_int64, ehem_json_get in *. rewrite (object_item_member _ _ _ Hu Hin).
  unfold object_item in E. cbn in E. by rewrite String.eqb_refl in E.
Qed.

Lemma get_text ms k s :
  NoDup (map fst ms) -> (k, JString s) ∈ ms ->
  ehem_json_get_string (Some (JObject ms)) k = Some s.
Proof.
  intros Hu Hin. unfold ehem_json_get_string, ehem_json_get.
  by rewrite (object_item_member _ _ _ Hu Hin).
Qed.

Lemma get_no_text ms k : k ∉ map fst ms -> ehem_json_get_string (Some (JObject ms)) k = None.
Proof.
  intros Hn. unfold ehem_json_get_string, ehem_json_get. by rewrite object_item_absent.
Qed.
End Members.

(** ** Parsing a described page *)

Section Parse.
Context {P : Platform} (Hmem : forall n, p_malloc n = true).

(** The call returns [a] having only allocated. *)
Definition parses {A} (m : M A) (a : A) : Prop :=
  forall w, exists n, m w = (Ok a, at_tick n w).

Lemma at_tick_same w : at_tick (w_tick w) w = w.
Proof. by destruct w. Qed.

Lemma parses_ret {A} (a : A) : parses (ret a) a.
Proof. intros w. exists (w_tick w). by rewrite at_tick_same. Qed.

Lemma parses_bind {A B} (m : M A) (f : A -> M B) a b :
  parses m a -> parses (f a) b -> parses (bind m f) b.
Proof.
  intros Hm Hf w. destruct (Hm w) as [n En]. destruct (Hf (at_tick n w)) as [n' En'].
  exists n'. unfold bind. by rewrite En, En'.
Qed.

Lemma parses_malloc : parses malloc true.
Proof. intros w. exists (S (w_tick w)). unfold malloc, ask. by rewrite Hmem. Qed.

Lemma parses_calloc : parses calloc_or_fail tt.
Proof.
  unfold calloc_or_fail. eapply parses_bind; [apply parses_malloc|]. apply parses_ret.
Qed.

Lemma parses_dup s : parses (dup_str s) (Some s).
Proof. apply (parses_bind _ _ true); [apply parses_malloc|apply parses_ret]. Qed.

Lemma parses_required ms k s :
  NoDup (map fst ms) -> (k, JString s) ∈ ms ->
  parses (required_copy (Some (JObject ms)) k) (inr s).
Proof.
  intros Hu Hin. unfold required_copy. rewrite (get_text _ _ _ Hu Hin).
  apply (parses_bind _ _ (Some s)); [apply parses_dup|apply parses_ret].
Qed.

Lemma parses_opt_str ms k v :
  NoDup (map fst ms) -> opt_member ms k v -> parses (opt_str (Some (JObject ms)) k) (Some v).
Proof.
  intros Hu Hv. unfold opt_str. destruct v as [s|]; cbn in Hv.
  - rewrite (get_text _ _ _ Hu Hv). apply (parses_bind _ _ (Some s)); [apply parses_dup|].
    apply parses_ret.
  - rewrite (get_no_text _ _ Hv). apply parses_ret.
Qed.

Lemma parses_descr ms e :
  entry_object ms e -> parses (decode_opt_b64 (Some (JObject ms)) "descr") (Some (ke_descr e)).
Proof.
  intros [Hu _ _ _ Hd _ _]. unfold decode_opt_b64. destruct (ke_descr e) as [d|].
  - destruct Hd as (Hne & Hb & s & Es & Hin). rewrite (get_text _ _ _ Hu Hin).
    rewrite std_encode_eq in Es. injection Es as <-.
    pose proof (b64_encode_loop_length B64_STD_ALPHA true d Hb) as Hlen.
    assert (Z.of_nat (length d) <= strlen (b64_encode_loop B64_STD_ALPHA true d)) as Hle.
    { rewrite Hlen. unfold ehem_b64_std_encoded_len. Z.to_euclidean_division_equations; lia. }
    destruct (is_empty _) eqn:Ee.
    { destruct (b64_encode_loop B64_STD_ALPHA true d); [|done].
      destruct d; [done|]. unfold strlen in Hle. cbn [String.length length] in Hle. lia. }
    apply (parses_bind _ _ true); [apply parses_malloc|]. cbn [negb].
    unfold std_decode, ehem_b64_std_decode.
    rewrite (decode_encode_loop B64_STD_ALPHA true) by done. apply parses_ret.
  - rewrite (get_no_text _ _ Hd). apply parses_ret.
Qed.

Lemma parses_entry ms e :
  entry_object ms e -> parses (parse_entry (Some (JObject ms))) (inr e).
Proof.
  intros He. pose proof He as [Hu Hk Ht Hl _ [Hc Hc'] [Hup Hup']]. unfold parse_entry.
  apply (parses_bind _ _ _ _ (parses_required _ _ _ Hu Hk)).
  apply (parses_bind _ _ _ _ (parses_required _ _ _ Hu Ht)).
  apply (parses_bind _ _ _ _ (parses_opt_str _ _ _ Hu Hl)).
  apply (parses_bind _ _ _ _ (parses_descr _ _ He)).
  rewrite (get_num _ _ _ Hu Hc Hc'), (get_num _ _ _ Hu Hup Hup'). cbn.
  destruct e. apply parses_ret.
Qed.

Lemma parses_entries pre nodes es :
  Forall2 entry_object nodes es -> Z.of_nat (length pre + length nodes) <= INT_MAX ->
  parses (parse_entries (Some (JArray (map JObject (pre ++ nodes)))) (Z.of_nat (length pre))
            (length nodes)) es.
Proof.
  intros Hf. revert pre. induction Hf as [|ms e nodes es He _ IH]; intros pre Hlen;
    [apply parses_ret|].
  cbn [length parse_entries] in *.
  assert (ehem_json_array_get (Some (JArray (map JObject (pre ++ ms :: nodes))))
            (Z.of_nat (length pre)) = Some (JObject ms)) as ->.
  { unfold ehem_json_array_get. destruct (Z.ltb_spec INT_MAX (Z.of_nat (length pre))); [lia|].
    rewrite Nat2Z.id. change (map JObject (pre ++ ms :: nodes)) with (JObject <$> pre ++ ms :: nodes).
    by rewrite list_lookup_fmap, list_lookup_middle. }
  apply (parses_bind _ _ _ _ (parses_entry _ _ He)).
  specialize (IH (pre ++ [ms])). rewrite length_app, <- app_assoc in IH. cbn [length app] in IH.
  replace (Z.of_nat (length pre + 1)) with (Z.of_nat (length pre) + 1) in IH by lia.
  apply (parses_bind _ _ es); [apply IH; lia|apply parses_ret].
Qed.

Lemma parses_page ms total es :
  page_object ms total es -> 0 <= total < 2 ^ 53 -> Z.of_nat (length es) <= INT_MAX ->
  exists page, kp_total page = total /\ kp_entries page = es /\
    parses (parse_key_page (JObject ms)) page.
Proof.
  intros [Hu Ht (nodes & Hl & Hf)] Htot Hlen. pose proof (Forall2_length _ _ _ Hf) as Hn.
  unfold parse_key_page.
  eexists {| kp_offset := default 0 (ehem_json_get_int64 (Some (JObject ms)) "offset");
             kp_total := total; kp_entries := es |}.
  split_and!; [done..|]. apply (parses_bind _ _ _ _ parses_calloc).
  rewrite (get_num _ _ _ Hu Ht) by lia.
  assert (ehem_json_get (Some (JObject ms)) "list" = Some (JArray (map JObject nodes))) as ->
    by apply (object_item_member _ _ _ Hu Hl).
  cbn [ehem_json_is_array ehem_json_array_size default from_option id].
  assert (wrap_i32 (Z.of_nat (length (map JObject nodes))) = Z.of_nat (length nodes)) as ->.
  { rewrite length_map. unfold wrap_i32, INT_MAX in *. rewrite Z.mod_small; lia. }
  destruct (Z.ltb_spec 0 (Z.of_nat (length nodes))).
  - destruct (Z.eqb_spec (Z.of_nat (length nodes)) 0); [lia|].
    apply (parses_bind _ _ _ _ parses_calloc). rewrite Nat2Z.id.
    apply (parses_bind _ _ es); [|apply parses_ret].
    apply (parses_entries [] nodes es Hf). cbn. lia.
  - cbn. destruct es; [apply parses_ret|cbn in Hn; lia].
Qed.
End Parse.

(** ** The path of a page *)

Lemma little_double_digits d :
  (Decimal.nb_digits (Decimal.Little.double d) <= S (Decimal.nb_digits d))%nat /\
  (Decimal.nb_digits (Decimal.Little.succ_double d) <= S (Decimal.nb_digits d))%nat.
Proof. induction d; cbn; lia. Qed.

Lemma little_uint_digits p k :
  Z.pos p < 2 ^ Z.of_nat k -> (Decimal.nb_digits (Pos.to_little_uint p) <= k)%nat.
Proof.
  revert k; induction p as [p IH|p IH|]; intros k Hk; cbn [Pos.to_little_uint].
  1-2: destruct k as [|k]; [change (2 ^ Z.of_nat 0) with 1 in Hk; lia|];
    rewrite Nat2Z.inj_succ, Z.pow_succ_r in Hk by lia;
    specialize (IH k ltac:(lia)); pose proof (little_double_digits (Pos.to_little_uint p)); lia.
  destruct k; [change (2 ^ Z.of_nat 0) with 1 in Hk; lia|cbn; lia].
Qed.

Lemma string_of_uint_length d :
  String.length (DecimalString.NilEmpty.string_of_uint d) = Decimal.nb_digits d.
Proof. induction d; cbn; lia. Qed.

(** A count of at most [k] bits has at most [k] decimal digits. *)
Lemma dec_length z k :
  (0 < k)%nat -> 0 <= z < 2 ^ Z.of_nat k -> (String.length (dec z) <= k)%nat.
Proof.
  intros Hk Hz. unfold dec. destruct z as [|p|p]; [cbn; lia| |lia].
  cbn [Z.to_int DecimalString.NilZero.string_of_int].
  pose proof (little_uint_digits p k ltac:(lia)) as Hd.
  rewrite <- DecimalFacts.nb_digits_rev in Hd. fold (Pos.to_uint p) in Hd.
  unfold DecimalString.NilZero.string_of_uint.
  destruct (Pos.to_uint p) eqn:E; [cbn; lia|..]; by rewrite string_of_uint_length.
Qed.

(** The request for the keys from [o] on, ten at a time. *)
Definition page_path (o : Z) : string := ("/api/keymgmt/list/" +:+ dec o +:+ "/10")%string.

Lemma list_path_page o :
  0 <= o < 2 ^ 40 -> list_path o KEYMGMT_WALK_PAGE = page_path o.
Proof.
  intros Ho.
  change (list_path o KEYMGMT_WALK_PAGE) with (snprintf_trunc 64 (page_path o)).
  apply snprintf_trunc_fits. pose proof (dec_length o 40 ltac:(lia) Ho).
  unfold page_path. rewrite !string_length_app. cbn [String.length]. lia.
Qed.

(** ** The device *)

(** The device, in a state [holds] describes, answers the request for a page at
    any offset of the repository, under the session's bearer, with a 200 whose
    body is a page of the repository: at most the ten keys asked for, from the
    offset on, at least one while there are any, and the true total. *)
Record honest_device {P : Platform} (c : ctx_config net) (token : string)
    (repo : list ehem_key_entry) (holds : net -> Prop) : Prop := {
  honest_size : Z.of_nat (length repo) < 2 ^ 40;
  honest_page : forall n o, holds n -> 0 <= o <= Z.of_nat (length repo) ->
    exists raw ms es rest n',
      replies c n EHEM_HTTP_GET (page_path o) None (Some ("Bearer " +:+ token)%string)
        EHEM_TLS_REQ_DEFAULT
        {| resp_status := 200; resp_headers := []; resp_body := Some raw |} n' /\
      holds n' /\ raw <> ""%string /\ cJSON_Parse (c_str raw) = Some (JObject ms) /\
      page_object ms (Z.of_nat (length repo)) es /\
      drop (Z.to_nat o) repo = es ++ rest /\ (length es <= 10)%nat /\
      (o < Z.of_nat (length repo) -> es <> [])
}.

Section Honest.
Context {P : Platform} (c : ctx_config net) (a : ehem_auth) (e : token_entry)
        (repo : list ehem_key_entry) (holds : net -> Prop)
        (Hd : honest_device c (te_token e) repo holds)
        (Hmem : forall n, p_malloc n = true)
        (Htoken : cache_find (cache a) KEYMGMT_LIST_SCOPE = Some e)
        (Hfresh : forall n, p_time n < te_exp e).

(** What the walk keeps. *)
Definition walking (w : world) : Prop :=
  cfg (w_ctx w) = c /\ auth (w_ctx w) = Some a /\ holds (w_net w).

Lemma walking_clear w : walking w -> walking (snd (ehem_ctx_clear_error w)).
Proof. done. Qed.
Lemma walking_tick n w : walking w -> walking (at_tick n w).
Proof. done. Qed.

Lemma page_fetched o w :
  walking w -> 0 <= o <= Z.of_nat (length repo) ->
  exists page rest w', ehem_key_list o KEYMGMT_WALK_PAGE true w = (Ok page, w') /\
    walking w' /\ kp_total page = Z.of_nat (length repo) /\
    drop (Z.to_nat o) repo = kp_entries page ++ rest /\ (length (kp_entries page) <= 10)%nat /\
    (o < Z.of_nat (length repo) -> kp_entries page <> []).
Proof.
  intros (Hc & Ha & Hn) Ho. pose proof (honest_size _ _ _ _ Hd) as Hsz.
  destruct (honest_page _ _ _ _ Hd (w_net w) o Hn Ho)
    as (raw & ms & es & rest & n' & Hr & Hn' & Hne & Hp & Hpo & Hdrop & Hlen & Hmore).
  destruct (parses_page Hmem ms _ es Hpo ltac:(lia) ltac:(unfold INT_MAX; lia))
    as (page & Ht & He & Hparse).
  unfold ehem_key_list. cbn [negb]. rewrite list_path_page by lia.
  destruct (json_forward EHEM_HTTP_GET (page_path o) None KEYMGMT_LIST_SCOPE
    EHEM_TLS_REQ_DEFAULT (te_token e)
    {| resp_status := 200; resp_headers := []; resp_body := Some raw |} raw (JObject ms) n'
    (snd (ehem_ctx_clear_error w)))
    as [l El]; [|apply Hmem| |cbn; lia|reflexivity|done|done|done|].
  - cbn. rewrite Ha. unfold fresh_token. cbn. rewrite Htoken. cbn.
    by rewrite (proj2 (Z.ltb_lt _ _) (Hfresh _)).
  - cbn. rewrite Hc. exact Hr.
  - unfold bind at 1.
    change (ehem_ctx_clear_error w) with (Ok tt, snd (ehem_ctx_clear_error w)).
    cbn iota beta. unfold bind. rewrite El.
    destruct (Hparse (after (at_tick (S (S (w_tick w))) (snd (ehem_ctx_clear_error w))) n' l))
      as [k Ek].
    cbn [w_tick snd ehem_ctx_clear_error upd_ctx with_ctx] in *. rewrite Ek.
    exists page, rest. eexists. split; [reflexivity|]. rewrite Ht, He. by split_and!.
Qed.

Lemma append_fits d s w :
  exists k, page_append d s w =
    (Ok (Some {| kp_offset := kp_offset d; kp_total := kp_total d;
                 kp_entries := kp_entries d ++ kp_entries s |}), at_tick k w).
Proof.
  unfold page_append, listed. destruct (_ =? 0) eqn:E.
  - assert (kp_entries s = []) as -> by (destruct (kp_entries s); cbn in E; [done|lia]).
    exists (w_tick w). rewrite app_nil_r, at_tick_same. by destruct d.
  - unfold alloc. apply (parses_bind _ _ true); [by apply parses_malloc|]. apply parses_ret.
Qed.

Lemma walk_complete fuel o acc w :
  0 <= o < Z.of_nat (length repo) \/ o = 0 -> walking w -> kp_offset acc = 0 ->
  kp_entries acc = take (Z.to_nat o) repo ->
  Z.of_nat (length repo) - o < Z.of_nat fuel ->
  exists w', page_walk fuel (fun o => ehem_key_list o KEYMGMT_WALK_PAGE true) o acc w =
    (Ok {| kp_offset := 0; kp_total := Z.of_nat (length repo); kp_entries := repo |}, w').
Proof.
  pose proof (honest_size _ _ _ _ Hd) as Hsz.
  revert o acc w; induction fuel as [|fuel IH]; intros o acc w Ho Hw Hoff Hacc Hf; [lia|].
  destruct (page_fetched o w Hw ltac:(lia)) as (page & rest & w1 & E & Hw1 & Ht & Hr & _ & Hne).
  cbn [page_walk]. unfold bind at 1. rewrite E. unfold bind.
  match goal with |- context [page_append ?a page] => set (a0 := a) end.
  destruct (append_fits a0 page w1) as (k & ->).
  cbn [kp_total kp_offset kp_entries a0]. rewrite Hacc, Hoff, Ht.
  assert (length (kp_entries page) + length rest = length repo - Z.to_nat o)%nat as Hlen.
  { rewrite <- (length_drop repo), Hr, length_app. done. }
  assert (take (Z.to_nat o) repo ++ kp_entries page =
          take (Z.to_nat (o + listed page)) repo) as ->.
  { rewrite <- (take_drop (Z.to_nat o) repo) at 2. unfold listed.
    rewrite take_app, length_take, Hr, take_take.
    replace (Z.to_nat (o + Z.of_nat (length (kp_entries page))) `min` Z.to_nat o)%nat
      with (Z.to_nat o) by lia.
    replace (_ - _)%nat with (length (kp_entries page)) by lia.
    by rewrite take_app_length. }
  assert (0 <= listed page) by (unfold listed; lia).
  assert (o + listed page <= Z.of_nat (length repo)) by (unfold listed; lia).
  assert (wrap_size (o + listed page) = o + listed page) as ->
    by (unfold wrap_size; apply Z.mod_small; lia).
  assert (wrap_i64 (o + listed page) = o + listed page) as ->
    by (unfold wrap_i64; rewrite Z.mod_small; lia).
  assert (o < Z.of_nat (length repo) -> 1 <= listed page) as Hpos.
  { intros Hlt. specialize (Hne Hlt). unfold listed. destruct (kp_entries page); [done|]. cbn. lia. }
  case_match eqn:Estop.
  - eexists. rewrite take_ge by lia. reflexivity.
  - apply IH; [lia|by apply walking_tick|done|done|lia].
Qed.
End Honest.

(** C26: the full walk refines the repository.  A device that holds [repo]
    answers the requests for its pages, under the bearer of the session, with
    200s whose JSON lists some of the ten keys asked for - at least one while
    there are any - and the true total.  Then [ehem_key_list_all], with fuel for
    one page per key, returns exactly the keys of [repo], field by field, in
    order, none lost and none twice.  The bearer of the scope outlives the walk
    and memory suffices; nothing else is assumed of the SDK. *)
Theorem key_list_all_complete {P : Platform} (repo : list ehem_key_entry)
    (holds : net -> Prop) (fuel : nat) (w : world) (a : ehem_auth) (e : token_entry)
    (Hauth : auth (w_ctx w) = Some a)
    (Htoken : cache_find (cache a) "keymgmt:list" = Some e)
    (Hfresh : forall n, p_time n < te_exp e)
    (Hmem : forall n, p_malloc n = true)
    (Hd : honest_device (cfg (w_ctx w)) (te_token e) repo holds)
    (Hstart : holds (w_net w)) (Hfuel : (length repo < fuel)%nat) :
  exists w', ehem_key_list_all fuel true w =
    (Ok {| kp_offset := 0; kp_total := Z.of_nat (length repo); kp_entries := repo |}, w').
Proof.
  unfold ehem_key_list_all. cbn [negb]. unfold bind at 1.
  change (ehem_ctx_clear_error w) with (Ok tt, snd (ehem_ctx_clear_error w)) at 1.
  cbn iota beta. unfold bind at 1.
  destruct (parses_calloc Hmem (snd (ehem_ctx_clear_error w))) as [k ->].
  apply (walk_complete (cfg (w_ctx w)) a e repo holds Hd Hmem Htoken Hfresh);
    [by right|by split_and!|done|done|lia].
Qed.

(** Two keys, one per page whatever was asked for. *)
Definition repo_key (kid : string) : ehem_key_entry :=
  {| ke_kid := kid; ke_type := "ED25519,PKEY"; ke_label := Some "k"; ke_descr := Some [1; 2; 3];
     ke_created := 7; ke_updated := 9 |}.
Definition repo_members (kid : string) : list (string * json) :=
  [("created", json_num 7); ("updated", json_num 9); ("kid", JString kid);
   ("type", JString "ED25519,PKEY"); ("label", JString "k"); ("descr", JString "AQID")].
Definition repo_page (nodes : list (list (string * json))) : list (string * json) :=
  [("total", json_num 2); ("listed", json_num 1); ("list", JArray (map JObject nodes))].
Definition repo_table : list (string * json) :=
  [("first", JObject (repo_page [repo_members "a"]));
   ("second", JObject (repo_page [repo_members "b"])); ("end", JObject (repo_page []))].
Definition repo_text (path : string) : string :=
  if String.eqb path "/api/keymgmt/list/0/10" then "first"
  else if String.eqb path "/api/keymgmt/list/1/10" then "second" else "end".
Definition repo_transport : ehem_transport fake_state :=
  {| t_ops := Some
       {| op_send := Some (fun s r => (EHEM_OK, {| resp_status := 200; resp_headers := [];
            resp_body := Some (repo_text (req_path r)) |}, s));
          op_last_detail := None; op_last_tls_expired := None; op_destroy := None |} |}.
Definition repo_world : @world (fake_platform repo_table) :=
  @Build_world (fake_platform repo_table) {| script := []; fs_expired := false |} 0 true
    {| cfg := @config_set_url (fake_platform repo_table) "https://hem.local"
                (Some repo_transport) false (fake_config true);
       cert_refreshed := false; in_checkin := false; checkin_on_login_done := false;
       auth := Some (fake_session KEYMGMT_LIST_SCOPE "tok"); last_error := error_clear |} [].

Ltac among := first [left | right; among].

Lemma repo_entry kid : entry_object (repo_members kid) (repo_key kid).
Proof.
  split; cbn.
  - apply (bool_decide_unpack _). vm_compute. exact I.
  - among.
  - among.
  - among.
  - split; [done|]. split; [repeat constructor; done|]. exists "AQID"%string.
    split; [vm_compute; reflexivity|among].
  - split; [among|lia].
  - split; [among|lia].
Qed.

Lemma repo_page_ok nodes es :
  Forall2 entry_object nodes es -> page_object (repo_page nodes) 2 es.
Proof.
  intros Hf. split; cbn.
  - apply (bool_decide_unpack _). vm_compute. exact I.
  - among.
  - exists nodes. split; [among|done].
Qed.

Lemma repo_honest :
  @honest_device (fake_platform repo_table) (cfg (w_ctx repo_world)) "tok"
    [repo_key "a"; repo_key "b"] (fun _ => True).
Proof.
  split; [done|]. intros n o _ Ho. cbn in Ho.
  assert (forall raw, repo_text (page_path o) = raw ->
    replies (cfg (w_ctx repo_world)) n EHEM_HTTP_GET (page_path o) None
      (Some ("Bearer " +:+ "tok")%string) EHEM_TLS_REQ_DEFAULT
      {| resp_status := 200; resp_headers := []; resp_body := Some raw |} n) as Hr.
  { intros raw <-. eexists _, _, _. split_and!; [reflexivity..|]. by intros req (_ & <- & _). }
  assert (o = 0 \/ o = 1 \/ o = 2) as [->|[->| ->]] by lia.
  - exists "first"%string, (repo_page [repo_members "a"]), [repo_key "a"], [repo_key "b"], n.
    split_and!; [by apply Hr|done..| |done|cbn; lia|done].
    apply repo_page_ok. constructor; [apply repo_entry|constructor].
  - exists "second"%string, (repo_page [repo_members "b"]), [repo_key "b"], [], n.
    split_and!; [by apply Hr|done..| |done|cbn; lia|done].
    apply repo_page_ok. constructor; [apply repo_entry|constructor].
  - exists "end"%string, (repo_page []), [], [], n.
    split_and!; [by apply Hr|done..| |done|cbn; lia|cbn; lia].
    apply repo_page_ok. constructor.
Qed.

Lemma key_list_all_complete_witness :
  exists w', @ehem_key_list_all (fake_platform repo_table) session_request 3 true repo_world
    = (Ok {| kp_offset := 0; kp_total := 2; kp_entries := [repo_key "a"; repo_key "b"] |}, w').
Proof.
  apply (@key_list_all_complete (fake_platform repo_table) [repo_key "a"; repo_key "b"]
    (fun _ => True) 3 repo_world (fake_session KEYMGMT_LIST_SCOPE "tok")
    {| te_scope := KEYMGMT_LIST_SCOPE; te_token := "tok"; te_exp := FAKE_NOW + 3540 |});
    [reflexivity|reflexivity|intros n; vm_compute; reflexivity|reflexivity|exact repo_honest
    |exact I|apply Nat.lt_succ_diag_r].
Defined.
