(* ===== verification/CryptoProps.v ===== *)
(** * What the crypto bindings guarantee

    Theorems about Crypto.v: the fixed-size results of the cipher and PQC
    endpoints are exact, bad arguments never reach the device, and what a verify
    endpoint counts as "valid". *)

From S2P Require Import Prelude Base64 Json World Logic Context Ejwt Proto AuthState Notify Auth.
From S2P Require Import Session SessionProps Fake Wire Bindings Keymgmt KeymgmtProps Crypto.

Open Scope hem_scope.

(** ** Fixed-size results *)

Section Sizes.
Context {P : Platform} `{Q : !Request}.

Lemma decode_fixed_field_length root name n b :
  decode_fixed_field root name n = Some (Some b) -> Z.of_nat (length b) = n.
Proof. unfold decode_fixed_field. intros H. repeat (case_match; simplify_eq/=). lia. Qed.

Lemma decode_ss_length root b :
  decode_ss root = Some b -> Z.of_nat (length b) = EHEM_MLKEM_SS_LEN.
Proof. unfold decode_ss. intros H. repeat (case_match; simplify_eq/=). lia. Qed.

Lemma copy_alg_length root : (String.length (copy_alg root) < EHEM_PQC_ALG_SIZE)%nat.
Proof.
  unfold copy_alg. case_match; [|unfold EHEM_PQC_ALG_SIZE; cbn; lia].
  apply snprintf_trunc_length. unfold EHEM_PQC_ALG_SIZE. lia.
Qed.

Lemma decode_into_hoare s bad :
  hoare (fun _ => True) (decode_into s bad) (fun b _ => b <> []).
Proof.
  unfold decode_into. apply hoare_then. intros _. apply hoare_then. intros [].
  - cbn [negb]. destruct (std_decode s (strlen s)) as [[|x l]|]; [apply fail_hoare|by apply hoare_ret|apply fail_hoare].
  - apply fail_hoare.
Qed.

Lemma decode_required_hoare root f m bad :
  hoare (fun _ => True) (decode_required root f m bad) (fun b _ => b <> []).
Proof. unfold decode_required. case_match; [apply decode_into_hoare|apply fail_hoare]. Qed.

Lemma wrap_request_hoare p s b f :
  hoare (fun _ => True) (wrap_request p s b f) (fun b _ => b <> []).
Proof.
  unfold wrap_request. apply hoare_then. intros root. destruct (nonempty_string root f) as [t|]; [|apply fail_hoare].
  apply hoare_then. intros []; cbn [negb]; [|apply fail_hoare].
  destruct (std_decode t (strlen t)) as [[|x l]|]; [apply fail_hoare|by apply hoare_ret|apply fail_hoare].
Qed.

(** A non-empty result, then whatever is computed from it. *)
Lemma required_then {A} root f m bad (k : bytes -> M A) Q' :
  (forall b, b <> [] -> hoare (fun _ => True) (k b) Q') ->
  hoare (fun _ => True) (let* b := decode_required root f m bad in k b) Q'.
Proof.
  intros H. eapply hoare_bind; [apply decode_required_hoare|]. intros b w Hb.
  by apply H.
Qed.
End Sizes.

Ltac solve_size :=
  repeat first
    [ apply hoare_throw | apply fail_hoare | apply decode_required_hoare
    | apply wrap_request_hoare
    | apply required_then; intros ?b ?Hb | apply hoare_then; intros ? | case_match ].

Lemma encrypt_sizes {P : Platform} `{Q : !Request} kid alg msg aad ext_kid pubkey hkdf out :
  yields (ehem_encrypt kid alg msg aad ext_kid pubkey hkdf out) (fun r =>
    ct_bytes r <> [] /\
    (forall x, ct_iv r = Some x -> Z.of_nat (length x) = EHEM_CIPHER_IV_LEN) /\
    (forall x, ct_tag r = Some x -> Z.of_nat (length x) = EHEM_CIPHER_TAG_LEN)).
Proof.
  apply yields_hoare. unfold ehem_encrypt. solve_size. apply hoare_ret. intros w _. cbn.
  split_and!; [done|..]; intros x ->; by eapply decode_fixed_field_length.
Qed.

(** C39: the caller's fixed-size result fields are filled exactly, whatever the
    device answers: an IV and a tag are 16 bytes or absent, an ML-KEM shared
    secret is 32 bytes, an algorithm name fits its 16-byte field with the NUL,
    and no signature, secret, MAC, ciphertext or wrapped key is ever empty. *)
Theorem crypto_result_sizes {P : Platform} (kid alg ext_kid : option string)
    (msg aad iv pubkey hkdf sig_ctx ct : buf) (out : bool) :
  yields (ehem_encrypt kid alg msg aad ext_kid pubkey hkdf out) (fun r =>
    ct_bytes r <> [] /\
    (forall x, ct_iv r = Some x -> Z.of_nat (length x) = EHEM_CIPHER_IV_LEN) /\
    (forall x, ct_tag r = Some x -> Z.of_nat (length x) = EHEM_CIPHER_TAG_LEN)) /\
  yields (ehem_mlkem_encaps kid out) (fun r =>
    me_ct r <> [] /\ Z.of_nat (length (me_ss r)) = EHEM_MLKEM_SS_LEN /\
    (String.length (me_alg r) < EHEM_PQC_ALG_SIZE)%nat) /\
  yields (ehem_mlkem_decaps kid ct out) (fun r =>
    Z.of_nat (length (ms_ss r)) = EHEM_MLKEM_SS_LEN /\
    (String.length (ms_alg r) < EHEM_PQC_ALG_SIZE)%nat) /\
  yields (ehem_mldsa_sign kid msg sig_ctx out) (fun r =>
    md_sig r <> [] /\ (String.length (md_alg r) < EHEM_PQC_ALG_SIZE)%nat) /\
  yields (ehem_sign kid alg msg sig_ctx out) (fun b => b <> []) /\
  yields (ehem_ecdh kid ext_kid pubkey alg out) (fun b => b <> []) /\
  yields (ehem_hmac kid alg msg ext_kid pubkey out) (fun b => b <> []) /\
  yields (ehem_wrap kid alg msg ext_kid pubkey hkdf iv out) (fun b => b <> []) /\
  yields (ehem_unwrap kid alg msg ext_kid pubkey hkdf iv out) (fun b => b <> []).
Proof.
  split; [apply encrypt_sizes|]. split_and!; apply yields_hoare.
  - unfold ehem_mlkem_encaps. solve_size. apply hoare_ret. intros w _. cbn.
    split_and!; [done|by eapply decode_ss_length|apply copy_alg_length].
  - unfold ehem_mlkem_decaps. solve_size. apply hoare_ret. intros w _. cbn.
    split_and!; [by eapply decode_ss_length|apply copy_alg_length].
  - unfold ehem_mldsa_sign. solve_size. apply hoare_ret. intros w _. cbn.
    split; [done|apply copy_alg_length].
  - unfold ehem_sign. solve_size.
  - unfold ehem_ecdh. solve_size.
  - unfold ehem_hmac. solve_size.
  - unfold ehem_wrap. solve_size.
  - unfold ehem_unwrap. solve_size.
Qed.

(** ** Local refusals *)

Lemma refuses_peer {P : Platform} {A} what ext_kid pubkey none (k : M A) :
  (is_some ext_kid = true /\ pub_given pubkey = true \/
   is_some ext_kid || pub_given pubkey || none = false \/
   ehem_proto_is_kid_hex (default "" ext_kid) = false /\ is_some ext_kid = true \/
   pub_given pubkey = true /\ (b_null pubkey = true \/ b_len pubkey < 1 \/
                               EHEM_ECDH_PUBKEY_MAX < b_len pubkey)) ->
  refuses (check_peer_args what ext_kid pubkey none ;;; k).
Proof.
  intros H. apply refuses_first. unfold check_peer_args.
  apply refuses_require; intros H1. apply refuses_require; intros H2.
  apply refuses_require; intros H3. destruct H as [[E1 E2]|[E|[[E1 E2]|[E1 E2]]]].
  - by rewrite E1, E2 in H1.
  - by rewrite E in H2.
  - by rewrite E1, E2 in H3.
  - match goal with |- refuses (require ?ok _) => assert (ok = false) as -> end;
      [|apply refuses_fail].
    rewrite E1. destruct (b_null pubkey); [done|]. cbn.
    unfold EHEM_ECDH_PUBKEY_MAX in *. destruct E2 as [?|?]; [done|lia].
Qed.

(** Which argument errors the crypto bindings catch: a malformed key id, a
    message or a context out of range, a peer given twice or malformed. *)
Inductive bad_args (kid : string) (msg_max : Z) (msg sig_ctx : buf) (ctx_max : Z)
    (ext_kid : option string) (pubkey : buf) : Prop :=
  | bad_kid : ehem_proto_is_kid_hex kid = false -> bad_args kid msg_max msg sig_ctx ctx_max ext_kid pubkey
  | bad_msg : b_len msg < 1 \/ msg_max < b_len msg -> bad_args kid msg_max msg sig_ctx ctx_max ext_kid pubkey
  | bad_ctx : b_dangling sig_ctx = true \/ ctx_max < b_len sig_ctx ->
      bad_args kid msg_max msg sig_ctx ctx_max ext_kid pubkey
  | bad_both : is_some ext_kid = true -> pub_given pubkey = true ->
      bad_args kid msg_max msg sig_ctx ctx_max ext_kid pubkey
  | bad_ext : is_some ext_kid = true -> ehem_proto_is_kid_hex (default "" ext_kid) = false ->
      bad_args kid msg_max msg sig_ctx ctx_max ext_kid pubkey
  | bad_pub : pub_given pubkey = true ->
      b_null pubkey = true \/ b_len pubkey < 1 \/ EHEM_ECDH_PUBKEY_MAX < b_len pubkey ->
      bad_args kid msg_max msg sig_ctx ctx_max ext_kid pubkey.

Section Refusals.
Context {P : Platform}.

Lemma refuses_within {A} (lo hi : Z) (b : buf) msg (k : M A) :
  b_len b < lo \/ hi < b_len b -> refuses (require (b_within lo hi b) msg ;;; k).
Proof. intros H. apply refuses_require. unfold b_within. lia. Qed.
Lemma refuses_opt {A} max (b : buf) msg (k : M A) :
  b_dangling b = true \/ max < b_len b ->
  refuses (require (negb (opt_too_long max b)) msg ;;; k).
Proof. intros H. apply refuses_require. unfold opt_too_long. lia. Qed.
Lemma refuses_kid {A} kid msg (k : M A) :
  ehem_proto_is_kid_hex kid = false -> refuses (require (ehem_proto_is_kid_hex kid) msg ;;; k).
Proof. intros H. apply refuses_require. congruence. Qed.
Lemma refuses_step {A} ok msg (k : M A) : refuses k -> refuses (require ok msg ;;; k).
Proof. intros H. by apply refuses_require. Qed.
Lemma refuses_peer_step {A} what e p none (k : M A) :
  refuses k -> refuses (check_peer_args what e p none ;;; k).
Proof.
  intros H w. unfold bind, check_peer_args, require, arg_fail, ehem_ctx_fail, throw,
    upd_ctx, ret, bind.
  repeat case_match; simplify_eq/=; try done; apply (H w).
Qed.
Lemma refuses_throw_if {A} (b : bool) (k : M A) :
  refuses k -> refuses (if b then throw EHEM_ERR_ARG else k).
Proof. by destruct b. Qed.
End Refusals.

(** Walk to the failing check. *)
Ltac refuse :=
  repeat first
    [ apply refuses_throw
    | apply refuses_clear
    | apply refuses_throw_if
    | apply refuses_kid; assumption
    | apply refuses_within; assumption
    | apply refuses_opt; assumption
    | apply refuses_peer; solve [tauto]
    | apply refuses_first; progress unfold hmac_build, cipher_build, build_wrap_body, mldsa_build
    | apply refuses_peer_step
    | apply refuses_step ].

(** the crypto endpoints refuse locally.  A malformed key id, a message
    outside 1..2048 bytes (2064 for a ciphertext), a dangling or oversized
    context, a peer given twice, malformed, empty or above 67 bytes ends in
    [EHEM_ERR_ARG] with nothing sent, in each of the endpoints that take such an
    argument. *)
Theorem crypto_refuses_locally {P : Platform} (kid alg : string) (oalg ext_kid : option string)
    (msg iv tag aad pubkey c mac sig : buf) (out : bool) :
  (bad_args kid EHEM_SIGN_MSG_MAX msg c EHEM_SIGN_SIG_CTX_MAX None no_buf ->
     refuses (ehem_sign (Some kid) (Some alg) msg c out) /\
     refuses (ehem_verify (Some kid) (Some alg) msg c sig) /\
     refuses (ehem_mldsa_sign (Some kid) msg c out) /\
     refuses (ehem_mldsa_verify (Some kid) msg c sig)) /\
  (bad_args kid EHEM_SIGN_MSG_MAX msg no_buf 0 ext_kid pubkey ->
     refuses (ehem_hmac (Some kid) oalg msg ext_kid pubkey out) /\
     refuses (ehem_hmac_verify (Some kid) oalg msg mac ext_kid pubkey)) /\
  (bad_args kid EHEM_CIPHER_MSG_MAX msg c EHEM_CIPHER_HKDF_CTX_MAX ext_kid pubkey ->
     refuses (ehem_encrypt (Some kid) (Some alg) msg aad ext_kid pubkey c out)) /\
  (bad_args kid EHEM_CIPHER_CT_MAX msg c EHEM_CIPHER_HKDF_CTX_MAX ext_kid pubkey ->
     refuses (ehem_decrypt (Some kid) (Some alg) msg iv tag aad ext_kid pubkey c out)) /\
  (bad_args kid EHEM_SIGN_MSG_MAX (buf_of [0]) no_buf 0 ext_kid pubkey \/
   is_some ext_kid || pub_given pubkey = false ->
     refuses (ehem_ecdh (Some kid) ext_kid pubkey oalg out)).
Proof.
  assert (forall b : buf, b_dangling b = true -> b_null b = false -> False) as Hdb
    by (unfold b_dangling; intros ? ? E; by rewrite E in *).
  split_and!.
  - intros [H|H|H|? H|? H|? H]; try (by cbn in *); split_and!;
      unfold ehem_sign, ehem_verify, ehem_mldsa_sign, ehem_mldsa_verify;
      destruct out; refuse.
  - intros [H|H|H|? H|? H|? H]; try (by cbn in *; destruct H; [done|lia]); split_and!;
      unfold ehem_hmac, ehem_hmac_verify; destruct out; refuse.
  - intros [H|H|H|? H|? H|? H]; unfold ehem_encrypt; refuse.
  - intros [H|H|H|? H|? H|? H]; unfold ehem_decrypt; refuse.
  - intros [[H|H|H|? H|? H|? H]|H];
      try (by unfold EHEM_SIGN_MSG_MAX in *; cbn in *; destruct H; [done|lia]);
      try assert (is_some ext_kid || pub_given pubkey || false = false)
        by (by rewrite H);
      unfold ehem_ecdh; destruct out; refuse;
      unfold EHEM_SIGN_MSG_MAX in *; cbn in H; lia.
Qed.

Lemma crypto_refuses_locally_witness :
  @refuses (fake_platform []) unit
    (ehem_verify (Some KID_A) (Some "Ed25519") (buf_of []) no_buf (buf_of [1; 2])) /\
  @refuses (fake_platform []) bytes (ehem_ecdh (Some KID_A) None no_buf None true).
Proof.
  pose proof (@crypto_refuses_locally (fake_platform []) KID_A "Ed25519" None None
    (buf_of []) no_buf no_buf no_buf no_buf no_buf no_buf (buf_of [1; 2]) true)
    as (H1 & _ & _ & _ & H2).
  split; [|apply H2; by right].
  apply H1. apply bad_msg. left. reflexivity.
Defined.

(** ** Verdicts *)

Section Verdict.
Context {P : Platform}.

(** Since [w0] the device answered this request with what a verify endpoint says
    for "valid": a 2xx with a body, or an empty 200. *)
Definition said_yes (w0 : world) (path body scope : string) (w : world) : Prop :=
  exists resp,
    answered w0 EHEM_HTTP_POST path (Some body) (Some scope) EHEM_TLS_REQ_DEFAULT resp w /\
    ((exists b, body_of resp b) \/ empty_200 resp).

(** The bearer for it could not be had, by an answer that reads the same. *)
Definition never_asked (w0 : world) (path body scope : string) (w : world) : Prop :=
  bearer_lost w0 EHEM_HTTP_POST path (Some body) (Some scope) EHEM_TLS_REQ_DEFAULT w.

Definition affirmed (w0 : world) (path body scope : string) (w : world) : Prop :=
  said_yes w0 path body scope w \/ never_asked w0 path body scope w.

Lemma affirmed_same w0 path body scope w w' :
  w_trace w' = w_trace w -> w_net w' = w_net w ->
  affirmed w0 path body scope w -> affirmed w0 path body scope w'.
Proof.
  intros Ht Hn [(resp & Ha & Hb)|(s & w1 & w2 & H)]; [left|right].
  - exists resp. split; [by eapply answered_same|done].
  - exists s, w1, w2. by rewrite Ht, Hn.
Qed.

Lemma affirmed_from w0 w1 path body scope w :
  evolves w0 w1 -> w_trace w1 = w_trace w0 -> w_net w1 = w_net w0 ->
  affirmed w1 path body scope w -> affirmed w0 path body scope w.
Proof.
  intros He Ht Hn [(resp & Ha & Hb)|(s & w2 & w3 & Hs & He2 & Hwhen & H)]; [left|right].
  - exists resp. split; [by eapply answered_from|done].
  - exists s, w2, w3. split; [done|]. split; [by etrans|]. split; [|done].
    destruct Hwhen as [[Et En]|(resp & Ha & Hst)].
    + left. by rewrite Et, En, Ht, Hn.
    + right. exists resp. split; [by eapply answered_from|done].
Qed.

(** Nothing was said or heard yet. *)
Definition silent_since (w0 w : world) : Prop :=
  evolves w0 w /\ w_trace w = w_trace w0 /\ w_net w = w_net w0.

Lemma silent_refl w : silent_since w w.
Proof. by split. Qed.

Lemma empty_200_ok_affirmed w0 path body scope other :
  device_path path = true ->
  (forall rc st, hoare (fun _ => True) (other rc st) (fun _ _ => False)) ->
  hoare (silent_since w0) (empty_200_ok (post_raw path body scope) other)
    (fun _ => affirmed w0 path body scope).
Proof.
  intros Hp Ho w (He & Ht & Hn). rewrite empty_200_ok_run. unfold post_raw.
  pose proof (request_ends w EHEM_HTTP_POST path (Some body) (Some scope) EHEM_TLS_REQ_DEFAULT
    (ok_args_device _ _ Hp) w eq_refl) as H.
  destruct (ehem_proto_request_raw _ _ _ _ _ w) as [[b|rc|] w1] eqn:E; cbn zeta.
  - destruct H as (resp & Ha & Hb). apply (affirmed_from w0 w); [done..|].
    eapply affirmed_same; [reflexivity..|]. left. exists resp. eauto.
  - destruct (_ && _) eqn:Eb.
    + apply andb_prop in Eb as [Erc%bool_decide_eq_true_1 Est%Z.eqb_eq].
      apply (affirmed_from w0 w); [done..|]. eapply affirmed_same; [reflexivity..|].
      destruct (H Erc Est) as [(resp & Ha & He2)|Hl]; [left|by right].
      exists resp. eauto.
    + specialize (Ho rc (http_status (last_error (w_ctx w1))) w1 I).
      by destruct (other _ _ w1) as [[] ?].
  - done.
Qed.

(** What a body contains. *)
Lemma add_body_fields_hoare l ms0 :
  hoare (fun _ => True) (add_body_fields (JObject ms0) l) (fun o _ =>
    forall obj, o = Some obj -> exists ms, mapM field_member l = Some ms /\
                                   obj = JObject (ms0 ++ ms)).
Proof.
  revert ms0; induction l as [|f l IH]; intros ms0.
  - apply hoare_ret. intros w _ obj [= <-]. exists []. by rewrite app_nil_r.
  - cbn [add_body_fields].
    eapply hoare_bind with (Q1 := fun o _ => forall obj, o = Some obj ->
      exists m, field_member f = Some m /\ obj = JObject (ms0 ++ [m])).
    + destruct f as [k v|k b|k v|k v]; cbn [add_body_field field_member].
      1, 3, 4: apply hoare_then; intros []; apply hoare_ret; intros w _ obj [= <-]; by eexists.
      eapply hoare_bind with (Q1 := fun o _ => forall s, o = Some s ->
        ehem_b64_std_encode (b_ptr b) (b_len b) false
          (ehem_b64_std_encoded_len (b_len b) + 1) = Some s).
      * unfold b64_dup. cbn zeta. apply hoare_then. intros []; by apply hoare_ret.
      * intros [s|]; [|by apply hoare_ret]. intros w Hs. rewrite (Hs s eq_refl).
        unfold ehem_json_add_string, alloc, bind, malloc, ask, ret.
        destruct (p_malloc _); [|done]. intros obj [= <-]. by eexists.
    + intros [obj|]; [|by apply hoare_ret]. intros w Hobj.
      destruct (Hobj obj eq_refl) as (m & Hm & ->).
      specialize (IH (ms0 ++ [m]) w I).
      destruct (add_body_fields _ l w) as [[o| |] w']; [|done..].
      intros obj Ho. destruct (IH obj Ho) as (ms & Hms & ->).
      exists (m :: ms). cbn. rewrite Hm, Hms. cbn. by rewrite <- app_assoc.
Qed.

Lemma build_body_hoare l :
  hoare (fun _ => True) (build_body l) (fun b _ =>
    exists ms, mapM field_member l = Some ms /\ b = cJSON_Print (JObject ms)).
Proof.
  unfold build_body.
  eapply hoare_bind with (Q1 := fun o _ => forall b, o = Some b ->
    exists ms, mapM field_member l = Some ms /\ b = cJSON_Print (JObject ms)).
  - unfold ehem_json_new_object, alloc. intros w _. unfold bind at 2 3, malloc, ask, ret.
    unfold bind. destruct (p_malloc _); [|done].
    pose proof (add_body_fields_hoare l [] {| w_net := w_net w; w_tick := S (w_tick w);
      w_global_ready := w_global_ready w; w_ctx := w_ctx w; w_trace := w_trace w |} I) as H.
    unfold json_new_object.
    destruct (add_body_fields _ _ _) as [[[obj|]| |] w']; [|done..].
    destruct (H obj eq_refl) as (ms & Hms & ->). cbn.
    destruct (p_malloc _); [|done]. intros b [= <-]. by exists ms.
  - intros [b|]; [|apply fail_hoare]. apply hoare_ret. intros w H. by apply H.
Qed.
End Verdict.

Lemma is_hex_of_len_length n s : is_hex_of_len n s = true -> String.length s = n.
Proof.
  revert s; induction n as [|n IH]; intros [|a s]; cbn; try done.
  case_match; [|done]. intros Hs. f_equal. by apply IH.
Qed.

(** A key id is 32 characters, so no scope or path buffer truncates it. *)
Lemma use_scope_fits kid cap :
  ehem_proto_is_kid_hex kid = true -> (44 < cap)%nat ->
  use_scope cap kid = ("keymgmt:use:" +:+ kid)%string.
Proof.
  intros H%is_hex_of_len_length Hc. apply snprintf_trunc_fits.
  rewrite string_length_app, H. unfold EHEM_PROTO_KID_HEX_LEN. cbn. lia.
Qed.

Section VerdictLemma.
Context {P : Platform}.

(** A body for an accepted key id. *)
Definition built (kid : string) (fields : list body_field) (b : string) (_ : world) : Prop :=
  ehem_proto_is_kid_hex kid = true /\
  exists ms, mapM field_member fields = Some ms /\ b = cJSON_Print (JObject ms).

Lemma require_then {A} ok msg (k : M A) Q' :
  (ok = true -> hoare (fun _ => True) k Q') ->
  hoare (fun _ => True) (require ok msg ;;; k) Q'.
Proof.
  intros H. destruct ok; [|unfold require, arg_fail; intros w _; done].
  intros w _. apply (H eq_refl w I).
Qed.

Lemma build_hoare kid fields :
  ehem_proto_is_kid_hex kid = true ->
  hoare (fun _ => True) (build_body fields) (built kid fields).
Proof.
  intros Hk w _. pose proof (build_body_hoare fields w I) as Hb.
  destruct (build_body fields w) as [[] ?]; [|done..]. by split.
Qed.

(** What a local step of a call may do. *)
Definition quiet {A} (m : M A) : Prop :=
  forall w, match m w with (Diverge, _) => True | (_, w') => silent_since w w' end.

Lemma silent_trans w1 w2 w3 : silent_since w1 w2 -> silent_since w2 w3 -> silent_since w1 w3.
Proof. intros (? & ? & ?) (? & ? & ?). split; [by etrans|]. split; congruence. Qed.

Lemma quiet_ret {A} (a : A) : quiet (ret a).
Proof. intros w. by split. Qed.
Lemma quiet_throw {A} rc : quiet (throw (A:=A) rc).
Proof. intros w. by split. Qed.
Lemma quiet_bind {A B} (m : M A) (f : A -> M B) :
  quiet m -> (forall a, quiet (f a)) -> quiet (bind m f).
Proof.
  intros Hm Hf w. unfold bind. specialize (Hm w). destruct (m w) as [[a|rc|] w1]; [|done..].
  specialize (Hf a w1). destruct (f a w1) as [[] w2]; try done; by eapply silent_trans.
Qed.
Lemma mem_silent w w' : mem_step w w' -> w_net w' = w_net w -> silent_since w w'.
Proof.
  intros Hm Hn. split; [by apply (frame_mem (A:=fun _ _ => True))|].
  split; [apply (mem_trace _ _ Hm)|done].
Qed.
Lemma quiet_malloc : quiet malloc.
Proof. intros w. apply mem_silent; [by split|done]. Qed.
Lemma quiet_alloc {A} (a : A) : quiet (alloc a).
Proof. apply quiet_bind; [apply quiet_malloc|intros b; apply quiet_ret]. Qed.
Lemma quiet_fail {A} rc st p msg : quiet (ehem_ctx_fail (A:=A) rc st p msg).
Proof.
  intros w. pose proof (wp_ctx_fail (A:=A) rc st p msg (fun o w' =>
    match o with Diverge => True | _ => silent_since w w' end) w) as H.
  unfold wp in H. destruct (ehem_ctx_fail _ _ _ _ w) as [o w']. cbn in H.
  apply H. intros w1 p' Hc _ Ht Hn Hr. apply mem_silent; [|done].
  split; rewrite ?Hc; auto. congruence.
Qed.
Lemma quiet_require ok msg : quiet (require ok msg).
Proof. unfold require. destruct ok; [apply quiet_ret|apply quiet_fail]. Qed.
Lemma quiet_fields obj l : quiet (add_body_fields obj l).
Proof.
  revert obj; induction l as [|f l IH]; intros obj; [apply quiet_ret|]. cbn [add_body_fields].
  apply quiet_bind; [|intros []; [apply IH|apply quiet_ret]].
  destruct f; cbn [add_body_field]; try apply quiet_alloc.
  apply quiet_bind; [apply quiet_bind; [apply quiet_malloc|intros; apply quiet_ret]|].
  intros []; [apply quiet_alloc|apply quiet_ret].
Qed.
Lemma quiet_build l : quiet (build_body l).
Proof.
  apply quiet_bind; [|intros []; [apply quiet_ret|apply quiet_fail]].
  apply quiet_bind; [apply quiet_alloc|intros []; [|apply quiet_ret]].
  apply quiet_bind; [apply quiet_fields|intros []; [apply quiet_alloc|apply quiet_ret]].
Qed.

Lemma quiet_ask {A} (f : nat -> A) : quiet (ask f).
Proof. intros w. apply mem_silent; [by split|done]. Qed.
Lemma quiet_get_auth : quiet get_auth.
Proof. intros w. apply silent_refl. Qed.
Lemma quiet_get_ctx : quiet get_ctx.
Proof. intros w. apply silent_refl. Qed.
Lemma quiet_upd_auth f : quiet (upd_auth f).
Proof.
  intros w. split; [|done].
  by apply (frame_auth (R:=evolves) (A:=fun _ _ => True) w (f <$> auth (w_ctx w))).
Qed.
Lemma quiet_dup s : quiet (dup_str s).
Proof. apply quiet_bind; [apply quiet_ask|intros; apply quiet_ret]. Qed.
Lemma quiet_clear : quiet ehem_ctx_clear_error.
Proof. intros w. apply mem_silent; [by split|done]. Qed.
Lemma quiet_ensure_auth : quiet ensure_auth.
Proof.
  apply quiet_bind; [apply quiet_get_auth|intros []; [apply quiet_ret|]].
  apply quiet_bind; [apply quiet_malloc|intros []; [|apply quiet_ret]].
  apply quiet_bind; [|intros; apply quiet_ret]. intros w. split; [|done].
  by apply (frame_auth (R:=evolves) (A:=fun _ _ => True)).
Qed.

Lemma quiet_silent {A} (m : M A) w o w' :
  quiet m -> m w = (o, w') -> o <> Diverge -> silent_since w w'.
Proof. intros Hq E Ho. specialize (Hq w). rewrite E in Hq. by destruct o. Qed.

Lemma quiet_hoare {A} w0 (m : M A) Q' :
  quiet m -> hoare (fun _ => True) m Q' ->
  hoare (silent_since w0) m (fun a w => silent_since w0 w /\ Q' a w).
Proof.
  intros Hq Hm w Hw. specialize (Hq w). specialize (Hm w I).
  destruct (m w) as [[a| |] w']; [|done..]. split; [by eapply silent_trans|done].
Qed.

(** The verdict of a verify call. *)
Definition verdict (w0 : world) (path kid : string) (fields : list body_field) (w : world)
    : Prop :=
  ehem_proto_is_kid_hex kid = true /\
  exists ms, mapM field_member fields = Some ms /\
    affirmed w0 path (cJSON_Print (JObject ms)) ("keymgmt:use:" +:+ kid) w.

(** A verify call after its body: post, read the verdict. *)
Lemma post_verdict w0 path kid fields (build : M string) other :
  device_path path = true ->
  quiet build -> hoare (fun _ => True) build (built kid fields) ->
  (forall rc st, hoare (fun _ => True) (other rc st) (fun _ _ => False)) ->
  hoare (silent_since w0)
    (let* body := build in
     empty_200_ok (post_raw path body (use_scope 64 kid)) other)
    (fun _ => verdict w0 path kid fields).
Proof.
  intros Hp Hq Hb Ho. eapply hoare_bind; [apply (quiet_hoare _ _ _ Hq Hb)|].
  intros body w (Hw & Hk & ms & Hms & ->). rewrite use_scope_fits by (done || lia).
  pose proof (empty_200_ok_affirmed w0 path (cJSON_Print (JObject ms)) ("keymgmt:use:" +:+ kid)
    other Hp Ho w Hw) as Hv.
  destruct (empty_200_ok _ _ w) as [[] ?]; [|done..]. split; [done|]. by exists ms.
Qed.

(** A refusal on the way gives no verdict. *)
Lemma require_verdict {A} w0 ok msg (k : M A) Q' :
  (ok = true -> hoare (silent_since w0) k Q') ->
  hoare (silent_since w0) (require ok msg ;;; k) Q'.
Proof.
  intros H. destruct ok; [|unfold require, arg_fail; intros w _; done].
  intros w Hw. apply (H eq_refl w Hw).
Qed.

Lemma clear_verdict {A} w (k : M A) Q' :
  hoare (silent_since w) k Q' ->
  match (ehem_ctx_clear_error ;;; k) w with (Ok a, w') => Q' a w' | _ => True end.
Proof.
  intros H. apply (H (snd (ehem_ctx_clear_error w))). apply mem_silent; [by split|done].
Qed.
End VerdictLemma.

Lemma ok_case {B} (r : outcome unit * B) (Q' : B -> Prop) :
  match r with (Ok _, b) => Q' b | _ => True end -> let '(o, b) := r in o = Ok tt -> Q' b.
Proof. by destruct r as [[] ?]. Qed.

Ltac quiet_step :=
  first
    [ apply quiet_ret | apply quiet_throw | apply quiet_fail | apply quiet_dup | apply quiet_alloc
    | apply quiet_clear | apply quiet_ensure_auth | apply quiet_get_auth | apply quiet_get_ctx
    | apply quiet_upd_auth | apply quiet_malloc | apply quiet_ask
    | apply quiet_bind; [|intros ?] | case_match ].

Ltac solve_quiet :=
  repeat first
    [ apply quiet_ret | apply quiet_throw | apply quiet_fail | apply quiet_require
    | apply quiet_build | apply quiet_bind; [|intros ?] | case_match ].

Ltac solve_built :=
  repeat first
    [ apply build_hoare; assumption
    | apply require_then; intros ?
    | apply hoare_then; intros ? ].


(** A signature the device affirms with an empty 200. *)
Definition verify_world : @world (fake_platform []) :=
  fake_world [http_empty 200] true (Some (fake_session ("keymgmt:use:" +:+ KID_A) "tok")).


