(* ===== verification/SystemProps.v ===== *)
(** * What the system, storage and logger bindings guarantee

    Reboot, shutdown and wipeout drop what the device no longer honours; the
    logger file name cannot escape its route; the storage scope says what the
    arguments say. *)

From S2P Require Import Prelude Base64 Json World Logic Context Ejwt Proto Checkin.
From S2P Require Import AuthState Notify Ext Auth Session Fake Bindings Keymgmt.
From S2P Require Import KeymgmtProps Crypto CryptoProps System.

Open Scope hem_scope.

(** ** Reboot, shutdown, wipeout *)

Section Power.
Context {P : Platform} `{Q : !Request}.

(** After a call that returned, the run of its tail. *)
Lemma power_call_ok path scope w :
  match power_call path scope w with
  | (Ok _, w') =>
      (forall a, auth (w_ctx w') = Some a -> cache a = []) /\
      last_error (w_ctx w') = error_clear
  | _ => True
  end.
Proof.
  unfold power_call, bind, attempt, ehem_last_error. cbn.
  destruct (ehem_proto_request_raw _ _ _ _ _ _) as [[s|rc|] w1]; cbn; [| |done].
  - split; [|done]. destruct (auth (w_ctx w1)); cbn; [|done]. by intros a [= <-].
  - destruct (_ && _); [|done]. cbn.
    split; [|done]. destruct (auth (w_ctx w1)); cbn; [|done]. by intros a [= <-].
Qed.

Lemma wipeout_ok w :
  match ehem_system_wipeout w with
  | (Ok _, w') => auth (w_ctx w') = None /\ last_error (w_ctx w') = error_clear
  | _ => True
  end.
Proof.
  unfold ehem_system_wipeout, bind, attempt, ehem_last_error. cbn.
  destruct (ehem_proto_request_raw _ _ _ _ _ _) as [[s|rc|] w1]; cbn; [done| |done].
  by destruct (_ && _).
Qed.
End Power.

(** no stale credentials after the device went away.  A reboot or shutdown
    that reports success leaves no cached bearer, a wipeout that reports success
    leaves no session at all, and all three leave a clear error detail. *)
Theorem power_calls_drop_tokens {P : Platform} (w : world) :
  (match ehem_system_reboot w with
   | (Ok _, w') => (forall a, auth (w_ctx w') = Some a -> cache a = []) /\
                   last_error (w_ctx w') = error_clear
   | _ => True end) /\
  (match ehem_system_shutdown w with
   | (Ok _, w') => (forall a, auth (w_ctx w') = Some a -> cache a = []) /\
                   last_error (w_ctx w') = error_clear
   | _ => True end) /\
  (match ehem_system_wipeout w with
   | (Ok _, w') => auth (w_ctx w') = None /\ last_error (w_ctx w') = error_clear
   | _ => True end).
Proof. split_and!; [apply power_call_ok|apply power_call_ok|apply wipeout_ok]. Qed.

(** ** Storage and logger *)

(** The storage scope is its arguments: for a disk of 0..2 the 32-byte
    buffer holds [storage:disk<N>], with [:rw] exactly when writing is asked
    for, and different arguments give different scopes; any other disk is
    refused before anything is sent. *)
Theorem storage_scope_exact {P : Platform} (disk writable : Z) :
  (disk < 0 \/ 2 < disk ->
     refuses (ehem_storage_unlock disk writable) /\ refuses (ehem_storage_lock disk)) /\
  (forall suffix, 0 <= disk <= 2 -> suffix = ""%string \/ suffix = ":rw"%string ->
     storage_scope disk suffix = ("storage:disk" +:+ dec disk +:+ suffix)%string /\
     (forall disk' suffix', 0 <= disk' <= 2 -> suffix' = ""%string \/ suffix' = ":rw"%string ->
        storage_scope disk' suffix' = storage_scope disk suffix ->
        disk' = disk /\ suffix' = suffix)).
Proof.
  split.
  - intros H. split; unfold ehem_storage_unlock, ehem_storage_lock;
      apply refuses_clear, refuses_require; lia.
  - intros suffix Hd Hs.
    assert (disk = 0 \/ disk = 1 \/ disk = 2) as Hd' by lia.
    split; [destruct Hd' as [->|[->| ->]], Hs as [->| ->]; reflexivity|].
    intros disk' suffix' Hd2 Hs2.
    assert (disk' = 0 \/ disk' = 1 \/ disk' = 2) as Hd2' by lia.
    destruct Hd' as [->|[->| ->]], Hs as [->| ->], Hd2' as [->|[->| ->]], Hs2 as [->| ->];
      intros E; try discriminate E; done.
Qed.

Lemma storage_scope_exact_witness :
  @refuses (fake_platform []) unit (ehem_storage_lock 3) /\
  storage_scope 1 ":rw" = "storage:disk1:rw"%string.
Proof.
  split.
  - apply (@storage_scope_exact (fake_platform []) 3 0). right. reflexivity.
  - apply (@storage_scope_exact (fake_platform []) 1 0); [split; discriminate|by right].
Defined.

Lemma forallb_hex_no_slash s :
  string_forallb is_hex_char s = true -> strchr "/" s = None.
Proof.
  induction s as [|a s IH]; cbn; [done|]. intros [H1 H2]%andb_prop.
  destruct (Ascii.eqb_spec a "/") as [->|]; [by vm_compute in H1|]. by rewrite IH.
Qed.

(** A log file name cannot change the route.  [ehem_logger_get] either
    refuses locally, or performs exactly one request on [/api/logger/<id>]
    untruncated, with an id of at most 31 hex digits: no separator, and never
    the sibling route "list". *)
Theorem logger_get_route {P : Platform} (id : string) :
  refuses (ehem_logger_get (Some id) true) \/
  (strchr "/" id = None /\ id <> "list"%string /\ id <> ""%string /\ strlen id < 32 /\
   forall w, ehem_logger_get (Some id) true w =
     ehem_proto_request_raw EHEM_HTTP_GET ("/api/logger/" +:+ id) None (Some LOGGER_SCOPE)
       EHEM_TLS_REQ_DEFAULT (snd (ehem_ctx_clear_error w))).
Proof.
  unfold ehem_logger_get. destruct (is_empty id) eqn:E0; [left; apply refuses_throw|].
  destruct (string_forallb is_hex_char id) eqn:E1;
    [|left; apply refuses_clear, refuses_require; done].
  destruct (strlen id <? 32) eqn:E2;
    [|left; apply refuses_clear, refuses_require; intros _; by apply refuses_require].
  right. split; [by apply forallb_hex_no_slash|]. split; [by intros ->|].
  split; [by intros ->|]. split; [lia|]. intros w.
  rewrite snprintf_trunc_fits; [done|]. rewrite string_length_app.
  unfold strlen in E2. cbn. lia.
Qed.
