(* ===== verification/Confusion.v ===== *)
(** * The empty-200 confusion

    The one place where success is reported for a request that never left: an
    empty 200 to the token challenge reads as the device's own "done" or
    "valid". *)

From S2P Require Import Prelude Base64 Json World Logic Context Ejwt Proto Checkin.
From S2P Require Import AuthState Notify Ext Auth Session Fake Wire Bindings Keymgmt.
From S2P Require Import KeymgmtProps KeymgmtHonest Crypto CryptoProps System.

Open Scope hem_scope.

(** A logged-in passphrase session that holds no token yet, on a ready process,
    with the proactive check-in off or behind it; and a device that answers the
    token challenge with an empty 200 and is then in state [n']. *)
Record empty_challenge {P : Platform} (w : world) (n' : net) : Prop := {
  ec_session : exists a pass, auth (w_ctx w) = Some a /\ mobile a = false /\
    passphrase a = Some pass /\ cache a = [];
  ec_proactive : checkin_on_login (cfg (w_ctx w)) = false \/
                 checkin_on_login_done (w_ctx w) = true;
  ec_ready : w_global_ready w = true;
  ec_reply : exists resp, empty_200 resp /\
    replies (cfg (w_ctx w)) (w_net w) EHEM_HTTP_GET "/api/auth/token" None None
      EHEM_TLS_REQ_DEFAULT resp n'
}.

Section Lost.
Context {P : Platform}.

(** Nothing but the challenge was asked. *)
Definition only_challenged (w : world) (n' : net) (w' : world) : Prop :=
  w_net w' = n' /\ exists l req, w_trace w' = w_trace w ++ l /\ sends l = [req] /\
    req_method req = EHEM_HTTP_GET /\ req_path req = "/api/auth/token"%string.

Lemma sends_app l k : sends (l ++ k) = sends l ++ sends k.
Proof. apply omap_app. Qed.

Lemma request_n_unfold n m p b s o :
  @ehem_proto_request_raw P (request_n (S n)) m p b s o =
  request_raw_body (@checkin_quietly P (request_n n)) (@ehem_auth_ensure_token P (request_n n))
    (fun s => ehem_auth_invalidate (Some s)) m p b s o.
Proof. reflexivity. Qed.

(** The challenge fails the way an empty answer fails. *)
Lemma challenge_fails n w n' :
  empty_challenge w n' ->
  exists w', @ehem_proto_request_json P (request_n (S n)) EHEM_HTTP_GET AUTH_TOKEN_PATH None None
      EHEM_TLS_REQ_DEFAULT w = (Err EHEM_ERR_PROTOCOL, w') /\
    only_challenged w n' w' /\ http_status (last_error (w_ctx w')) = 200.
Proof.
  intros [_ _ _ (resp & [Hst Hb] & Hr)].
  destruct (request_forward (@checkin_quietly P (request_n n))
    (@ehem_auth_ensure_token P (request_n n)) (fun s => ehem_auth_invalidate (Some s))
    EHEM_HTTP_GET AUTH_TOKEN_PATH None None None EHEM_TLS_REQ_DEFAULT resp n' w w
    eq_refl eq_refl Hr ltac:(by left)) as (req & l & (Hm & Hp & _) & Hl & E).
  rewrite <- request_n_unfold in E. unfold ehem_proto_request_json, bind. rewrite E.
  set (wa := after w n' (l ++ [EvSend req])).
  assert (exists w', finish AUTH_TOKEN_PATH resp wa = (Err EHEM_ERR_PROTOCOL, w') /\
            w_net w' = n' /\ w_trace w' = w_trace wa /\
            http_status (last_error (w_ctx w')) = 200) as (w' & Ef & Hn & Ht & Hs).
  { unfold finish. rewrite Hst. cbn [Z.ltb Z.leb Z.compare orb Pos.compare Pos.compare_cont].
    destruct (resp_body resp) as [[|c raw]|]; [|discriminate Hb|];
      (eexists; split; [reflexivity|done]). }
  rewrite Ef. exists w'. split; [done|]. split; [|done]. split; [done|].
  exists (l ++ [EvSend req]), req. rewrite Ht, sends_app, Hl. by split_and!.
Qed.

Lemma acquire_fails n scope now w n' :
  empty_challenge w n' ->
  exists w', @acquire_token P (request_n (S n)) scope now false false w =
      (Ok (false, false, inr EHEM_ERR_PROTOCOL), w') /\
    only_challenged w n' w' /\ http_status (last_error (w_ctx w')) = 200.
Proof.
  intros Hec. destruct (challenge_fails n w n' Hec) as (w' & Ech & Hw' & Hs).
  exists w'. split; [|done]. unfold acquire_token. unfold bind at 1, attempt at 1.
  unfold ehem_global_init, bind at 1, get_global_ready. rewrite (ec_ready _ _ Hec). cbn [ret].
  unfold bind at 1, fetch_challenge. cbn zeta. unfold bind at 1, attempt at 1. rewrite Ech.
  unfold ehem_last_error, get_ctx, bind, ret. by rewrite Hs.
Qed.

(** So the session engine has no bearer to give. *)
Lemma bearer_fails n scope w n' :
  empty_challenge w n' ->
  exists w', @ehem_auth_ensure_token P (request_n (S n)) scope w = (Err EHEM_ERR_PROTOCOL, w') /\
    only_challenged w n' w' /\ http_status (last_error (w_ctx w')) = 200.
Proof.
  intros Hec. pose proof Hec as [(a & pass & Ha & Hm & Hp & Hcache) Hpro Hready _].
  assert (empty_challenge (at_tick (S (w_tick w)) w) n') as Hec1 by (by destruct Hec).
  destruct (acquire_fails n scope (p_time (w_tick w)) _ n' Hec1) as (w' & Eacq & Hw' & Hs).
  exists w'. split; [|done].
  unfold ehem_auth_ensure_token, get_auth, auth_now, bind at 1 2 3, get_ctx at 1, ask, ret at 1.
  cbn [fst snd]. rewrite Ha. unfold fresh_token. cbn [mbind option_bind]. rewrite Hcache.
  cbn [cache_find mbind option_bind]. rewrite Hm, Hp.
  change {| w_net := w_net w |} with (at_tick (S (w_tick w)) w).
  unfold acquire_passphrase, proactive_checkin, bind at 1 2, get_ctx at 1.
  assert (checkin_on_login (cfg (w_ctx w)) && negb (checkin_on_login_done (w_ctx w)) = false)
    as Hoff by (destruct Hpro as [E|E]; rewrite E; [done|by rewrite andb_false_r]).
  change (w_ctx (at_tick (S (w_tick w)) w)) with (w_ctx w). rewrite Hoff. cbn [andb ret].
  unfold bind at 1. rewrite Eacq.
  unfold ehem_last_error, bind, get_ctx, ret. by rewrite Hs.
Qed.

(** And a request for it fails the same way, unsent. *)
Lemma request_fails m p body scope ov w n' :
  empty_challenge w n' ->
  exists w', @ehem_proto_request_raw P session_request m p body (Some scope) ov w =
      (Err EHEM_ERR_PROTOCOL, w') /\
    only_challenged w n' w' /\ http_status (last_error (w_ctx w')) = 200.
Proof.
  intros Hec. destruct (bearer_fails 1 scope w n' Hec) as (w' & Ee & Hw).
  exists w'. split; [|done]. rewrite session_request_unfold.
  destruct Hec as [_ _ _ (resp & _ & t & _ & _ & Et & _)].
  unfold request_raw_body, bind at 1, ehem_ctx_transport, bind at 1, get_ctx at 1, ret at 1.
  rewrite Et. unfold bind at 1 2, acquire_bearer, bind at 1. by rewrite Ee.
Qed.

(** The call reported success having asked for nothing but a token. *)
Definition ok_but_unsent (m : M unit) (w : world) (n' : net) : Prop :=
  fst (m w) = Ok tt /\ only_challenged w n' (snd (m w)).

Lemma unsent_empty_200 m p body scope ov other w n' :
  empty_challenge w n' ->
  ok_but_unsent (empty_200_ok (@ehem_proto_request_raw P session_request m p body (Some scope) ov)
                   other) w n'.
Proof.
  intros Hec. destruct (request_fails m p body scope ov w n' Hec) as (w' & E & Hw & Hs).
  unfold ok_but_unsent. rewrite empty_200_ok_run, E. cbn zeta. by rewrite Hs.
Qed.
End Lost.

(** ** The calls *)

Section Bodies.
Context {P : Platform} (Hmem : forall n, p_malloc n = true).

Lemma parses_alloc {A} (a : A) : parses (alloc a) (Some a).
Proof. apply (parses_bind _ _ true); [by apply parses_malloc|apply parses_ret]. Qed.

Lemma parses_field ms f m :
  field_member f = Some m -> parses (add_body_field (JObject ms) f) (Some (JObject (ms ++ [m]))).
Proof.
  destruct f as [k v|k b|k v|k v]; cbn [field_member add_body_field].
  1, 3, 4: intros [= <-]; apply parses_alloc.
  unfold b64_dup. cbn zeta. destruct (ehem_b64_std_encode _ _ _ _) as [s|]; [|done].
  intros [= <-]. apply (parses_bind _ _ (Some s)); [|apply parses_alloc].
  apply (parses_bind _ _ true); [by apply parses_malloc|apply parses_ret].
Qed.

Lemma parses_fields l : forall ms0 ms,
  mapM field_member l = Some ms ->
  parses (add_body_fields (JObject ms0) l) (Some (JObject (ms0 ++ ms))).
Proof.
  induction l as [|f l IH]; intros ms0 ms; cbn [mapM add_body_fields].
  - intros [= <-]. rewrite app_nil_r. apply parses_ret.
  - destruct (field_member f) as [m|] eqn:Ef; [|done]. cbn.
    destruct (mapM field_member l) as [ms'|] eqn:El; [|done]. intros [= <-].
    apply (parses_bind _ _ (Some (JObject (ms0 ++ [m])))); [by apply parses_field|].
    specialize (IH (ms0 ++ [m]) ms' eq_refl). by rewrite <- app_assoc in IH.
Qed.

Lemma parses_build l ms :
  mapM field_member l = Some ms -> parses (build_body l) (cJSON_Print (JObject ms)).
Proof.
  intros Hms. apply (parses_bind _ _ (Some (cJSON_Print (JObject ms)))); [|apply parses_ret].
  apply (parses_bind _ _ (Some json_new_object)); [apply parses_alloc|].
  apply (parses_bind _ _ (Some (JObject ms))); [by apply (parses_fields l [] ms)|].
  apply parses_alloc.
Qed.

(** Local steps change nothing the confusion rests on. *)
Lemma unsent_then {A} (m : M A) (f : A -> M unit) a w n' :
  parses m a -> empty_challenge w n' ->
  (forall w, empty_challenge w n' -> ok_but_unsent (f a) w n') ->
  ok_but_unsent (bind m f) w n'.
Proof.
  intros Hm Hec Hf. destruct (Hm w) as [k E]. unfold ok_but_unsent, bind. rewrite E.
  apply (Hf (at_tick k w)). by destruct Hec.
Qed.

Lemma unsent_require ok msg (k : M unit) w n' :
  ok = true -> ok_but_unsent k w n' -> ok_but_unsent (require ok msg ;;; k) w n'.
Proof. by intros ->. Qed.

Lemma unsent_clear (k : M unit) w n' :
  empty_challenge w n' -> (forall w, empty_challenge w n' -> ok_but_unsent k w n') ->
  ok_but_unsent (ehem_ctx_clear_error ;;; k) w n'.
Proof. intros Hec Hk. apply (Hk (snd (ehem_ctx_clear_error w))). by destruct Hec. Qed.
End Bodies.

(** A buffer the caller filled. *)
Lemma buf_of_member k b : exists s, field_member (FieldB64 k (buf_of b)) = Some (k, JString s).
Proof.
  pose proof (std_encode_eq b) as E. unfold std_encode in E.
  cbn [field_member b_ptr b_len buf_of]. rewrite E. by eexists.
Qed.

Section Calls.
Context {P : Platform} (Hmem : forall n, p_malloc n = true) (w : world) (n' : net)
        (Hec : empty_challenge w n').

Lemma unsent_verify kid alg msg sig :
  ehem_proto_is_kid_hex kid = true -> alg <> ""%string ->
  1 <= Z.of_nat (length msg) <= EHEM_SIGN_MSG_MAX ->
  1 <= Z.of_nat (length sig) <= EHEM_VERIFY_SIG_MAX ->
  ok_but_unsent (ehem_verify (Some kid) (Some alg) (buf_of msg) no_buf (buf_of sig)) w n'.
Proof.
  intros Hk Ha Hm Hs. unfold ehem_verify. cbn [b_null buf_of b_ptr orb].
  apply unsent_clear; [done|intros w1 H1]. do 4 (apply unsent_require;
    [first [done | by destruct alg | unfold b_within; cbn [b_len buf_of]; lia]|]).
  apply unsent_require; [done|].
  destruct (buf_of_member "msg" msg) as [sm Em], (buf_of_member "sign" sig) as [ss Es].
  eapply unsent_then; [|exact H1|intros w2 H2; by apply unsent_empty_200].
  apply parses_build; [done|]. cbn [mapM opt_field b_given app]. by rewrite Em, Es.
Qed.

Lemma unsent_hmac_verify kid msg mac :
  ehem_proto_is_kid_hex kid = true ->
  1 <= Z.of_nat (length msg) <= EHEM_SIGN_MSG_MAX ->
  1 <= Z.of_nat (length mac) <= EHEM_HMAC_MAC_MAX ->
  ok_but_unsent (ehem_hmac_verify (Some kid) None (buf_of msg) (buf_of mac) None no_buf) w n'.
Proof.
  intros Hk Hm Hs. unfold ehem_hmac_verify. cbn [b_null buf_of b_ptr orb].
  apply unsent_clear; [done|intros w1 H1].
  destruct (buf_of_member "msg" msg) as [sm Em], (buf_of_member "mac" mac) as [ss Es].
  eapply unsent_then; [|exact H1|intros w2 H2; by apply unsent_empty_200].
  unfold hmac_build. assert (b_within 1 EHEM_SIGN_MSG_MAX (buf_of msg) = true /\
    b_within 1 EHEM_HMAC_MAC_MAX (buf_of mac) = true) as [-> ->]
    by (unfold b_within; cbn [b_len buf_of]; lia).
  rewrite Hk. cbn -[build_body mapM field_member].
  repeat (apply (parses_bind _ _ tt); [apply parses_ret|]).
  apply parses_build; [done|]. cbn [mapM]. by rewrite Em, Es.
Qed.

Lemma unsent_mldsa_verify kid msg sig :
  ehem_proto_is_kid_hex kid = true ->
  1 <= Z.of_nat (length msg) <= EHEM_SIGN_MSG_MAX ->
  1 <= Z.of_nat (length sig) <= EHEM_MLDSA_SIG_MAX ->
  ok_but_unsent (ehem_mldsa_verify (Some kid) (buf_of msg) no_buf (buf_of sig)) w n'.
Proof.
  intros Hk Hm Hs. unfold ehem_mldsa_verify. cbn [b_null buf_of b_ptr orb].
  apply unsent_clear; [done|intros w1 H1].
  destruct (buf_of_member "msg" msg) as [sm Em], (buf_of_member "sign" sig) as [ss Es].
  eapply unsent_then; [|exact H1|intros w2 H2; by apply unsent_empty_200].
  unfold mldsa_build. assert (b_within 1 EHEM_SIGN_MSG_MAX (buf_of msg) = true /\
    b_within 1 EHEM_MLDSA_SIG_MAX (buf_of sig) = true) as [-> ->]
    by (unfold b_within; cbn [b_len buf_of]; lia).
  rewrite Hk. cbn -[build_body mapM field_member].
  repeat (apply (parses_bind _ _ tt); [apply parses_ret|]).
  apply parses_build; [done|]. cbn [mapM]. by rewrite Em, Es.
Qed.

Lemma unsent_key_delete kid :
  ehem_proto_is_kid_hex kid = true -> ok_but_unsent (ehem_key_delete (Some kid)) w n'.
Proof.
  intros Hk. unfold ehem_key_delete. apply unsent_clear; [done|intros w1 H1].
  apply unsent_require; [done|]. by apply unsent_empty_200.
Qed.

Lemma unsent_storage disk writable :
  0 <= disk <= 2 ->
  ok_but_unsent (ehem_storage_lock disk) w n' /\
  ok_but_unsent (ehem_storage_unlock disk writable) w n'.
Proof.
  intros Hd. split; unfold ehem_storage_lock, ehem_storage_unlock;
    (apply unsent_clear; [done|intros w1 H1]); (apply unsent_require; [lia|]);
    by apply unsent_empty_200.
Qed.

Lemma unsent_power path scope : ok_but_unsent (power_call path scope) w n'.
Proof.
  unfold power_call. apply unsent_clear; [done|intros w1 H1].
  destruct (request_fails EHEM_HTTP_GET path None scope EHEM_TLS_REQ_DEFAULT w1 n' H1)
    as (w' & E & Hw & Hs).
  unfold ok_but_unsent, bind, attempt. rewrite E. unfold ehem_last_error, bind, get_ctx, ret.
  rewrite Hs. by split.
Qed.

Lemma unsent_wipeout : ok_but_unsent ehem_system_wipeout w n'.
Proof.
  unfold ehem_system_wipeout. apply unsent_clear; [done|intros w1 H1].
  destruct (request_fails EHEM_HTTP_POST "/api/system/config" (Some WIPEOUT_BODY)
    "system:config" EHEM_TLS_REQ_DEFAULT w1 n' H1) as (w' & E & Hw & Hs).
  unfold ok_but_unsent, bind, attempt. rewrite E. unfold ehem_last_error, bind, get_ctx, ret.
  rewrite Hs. by split.
Qed.
End Calls.


(** A fresh login, a device whose next answer is an empty 200. *)
Definition fresh_session : ehem_auth :=
  {| passphrase := Some "correct horse"; retain := true; username := None;
     mobile := false; cache := [] |}.
Definition fresh_world : @world (fake_platform []) :=
  fake_world [http_empty 200] false (Some fresh_session).

Lemma fresh_challenge :
  @empty_challenge (fake_platform []) fresh_world {| script := []; fs_expired := false |}.
Proof.
  split; [|by left|reflexivity|].
  - by exists fresh_session, "correct horse"%string.
  - exists {| resp_status := 200; resp_headers := []; resp_body := None |}.
    split; [by split|]. by eexists _, _, _.
Qed.

