(* ===== verification/DeviceInitProps.v ===== *)
(** * What a device initialisation guarantees

    The session [ehem_device_init] opens and what it rests on - the device's
    challenge, the token signed for it, the device's answer to the commit -,
    and the claims of that token. *)

From S2P Require Import Prelude Base64 Json World Logic Context Ejwt Proto Checkin.
From S2P Require Import AuthState Notify Ext Auth Session Fake Bindings DeviceInit.
From S2P Require Import SessionProps Wire KeymgmtProps CryptoProps.

Open Scope hem_scope.

(** ** The session *)

Section Opened.
Context {P : Platform}.

Lemma explain_not_ok {A} rc leg w (a : A) w' : init_explain rc leg w = (Ok a, w') -> False.
Proof.
  unfold init_explain, ehem_last_error, bind at 1 2, get_ctx at 1, ret at 1. cbv zeta.
  repeat case_match; intros E; try (by apply ehem_ctx_fail_ok in E); done.
Qed.

Definition config_token (token : string) (exp : Z) : token_entry :=
  {| te_scope := "system:config"; te_token := token; te_exp := exp |}.

Lemma fresh_config token exp s now :
  fresh_token (Some (auth_set_cache [config_token token exp] s)) "system:config" now
  = if now <? exp then Some token else None.
Proof. reflexivity. Qed.

(** The context holds the new credential and exactly one bearer. *)
Definition opened (c : ctx_config net) (pass token : string) (w : world) : Prop :=
  exists exp,
    auth (w_ctx w) = Some (auth_set_cache [config_token token exp] (login_session c pass)) /\
    forall e, decode_bearer_exp token = Some e -> exp = cache_expiry e.

Lemma opened_auth c pass token w w' :
  auth (w_ctx w') = auth (w_ctx w) -> opened c pass token w -> opened c pass token w'.
Proof. unfold opened. by intros ->. Qed.

Lemma ensure_auth_some w a : auth (w_ctx w) = Some a -> ensure_auth w = (Ok true, w).
Proof. intros E. unfold ensure_auth, get_auth, bind, get_ctx, ret. cbn. by rewrite E. Qed.

Lemma cache_seed_opens c pass token w :
  auth (w_ctx w) = Some (login_session c pass) ->
  match ehem_auth_cache_seed "system:config" token w with
  | (Ok _, w') => opened c pass token w' | _ => True end.
Proof.
  intros E. unfold ehem_auth_cache_seed, bind at 1. rewrite (ensure_auth_some w _ E). cbn [negb].
  set (real_exp := match decode_bearer_exp token with Some e => _ | None => _ end).
  assert (exists x w1, real_exp w = (Ok x, w1) /\ auth (w_ctx w1) = auth (w_ctx w) /\
            forall e, decode_bearer_exp token = Some e -> x = e) as (x & w1 & Hx & Ew & He).
  { unfold real_exp. destruct (decode_bearer_exp token) as [e|].
    - exists e, w. split_and!; [done|done|]. by intros ? [= <-].
    - unfold auth_now, ask, bind, ret. by eexists _, _. }
  unfold bind at 1. rewrite Hx. unfold bind.
  destruct (cache_put_run "system:config" token (cache_expiry x) w1 ltac:(by rewrite Ew, E))
    as (w2 & Hm & [->|(a & Ea & ->)]).
  - pose proof (ehem_ctx_fail_not_ok (A:=unit) EHEM_ERR_NOMEM 0 None "out of memory" w2) as Hn.
    destruct (ehem_ctx_fail _ _ _ _ _) as [[t| |] ?]; [by destruct (Hn t)|done..].
  - cbn. rewrite Ew, E in Ea. injection Ea as <-. exists (cache_expiry x). split; [done|].
    intros e Hd. by rewrite (He e Hd).
Qed.

(** *** Steps between the answers *)

Lemma quiet_init_session pass token : quiet (init_session pass token).
Proof.
  unfold init_session, ehem_login, ehem_auth_cache_seed, cache_put, auth_now. repeat quiet_step.
Qed.
Lemma quiet_init_info root i : quiet (init_info root i).
Proof. unfold init_info, calloc_or_fail, out_of_memory, opt_copy. repeat quiet_step. Qed.
Lemma quiet_string_body l : quiet (string_body l).
Proof.
  unfold string_body, ehem_json_new_object, ehem_json_print. generalize json_new_object.
  intros obj. apply quiet_bind; [apply quiet_alloc|intros [o|]; [|apply quiet_ret]].
  apply quiet_bind; [|intros [o'|]; [apply quiet_alloc|apply quiet_ret]].
  revert o; induction l as [|[k v] l IH]; intros o; [apply quiet_ret|]. cbn [json_add_strings].
  apply quiet_bind; [apply quiet_alloc|intros [o'|]; [apply IH|apply quiet_ret]].
Qed.

Definition init_body (jwt : string) : string := cJSON_Print (JObject [("init", JString jwt)]).

Lemma build_init_body_some jwt w s w' :
  build_init_body jwt w = (Ok (Some s), w') -> s = init_body jwt.
Proof.
  unfold build_init_body, string_body, json_add_strings, ehem_json_new_object,
    ehem_json_add_string, ehem_json_print, alloc, malloc, ask, bind, ret.
  cbn -[cJSON_Print p_malloc].
  destruct (p_malloc (w_tick w)); cbn -[cJSON_Print p_malloc]; [|done].
  destruct (p_malloc (S (w_tick w))); cbn -[cJSON_Print p_malloc]; [|done].
  destruct (p_malloc (S (S (w_tick w)))); cbn -[cJSON_Print p_malloc]; [|done].
  by intros [= <- _].
Qed.

(** *** What the device said *)

(** The members of the challenge, and the key in its [spk]. *)
Record challenge_of (root : json) (eid spk jti : string) (exp : Z) (peer : bytes) : Prop := {
  ch_eid : ehem_json_get_string (Some root) "eid" = Some eid;
  ch_spk : ehem_json_get_string (Some root) "spk" = Some spk;
  ch_jti : ehem_json_get_string (Some root) "jti" = Some jti;
  ch_exp : ehem_json_get_int64 (Some root) "exp" = Some exp;
  ch_peer : ehem_b64_std_decode (Some spk) (strlen spk) false 32 = Some peer;
  ch_len : length peer = 32%nat
}.

(** A text of the reply, or nothing where its copy could not be allocated. *)
Definition copied (root : json) (key : string) (o : option string) : Prop :=
  o = ehem_json_get_string (Some root) key \/ o = None.

(** The reply to the commit: the bearer in it, and what is handed out of it. *)
Record reply_of (root : json) (out : bool) (token : string) (info : option ehem_init_info)
    : Prop := {
  rp_token : ehem_json_get_string (Some root) "token" = Some token;
  rp_id : ehem_json_get_string (Some root) "instanceid" <> None;
  rp_info : match info with
            | None => out = false
            | Some i => out = true /\
                ehem_json_get_string (Some root) "instanceid" = Some (ii_instanceid i) /\
                ii_reboot_required i
                  = default false (ehem_json_get_bool (Some root) "reboot_required") /\
                copied root "csr" (ii_csr i) /\ copied root "genuine" (ii_genuine i)
            end
}.

Lemma opt_copy_copied root key w :
  match opt_copy root key w with (Ok o, _) => copied root key o | _ => True end.
Proof.
  unfold opt_copy, copied, dup_str, malloc, bind, ask, ret.
  destruct (ehem_json_get_string (Some root) key) as [s|]; cbn; [|by left].
  destruct (p_malloc _); cbn; by auto.
Qed.

Lemma init_info_reply root i w info w' :
  ehem_json_get_string (Some root) "instanceid" = Some i ->
  init_info root i w = (Ok info, w') ->
  ehem_json_get_string (Some root) "instanceid" = Some (ii_instanceid info) /\
  ii_reboot_required info = default false (ehem_json_get_bool (Some root) "reboot_required") /\
  copied root "csr" (ii_csr info) /\ copied root "genuine" (ii_genuine info).
Proof.
  intros Hi. unfold init_info, out_of_memory. intros (u & w1 & _ & E)%bind_inv.
  apply bind_inv in E as (uuid & w2 & Eu & E). apply bind_inv in E as (csr & w3 & Ec & E).
  apply bind_inv in E as (gen & w4 & Eg & E).
  pose proof (opt_copy_copied root "csr" w2) as Hc. rewrite Ec in Hc.
  pose proof (opt_copy_copied root "genuine" w3) as Hg. rewrite Eg in Hg.
  assert (uuid = Some i \/ uuid = None) as Hu.
  { revert Eu. unfold dup_str, malloc, ask, bind, ret. cbn.
    destruct (p_malloc _); intros [= <- _]; by auto. }
  destruct Hu as [->| ->]; [|by apply ehem_ctx_fail_ok in E].
  injection E as <- _. cbn. by split_and!.
Qed.

(** Since [w0]: the challenge was fetched; the init token was made for exactly
    it; the device answered the POST of that token last; and [token] and [info]
    are what it answered. *)
Definition commissioned (w0 : world) (p : ehem_init_params) (r : init_required) (out : bool)
    (token : string) (info : option ehem_init_info) (w : world) : Prop :=
  exists w1 w2 challenge eid spk jti exp peer jwt root,
    answered_json w0 EHEM_HTTP_GET AUTH_INIT_PATH None None EHEM_TLS_REQ_DEFAULT challenge w1 /\
    challenge_of challenge eid spk jti exp peer /\
    init_jwt p r eid jti spk exp peer w1 = (Ok jwt, w2) /\
    answered_json w2 EHEM_HTTP_POST AUTH_INIT_PATH (Some (init_body jwt)) None
      EHEM_TLS_REQ_DEFAULT root w /\
    reply_of root out token info.

(** *** The calls *)

Lemma explain_hoare {A} I rc leg (Q : A -> world -> Prop) : hoare I (init_explain rc leg) Q.
Proof.
  unfold init_explain. eapply hoare_bind; [apply hoare_any|]. intros e. cbv zeta.
  repeat case_match; apply hoare_throw || apply fail_hoare.
Qed.

Lemma init_path_ok : ok_args AUTH_INIT_PATH None EHEM_TLS_REQ_DEFAULT.
Proof. by apply ok_args_device. Qed.

Lemma init_json_evolves m b :
  keeps evolves (ehem_proto_request_json m AUTH_INIT_PATH b None EHEM_TLS_REQ_DEFAULT).
Proof. apply (keeps_init_json evolves (fun _ _ => True)). Qed.
Lemma init_jwt_evolves p r e j s x pub : keeps evolves (init_jwt p r e j s x pub).
Proof. apply (keeps_init_jwt evolves (fun _ _ => True)). Qed.

(** The answer to a request of either leg, the frame beside it. *)
Lemma init_json_answered m b w root w' :
  ehem_proto_request_json m AUTH_INIT_PATH b None EHEM_TLS_REQ_DEFAULT w = (Ok root, w') ->
  answered_json w m AUTH_INIT_PATH b None EHEM_TLS_REQ_DEFAULT root w' /\ evolves w w'.
Proof.
  intros E. pose proof (request_json_answered w m AUTH_INIT_PATH b None _ init_path_ok w eq_refl) as H.
  pose proof (init_json_evolves m b w) as He. rewrite E in H, He. split; [done|by apply He].
Qed.

Lemma init_session_opens pass token w o w' :
  init_session pass token w = (Ok o, w') -> opened (cfg (w_ctx w)) pass token w'.
Proof.
  unfold init_session, bind. destruct (ehem_login_run pass w) as (w1 & Hm & [->| ->]); [done|].
  pose proof (cache_seed_opens (cfg (w_ctx w)) pass token
    (with_ctx w1 (ctx_set_auth (Some (login_session (cfg (w_ctx w)) pass)) (w_ctx w1))) eq_refl) as H.
  intros E. by rewrite E in H.
Qed.

Lemma init_info_opened c pass token root i w o w' :
  opened c pass token w -> init_info root i w = (Ok o, w') -> opened c pass token w'.
Proof.
  intros Ho E. apply (opened_auth c pass token w); [|done].
  pose proof (keeps_init_info (on_auth eq) eq root i w) as H. rewrite E in H. symmetry. by apply H.
Qed.

(** From the reply on: the session and the info, nothing said. *)
Lemma init_reply_opens r root token (out : bool) instanceid w info w' :
  ehem_json_get_string (Some root) "token" = Some token ->
  ehem_json_get_string (Some root) "instanceid" = Some instanceid ->
  (init_session (ir_passphrase r) token ;;;
   if out then let* info := init_info root instanceid in ret (Some info) else ret None) w
    = (Ok info, w') ->
  opened (cfg (w_ctx w)) (ir_passphrase r) token w' /\ reply_of root out token info /\
  silent_since w w'.
Proof.
  intros Et Ei. unfold bind at 1.
  destruct (init_session _ _ w) as [[u| |] w1] eqn:Es; [|done..].
  pose proof (init_session_opens _ _ _ _ _ Es) as Ho.
  pose proof (quiet_silent _ _ _ _ (quiet_init_session _ _) Es ltac:(done)) as H1.
  destruct out.
  - unfold bind. destruct (init_info root instanceid w1) as [[i| |] w2] eqn:Ed; [|done..].
    intros [= <- <-]. split; [by eapply init_info_opened|]. split.
    + split; [done|congruence|]. split; [done|by eapply init_info_reply].
    + eapply silent_trans; [exact H1|].
      by apply (quiet_silent _ _ _ _ (quiet_init_info _ _) Ed).
  - intros [= <- <-]. split; [done|]. split; [|done]. split; [done|congruence|done].
Qed.

Lemma init_commit_opens r jwt out w info w' :
  init_commit r jwt out w = (Ok info, w') ->
  exists token root,
    opened (cfg (w_ctx w)) (ir_passphrase r) token w' /\
    answered_json w EHEM_HTTP_POST AUTH_INIT_PATH (Some (init_body jwt)) None
      EHEM_TLS_REQ_DEFAULT root w' /\
    reply_of root out token info.
Proof.
  unfold init_commit, out_of_memory, bind at 1. destruct (build_init_body jwt w) as [[[b|]| |] w1] eqn:Eb;
    [|intros E; by apply ehem_ctx_fail_ok in E|done..].
  pose proof (build_init_body_some _ _ _ _ Eb) as ->.
  destruct (quiet_silent _ _ _ _ (quiet_string_body _) Eb ltac:(done)) as (Hw1 & _ & _).
  unfold bind at 1, attempt at 1.
  destruct (ehem_proto_request_json _ _ _ _ _ w1) as [[root|rc|] w2] eqn:Er;
    [|intros E; by apply explain_not_ok in E|done].
  destruct (init_json_answered _ _ _ _ _ Er) as [Ha Hw2].
  destruct (ehem_json_get_string (Some root) "token") as [token|] eqn:Et;
    [|intros E; by apply ehem_ctx_fail_ok in E].
  destruct (ehem_json_get_string (Some root) "instanceid") as [i|] eqn:Ei;
    [|intros E; by apply ehem_ctx_fail_ok in E].
  intros E. destruct (init_reply_opens _ _ _ _ _ _ _ _ Et Ei E) as (Ho & Hr & _ & Htr & Hn).
  exists token, root. split_and!; [|eapply answered_json_from; [exact Hw1|by eapply answered_json_same]|done].
  destruct Hw1 as [Hc1 _ _ _ _ _], Hw2 as [Hc2 _ _ _ _ _]. by rewrite <- Hc1, <- Hc2.
Qed.

Lemma init_exchange_opens p r out w info w' :
  init_exchange p r out w = (Ok info, w') ->
  exists token, opened (cfg (w_ctx w)) (ir_passphrase r) token w' /\
    commissioned w p r out token info w'.
Proof.
  unfold init_exchange, bind at 1, attempt at 1.
  destruct (ehem_proto_request_json _ _ _ _ _ w) as [[ch|rc|] w1] eqn:Er;
    [|intros E; by apply explain_not_ok in E|done].
  destruct (init_json_answered _ _ _ _ _ Er) as [Ha Hw1].
  destruct (ehem_json_get_string (Some ch) "eid") as [eid|] eqn:E1;
    [|intros E; by apply ehem_ctx_fail_ok in E].
  destruct (ehem_json_get_string (Some ch) "spk") as [spk|] eqn:E2;
    [|intros E; by apply ehem_ctx_fail_ok in E].
  destruct (ehem_json_get_string (Some ch) "jti") as [jti|] eqn:E3;
    [|intros E; by apply ehem_ctx_fail_ok in E].
  destruct (ehem_json_get_int64 (Some ch) "exp") as [exp|] eqn:E4;
    [|intros E; by apply ehem_ctx_fail_ok in E].
  change (Z.of_nat EHEM_X25519_KEYSIZE) with 32.
  destruct (ehem_b64_std_decode (Some spk) (strlen spk) false 32) as [peer|] eqn:E5;
    [|intros E; by apply ehem_ctx_fail_ok in E].
  destruct (length peer =? EHEM_X25519_KEYSIZE)%nat eqn:E6;
    [|intros E; by apply ehem_ctx_fail_ok in E]. cbn [negb].
  unfold bind at 1, attempt at 1.
  destruct (init_jwt p r eid jti spk exp peer w1) as [[jwt|rc|] w2] eqn:Ej;
    [|intros E; by apply ehem_ctx_fail_ok in E|done].
  intros E. destruct (init_commit_opens _ _ _ _ _ _ E) as (token & root & Ho & Hb & Hr).
  pose proof (init_jwt_evolves p r eid jti spk exp peer w1) as Hw2. rewrite Ej in Hw2.
  destruct (Hw2 ltac:(done)) as [Hc2 _ _ _ _ _], Hw1 as [Hc1 _ _ _ _ _]. cbn in Hc2.
  exists token. split; [by rewrite <- Hc1, <- Hc2|].
  exists w1, w2, ch, eid, spk, jti, exp, peer, jwt, root.
  split_and!; [done|split; try done; by apply Nat.eqb_eq|done..].
Qed.

Lemma commissioned_from w0 w1 p r out token info w :
  evolves w0 w1 -> commissioned w1 p r out token info w -> commissioned w0 p r out token info w.
Proof.
  intros He (v1 & v2 & ch & eid & spk & jti & exp & peer & jwt & root & Ha & H).
  exists v1, v2, ch, eid, spk, jti, exp, peer, jwt, root.
  split; [by eapply answered_json_from|exact H].
Qed.

Lemma attempt_init_evolves : keeps evolves (attempt ehem_global_init).
Proof. solve_keeps. Qed.
End Opened.

(** C20: a successful [ehem_device_init] leaves the context logged in as the new
    user persona, on the device's word.  Every required parameter was present and
    both storage sizes positive (as far as the caller's struct reaches).  The
    device handed out a challenge; the init token was derived for exactly that
    challenge and POSTed; and the device's 2xx to that POST, the last thing
    exchanged, carries the bearer and every field of the info handed out.  The
    session is a passphrase session for the new passphrase under the retention
    rule, with exactly that bearer, for "system:config", expiring as it says; and
    as long as it is fresh the next configuration call gets it without any
    request. *)
Theorem device_init_opens_session {P : Platform} (params : option ehem_init_params)
    (out : bool) (info : option ehem_init_info) (w : world)
    (Hok : fst (ehem_device_init params out w) = Ok info) :
  let w' := snd (ehem_device_init params out w) in
  exists pp p r token exp,
    params = Some pp /\ p = init_params_read pp /\ init_required_fields p = Some r /\
    0 < ip_storage_mode p /\ 0 < ip_storage_disk0size p /\
    commissioned w p r out token info w' /\
    auth (w_ctx w') = Some
      {| passphrase := Some (ir_passphrase r);
         retain := negb (no_credential_retention (cfg (w_ctx w)));
         username := None; mobile := false;
         cache := [{| te_scope := "system:config"; te_token := token; te_exp := exp |}] |} /\
    (forall e, decode_bearer_exp token = Some e -> exp = cache_expiry e) /\
    (p_time (w_tick w') < exp ->
     fst (ehem_auth_ensure_token "system:config" w') = Ok token /\
     w_trace (snd (ehem_auth_ensure_token "system:config" w')) = w_trace w').
Proof.
  cbv zeta. revert Hok. unfold ehem_device_init.
  change (bind ehem_ctx_clear_error ?k w) with (k tt (snd (ehem_ctx_clear_error w))).
  pose proof (quiet_clear w) as Hw0. change (silent_since w (snd (ehem_ctx_clear_error w))) in Hw0.
  set (w0 := snd (ehem_ctx_clear_error w)) in *. cbv beta zeta.
  pose proof (ehem_ctx_fail_not_ok (A:=option ehem_init_info)) as Hf.
  destruct params as [pp|]; [|by intros ?%Hf].
  destruct (Z.ltb_spec (ip_abi_size pp) SIZEOF_abi_size); [by intros ?%Hf|].
  destruct (init_required_fields (init_params_read pp)) as [r|] eqn:Er; [|by intros ?%Hf].
  destruct (_ || _) eqn:Es; [by intros ?%Hf|].
  pose proof (attempt_init_evolves w0) as Hi. unfold bind.
  destruct (attempt ehem_global_init w0) as [[[u|rc]|rc|] w1]; [|by intros ?%Hf|done..].
  destruct (init_exchange (init_params_read pp) r out w1) as [o w'] eqn:Ex. cbn [fst snd].
  intros ->. destruct (init_exchange_opens _ _ _ _ _ _ Ex) as (token & (exp & Ha & He) & Hc).
  assert (evolves w w1) as Hw1 by (etrans; [apply Hw0|by apply Hi]).
  assert (cfg (w_ctx w1) = cfg (w_ctx w)) as Hcfg by (by destruct Hw1).
  rewrite Hcfg in Ha.
  exists pp, (init_params_read pp), r, token, exp.
  split_and!; [done..|lia|lia|by eapply commissioned_from|exact Ha|done|].
  intros Ht. unfold ehem_auth_ensure_token, get_auth, auth_now, bind, get_ctx, ask, ret.
  cbn [fst snd]. rewrite Ha, fresh_config, (proj2 (Z.ltb_lt _ _)) by lia. done.
Qed.

(** A device that hands out a challenge and accepts the commit. *)
Definition INIT_SPK : string := "AAAAAAAAAAAAAAAAAAAAAAAAAAAAAAAAAAAAAAAAAAA=".
Definition init_table : list (string * json) :=
  [("challenge", JObject [("eid", JString "EID"); ("spk", JString INIT_SPK);
                          ("jti", JString "J1");
                          ("exp", JNumber (double_of_int64 1790000060))]);
   ("done", JObject [("token", JString "tok"); ("instanceid", JString "uuid-1");
                     ("reboot_required", JBool true)])].
Definition init_world : @world (fake_platform init_table) :=
  fake_world [http 200 "challenge"; http 200 "done"] true None.
Definition init_params : ehem_init_params :=
  {| ip_abi_size := SIZEOF_ehem_init_params; ip_passphrase := Some "correct horse";
     ip_master_secret := Some (repeat 3 32); ip_user := Some "alice";
     ip_email := Some "a@example.com"; ip_hostname := Some "hem"; ip_ip := Some "10.0.0.2/24";
     ip_storage_mode := 1; ip_storage_disk0size := 1048576; ip_origin := None; ip_dnsd := 0;
     ip_no_trusted_ts := 0; ip_no_trusted_backend := 0; ip_no_allow_keysearch := 1;
     ip_gen_csr := 0; ip_ctx_id := 0 |}.

Lemma device_init_opens_session_witness :
  exists token exp,
    auth (w_ctx (snd (@ehem_device_init (fake_platform init_table) session_request
                        (Some init_params) true init_world))) = Some
      {| passphrase := Some "correct horse"%string; retain := true; username := None;
         mobile := false;
         cache := [{| te_scope := "system:config"; te_token := token; te_exp := exp |}] |}.
Proof.
  destruct (@device_init_opens_session (fake_platform init_table) (Some init_params) true
    (Some {| ii_reboot_required := true; ii_instanceid := "uuid-1"; ii_csr := None;
             ii_genuine := None |}) init_world)
    as (pp & p & r & token & exp & Hpp & Hp & Hr & _ & _ & _ & Ha & _).
  - vm_compute. reflexivity.
  - exists token, exp. injection Hpp as <-. subst p. injection Hr as <-. exact Ha.
Defined.

(** ** The token *)

(** Any compact token the SDK signs: two segments that decode to the header and
    the payload and a third that encodes the MAC of both under the key, in a
    form the SDK's own reader takes apart again. *)
Definition signed_by {P : Platform} (header payload : string) (key : bytes) (token : string)
    : Prop :=
  exists hs ps sig n mac,
    token = hs +:+ "." +:+ ps +:+ "." +:+ sig /\
    (forall cap, strlen header <= cap ->
       ehem_b64url_decode (Some hs) (strlen hs) false cap = Some (bytes_of_string header)) /\
    (forall cap, strlen payload <= cap ->
       ehem_b64url_decode (Some ps) (strlen ps) false cap = Some (bytes_of_string payload)) /\
    p_hmac_sha256 n key (bytes_of_string (hs +:+ "." +:+ ps)) = (EHEM_OK, mac) /\
    ehem_b64url_encode (Some mac) 32 false 44 = Some sig /\
    jwt_payload_segment token = Some ps.

Section Token.
Context {P : Platform}.

Lemma append_assoc_str s t u : (s +:+ t) +:+ u = s +:+ t +:+ u.
Proof. induction s as [|c s IH]; [done|]. by rewrite !append_cons, IH. Qed.

Lemma url_segment_decodes (s : string) cap seg n :
  url_encode (bytes_of_string s) cap = Some seg -> strlen s <= n ->
  ehem_b64url_decode (Some seg) (strlen seg) false n = Some (bytes_of_string s).
Proof.
  intros ->%url_encode_some Hn. apply (decode_encode_loop B64_URL_ALPHA false).
  - apply bytes_of_string_range.
  - by rewrite length_bytes_of_string.
Qed.

Lemma sign_compact_signed header payload key :
  hoare (fun _ => True) (sign_compact header payload key)
    (fun token _ => signed_by header payload key token).
Proof.
  intros w _. unfold sign_compact, bind at 1, malloc, ask. cbn [fst snd].
  destruct (url_encode (bytes_of_string header) 256) as [hs|] eqn:Eh; [|done].
  destruct (p_malloc (w_tick w)); [|done].
  destruct (url_encode (bytes_of_string payload) _) as [ps|] eqn:Ep; [|done].
  unfold bind at 1. cbn [fst snd w_tick]. destruct (p_malloc (S (w_tick w))); [|done].
  cbn [negb]. unfold bind. cbn [fst snd w_tick].
  destruct (p_hmac_sha256 _ _ _) as [rc mac] eqn:Em. unfold check_rc. cbn [fst snd].
  destruct rc; try done. unfold ret at 1.
  change (ehem_b64url_encoded_len (Z.of_nat EHEM_SHA256_SIZE) + 1) with 44.
  change (Z.of_nat EHEM_SHA256_SIZE) with 32.
  destruct (ehem_b64url_encode (Some mac) 32 false 44) as [sig|] eqn:Es; [|done].
  cbn [ret]. exists hs, ps, sig, (S (S (w_tick w))), mac.
  rewrite !append_assoc_str. split_and!; [done| | |done|done|].
  - intros cap Hc. by eapply url_segment_decodes.
  - intros cap Hc. by eapply url_segment_decodes.
  - apply url_encode_some in Eh, Ep. unfold jwt_payload_segment.
    assert (forall x, "." +:+ x = String "." x) as Hdot by done.
    rewrite !Hdot, Eh, strchr_dot by apply url_text_plain. cbn [mbind option_bind].
    by rewrite Ep, strchr_dot by apply url_text_plain.
Qed.
End Token.

(** The claims of the init token, read off the firmware's contract: the five
    registered ones and the whole [cfg], every member present whatever the
    parameters are. *)
Definition init_claims (p : ehem_init_params) (r : init_required) (jti spk : string)
    (exp now : Z) (master_b64 user_b64 : string) : json :=
  let num v := JNumber (double_of_int64 v) in
  JObject
    [("jti", JString jti); ("aud", JString spk); ("exp", num exp); ("iat", num now);
     ("iss", JString master_b64);
     ("cfg", JObject
       [("masterkey", JString master_b64); ("userkey", JString user_b64);
        ("user", JString (ir_user r)); ("email", JString (ir_email r));
        ("hostname", JString (ir_hostname r)); ("ip", JString (ir_ip r));
        ("storage_mode", num (ip_storage_mode p));
        ("storage_disk0size", num (ip_storage_disk0size p));
        ("dnsd", JBool (negb (ip_dnsd p =? 0)));
        ("trusted_ts", JBool (ip_no_trusted_ts p =? 0));
        ("trusted_backend", JBool (ip_no_trusted_backend p =? 0));
        ("allow_keysearch", JBool (ip_no_allow_keysearch p =? 0));
        ("origin", JString (default "*" (ip_origin p)));
        ("ctx", num (ip_ctx_id p)); ("gen_csr", JBool (negb (ip_gen_csr p =? 0)))])].

Section Claims.
Context {P : Platform}.

(** Inversion of a call that returned. *)
Lemma ask_check_ok {A B} (f : nat -> ehem_rc * A) (k : A -> M B) w b w' :
  bind (ask f) (fun x => bind (check_rc x) k) w = (Ok b, w') ->
  exists a, f (w_tick w) = (EHEM_OK, a) /\ k a (at_tick (S (w_tick w)) w) = (Ok b, w').
Proof.
  unfold bind, ask, check_rc. cbn [fst snd].
  destruct (f (w_tick w)) as [rc a]. destruct rc; cbn; try done. by exists a.
Qed.
Lemma ask_ok {A B} (f : nat -> A) (k : A -> M B) w b :
  fst (bind (ask f) k w) = Ok b -> fst (k (f (w_tick w)) (at_tick (S (w_tick w)) w)) = Ok b.
Proof. done. Qed.
Lemma attempt_ok {A B} (m : M A) (k : A + ehem_rc -> M B) w b :
  fst (bind (attempt m) k w) = Ok b ->
  exists d w1, ((exists a, d = inl a /\ m w = (Ok a, w1)) \/
                (exists rc, d = inr rc /\ m w = (Err rc, w1))) /\
               fst (k d w1) = Ok b.
Proof.
  unfold bind, attempt. destruct (m w) as [[a|rc|] w1]; intros H; [..|done].
  - exists (inl a), w1. split; [left; by exists a|done].
  - exists (inr rc), w1. split; [right; by exists rc|done].
Qed.

Lemma alloc_then {A B} (a : A) (f : A -> M (option B)) (Q : B -> Prop) :
  hoare (fun _ => True) (f a) (fun o _ => forall b, o = Some b -> Q b) ->
  hoare (fun _ => True) (let? x := alloc a in f x) (fun o _ => forall b, o = Some b -> Q b).
Proof.
  intros H. unfold alloc. intros w _. unfold bind, malloc, ask. cbn [fst snd].
  destruct (p_malloc _); cbn [ret]; [|done]. by apply H.
Qed.

Lemma init_payload_claims p r jti spk exp now m u :
  hoare (fun _ => True) (init_payload p r jti spk exp now m u) (fun o _ =>
    forall s, o = Some s -> s = cJSON_Print (init_claims p r jti spk exp now m u)).
Proof.
  unfold init_payload, ehem_json_new_object, ehem_json_add_string, ehem_json_add_int64,
    json_new_object.
  do 6 apply alloc_then. unfold init_add_cfg, ehem_json_new_object.
  eapply hoare_bind with (Q1 := fun o _ => forall obj, o = Some obj ->
    obj = init_claims p r jti spk exp now m u).
  - apply alloc_then. unfold json_new_object.
    eapply hoare_bind; [apply add_body_fields_hoare|].
    intros [obj|]; [|by apply hoare_ret]. apply hoare_ret. intros w H.
    destruct (H obj eq_refl) as (ms & Hms & ->). intros obj' [= <-].
    cbn in Hms. injection Hms as <-. reflexivity.
  - intros [obj|]; [|by apply hoare_ret]. intros w H. rewrite (H obj eq_refl).
    unfold ehem_json_print, alloc, bind, malloc, ask. cbn [fst snd].
    destruct (p_malloc _); cbn [ret]; [|done]. by intros s [= <-].
Qed.
End Claims.

(** C21: the credential of a device initialisation.  A token that [init_jwt]
    returns claims the challenge's [jti] and expiry, the device as audience, the
    master public key as issuer and the complete [cfg] object with the public
    keys of both personas - the user key being PBKDF2 of the passphrase under
    the device's [eid] - and is signed with the ECDH secret of the master key
    and the device.  The SDK's own reader finds the payload segment in it, and
    decoding the first two segments gives the printed header and the printed
    claims, byte for byte.  The header carries [alg] and [typ] beside the
    {"ecdh":"x25519"} that the public header file documents. *)
Theorem init_jwt_claims {P : Platform} (p : ehem_init_params) (r : init_required)
    (eid jti spk : string) (exp : Z) (peer_pub : bytes) (jwt : string) (w : world)
    (Hok : fst (init_jwt p r eid jti spk exp peer_pub w) = Ok jwt) :
  exists seed user_priv user_pub master_priv master_pub shared user_b64 master_b64,
    let t := w_tick w in
    p_kdf_pbkdf2_sha256 t (bytes_of_string (ir_passphrase r)) (bytes_of_string eid) 600000
      = (EHEM_OK, seed) /\
    p_x25519_keypair_from_seed (S t) seed = (EHEM_OK, (user_priv, user_pub)) /\
    p_x25519_keypair_from_seed (S (S t)) (take 32 (ir_master_secret r))
      = (EHEM_OK, (master_priv, master_pub)) /\
    p_x25519_shared (S (S (S t))) master_priv peer_pub = (EHEM_OK, shared) /\
    ehem_b64_std_encode (Some user_pub) 32 false 64 = Some user_b64 /\
    ehem_b64_std_encode (Some master_pub) 32 false 64 = Some master_b64 /\
    signed_by EHEM_EJWT_HEADER
      (cJSON_Print (init_claims p r jti spk exp (p_time (S (S (S (S t))))) master_b64 user_b64))
      shared jwt.
Proof.
  unfold init_jwt in Hok.
  apply attempt_ok in Hok as (d & w1 & Hd & Hok).
  apply ask_ok in Hok. destruct d as [[[shared m] u]|rc]; [|done].
  destruct Hd as [(d & [= <-] & Hd)|(rc & [=] & _)].
  unfold init_derive in Hd.
  apply ask_check_ok in Hd as (seed & E1 & Hd).
  apply ask_check_ok in Hd as ([up user_pub] & E2 & Hd).
  apply ask_check_ok in Hd as ([mp master_pub] & E3 & Hd).
  apply ask_check_ok in Hd as (shared' & E4 & Hd).
  cbn [at_tick w_tick] in *.
  change (Z.of_nat EHEM_X25519_KEYSIZE) with 32 in Hd.
  destruct (ehem_b64_std_encode (Some master_pub) 32 false 64) as [m'|] eqn:E5; [|done].
  destruct (ehem_b64_std_encode (Some user_pub) 32 false 64) as [u'|] eqn:E6; [|done].
  injection Hd as <- <- <- <-. cbn [at_tick w_tick] in Hok.
  exists seed, up, user_pub, mp, master_pub, shared', u', m'.
  split_and!; [done..|].
  revert Hok. set (now := p_time _). set (w2 := at_tick _ _).
  pose proof (init_payload_claims p r jti spk exp now m' u' w2 I) as Hp. unfold bind.
  destruct (init_payload p r jti spk exp now m' u' w2) as [[[s|]| |] w3]; [|done..].
  rewrite (Hp s eq_refl). unfold ehem_ejwt_sign. case_match; [done|].
  pose proof (sign_compact_signed EHEM_EJWT_HEADER
    (cJSON_Print (init_claims p r jti spk exp now m' u')) shared' w3 I) as Hs.
  destruct (sign_compact _ _ _ w3) as [[t| |] w4]; [|done..]. cbn. by intros [= <-].
Qed.

Lemma init_jwt_claims_witness :
  exists jwt seed,
    @p_kdf_pbkdf2_sha256 (fake_platform init_table) 0 (bytes_of_string "correct horse")
      (bytes_of_string "EID") 600000 = (EHEM_OK, seed) /\
    jwt_payload_segment jwt = Some "e30"%string.
Proof.
  destruct (init_required_fields init_params) as [r|] eqn:Er; [|discriminate].
  destruct (fst (@init_jwt (fake_platform init_table) init_params r "EID" "J1" INIT_SPK
                   1790000060 (repeat 0 32) init_world)) as [jwt|rc|] eqn:E;
    [|vm_compute in Er; injection Er as <-; vm_compute in E; discriminate
     |vm_compute in Er; injection Er as <-; vm_compute in E; discriminate].
  destruct (@init_jwt_claims (fake_platform init_table) init_params r "EID" "J1" INIT_SPK
              1790000060 (repeat 0 32) jwt init_world E)
    as (seed & up & pub & mp & mpub & sh & u & m & E1 & _ & _ & _ & _ & _ & Hs).
  exists jwt, seed. split; [exact E1|].
  vm_compute in Er. injection Er as <-. vm_compute in E. injection E as <-.
  vm_compute. reflexivity.
Defined.
