(* ===== verification/Mem.v ===== *)
(** * C memory

    Blocks, pointers and the calls on them, for the components whose ownership
    of memory is modelled explicitly.  A block holds the bytes of a [char]
    buffer or one object of the component's struct type; freed blocks are kept
    aside with their last content and their addresses are never handed out
    again, so that a use after free or a second free is [Undefined] and what was
    left in released memory can be looked at. *)

From stdpp Require Import gmap.
From S2P Require Import Prelude World.

Definition ptr := option positive.

Inductive cell (S : Type) := CBytes (b : bytes) | CStruct (s : S).
Arguments CBytes {S} b.
Arguments CStruct {S} s.

Record cmem (S : Type) := {
  live : gmap positive (cell S);
  dead : gmap positive (cell S)
}.
Arguments live {S}.
Arguments dead {S}.

(** How a run ends: with a result, in undefined behaviour, or out of fuel. *)
Inductive crun (S A : Type) := Done (a : A) (t : nat) (m : cmem S) | Undefined | NoFuel.
Arguments Done {S A} a t m.
Arguments Undefined {S A}.
Arguments NoFuel {S A}.

(** [t] is the tick of [World]: each allocation advances it. *)
Definition C (S A : Type) : Type := nat -> cmem S -> crun S A.

(** A string as it lies in memory. *)
Definition c_string (s : string) : bytes := bytes_of_string s ++ [0].
Definition nul_free (s : string) : Prop := Forall (fun b => b <> 0) (bytes_of_string s).
#[export] Instance nul_free_dec s : Decision (nul_free s).
Proof. unfold nul_free. apply _. Defined.

(** [strlen]: nothing if no NUL is found before the end of the block. *)
Fixpoint find_nul (b : bytes) : option nat :=
  match b with
  | [] => None
  | x :: b => if x =? 0 then Some O else S <$> find_nul b
  end.

(** The string before the first NUL. *)
Definition read_string (b : bytes) : option string :=
  n ← find_nul b; Some (string_of_bytes (take n b)).

(** [memset(p, 0, n)] inside a block. *)
Definition zero_prefix (n : nat) (b : bytes) : bytes := repeat 0 n ++ drop n b.

Section Mem.
Context {P : Platform} {S : Type}.

Definition cret {A} (a : A) : C S A := Done a.
Definition undefined {A} : C S A := fun _ _ => Undefined.
Definition no_fuel {A} : C S A := fun _ _ => NoFuel.
Definition cbind {A B} (c : C S A) (f : A -> C S B) : C S B := fun t m =>
  match c t m with
  | Done a t m => f a t m
  | Undefined => Undefined
  | NoFuel => NoFuel
  end.

Definition with_live (l : gmap positive (cell S)) (m : cmem S) : cmem S :=
  {| live := l; dead := dead m |}.

(** [malloc] or [calloc], with the content the caller writes at once. *)
Definition allocate (c : cell S) : C S ptr := fun t m =>
  if p_malloc t then
    let l := fresh (dom (live m) ∪ dom (dead m)) in
    Done (Some l) (Datatypes.S t) (with_live (<[l := c]> (live m)) m)
  else Done None (Datatypes.S t) m.

Definition free (p : ptr) : C S unit := fun t m =>
  match p with
  | None => Done tt t m
  | Some l =>
      match live m !! l with
      | Some c => Done tt t {| live := delete l (live m); dead := <[l := c]> (dead m) |}
      | None => Undefined
      end
  end.

Definition load (p : ptr) : C S (cell S) := fun t m =>
  match p ≫= (live m !!.) with Some c => Done c t m | None => Undefined end.

Definition store (p : ptr) (c : cell S) : C S unit := fun t m =>
  match p with
  | Some l =>
      match live m !! l with
      | Some _ => Done tt t (with_live (<[l := c]> (live m)) m)
      | None => Undefined
      end
  | None => Undefined
  end.

Definition load_struct (p : ptr) : C S S :=
  cbind (load p) (fun c => match c with CStruct s => cret s | CBytes _ => undefined end).
Definition load_bytes (p : ptr) : C S bytes :=
  cbind (load p) (fun c => match c with CBytes b => cret b | CStruct _ => undefined end).

Definition strdup (s : string) : C S ptr := allocate (CBytes (c_string s)).

Definition strlen_at (p : ptr) : C S nat :=
  cbind (load_bytes p) (fun b =>
    match find_nul b with Some n => cret n | None => undefined end).

Definition string_at (p : ptr) : C S string :=
  cbind (load_bytes p) (fun b =>
    match read_string b with Some s => cret s | None => undefined end).

(** [ehem_zeroize(p, n)], within the block. *)
Definition zeroize (p : ptr) (n : nat) : C S unit :=
  match p with
  | None => cret tt
  | Some _ =>
      cbind (load_bytes p) (fun b =>
        if (n <=? length b)%nat then store p (CBytes (zero_prefix n b)) else undefined)
  end.

(** A loop over live blocks visits each at most once. *)
Definition fuelled {A} (f : nat -> C S A) : C S A := fun t m =>
  f (Datatypes.S (size (live m))) t m.

(** ** Total correctness: the run ends, without undefined behaviour, in [Q] *)

Definition cwp {A} (c : C S A) (Q : A -> nat -> cmem S -> Prop) (t : nat) (m : cmem S) : Prop :=
  match c t m with Done a t' m' => Q a t' m' | _ => False end.

Lemma cwp_mono {A} (c : C S A) (Q Q' : A -> nat -> cmem S -> Prop) t m :
  cwp c Q t m -> (forall a t' m', Q a t' m' -> Q' a t' m') -> cwp c Q' t m.
Proof. unfold cwp. destruct (c t m); auto. Qed.

Lemma cwp_done {A} (c : C S A) (Q : A -> nat -> cmem S -> Prop) t m :
  cwp c Q t m -> exists a t' m', c t m = Done a t' m' /\ Q a t' m'.
Proof. unfold cwp. destruct (c t m); [eauto|done..]. Qed.

Lemma cwp_ret {A} (a : A) Q t m : Q a t m -> cwp (cret a) Q t m.
Proof. done. Qed.

Lemma cwp_bind {A B} (c : C S A) (f : A -> C S B) Q t m :
  cwp c (fun a => cwp (f a) Q) t m -> cwp (cbind c f) Q t m.
Proof. unfold cwp, cbind. by destruct (c t m). Qed.

Lemma cwp_allocate c Q t m :
  (p_malloc t = false -> Q None (Datatypes.S t) m) ->
  (forall l, p_malloc t = true -> live m !! l = None -> dead m !! l = None ->
     Q (Some l) (Datatypes.S t) (with_live (<[l := c]> (live m)) m)) ->
  cwp (allocate c) Q t m.
Proof.
  intros Hn Hs. unfold cwp, allocate. destruct (p_malloc t); [|by apply Hn].
  pose proof (is_fresh (dom (live m) ∪ dom (dead m))) as Hf.
  apply not_elem_of_union in Hf as [Hl Hd].
  apply Hs; [done|by apply not_elem_of_dom..].
Qed.

Lemma cwp_free_null Q t m : Q tt t m -> cwp (free None) Q t m.
Proof. done. Qed.

Lemma cwp_free l c Q t m :
  live m !! l = Some c ->
  Q tt t {| live := delete l (live m); dead := <[l := c]> (dead m) |} ->
  cwp (free (Some l)) Q t m.
Proof. intros E. unfold cwp, free. by rewrite E. Qed.

Lemma cwp_store l c c' Q t m :
  live m !! l = Some c' -> Q tt t (with_live (<[l := c]> (live m)) m) ->
  cwp (store (Some l) c) Q t m.
Proof. intros E. unfold cwp, store. by rewrite E. Qed.

Lemma cwp_load_struct l s Q t m :
  live m !! l = Some (CStruct s) -> Q s t m -> cwp (load_struct (Some l)) Q t m.
Proof. intros E HQ. unfold cwp, load_struct, cbind, load. cbn. by rewrite E. Qed.

Lemma cwp_load_bytes l b Q t m :
  live m !! l = Some (CBytes b) -> Q b t m -> cwp (load_bytes (Some l)) Q t m.
Proof. intros E HQ. unfold cwp, load_bytes, cbind, load. cbn. by rewrite E. Qed.

Lemma find_nul_string s : nul_free s -> find_nul (c_string s) = Some (String.length s).
Proof.
  unfold nul_free, c_string. rewrite <- (length_bytes_of_string s).
  induction (bytes_of_string s) as [|x b IH]; intros H; [done|].
  apply Forall_cons in H as [Hx Hb]. cbn. apply Z.eqb_neq in Hx as ->. by rewrite IH.
Qed.

Lemma read_string_string s : nul_free s -> read_string (c_string s) = Some s.
Proof.
  intros H. unfold read_string. rewrite find_nul_string by done. cbn.
  unfold c_string. rewrite take_app_length' by (by rewrite length_bytes_of_string).
  by rewrite string_of_bytes_of_string.
Qed.

Lemma cwp_strlen l s Q t m :
  live m !! l = Some (CBytes (c_string s)) -> nul_free s -> Q (String.length s) t m ->
  cwp (strlen_at (Some l)) Q t m.
Proof.
  intros E Hs HQ. unfold strlen_at. apply cwp_bind, (cwp_load_bytes _ _ _ _ _ E).
  by rewrite find_nul_string.
Qed.

Lemma cwp_string l s Q t m :
  live m !! l = Some (CBytes (c_string s)) -> nul_free s -> Q s t m ->
  cwp (string_at (Some l)) Q t m.
Proof.
  intros E Hs HQ. unfold string_at. apply cwp_bind, (cwp_load_bytes _ _ _ _ _ E).
  by rewrite read_string_string.
Qed.

(** Wiping a string leaves zeros only: its own bytes, and the NUL. *)
Lemma zero_prefix_string s :
  zero_prefix (String.length s) (c_string s) = repeat 0 (Datatypes.S (String.length s)).
Proof.
  unfold zero_prefix, c_string.
  rewrite drop_app_length' by (by rewrite length_bytes_of_string).
  by rewrite <- repeat_cons.
Qed.

Lemma cwp_zeroize l s Q t m :
  live m !! l = Some (CBytes (c_string s)) ->
  Q tt t (with_live (<[l := CBytes (repeat 0 (Datatypes.S (String.length s)))]> (live m)) m) ->
  cwp (zeroize (Some l) (String.length s)) Q t m.
Proof.
  intros E HQ. unfold zeroize. apply cwp_bind, (cwp_load_bytes _ _ _ _ _ E).
  assert (length (c_string s) = Datatypes.S (String.length s)) as Hl.
  { unfold c_string. rewrite length_app, length_bytes_of_string. cbn. lia. }
  rewrite Hl. destruct (Nat.leb_spec (String.length s) (Datatypes.S (String.length s))); [|lia].
  rewrite zero_prefix_string. by apply (cwp_store _ _ _ _ _ _ E).
Qed.

(** ** Footprints

    [footprint L m L' m']: an operation that owned the blocks [L] of [m] owns
    [L'] of [m'].  Whatever it gave up is no longer live, whatever it gained was
    not, and every other block is as it was: nothing leaked, nothing of anybody
    else's was touched. *)

Definition footprint (L : list positive) (m : cmem S) (L' : list positive) (m' : cmem S) : Prop :=
  (forall l, l ∉ L' -> live m' !! l = if decide (l ∈ L) then None else live m !! l) /\
  (forall l, l ∈ L' -> l ∈ L \/ live m !! l = None).

Lemma footprint_refl L m : footprint L m L m.
Proof.
  split; [|by left]. intros l Hl. by rewrite decide_False.
Qed.

Lemma footprint_trans L m L1 m1 L2 m2 :
  footprint L m L1 m1 -> footprint L1 m1 L2 m2 -> footprint L m L2 m2.
Proof.
  intros [A1 B1] [A2 B2]. split.
  - intros l Hl. rewrite (A2 l Hl). destruct (decide (l ∈ L1)) as [H1|H1].
    + destruct (B1 l H1) as [H|H]; [by rewrite decide_True|].
      by destruct (decide (l ∈ L)).
    + by apply A1.
  - intros l Hl. destruct (B2 l Hl) as [H1|H1]; [by apply B1|].
    destruct (decide (l ∈ L1)) as [H|H]; [by apply B1|].
    rewrite (A1 l H) in H1. destruct (decide (l ∈ L)); auto.
Qed.

(** Owned blocks that an operation does not work on stay owned. *)
Lemma footprint_frame F L m L' m' :
  footprint L m L' m' -> (forall l, l ∈ F -> is_Some (live m !! l)) ->
  footprint (F ++ L) m (F ++ L') m'.
Proof.
  intros [A B] HF. split; intros l.
  - rewrite not_elem_of_app. intros [HlF Hl]. rewrite (A l Hl).
    destruct (decide (l ∈ L)); [rewrite decide_True; [done|set_solver]|].
    rewrite decide_False; [done|set_solver].
  - rewrite !elem_of_app. intros [Hl|Hl]; [auto|]. destruct (B l Hl); auto.
Qed.

(** Blocks it does not own are as they were. *)
Lemma footprint_agree L m L' m' l :
  footprint L m L' m' -> l ∉ L -> is_Some (live m !! l) -> live m' !! l = live m !! l.
Proof.
  intros [A B] Hl [c Hc]. destruct (decide (l ∈ L')) as [H|H].
  - destruct (B l H) as [?|E]; [done|congruence].
  - rewrite (A l H). by rewrite decide_False.
Qed.

Lemma footprint_fresh L m L' m' x :
  footprint L m L' m' -> x ∉ L -> is_Some (live m !! x) -> x ∉ L'.
Proof. intros [_ B] Hx [c Hc] H. destruct (B x H); [done|congruence]. Qed.

#[export] Instance footprint_proper :
  Proper ((≡ₚ) ==> eq ==> (≡ₚ) ==> eq ==> iff) footprint.
Proof.
  assert (forall L1 L2 m L3 L4 m', L1 ≡ₚ L2 -> L3 ≡ₚ L4 ->
    footprint L1 m L3 m' -> footprint L2 m L4 m') as H.
  { intros L1 L2 m L3 L4 m' H12 H34 [A B]. split; intros l Hl.
    - rewrite <- H34 in Hl. rewrite (A l Hl).
      destruct (decide (l ∈ L1)) as [H|H]; rewrite H12 in H;
        [by rewrite decide_True|by rewrite decide_False].
    - rewrite <- H34 in Hl. rewrite <- H12. by apply B. }
  intros L1 L2 H12 m ? <- L3 L4 H34 m' ? <-. split; [by apply H|].
  by apply H; symmetry.
Qed.

Lemma footprint_part F A B L m L' m' :
  L ≡ₚ F ++ A -> L' ≡ₚ F ++ B -> footprint A m B m' ->
  (forall l, l ∈ F -> is_Some (live m !! l)) -> footprint L m L' m'.
Proof. intros -> -> H HF. by apply footprint_frame. Qed.

(** The primitive steps. *)
Lemma footprint_insert l c m :
  live m !! l = None -> footprint [] m [l] (with_live (<[l := c]> (live m)) m).
Proof.
  intros E. split; intros l' Hl.
  - cbn. rewrite lookup_insert_ne by set_solver. by rewrite decide_False by set_solver.
  - apply list_elem_of_singleton in Hl as ->. by right.
Qed.

Lemma footprint_update l c m : footprint [l] m [l] (with_live (<[l := c]> (live m)) m).
Proof.
  split; intros l' Hl; [|by left].
  cbn. rewrite lookup_insert_ne by set_solver. by rewrite decide_False by set_solver.
Qed.

Lemma footprint_delete l d m :
  footprint [l] m [] {| live := delete l (live m); dead := d |}.
Proof.
  split; intros l' Hl; [|by apply elem_of_nil in Hl]. cbn.
  destruct (decide (l' ∈ [l])) as [E|E].
  - apply list_elem_of_singleton in E as ->. apply lookup_delete_eq.
  - rewrite lookup_delete_ne; [done|set_solver].
Qed.

(** ** What is left in released memory

    [wiped pub m m']: every block released since [m] holds a struct, zeros only, or
    a string that need not be kept secret. *)

Definition harmless (pub : string -> Prop) (c : cell S) : Prop :=
  match c with
  | CBytes b => Forall (fun x => x = 0) b \/ exists s, pub s /\ b = c_string s
  | CStruct _ => True
  end.

Definition wiped (pub : string -> Prop) (m m' : cmem S) : Prop :=
  forall l c, dead m' !! l = Some c -> dead m !! l = Some c \/ harmless pub c.

Lemma wiped_refl pub m m' : dead m' = dead m -> wiped pub m m'.
Proof. intros E l c. rewrite E. by left. Qed.

Lemma wiped_trans pub m1 m2 m3 : wiped pub m1 m2 -> wiped pub m2 m3 -> wiped pub m1 m3.
Proof. intros A B l c H. destruct (B l c H) as [H2|]; [by apply A|by right]. Qed.

Lemma wiped_insert pub m d lv l c :
  wiped pub m {| live := live m; dead := d |} -> harmless pub c ->
  wiped pub m {| live := lv; dead := <[l := c]> d |}.
Proof.
  intros W H l' c'. cbn. rewrite lookup_insert_Some. intros [[_ <-]|[_ E]]; [by right|].
  by apply (W l').
Qed.

Lemma wiped_free pub m lv l c :
  harmless pub c -> wiped pub m {| live := lv; dead := <[l := c]> (dead m) |}.
Proof. apply wiped_insert. by apply wiped_refl. Qed.

Lemma harmless_zeros pub n : harmless pub (CBytes (repeat 0 n)).
Proof. left. by apply Forall_forall; intros x ->%list_elem_of_In%repeat_spec. Qed.

Lemma harmless_public (pub : string -> Prop) s : pub s -> harmless pub (CBytes (c_string s)).
Proof. right. eauto. Qed.

(** Nothing owned is left: the memory is the old one without it. *)
Lemma footprint_nil L m m' :
  footprint L m [] m' -> forall l, live m' !! l = if decide (l ∈ L) then None else live m !! l.
Proof. intros [A _] l. apply A, not_elem_of_nil. Qed.
End Mem.

Declare Scope cmem_scope.
Delimit Scope cmem_scope with cmem.
Notation "'let!' x := c 'in' k" := (cbind c (fun x => k))
  (at level 10, x pattern, c at level 200, k at level 200) : cmem_scope.
Notation "c ;! k" := (cbind c (fun _ => k))
  (at level 199, k at level 200, right associativity) : cmem_scope.
