(* ===== verification/AuthMem.v ===== *)
(** * The session state in memory

    The same part of [src/proto_auth.c] as [AuthState], statement by statement on
    the blocks and pointers of [Mem]: the linked list of cached tokens, the
    retained passphrase and the user name.  [ctx->auth] is a pointer that an
    operation is given and gives back; strings of the caller are values. *)

From stdpp Require Import gmap.
From S2P Require Import Prelude World Mem.
From S2P Require AuthState.

Open Scope cmem_scope.

(** [struct token_entry] *)
Record token_struct := {
  ts_scope : ptr;
  ts_token : ptr;
  ts_exp : Z;
  ts_next : ptr
}.

(** [struct ehem_auth] *)
Record auth_struct := {
  as_passphrase : ptr;
  as_passphrase_len : nat;
  as_retain : bool;
  as_username : ptr;
  as_mobile : bool;
  as_cache : ptr
}.

Inductive auth_obj := OToken (e : token_struct) | OAuth (a : auth_struct).

Definition set_passphrase (p : ptr) (a : auth_struct) : auth_struct :=
  {| as_passphrase := p; as_passphrase_len := as_passphrase_len a; as_retain := as_retain a;
     as_username := as_username a; as_mobile := as_mobile a; as_cache := as_cache a |}.
Definition set_passphrase_len (n : nat) (a : auth_struct) : auth_struct :=
  {| as_passphrase := as_passphrase a; as_passphrase_len := n; as_retain := as_retain a;
     as_username := as_username a; as_mobile := as_mobile a; as_cache := as_cache a |}.
Definition set_retain (b : bool) (a : auth_struct) : auth_struct :=
  {| as_passphrase := as_passphrase a; as_passphrase_len := as_passphrase_len a;
     as_retain := b; as_username := as_username a; as_mobile := as_mobile a;
     as_cache := as_cache a |}.
Definition set_username (p : ptr) (a : auth_struct) : auth_struct :=
  {| as_passphrase := as_passphrase a; as_passphrase_len := as_passphrase_len a;
     as_retain := as_retain a; as_username := p; as_mobile := as_mobile a;
     as_cache := as_cache a |}.
Definition set_mobile (b : bool) (a : auth_struct) : auth_struct :=
  {| as_passphrase := as_passphrase a; as_passphrase_len := as_passphrase_len a;
     as_retain := as_retain a; as_username := as_username a; as_mobile := b;
     as_cache := as_cache a |}.
Definition set_cache (p : ptr) (a : auth_struct) : auth_struct :=
  {| as_passphrase := as_passphrase a; as_passphrase_len := as_passphrase_len a;
     as_retain := as_retain a; as_username := as_username a; as_mobile := as_mobile a;
     as_cache := p |}.
Definition set_next (p : ptr) (e : token_struct) : token_struct :=
  {| ts_scope := ts_scope e; ts_token := ts_token e; ts_exp := ts_exp e; ts_next := p |}.

(** What [calloc] leaves. *)
Definition auth_struct_zero : auth_struct :=
  {| as_passphrase := None; as_passphrase_len := 0; as_retain := false;
     as_username := None; as_mobile := false; as_cache := None |}.
Definition token_struct_zero : token_struct :=
  {| ts_scope := None; ts_token := None; ts_exp := 0; ts_next := None |}.

Section AuthMem.
Context {P : Platform}.
Abbreviation C := (Mem.C auth_obj).

Definition load_auth (a : ptr) : C auth_struct :=
  let! o := load_struct a in
  match o with OAuth s => cret s | OToken _ => undefined end.
Definition load_token (e : ptr) : C token_struct :=
  let! o := load_struct e in
  match o with OToken s => cret s | OAuth _ => undefined end.

(** [a->field = v] *)
Definition modify_auth (a : ptr) (f : auth_struct -> auth_struct) : C unit :=
  let! s := load_auth a in store a (CStruct (OAuth (f s))).
Definition modify_token (e : ptr) (f : token_struct -> token_struct) : C unit :=
  let! s := load_token e in store e (CStruct (OToken (f s))).

(** [ehem_zeroize(p, strlen(p)); free(p);] *)
Definition wipe_and_free (p : ptr) : C unit :=
  let! n := strlen_at p in zeroize p n ;! free p.

Definition scrub_passphrase (a : ptr) : C unit :=
  let! s := load_auth a in
  match as_passphrase s with
  | Some _ =>
      zeroize (as_passphrase s) (as_passphrase_len s) ;!
      free (as_passphrase s) ;!
      modify_auth a (set_passphrase None)
  | None => cret tt
  end ;!
  modify_auth a (set_passphrase_len 0).

Fixpoint find_from (fuel : nat) (e : ptr) (scope : string) : C ptr :=
  match e, fuel with
  | None, _ => cret None
  | Some _, O => no_fuel
  | Some _, S fuel =>
      let! s := load_token e in
      let! sc := string_at (ts_scope s) in
      if String.eqb sc scope then cret e else find_from fuel (ts_next s) scope
  end.

Definition cache_find (a : ptr) (scope : string) : C ptr :=
  let! s := load_auth a in fuelled (fun n => find_from n (as_cache s) scope).

Fixpoint clear_from (fuel : nat) (e : ptr) : C unit :=
  match e, fuel with
  | None, _ => cret tt
  | Some _, O => no_fuel
  | Some _, S fuel =>
      let! s := load_token e in
      free (ts_scope s) ;!
      match ts_token s with
      | Some _ => wipe_and_free (ts_token s)
      | None => cret tt
      end ;!
      free e ;!
      clear_from fuel (ts_next s)
  end.

Definition cache_clear (a : ptr) : C unit :=
  let! s := load_auth a in
  fuelled (fun n => clear_from n (as_cache s)) ;!
  modify_auth a (set_cache None).

(** [cache_put] on an entry that is there: its token and expiry are replaced. *)
Definition replace_token (e tok_copy : ptr) (exp : Z) : C ptr :=
  let! s := load_token e in
  wipe_and_free (ts_token s) ;!
  modify_token e (fun s => {| ts_scope := ts_scope s; ts_token := tok_copy;
                              ts_exp := ts_exp s; ts_next := ts_next s |}) ;!
  modify_token e (fun s => {| ts_scope := ts_scope s; ts_token := ts_token s;
                              ts_exp := exp; ts_next := ts_next s |}) ;!
  cret e.

(** [cache_put] on a new scope: an entry before the others. *)
Definition add_entry (a : ptr) (scope : string) (tok_copy : ptr) (exp : Z) : C ptr :=
  let! e := allocate (CStruct (OToken token_struct_zero)) in
  match e with
  | None => wipe_and_free tok_copy ;! cret None
  | Some _ =>
      let! sc := strdup scope in
      modify_token e (fun s => {| ts_scope := sc; ts_token := ts_token s;
                                  ts_exp := ts_exp s; ts_next := ts_next s |}) ;!
      match sc with
      | None => wipe_and_free tok_copy ;! free e ;! cret None
      | Some _ =>
          let! s := load_auth a in
          modify_token e (fun s' => {| ts_scope := ts_scope s'; ts_token := tok_copy;
                                       ts_exp := exp; ts_next := as_cache s |}) ;!
          modify_auth a (set_cache e) ;!
          cret e
      end
  end.

(** The stored entry, or NULL. *)
Definition cache_put (a : ptr) (scope token : string) (exp : Z) : C ptr :=
  let! e := cache_find a scope in
  let! tok_copy := strdup token in
  match tok_copy with
  | None => cret None
  | Some _ =>
      match e with
      | Some _ => replace_token e tok_copy exp
      | None => add_entry a scope tok_copy exp
      end
  end.

(** [calloc] of the session when the context has none: the pointer to use. *)
Definition ensure_auth (ctx_auth : ptr) : C ptr :=
  match ctx_auth with
  | Some _ => cret ctx_auth
  | None => allocate (CStruct (OAuth auth_struct_zero))
  end.

Definition time_now : C Z := fun t m => Done (p_time t) (Datatypes.S t) m.

(** The return code and the new [ctx->auth]. *)
Definition ehem_auth_cache_seed (ctx_auth : ptr) (scope token : string) : C (ehem_rc * ptr) :=
  let! a := ensure_auth ctx_auth in
  match a with
  | None => cret (EHEM_ERR_NOMEM, None)
  | Some _ =>
      let! real_exp :=
        match AuthState.decode_bearer_exp token with
        | Some e => cret e
        | None => let! now := time_now in cret (now + AuthState.AUTH_TOKEN_LIFETIME)
        end in
      let! e := cache_put a scope token (AuthState.cache_expiry real_exp) in
      match e with
      | None => cret (EHEM_ERR_NOMEM, a)
      | Some _ => cret (EHEM_OK, a)
      end
  end.

(** The loop of [ehem_auth_invalidate]: [prev] is the entry before [e]. *)
Fixpoint unlink_from (fuel : nat) (a prev e : ptr) (scope : string) : C unit :=
  match e, fuel with
  | None, _ => cret tt
  | Some _, O => no_fuel
  | Some _, S fuel =>
      let! s := load_token e in
      let! sc := string_at (ts_scope s) in
      if String.eqb sc scope then
        match prev with
        | None => modify_auth a (set_cache (ts_next s))
        | Some _ => modify_token prev (set_next (ts_next s))
        end ;!
        free (ts_scope s) ;!
        wipe_and_free (ts_token s) ;!
        free e
      else unlink_from fuel a e (ts_next s) scope
  end.

Definition ehem_auth_invalidate (ctx_auth : ptr) (scope : option string) : C unit :=
  match ctx_auth, scope with
  | None, _ => cret tt
  | Some _, None => cache_clear ctx_auth
  | Some _, Some scope =>
      let! s := load_auth ctx_auth in
      fuelled (fun n => unlink_from n ctx_auth None (as_cache s) scope)
  end.

Definition ehem_auth_destroy (a : ptr) : C unit :=
  match a with
  | None => cret tt
  | Some _ =>
      scrub_passphrase a ;!
      let! s := load_auth a in
      free (as_username s) ;!
      cache_clear a ;!
      free a
  end.

(** [cache_clear(a); free(a->username); a->username = NULL; scrub_passphrase(a);] *)
Definition relogin (a : ptr) : C unit :=
  cache_clear a ;!
  (let! s := load_auth a in
   free (as_username s) ;!
   modify_auth a (set_username None)) ;!
  scrub_passphrase a.

Definition ehem_login (ctx_auth : ptr) (passphrase : string) (no_credential_retention : bool)
  : C (ehem_rc * ptr) :=
  let! copy := strdup passphrase in
  match copy with
  | None => cret (EHEM_ERR_NOMEM, ctx_auth)
  | Some _ =>
      let! a := ensure_auth ctx_auth in
      match a with
      | None =>
          zeroize copy (String.length passphrase) ;! free copy ;!
          cret (EHEM_ERR_NOMEM, None)
      | Some _ =>
          relogin a ;!
          modify_auth a (set_passphrase copy) ;!
          modify_auth a (set_passphrase_len (String.length passphrase)) ;!
          modify_auth a (set_retain (negb no_credential_retention)) ;!
          modify_auth a (set_mobile false) ;!
          cret (EHEM_OK, a)
      end
  end.

Definition ehem_login_mobile (ctx_auth : ptr) : C (ehem_rc * ptr) :=
  let! a := ensure_auth ctx_auth in
  match a with
  | None => cret (EHEM_ERR_NOMEM, None)
  | Some _ => relogin a ;! modify_auth a (set_mobile true) ;! cret (EHEM_OK, a)
  end.

Definition ehem_logout (ctx_auth : ptr) : C (ehem_rc * ptr) :=
  ehem_auth_destroy ctx_auth ;! cret (EHEM_OK, None).

(** The user name of a challenge replaces the last one, if it can be copied. *)
Definition keep_username (a : ptr) (lbl : string) : C unit :=
  let! u := strdup lbl in
  match u with
  | None => cret tt
  | Some _ =>
      let! s := load_auth a in
      free (as_username s) ;!
      modify_auth a (set_username u)
  end.

(** [if (!a->retain) scrub_passphrase(a);] *)
Definition drop_credential (a : ptr) : C unit :=
  let! s := load_auth a in
  if as_retain s then cret tt else scrub_passphrase a.
End AuthMem.
