(* ===== verification/AuthMemProps.v ===== *)
(** * The session in memory implements the session state

    [auth_rep] relates the blocks behind [ctx->auth] to the value [AuthState] has
    for it.  Every operation of [AuthMem] runs without undefined behaviour, ends,
    has the effect of its counterpart of [AuthState], leaks nothing, touches
    nothing else, and releases no token or passphrase unwiped. *)

From stdpp Require Import gmap.
From S2P Require Import Prelude Json World Logic Context Ejwt AuthState Mem AuthMem.

(** ** The representation *)

(** The blocks of a list entry: the struct, its scope, its token. *)
Definition node : Type := positive * positive * positive.
Definition node_locs (n : node) : list positive := let '(e, s, t) := n in [e; s; t].
Definition locs (ns : list node) : list positive := concat (map node_locs ns).

Section Rep.
Context {P : Platform}.
Abbreviation heap := (gmap positive (cell auth_obj)).

Definition token_cell (e : token_entry) (s t : positive) (next : ptr) : cell auth_obj :=
  CStruct (OToken {| ts_scope := Some s; ts_token := Some t; ts_exp := te_exp e;
                     ts_next := next |}).

Fixpoint list_rep (h : heap) (p : ptr) (l : list token_entry) (ns : list node) : Prop :=
  match l, ns with
  | [], [] => p = None
  | e :: l, (n, s, t) :: ns =>
      p = Some n /\ nul_free (te_scope e) /\ nul_free (te_token e) /\
      h !! s = Some (CBytes (c_string (te_scope e))) /\
      h !! t = Some (CBytes (c_string (te_token e))) /\
      exists next, h !! n = Some (token_cell e s t next) /\ list_rep h next l ns
  | _, _ => False
  end.

Definition str_rep (h : heap) (p : ptr) (s : option string) : Prop :=
  match p, s with
  | None, None => True
  | Some l, Some s => h !! l = Some (CBytes (c_string s)) /\ nul_free s
  | _, _ => False
  end.

(** The blocks of a session. *)
Record shape := { sh_auth : positive; sh_pass : ptr; sh_user : ptr; sh_nodes : list node }.
Definition sh_locs (sh : shape) : list positive :=
  sh_auth sh :: option_list (sh_pass sh) ++ option_list (sh_user sh) ++ locs (sh_nodes sh).

Definition auth_cell (sh : shape) (a : ehem_auth) (cp : ptr) : cell auth_obj :=
  CStruct (OAuth
    {| as_passphrase := sh_pass sh;
       as_passphrase_len := match passphrase a with Some s => String.length s | None => 0 end;
       as_retain := retain a; as_username := sh_user sh; as_mobile := mobile a;
       as_cache := cp |}).

Definition auth_at (h : heap) (sh : shape) (a : ehem_auth) : Prop :=
  NoDup (sh_locs sh) /\
  str_rep h (sh_pass sh) (passphrase a) /\ str_rep h (sh_user sh) (username a) /\
  exists cp, h !! sh_auth sh = Some (auth_cell sh a cp) /\
             list_rep h cp (cache a) (sh_nodes sh).

(** What [ctx->auth] points to, and the blocks that are the session's own. *)
Definition auth_rep (h : heap) (p : ptr) (a : option ehem_auth) (L : list positive) : Prop :=
  match p, a with
  | None, None => L = []
  | Some q, Some a => exists sh, sh_auth sh = q /\ L = sh_locs sh /\ auth_at h sh a
  | _, _ => False
  end.

(** ** Representations depend on their own blocks only *)

Lemma list_rep_frame h h' p l ns :
  (forall x, x ∈ locs ns -> h' !! x = h !! x) -> list_rep h p l ns -> list_rep h' p l ns.
Proof.
  revert p ns. induction l as [|e l IH]; intros p [|[[n s] t] ns] Hh; try done.
  cbn. intros (-> & Hs & Ht & Es & Et & next & En & Hl).
  assert (forall x, x ∈ [n; s; t] -> h' !! x = h !! x) as Hx
    by (intros x Hx; apply Hh; cbn; set_solver).
  rewrite !Hx by set_solver. repeat split; try done. exists next. split; [done|].
  apply IH; [|done]. intros x Hx'. apply Hh. cbn. set_solver.
Qed.

Lemma str_rep_frame h h' p s :
  (forall x, x ∈ option_list p -> h' !! x = h !! x) -> str_rep h p s -> str_rep h' p s.
Proof.
  destruct p as [x|], s as [s|]; cbn; try done. intros Hh [E Hs]. by rewrite Hh by set_solver.
Qed.

Lemma list_rep_live h p l ns x :
  list_rep h p l ns -> x ∈ locs ns -> is_Some (h !! x).
Proof.
  revert p ns. induction l as [|e l IH]; intros p [|[[n s] t] ns]; try done.
  - intros _ Hx. by apply not_elem_of_nil in Hx.
  - cbn. intros (_ & _ & _ & Es & Et & next & En & Hl) Hx.
    repeat (apply elem_of_cons in Hx as [->|Hx]; [eauto|]). by eapply IH.
Qed.

Lemma str_rep_live h p s x : str_rep h p s -> x ∈ option_list p -> is_Some (h !! x).
Proof.
  destruct p as [l|], s as [s|]; cbn; try done; [|by intros _ ?%not_elem_of_nil].
  intros [E _] ->%list_elem_of_singleton. eauto.
Qed.

Lemma list_rep_length h p l ns : list_rep h p l ns -> length ns = length l.
Proof.
  revert p ns. induction l as [|e l IH]; intros p [|[[n s] t] ns]; try done.
  cbn. intros (_ & _ & _ & _ & _ & next & _ & Hl). f_equal. by eapply IH.
Qed.

(** The list fits in memory: fuel for its loops. *)
Lemma nodes_fuel h p l ns :
  list_rep h p l ns -> NoDup (locs ns) -> (length ns <= size h)%nat.
Proof.
  intros Hl Hn.
  assert (length ns <= length (locs ns))%nat as Hlen.
  { clear. induction ns as [|[[n s] t] ns IH]; [done|]. unfold locs in *. cbn. lia. }
  etransitivity; [exact Hlen|].
  assert (size (list_to_set (C := gset positive) (locs ns)) = length (locs ns)) as <-
    by by apply size_list_to_set.
  rewrite <- size_dom. apply subseteq_size. intros x Hx%elem_of_list_to_set.
  apply elem_of_dom. by eapply list_rep_live.
Qed.

(** ** Accesses *)

Lemma cwp_load_auth q s Q t m :
  live m !! q = Some (CStruct (OAuth s)) -> Q s t m -> cwp (load_auth (Some q)) Q t m.
Proof. intros E HQ. by apply cwp_bind, (cwp_load_struct _ _ _ _ _ E). Qed.

Lemma cwp_load_token n s Q t m :
  live m !! n = Some (CStruct (OToken s)) -> Q s t m -> cwp (load_token (Some n)) Q t m.
Proof. intros E HQ. by apply cwp_bind, (cwp_load_struct _ _ _ _ _ E). Qed.

Lemma cwp_modify_auth q s f Q t m :
  live m !! q = Some (CStruct (OAuth s)) ->
  Q tt t (with_live (<[q := CStruct (OAuth (f s))]> (live m)) m) ->
  cwp (modify_auth (Some q) f) Q t m.
Proof.
  intros E HQ. apply cwp_bind, (cwp_load_auth _ _ _ _ _ E). by apply (cwp_store _ _ _ _ _ _ E).
Qed.

Lemma cwp_modify_token n s f Q t m :
  live m !! n = Some (CStruct (OToken s)) ->
  Q tt t (with_live (<[n := CStruct (OToken (f s))]> (live m)) m) ->
  cwp (modify_token (Some n) f) Q t m.
Proof.
  intros E HQ. apply cwp_bind, (cwp_load_token _ _ _ _ _ E). by apply (cwp_store _ _ _ _ _ _ E).
Qed.

(** The content is gone before the block is. *)
Lemma cwp_wipe_and_free l s Q t m :
  live m !! l = Some (CBytes (c_string s)) -> nul_free s ->
  Q tt t {| live := delete l (live m);
            dead := <[l := CBytes (repeat 0 (Datatypes.S (String.length s)))]> (dead m) |} ->
  cwp (wipe_and_free (Some l)) Q t m.
Proof.
  intros E Hs HQ. apply cwp_bind, (cwp_strlen _ _ _ _ _ E Hs).
  apply cwp_bind, (cwp_zeroize _ _ _ _ _ E).
  eapply cwp_free; [cbn; by rewrite lookup_insert_eq|]. cbn. by rewrite delete_insert_eq.
Qed.

(** ** The loops *)

(** The blocks of the first entry for [scope]. *)
Fixpoint node_find (l : list token_entry) (ns : list node) (scope : string) : option node :=
  match l, ns with
  | e :: l, n :: ns => if String.eqb (te_scope e) scope then Some n else node_find l ns scope
  | _, _ => None
  end.

Lemma node_find_cache l ns scope :
  length ns = length l ->
  is_Some (node_find l ns scope) <-> is_Some (AuthState.cache_find l scope).
Proof.
  revert ns. induction l as [|e l IH]; intros [|n ns] H; try done; cbn in *; [by split; intros [? [=]]|].
  destruct (String.eqb _ _); [by split; eauto|]. apply IH. lia.
Qed.

Lemma find_from_spec fuel p l ns scope t m :
  list_rep (live m) p l ns -> (length ns <= fuel)%nat ->
  cwp (find_from fuel p scope)
      (fun r t' m' => t' = t /\ m' = m /\
         r = (fun n : node => fst (fst n)) <$> node_find l ns scope) t m.
Proof.
  revert p l ns. induction fuel as [|fuel IH]; intros p [|e l] [|[[n s] tk] ns]; try done;
    cbn; intros Hr Hf; try lia; try (by subst p).
  destruct Hr as (-> & Hs & Ht & Es & Et & next & En & Hl).
  apply cwp_bind, (cwp_load_token _ _ _ _ _ En). cbn [ts_scope ts_next].
  apply cwp_bind, (cwp_string _ _ _ _ _ Es Hs).
  destruct (String.eqb (te_scope e) scope); [done|]. apply IH; [done|lia].
Qed.

Lemma cache_find_spec q s l ns scope t m :
  live m !! q = Some (CStruct (OAuth s)) ->
  list_rep (live m) (as_cache s) l ns -> NoDup (locs ns) ->
  cwp (AuthMem.cache_find (Some q) scope)
      (fun r t' m' => t' = t /\ m' = m /\
         r = (fun n : node => fst (fst n)) <$> node_find l ns scope) t m.
Proof.
  intros E Hl Hn. apply cwp_bind, (cwp_load_auth _ _ _ _ _ E). unfold fuelled.
  apply find_from_spec; [done|]. apply Nat.le_le_succ_r. by eapply nodes_fuel.
Qed.

(** The blocks of one entry go: the scope as it is, the token wiped. *)
Lemma free_entry_footprint n s tk c (m : cmem auth_obj) :
  n <> s -> n <> tk -> s <> tk ->
  footprint [n; s; tk] m []
    {| live := delete n (delete tk (delete s (live m))); dead := c |}.
Proof.
  intros H1 H2 H3. split; intros x Hx; [|by apply not_elem_of_nil in Hx].
  cbn. rewrite !lookup_delete. repeat case_decide; set_solver.
Qed.

Lemma clear_from_spec pub fuel p l ns t m :
  list_rep (live m) p l ns -> NoDup (locs ns) -> (length ns <= fuel)%nat ->
  Forall (fun e => pub (te_scope e)) l ->
  cwp (clear_from fuel p)
      (fun _ t' m' => t' = t /\ footprint (locs ns) m [] m' /\ wiped pub m m') t m.
Proof.
  revert p l ns m. induction fuel as [|fuel IH]; intros p [|e l] [|[[n s] tk] ns] m; try done;
    cbn; intros Hr Hn Hf Hp; try lia;
    try (subst p; split_and!; [done|apply footprint_refl|by apply wiped_refl]).
  destruct Hr as (-> & Hs & Ht & Es & Et & next & En & Hl).
  apply Forall_cons in Hp as [Hpe Hp].
  change (concat (map node_locs ns)) with (locs ns) in *.
  rewrite !NoDup_cons in Hn. destruct Hn as (Hn1 & Hn2 & Hn3 & Hn).
  assert (n <> s /\ n <> tk /\ s <> tk) as (N1 & N2 & N3) by set_solver.
  apply cwp_bind, (cwp_load_token _ _ _ _ _ En). cbn [ts_scope ts_token ts_next].
  apply cwp_bind, (cwp_free _ _ _ _ _ Es), cwp_bind.
  eapply cwp_wipe_and_free; [cbn; by rewrite lookup_delete_ne|done|].
  apply cwp_bind. eapply cwp_free; [cbn; by rewrite !lookup_delete_ne|].
  cbn [live dead].
  match goal with |- cwp _ _ _ ?m1 => set (m1' := m1) end.
  assert (footprint [n; s; tk] m [] m1') as F1 by by apply free_entry_footprint.
  assert (wiped pub m m1') as W1.
  { do 2 (apply wiped_insert; [|first [done|apply harmless_zeros]]).
    by apply wiped_free, harmless_public. }
  eapply cwp_mono; [apply IH with (l := l) (ns := ns)|]; [|done|lia|done|].
  - eapply list_rep_frame; [|done]. intros x Hx. eapply footprint_agree; [done|set_solver|].
    by eapply list_rep_live.
  - intros _ t' m' (-> & F & W). split_and!; [done| |by eapply wiped_trans].
    eapply footprint_trans; [|exact F].
    change (n :: s :: tk :: locs ns) with ([n; s; tk] ++ locs ns).
    rewrite (Permutation_app_comm [n; s; tk]).
    rewrite <- (app_nil_r (locs ns)) at 2. apply footprint_frame; [done|].
    intros x Hx. by eapply list_rep_live.
Qed.

(** Where the pointer to an entry is kept: the session, or the entry before. *)
Definition relink (p : ptr) (c : cell auth_obj) : cell auth_obj :=
  match c with
  | CStruct (OAuth s) => CStruct (OAuth (set_cache p s))
  | CStruct (OToken e) => CStruct (OToken (set_next p e))
  | CBytes b => CBytes b
  end.

Definition link_cell (prev : ptr) (c : cell auth_obj) : Prop :=
  match prev, c with
  | None, CStruct (OAuth _) | Some _, CStruct (OToken _) => True
  | _, _ => False
  end.

Lemma cwp_relink q prev c p Q t m :
  live m !! default q prev = Some c -> link_cell prev c ->
  Q tt t (with_live (<[default q prev := relink p c]> (live m)) m) ->
  cwp (match prev with
       | None => modify_auth (Some q) (set_cache p)
       | Some _ => modify_token prev (set_next p)
       end) Q t m.
Proof.
  destruct prev as [k|], c as [|[e|s]]; cbn; try done; intros E _ HQ.
  - by eapply cwp_modify_token.
  - by eapply cwp_modify_auth.
Qed.

(** The entry is the one to remove. *)
Lemma unlink_found pub q prev c l ns e n s tk next t m :
  live m !! default q prev = Some c -> link_cell prev c ->
  live m !! s = Some (CBytes (c_string (te_scope e))) ->
  live m !! tk = Some (CBytes (c_string (te_token e))) -> nul_free (te_token e) ->
  live m !! n = Some (token_cell e s tk next) -> list_rep (live m) next l ns ->
  NoDup (default q prev :: n :: s :: tk :: locs ns) -> pub (te_scope e) ->
  cwp (match prev with
       | None => modify_auth (Some q) (set_cache next)
       | Some _ => modify_token prev (set_next next)
       end ;! free (Some s) ;! wipe_and_free (Some tk) ;! free (Some n))%cmem
      (fun _ t' m' => t' = t /\ wiped pub m m' /\
         live m' !! default q prev = Some (relink next c) /\ list_rep (live m') next l ns /\
         NoDup (default q prev :: locs ns) /\
         footprint (default q prev :: n :: s :: tk :: locs ns) m (default q prev :: locs ns) m') t m.
Proof.
  intros Ec Hc Es Et Ht En Hl Hn Hpe. set (k := default q prev) in *.
  rewrite !NoDup_cons in Hn. destruct Hn as (Hk & Hn1 & Hn2 & Hn3 & Hn).
  apply cwp_bind. eapply cwp_relink; [exact Ec|done|].
  apply cwp_bind. eapply cwp_free; [cbn; rewrite lookup_insert_ne by set_solver; exact Es|].
  apply cwp_bind. eapply cwp_wipe_and_free; [|exact Ht|].
  { cbn. rewrite lookup_delete_ne, lookup_insert_ne by set_solver. exact Et. }
  eapply cwp_free.
  { cbn. rewrite !lookup_delete_ne, lookup_insert_ne by set_solver. exact En. }
  fold k. cbn [live dead with_live]. split; [done|]. split_and!.
  - do 2 (apply wiped_insert; [|first [done|apply harmless_zeros]]).
    by apply (wiped_free pub m), harmless_public.
  - rewrite !lookup_delete_ne, lookup_insert_eq by set_solver. done.
  - eapply list_rep_frame; [|done]. intros x Hx.
    rewrite !lookup_delete_ne, lookup_insert_ne by set_solver. done.
  - rewrite NoDup_cons. set_solver.
  - change (k :: n :: s :: tk :: locs ns) with ([k; n; s; tk] ++ locs ns).
    change (k :: locs ns) with ([k] ++ locs ns).
    rewrite !(Permutation_app_comm _ (locs ns)). apply footprint_frame.
    + split; intros x Hx; [|set_solver]. cbn. rewrite !lookup_delete, !lookup_insert.
      repeat case_decide; set_solver.
    + intros x Hx. by eapply list_rep_live.
Qed.

(** The entry stays: work on the rest of the list leaves it, its strings and what points
    to it alone. *)
Lemma unlink_kept k n s tk e next (ns ns' : list node) m m' :
  NoDup (k :: n :: s :: tk :: locs ns) ->
  is_Some (live m !! k) -> is_Some (live m !! s) -> is_Some (live m !! tk) ->
  live m !! n = Some (token_cell e s tk next) ->
  footprint (n :: locs ns) m (n :: locs ns') m' -> NoDup (n :: locs ns') ->
  (forall x, x ∈ [k; s; tk] -> live m' !! x = live m !! x) /\
  NoDup (k :: n :: s :: tk :: locs ns') /\
  footprint (k :: n :: s :: tk :: locs ns) m (k :: n :: s :: tk :: locs ns') m'.
Proof.
  intros Hd Ik Is It En F Hd'. rewrite !NoDup_cons in Hd.
  rewrite NoDup_cons in Hd'.
  destruct Hd as (Hk & Hn1 & Hn2 & Hn3 & Hn), Hd' as [Hn' Hn''].
  assert (forall x, x ∈ [k; s; tk] -> is_Some (live m !! x) /\ x ∉ n :: locs ns) as A.
  { intros x Hx. repeat (apply elem_of_cons in Hx as [->|Hx]; [split; [done|set_solver]|]).
    by apply not_elem_of_nil in Hx. }
  assert (forall x, x ∈ [k; s; tk] -> x ∉ n :: locs ns') as B.
  { intros x [Hi Ho]%A. by eapply footprint_fresh. }
  pose proof (B k ltac:(set_solver)) as Nk. pose proof (B s ltac:(set_solver)) as Ns.
  pose proof (B tk ltac:(set_solver)) as Nt. split_and!.
  - intros x [Hi Ho]%A. by eapply footprint_agree.
  - rewrite !NoDup_cons. set_solver.
  - assert (forall r, k :: n :: s :: tk :: r ≡ₚ [k; s; tk] ++ n :: r) as Hperm
      by (intros r; cbn; constructor; etransitivity; [apply perm_swap|]; constructor; apply perm_swap).
    rewrite !Hperm. apply footprint_frame; [done|]. intros x Hx. by apply A.
Qed.

Lemma unlink_spec pub fuel q prev c p l ns scope t m :
  live m !! default q prev = Some c -> link_cell prev c -> relink p c = c ->
  list_rep (live m) p l ns -> NoDup (default q prev :: locs ns) -> (length ns <= fuel)%nat ->
  Forall (fun e => pub (te_scope e)) l ->
  cwp (unlink_from fuel (Some q) prev p scope)
      (fun _ t' m' => t' = t /\ wiped pub m m' /\ exists p' ns',
         live m' !! default q prev = Some (relink p' c) /\
         list_rep (live m') p' (cache_remove l scope) ns' /\
         NoDup (default q prev :: locs ns') /\
         footprint (default q prev :: locs ns) m (default q prev :: locs ns') m') t m.
Proof.
  revert prev c p l ns m. induction fuel as [|fuel IH];
    intros prev c p [|e l] [|[[n s] tk] ns] m Ec Hc Hp Hr Hn Hf Hpub; try done; cbn in Hr, Hf;
    try lia;
    try (subst p; cbn; split_and!; [done|by apply wiped_refl|]; exists None, [];
         rewrite Hp; split_and!; [done..|apply footprint_refl]).
  destruct Hr as (-> & Hs & Ht & Es & Et & next & En & Hl).
  apply Forall_cons in Hpub as [Hpe Hpub].
  change (locs ((n, s, tk) :: ns)) with (n :: s :: tk :: locs ns) in *.
  cbn [unlink_from]. apply cwp_bind, (cwp_load_token _ _ _ _ _ En). cbn [ts_scope ts_token ts_next].
  apply cwp_bind, (cwp_string _ _ _ _ _ Es Hs). cbn [cache_remove].
  destruct (String.eqb (te_scope e) scope).
  - eapply cwp_mono; [by eapply unlink_found|]. intros _ t' m' (-> & W & Ek & Hl' & Hn' & F).
    split; [done|]. split; [done|]. by exists next, ns.
  - eapply cwp_mono.
    { apply (IH (Some n) (token_cell e s tk next) next l ns); try done; [|lia].
      cbn. rewrite !NoDup_cons in Hn. destruct Hn as (? & ? & ? & ? & ?). rewrite NoDup_cons. set_solver. }
    cbn [default from_option id].
    intros _ t' m' (-> & W & p' & ns' & En' & Hl' & Hn' & F). split; [done|]. split; [done|].
    destruct (unlink_kept (default q prev) n s tk e next ns ns' m m') as (A & N & F'); eauto.
    exists (Some n), ((n, s, tk) :: ns').
    change (locs ((n, s, tk) :: ns')) with (n :: s :: tk :: locs ns'). split_and!; [|cbn|done..].
    + rewrite (A (default q prev)) by set_solver. by rewrite Hp.
    + rewrite (A s), (A tk) by set_solver. split_and!; try done. by exists p'.
Qed.

(** ** The session

    [parts]: everything of a session but its struct. *)

#[local] Arguments locs : simpl never.

Definition tail (sh : shape) : list positive :=
  option_list (sh_pass sh) ++ option_list (sh_user sh) ++ locs (sh_nodes sh).

Definition parts (h : heap) (sh : shape) (a : ehem_auth) (cp : ptr) : Prop :=
  NoDup (tail sh) /\ str_rep h (sh_pass sh) (passphrase a) /\
  str_rep h (sh_user sh) (username a) /\ list_rep h cp (cache a) (sh_nodes sh).

Lemma auth_at_parts h sh a :
  auth_at h sh a <->
  sh_auth sh ∉ tail sh /\
  exists cp, h !! sh_auth sh = Some (auth_cell sh a cp) /\ parts h sh a cp.
Proof.
  unfold auth_at, parts. change (sh_locs sh) with (sh_auth sh :: tail sh).
  rewrite NoDup_cons. firstorder.
Qed.

Lemma parts_frame h h' sh a cp :
  (forall x, x ∈ tail sh -> h' !! x = h !! x) -> parts h sh a cp -> parts h' sh a cp.
Proof.
  unfold tail. intros Hh (Hn & Hp & Hu & Hl). split; [done|].
  split; [eapply str_rep_frame; [|done]; intros; apply Hh; set_solver|].
  split; [eapply str_rep_frame; [|done]; intros; apply Hh; set_solver|].
  eapply list_rep_frame; [|done]. intros; apply Hh; set_solver.
Qed.

Lemma parts_live h sh a cp x : parts h sh a cp -> x ∈ tail sh -> is_Some (h !! x).
Proof.
  intros (Hn & Hp & Hu & Hl). unfold tail.
  rewrite !elem_of_app. intros [Hx|[Hx|Hx]]; eauto using str_rep_live, list_rep_live.
Qed.

Lemma auth_at_live h sh a x : auth_at h sh a -> x ∈ sh_locs sh -> is_Some (h !! x).
Proof.
  rewrite auth_at_parts. intros (_ & cp & Eq & Hp) Hx.
  apply elem_of_cons in Hx as [->|Hx]; [eauto|by eapply parts_live].
Qed.

(** One step of a session that stays. *)
Definition session_step (pub : string -> Prop) (sh : shape) (m : cmem auth_obj)
    (sh' : shape) (a' : ehem_auth) (m' : cmem auth_obj) : Prop :=
  auth_at (live m') sh' a' /\ sh_auth sh' = sh_auth sh /\
  footprint (sh_locs sh) m (sh_locs sh') m' /\ wiped pub m m'.

Lemma session_step_trans pub sh m sh1 a1 m1 sh2 a2 m2 :
  session_step pub sh m sh1 a1 m1 -> session_step pub sh1 m1 sh2 a2 m2 ->
  session_step pub sh m sh2 a2 m2.
Proof.
  intros (A1 & E1 & F1 & W1) (A2 & E2 & F2 & W2). split; [done|].
  split; [congruence|]. split; [by eapply footprint_trans|by eapply wiped_trans].
Qed.

(** Work on the parts, then the struct is stored. *)
Lemma session_store pub sh sh' a a' cp' m m1 :
  auth_at (live m) sh a -> sh_auth sh' = sh_auth sh ->
  footprint (tail sh) m (tail sh') m1 -> parts (live m1) sh' a' cp' -> wiped pub m m1 ->
  session_step pub sh m sh' a'
    (with_live (<[sh_auth sh := auth_cell sh' a' cp']> (live m1)) m1).
Proof.
  rewrite auth_at_parts. intros (Hq & cp & Eq & Hp) Eqq F Hp' W.
  assert (sh_auth sh ∉ tail sh') as Hq' by (eapply footprint_fresh; eauto).
  split; [|split; [done|split; [|done]]].
  - apply auth_at_parts. rewrite Eqq. split; [done|]. exists cp'.
    split; [apply lookup_insert_eq|]. eapply parts_frame; [|done].
    intros x Hx. apply lookup_insert_ne. set_solver.
  - assert (sh_locs sh' = [sh_auth sh] ++ tail sh') as -> by (cbn; by rewrite <- Eqq).
    change (sh_locs sh) with ([sh_auth sh] ++ tail sh).
    eapply footprint_trans; [apply (footprint_frame [sh_auth sh] _ _ _ _ F)|].
    { intros x ->%list_elem_of_singleton. eauto. }
    rewrite !(Permutation_app_comm [sh_auth sh]). apply footprint_frame; [apply footprint_update|].
    intros x Hx. by eapply parts_live.
Qed.

(** The parts [K] stay, [A] is given up for [B], then the struct is stored. *)
Lemma session_swap pub sh sh' a a' cp' K A B m m1 :
  auth_at (live m) sh a -> sh_auth sh' = sh_auth sh ->
  tail sh ≡ₚ K ++ A -> tail sh' ≡ₚ K ++ B -> footprint A m B m1 -> wiped pub m m1 ->
  live m1 !! sh_auth sh = live m !! sh_auth sh /\
  (forall x, x ∈ K -> live m1 !! x = live m !! x) /\
  (parts (live m1) sh' a' cp' -> session_step pub sh m sh' a'
    (with_live (<[sh_auth sh := auth_cell sh' a' cp']> (live m1)) m1)).
Proof.
  intros Ha Eqq P1 P2 F W. pose proof Ha as (Hq & cp & Eq & Hp)%auth_at_parts.
  pose proof Hp as (Hn & _). rewrite P1 in Hn, Hq. apply NoDup_app in Hn as (_ & Hd & _).
  assert (forall x, x ∈ K -> is_Some (live m !! x)) as HK.
  { intros x Hx. eapply parts_live; [exact Hp|]. rewrite P1. set_solver. }
  split; [eapply footprint_agree; [done|set_solver|eauto]|]. split.
  - intros x Hx. eapply footprint_agree; [done| |]; auto.
  - intros Hp'. eapply session_store; try done.
    by eapply (footprint_part K A B).
Qed.

(** The parts [A] are given up, then the struct is stored. *)
Lemma session_drop pub sh sh' a a' cp' A m m1 :
  auth_at (live m) sh a -> sh_auth sh' = sh_auth sh -> parts (live m) sh' a' cp' ->
  tail sh ≡ₚ tail sh' ++ A -> footprint A m [] m1 -> wiped pub m m1 ->
  live m1 !! sh_auth sh = live m !! sh_auth sh /\
  session_step pub sh m sh' a'
    (with_live (<[sh_auth sh := auth_cell sh' a' cp']> (live m1)) m1).
Proof.
  intros Ha Eqq Hp Hperm F W.
  destruct (session_swap pub sh sh' a a' cp' (tail sh') A [] m m1 Ha Eqq Hperm
              (reflexive_eq _ _ (eq_sym (app_nil_r _))) F W) as (Eq & Hk & Hs).
  split; [done|]. apply Hs. by eapply parts_frame.
Qed.

(** What of a session may be left in memory. *)
Definition public (pub : string -> Prop) (a : ehem_auth) : Prop :=
  (forall u, username a = Some u -> pub u) /\ Forall (fun e => pub (te_scope e)) (cache a).

Definition with_pass (p : ptr) (sh : shape) : shape :=
  {| sh_auth := sh_auth sh; sh_pass := p; sh_user := sh_user sh; sh_nodes := sh_nodes sh |}.
Definition with_user (p : ptr) (sh : shape) : shape :=
  {| sh_auth := sh_auth sh; sh_pass := sh_pass sh; sh_user := p; sh_nodes := sh_nodes sh |}.
Definition with_nodes (ns : list node) (sh : shape) : shape :=
  {| sh_auth := sh_auth sh; sh_pass := sh_pass sh; sh_user := sh_user sh; sh_nodes := ns |}.

Lemma tail_pass sh : tail sh ≡ₚ tail (with_pass None sh) ++ option_list (sh_pass sh).
Proof. unfold tail. cbn. apply Permutation_app_comm. Qed.
Lemma tail_user sh : tail sh ≡ₚ tail (with_user None sh) ++ option_list (sh_user sh).
Proof. unfold tail. cbn. rewrite <- app_assoc. f_equiv. apply Permutation_app_comm. Qed.
Lemma tail_nodes sh : tail sh ≡ₚ tail (with_nodes [] sh) ++ locs (sh_nodes sh).
Proof. unfold tail. cbn. by rewrite app_nil_r, app_assoc. Qed.

Lemma nodup_part {l A B : list positive} : NoDup l -> l ≡ₚ A ++ B -> NoDup A.
Proof. intros Hl Hp. rewrite Hp in Hl. by apply NoDup_app in Hl as [? _]. Qed.

Lemma parts_no_pass h sh a cp :
  parts h sh a cp -> parts h (with_pass None sh) (AuthState.scrub_passphrase a) cp.
Proof. intros (Hn & Hp & Hu & Hl). split; [exact (nodup_part Hn (tail_pass sh))|done]. Qed.
Lemma parts_no_user h sh a cp :
  parts h sh a cp -> parts h (with_user None sh) (auth_set_username None a) cp.
Proof. intros (Hn & Hp & Hu & Hl). split; [exact (nodup_part Hn (tail_user sh))|done]. Qed.
Lemma parts_no_nodes h sh a cp :
  parts h sh a cp -> parts h (with_nodes [] sh) (AuthState.cache_clear a) None.
Proof. intros (Hn & Hp & Hu & Hl). split; [exact (nodup_part Hn (tail_nodes sh))|done]. Qed.

Lemma scrub_spec pub sh a t m :
  auth_at (live m) sh a ->
  cwp (AuthMem.scrub_passphrase (Some (sh_auth sh)))
      (fun _ t' m' => t' = t /\
         session_step pub sh m (with_pass None sh) (AuthState.scrub_passphrase a) m') t m.
Proof.
  intros Ha. pose proof Ha as (Hq & cp & Eq & Hp)%auth_at_parts.
  pose proof (parts_no_pass _ _ _ _ Hp) as Hp'.
  unfold AuthMem.scrub_passphrase. apply cwp_bind, (cwp_load_auth _ _ _ _ _ Eq).
  cbn [as_passphrase as_passphrase_len]. pose proof Hp as (_ & Hs & _). revert Hs.
  pose proof (fun B m1 => session_drop pub sh (with_pass None sh) a _ cp B m m1 Ha eq_refl Hp') as D.
  pose proof (tail_pass sh) as T. unfold tail in Hq.
  destruct (sh_pass sh) as [l|] eqn:Es, (passphrase a) as [s|] eqn:Ep; intros Hs; try done.
  - destruct Hs as [El Hs]. cbn in Hq. apply not_elem_of_cons in Hq as [Hql Hq].
    apply cwp_bind, cwp_bind, (cwp_zeroize _ _ _ _ _ El), cwp_bind.
    eapply cwp_free; [cbn; by rewrite lookup_insert_eq|].
    eapply cwp_modify_auth.
    { cbn. rewrite lookup_delete_ne, lookup_insert_ne by done. exact Eq. }
    eapply cwp_modify_auth; [cbn; by rewrite lookup_insert_eq|].
    cbn [live dead with_live]. rewrite delete_insert_eq, insert_insert_eq.
    split; [done|]. apply (D [l] {| live := _; dead := _ |} T (footprint_delete _ _ _)).
    apply wiped_free, (harmless_zeros pub (Datatypes.S _)).
  - apply cwp_bind, cwp_ret. eapply cwp_modify_auth; [exact Eq|]. split; [done|].
    unfold set_passphrase_len. cbn. rewrite Es.
    apply (D [] m T (footprint_refl _ _)). by apply wiped_refl.
Qed.

Lemma cache_clear_raw pub q s l ns t m :
  live m !! q = Some (CStruct (OAuth s)) -> list_rep (live m) (as_cache s) l ns ->
  NoDup (q :: locs ns) -> Forall (fun e => pub (te_scope e)) l ->
  cwp (AuthMem.cache_clear (Some q))
      (fun _ t' m' => t' = t /\ exists m1, footprint (locs ns) m [] m1 /\ wiped pub m m1 /\
         m' = with_live (<[q := CStruct (OAuth (set_cache None s))]> (live m1)) m1) t m.
Proof.
  intros Eq Hl [Hq Hn]%NoDup_cons Hpub.
  apply cwp_bind, (cwp_load_auth _ _ _ _ _ Eq), cwp_bind. unfold fuelled.
  eapply cwp_mono; [apply (clear_from_spec pub _ _ l ns); try done|].
  { apply Nat.le_le_succ_r. by eapply nodes_fuel. }
  intros _ t' m' (-> & F & W). eapply cwp_modify_auth; [|eauto].
  rewrite <- Eq. by eapply footprint_agree; eauto.
Qed.

Lemma nodup_nodes sh : NoDup (sh_locs sh) -> NoDup (sh_auth sh :: locs (sh_nodes sh)).
Proof.
  unfold sh_locs. rewrite !NoDup_cons, !NoDup_app, !elem_of_app. tauto.
Qed.

Lemma cache_clear_spec pub sh a t m :
  auth_at (live m) sh a -> public pub a ->
  cwp (AuthMem.cache_clear (Some (sh_auth sh)))
      (fun _ t' m' => t' = t /\
         session_step pub sh m (with_nodes [] sh) (AuthState.cache_clear a) m') t m.
Proof.
  intros Ha [_ Hpub]. pose proof Ha as (Hq & cp & Eq & Hp)%auth_at_parts.
  eapply cwp_mono; [apply (cache_clear_raw pub _ _ (cache a) (sh_nodes sh) _ _ Eq)|].
  - apply Hp.
  - apply nodup_nodes, Ha.
  - done.
  - intros _ t' m' (-> & m1 & F & W & ->). split; [done|].
    by apply (session_drop pub sh (with_nodes [] sh) a _ None _ m m1 Ha eq_refl
                (parts_no_nodes _ _ _ _ Hp) (tail_nodes sh)).
Qed.

(** [free(a->username)] *)
Lemma free_user_spec pub h p u t m :
  h = live m -> str_rep h p u -> (forall s, u = Some s -> pub s) ->
  cwp (free p)
      (fun _ t' m' => t' = t /\ footprint (option_list p) m [] m' /\ wiped pub m m') t m.
Proof.
  intros ->. destruct p as [l|], u as [s|]; cbn; try done; intros Hs Hpub.
  - destruct Hs as [El _]. apply (cwp_free _ _ _ _ _ El).
    split_and!; [done|apply footprint_delete|].
    by apply wiped_free, harmless_public, Hpub.
  - split_and!; [done|apply footprint_refl|by apply wiped_refl].
Qed.

(** [free(a->username); a->username = NULL;] *)
Lemma drop_user_spec pub sh a t m :
  auth_at (live m) sh a -> public pub a ->
  cwp (cbind (load_auth (Some (sh_auth sh))) (fun s =>
         cbind (free (as_username s)) (fun _ =>
           modify_auth (Some (sh_auth sh)) (set_username None))))
      (fun _ t' m' => t' = t /\
         session_step pub sh m (with_user None sh) (auth_set_username None a) m') t m.
Proof.
  intros Ha [Hpub _]. pose proof Ha as (Hq & cp & Eq & Hp)%auth_at_parts.
  pose proof (parts_no_user _ _ _ _ Hp) as Hp'. pose proof Hp as (_ & _ & Hs & _).
  apply cwp_bind, (cwp_load_auth _ _ _ _ _ Eq), cwp_bind. cbn [as_username].
  eapply cwp_mono; [by eapply (free_user_spec pub _ _ _ _ m eq_refl Hs)|].
  intros _ t' m1 (-> & F & W).
  destruct (session_drop pub sh (with_user None sh) a _ cp _ m m1 Ha eq_refl Hp' (tail_user sh) F W)
    as [Eq' Hs'].
  rewrite Eq in Eq'. by apply (cwp_modify_auth _ _ _ _ _ _ Eq').
Qed.

(** A session whose struct is all there is. *)
Definition bare (q : positive) : shape :=
  {| sh_auth := q; sh_pass := None; sh_user := None; sh_nodes := [] |}.

Definition relogged (a : ehem_auth) : ehem_auth :=
  AuthState.scrub_passphrase (auth_set_username None (AuthState.cache_clear a)).

Lemma relogin_spec pub sh a t m :
  auth_at (live m) sh a -> public pub a ->
  cwp (relogin (Some (sh_auth sh)))
      (fun _ t' m' => t' = t /\
         session_step pub sh m (bare (sh_auth sh)) (relogged a) m') t m.
Proof.
  intros Ha Hpub. apply cwp_bind.
  eapply cwp_mono; [by apply cache_clear_spec|]. intros _ t1 m1 (-> & S1).
  apply cwp_bind. eapply cwp_mono.
  { apply (drop_user_spec pub (with_nodes [] sh) _ _ _ (proj1 S1)).
    split; [apply Hpub|constructor]. }
  intros _ t2 m2 (-> & S2). eapply cwp_mono.
  { apply (scrub_spec pub (with_user None (with_nodes [] sh)) _ _ _ (proj1 S2)). }
  intros _ t3 m3 (-> & S3). split; [done|].
  by eapply session_step_trans, session_step_trans.
Qed.

(** A step that changes only fields of the struct. *)
Lemma fields_step pub sh a a' cp m :
  auth_at (live m) sh a -> live m !! sh_auth sh = Some (auth_cell sh a cp) ->
  passphrase a' = passphrase a -> username a' = username a -> cache a' = cache a ->
  session_step pub sh m sh a'
    (with_live (<[sh_auth sh := auth_cell sh a' cp]> (live m)) m).
Proof.
  intros Ha E Ep Eu Ec. pose proof Ha as (Hq & cp' & Eq & Hp)%auth_at_parts.
  rewrite E in Eq. injection Eq as <-.
  apply (session_store pub sh sh a a' cp m m Ha eq_refl (footprint_refl _ _)); [|by apply wiped_refl].
  unfold parts. by rewrite Ep, Eu, Ec.
Qed.

Lemma destroy_spec pub sh a t m :
  auth_at (live m) sh a -> public pub a ->
  cwp (ehem_auth_destroy (Some (sh_auth sh)))
      (fun _ t' m' => t' = t /\ footprint (sh_locs sh) m [] m' /\ wiped pub m m') t m.
Proof.
  intros Ha [Hpu Hpc]. apply cwp_bind. eapply cwp_mono; [by apply (scrub_spec pub)|].
  intros _ t1 m1 (-> & (A1 & _ & F1 & W1)).
  pose proof A1 as (Hq & cp & Eq & Hp)%auth_at_parts. pose proof Hp as (_ & _ & Hu & Hl).
  pose proof (nodup_nodes _ (proj1 A1)) as Hn. pose proof (proj1 A1) as Hn1.
  cbn in Eq, Hu, Hl, Hq, Hn. unfold sh_locs in Hn1. cbn in Hn1.
  apply cwp_bind, (cwp_load_auth _ _ _ _ _ Eq), cwp_bind. cbn [as_username sh_user with_pass].
  eapply cwp_mono; [by eapply (free_user_spec pub _ _ _ _ m1 eq_refl Hu)|].
  intros _ t2 m2 (-> & F2 & W2).
  assert (forall x, x ∈ sh_auth sh :: locs (sh_nodes sh) -> live m2 !! x = live m1 !! x) as Hx.
  { intros x Hx. eapply footprint_agree; [done| |].
    - apply NoDup_cons in Hn1 as [Hn0 Hn1]. apply NoDup_app in Hn1 as (_ & Hd & _).
      intros Hu'. apply elem_of_cons in Hx as [->|Hx]; [set_solver|by eapply Hd].
    - eapply auth_at_live; [exact A1|]. unfold sh_locs. cbn. set_solver. }
  apply cwp_bind. eapply cwp_mono.
  { eapply (cache_clear_raw pub (sh_auth sh) _ (cache a) (sh_nodes sh)); [| |done|done].
    - rewrite Hx by set_solver. exact Eq.
    - cbn [as_cache]. eapply list_rep_frame; [|exact Hl]. intros; apply Hx; set_solver. }
  intros _ t3 ? (-> & m3 & F3 & W3 & ->).
  eapply cwp_free; [apply lookup_insert_eq|]. cbn [live dead with_live].
  split; [done|]. split.
  - eapply footprint_trans; [exact F1|].
    change (sh_locs (with_pass None sh)) with
      (sh_auth sh :: option_list (sh_user sh) ++ locs (sh_nodes sh)).
    eapply (footprint_trans _ _ (sh_auth sh :: locs (sh_nodes sh))).
    { eapply (footprint_part (sh_auth sh :: locs (sh_nodes sh)) (option_list (sh_user sh)) []);
        [by rewrite Permutation_app_comm|by rewrite app_nil_r|exact F2|].
      intros x Hx'. eapply auth_at_live; [exact A1|]. unfold sh_locs. cbn. set_solver. }
    eapply (footprint_trans _ _ [sh_auth sh] m3).
    { apply (footprint_frame [sh_auth sh] _ _ _ _ F3).
      intros x ->%list_elem_of_singleton. rewrite Hx by set_solver. eauto. }
    rewrite delete_insert_eq. apply footprint_delete.
  - eapply wiped_trans, wiped_trans, wiped_trans; [done..|].
    by apply (wiped_free pub m3 _ (sh_auth sh) (CStruct _)).
Qed.

(** ** The put *)

(** The nodes once the entry found for [scope] has its token at [tk]. *)
Fixpoint node_replace (l : list token_entry) (ns : list node) (scope : string) (tk : positive)
  : list node :=
  match l, ns with
  | e :: l, (n, s, t) :: ns =>
      if String.eqb (te_scope e) scope then (n, s, tk) :: ns
      else (n, s, t) :: node_replace l ns scope tk
  | _, _ => ns
  end.

Lemma locs_cons n s t ns : locs ((n, s, t) :: ns) = n :: s :: t :: locs ns.
Proof. done. Qed.

Lemma node_replace_locs l ns scope tk n s t :
  node_find l ns scope = Some (n, s, t) ->
  exists rest, n ∈ rest /\ locs ns ≡ₚ t :: rest /\ locs (node_replace l ns scope tk) ≡ₚ tk :: rest.
Proof.
  revert ns. induction l as [|e l IH]; intros [|[[n1 s1] t1] ns]; try done; cbn.
  destruct (String.eqb (te_scope e) scope).
  - intros [= -> -> ->]. exists (n :: s :: locs ns). rewrite !locs_cons.
    split; [set_solver|]. split; solve_Permutation.
  - intros H. destruct (IH _ H) as (rest & Hn & E1 & E2).
    exists (n1 :: s1 :: t1 :: rest). rewrite !locs_cons, E1, E2.
    split; [set_solver|]. split; solve_Permutation.
Qed.

Lemma node_find_cell h p l ns scope n s t :
  list_rep h p l ns -> node_find l ns scope = Some (n, s, t) ->
  exists e next, h !! n = Some (token_cell e s t next) /\ nul_free (te_token e) /\
                 h !! t = Some (CBytes (c_string (te_token e))).
Proof.
  revert p ns. induction l as [|e l IH]; intros p [|[[n1 s1] t1] ns]; try done; cbn.
  intros (-> & Hs & Ht & Es & Et & next & En & Hl).
  destruct (String.eqb (te_scope e) scope); [|by eapply IH].
  intros [= -> -> ->]. eauto 10.
Qed.

Lemma list_rep_replace h h' p l ns scope token exp tk n s t e0 next0 :
  list_rep h p l ns -> NoDup (locs ns) -> nul_free token ->
  node_find l ns scope = Some (n, s, t) -> h !! n = Some (token_cell e0 s t next0) ->
  h' !! n = Some (CStruct (OToken {| ts_scope := Some s; ts_token := Some tk;
                                     ts_exp := exp; ts_next := next0 |})) ->
  h' !! tk = Some (CBytes (c_string token)) ->
  (forall x, x ∈ locs ns -> x <> n -> x <> t -> h' !! x = h !! x) ->
  list_rep h' p (cache_replace l scope token exp) (node_replace l ns scope tk).
Proof.
  intros Hr Hn Htok Hf En0 En' Etk' Hx. revert p ns Hr Hn Hf Hx.
  induction l as [|e l IH]; intros p [|[[n1 s1] t1] ns]; try done; cbn [list_rep node_find].
  rewrite locs_cons, !NoDup_cons. intros (-> & Hs & Ht & Es & Et & next & En & Hl).
  intros (N1 & N2 & N3 & Hn) Hf Hx. cbn. destruct (String.eqb (te_scope e) scope).
  - injection Hf as -> -> ->. rewrite En in En0. injection En0 as _ ->.
    cbn. split_and!; try done; [rewrite Hx; [done|set_solver..]|].
    exists next0. split; [exact En'|]. eapply list_rep_frame; [|done].
    intros x Hx'. apply Hx; set_solver.
  - assert (n ∈ locs ns /\ t ∈ locs ns) as [I1 I2].
    { destruct (node_replace_locs _ _ _ t _ _ _ Hf) as (rest & Hi & E & _).
      rewrite E. set_solver. }
    cbn. rewrite !Hx by set_solver. split_and!; try done. exists next. split; [done|].
    apply IH; try done. intros x Hx'. apply Hx. set_solver.
Qed.

(** The consultations of [cache_put] and whether it succeeds. *)
Definition add_outcome (t : nat) : bool * nat :=
  if p_malloc t then (p_malloc (Datatypes.S t), (2 + t)%nat) else (false, Datatypes.S t).
Definition put_outcome (l : list token_entry) (scope : string) (t : nat) : bool * nat :=
  if p_malloc t then
    match AuthState.cache_find l scope with
    | Some _ => (true, Datatypes.S t)
    | None => add_outcome (Datatypes.S t)
    end
  else (false, Datatypes.S t).

Lemma put_value scope token exp a w :
  auth (w_ctx w) = Some a ->
  let e := {| te_scope := scope; te_token := token; te_exp := exp |} in
  let (ok, t') := put_outcome (cache a) scope (w_tick w) in
  AuthState.cache_put scope token exp w =
    if ok then (Ok (Some e), with_ctx (at_tick t' w)
      (ctx_set_auth (Some (auth_set_cache (cache_update (cache a) e) a)) (w_ctx w)))
    else (Ok None, at_tick t' w).
Proof.
  intros Ea e. unfold put_outcome, add_outcome, AuthState.cache_put, get_auth, dup_str, alloc, malloc, ask, bind,
    get_ctx, ret, upd_auth, upd_ctx, cache_update. cbn. rewrite Ea.
  destruct (p_malloc (w_tick w)); [|done].
  destruct (AuthState.cache_find (cache a) scope) as [x|] eqn:Ef; cbn.
  - rewrite ?Ef, Ea. by apply cache_find_scope in Ef as ->.
  - destruct (p_malloc (Datatypes.S (w_tick w))); cbn; [|done].
    destruct (p_malloc (Datatypes.S (Datatypes.S (w_tick w)))); cbn; [|done]. by rewrite ?Ef, Ea.
Qed.

(** Work on the list alone, the pointer to its head included. *)
Lemma links_step pub sh a cp' ns' l' m m1 :
  auth_at (live m) sh a -> live m1 !! sh_auth sh = Some (auth_cell sh a cp') ->
  footprint (sh_auth sh :: locs (sh_nodes sh)) m (sh_auth sh :: locs ns') m1 -> wiped pub m m1 ->
  NoDup (sh_auth sh :: locs ns') -> list_rep (live m1) cp' l' ns' ->
  session_step pub sh m (with_nodes ns' sh) (auth_set_cache l' a) m1.
Proof.
  intros Ha E F W Hn' Hl'. pose proof Ha as (Hn & Hp & Hu & cp & Eq & Hl).
  set (G := option_list (sh_pass sh) ++ option_list (sh_user sh)).
  assert (sh_locs sh ≡ₚ G ++ sh_auth sh :: locs (sh_nodes sh)) as L1
    by (unfold G, sh_locs; solve_Permutation).
  assert (sh_locs (with_nodes ns' sh) ≡ₚ G ++ sh_auth sh :: locs ns') as L2
    by (unfold G, sh_locs; cbn; solve_Permutation).
  pose proof Hn as Hall. rewrite L1 in Hall. apply NoDup_app in Hall as (HG & Hd & _).
  assert (forall x, x ∈ G -> is_Some (live m !! x)) as HGl.
  { intros x Hx. eapply auth_at_live; [exact Ha|]. rewrite L1. set_solver. }
  assert (forall x, x ∈ G -> live m1 !! x = live m !! x) as Hx.
  { intros x Hx. eapply footprint_agree; [done| |]; auto. }
  split; [|split; [done|split; [|done]]].
  - split.
    { rewrite L2. apply NoDup_app. split; [done|]. split; [|done].
      intros x Hx'. eapply footprint_fresh; eauto. }
    split; [eapply str_rep_frame; [|exact Hp]; intros; apply Hx; set_solver|].
    split; [eapply str_rep_frame; [|exact Hu]; intros; apply Hx; set_solver|].
    exists cp'. by split.
  - rewrite L1, L2. by apply footprint_frame.
Qed.

(** Work on the entries: the struct stays. *)
Lemma nodes_step pub sh a cp ns' l' m m1 :
  auth_at (live m) sh a -> live m !! sh_auth sh = Some (auth_cell sh a cp) ->
  footprint (locs (sh_nodes sh)) m (locs ns') m1 -> wiped pub m m1 ->
  NoDup (locs ns') -> list_rep (live m1) cp l' ns' ->
  session_step pub sh m (with_nodes ns' sh) (auth_set_cache l' a) m1.
Proof.
  intros Ha E F W Hn' Hl'. pose proof (nodup_nodes _ (proj1 Ha)) as [Hq _]%NoDup_cons.
  eapply links_step; try done.
  - rewrite <- E. by eapply footprint_agree; eauto.
  - apply (footprint_frame [sh_auth sh] _ _ _ _ F).
    intros x ->%list_elem_of_singleton. eauto.
  - apply NoDup_cons. split; [|done]. by eapply footprint_fresh; eauto.
Qed.

(** What a put leaves: the outcome and the ticks of [put_outcome]. *)
Definition put_post (pub : string -> Prop) (sh : shape) (a : ehem_auth) (m : cmem auth_obj)
    (e : token_entry) (o : bool * nat) (r : ptr) (t' : nat) (m' : cmem auth_obj) : Prop :=
  t' = snd o /\ (if fst o then r <> None else r = None) /\
  exists sh', session_step pub sh m sh'
    (if fst o then auth_set_cache (cache_update (cache a) e) a else a) m'.

Lemma replace_token_spec pub sh a scope token exp tk nd t m :
  auth_at (live m) sh a -> nul_free token -> live m !! tk = None ->
  node_find (cache a) (sh_nodes sh) scope = Some nd ->
  AuthState.cache_find (cache a) scope <> None ->
  let e := {| te_scope := scope; te_token := token; te_exp := exp |} in
  cwp (replace_token (Some (fst (fst nd))) (Some tk) exp)
      (put_post pub sh a m e (true, t)) t
      (with_live (<[tk := CBytes (c_string token)]> (live m)) m).
Proof.
  intros Ha Htok Htk Hf Hsome e. destruct nd as [[n s] t0]. cbn [fst].
  pose proof Ha as (Hq & cp & Eq & (Hn & Hp & Hu & Hl))%auth_at_parts.
  destruct (node_find_cell _ _ _ _ _ _ _ _ Hl Hf) as (e0 & next & En & Ht0 & Et0).
  destruct (node_replace_locs _ _ _ tk _ _ _ Hf) as (rest & Hnr & L1 & L2).
  assert (n <> tk /\ t0 <> tk) as [Ntk Nt0] by (split; congruence).
  assert (NoDup (locs (sh_nodes sh))) as Hnl by (unfold tail in Hn; rewrite !NoDup_app in Hn; tauto).
  pose proof Hnl as Hnr'. rewrite L1 in Hnr'. apply NoDup_cons in Hnr' as [N0 Hrest].
  assert (n <> t0) as Nn by set_solver.
  apply cwp_bind. eapply cwp_load_token; [cbn; by rewrite lookup_insert_ne|]. cbn [ts_token].
  apply cwp_bind. eapply cwp_wipe_and_free; [cbn; by rewrite lookup_insert_ne|done|].
  cbn [live dead with_live]. apply cwp_bind. eapply cwp_modify_token.
  { cbn. rewrite lookup_delete_ne, lookup_insert_ne by done. exact En. }
  apply cwp_bind. eapply cwp_modify_token; [apply lookup_insert_eq|].
  cbn. rewrite insert_insert_eq. split; [done|]. split; [done|].
  exists (with_nodes (node_replace (cache a) (sh_nodes sh) scope tk) sh).
  unfold cache_update. cbn. destruct (AuthState.cache_find (cache a) scope); [clear Hsome|done].
  assert (forall x, x ∈ rest -> is_Some (live m !! x)) as Hlive.
  { intros x Hx. eapply list_rep_live; [exact Hl|]. rewrite L1. set_solver. }
  assert (tk ∉ rest) as Ntr by (intros [c Hc]%Hlive; congruence).
  eapply (nodes_step pub sh a cp _ _ m); try done.
  - rewrite L1, L2. split; intros x Hx; [|set_solver]. cbn.
    rewrite lookup_insert_ne, lookup_delete, lookup_insert_ne by set_solver.
    repeat case_decide; set_solver.
  - apply wiped_free, (harmless_zeros pub (Datatypes.S _)).
  - rewrite L2. by apply NoDup_cons.
  - eapply list_rep_replace; try done; cbn [live with_live].
    + apply lookup_insert_eq.
    + by rewrite lookup_insert_ne, lookup_delete_ne, lookup_insert_eq by congruence.
    + intros x Hx N1 N2. rewrite lookup_insert_ne, lookup_delete_ne by congruence.
      apply lookup_insert_ne. rewrite L1 in Hx. set_solver.
Qed.

(** Everything allocated on the way is given back. *)
Lemma same_live pub sh a m m' :
  auth_at (live m) sh a -> live m' = live m -> wiped pub m m' -> session_step pub sh m sh a m'.
Proof.
  intros Ha E W. split; [by rewrite E|]. split; [done|]. split; [|done].
  destruct (footprint_refl (sh_locs sh) m) as [A B]. split; [by rewrite E|done].
Qed.

(** One more entry before the others. *)
Lemma tail_new sh n s tk :
  tail (with_nodes ((n, s, tk) :: sh_nodes sh) sh) ≡ₚ tail sh ++ [n; s; tk].
Proof. unfold tail. cbn [sh_pass sh_user sh_nodes with_nodes]. rewrite locs_cons. solve_Permutation. Qed.

Lemma parts_new h sh a cp e n s tk :
  parts h sh a cp -> nul_free (te_scope e) -> nul_free (te_token e) ->
  h !! n = Some (token_cell e s tk cp) -> h !! s = Some (CBytes (c_string (te_scope e))) ->
  h !! tk = Some (CBytes (c_string (te_token e))) ->
  NoDup [n; s; tk] -> (forall x, x ∈ [n; s; tk] -> x ∉ tail sh) ->
  parts h (with_nodes ((n, s, tk) :: sh_nodes sh) sh) (auth_set_cache (e :: cache a) a) (Some n).
Proof.
  intros (Hn & Hp & Hu & Hl) ? ? ? ? ? Hnew Hd. split.
  { rewrite tail_new. apply NoDup_app. split; [done|]. split; [|done].
    intros x Hx Hx'. by apply (Hd x). }
  split; [done|]. split; [done|]. cbn. eauto 10.
Qed.

(** The memory in which the new entry heads the list. *)
Lemma new_entry_step pub sh a cp e n s tk m :
  auth_at (live m) sh a -> parts (live m) sh a cp ->
  nul_free (te_scope e) -> nul_free (te_token e) ->
  live m !! n = None -> live m !! s = None -> live m !! tk = None -> NoDup [n; s; tk] ->
  let m1 := with_live (<[n := token_cell e s tk cp]> (<[s := CBytes (c_string (te_scope e))]>
    (<[n := CStruct (OToken token_struct_zero)]>
      (<[tk := CBytes (c_string (te_token e))]> (live m))))) m in
  let sh' := with_nodes ((n, s, tk) :: sh_nodes sh) sh in
  let a' := auth_set_cache (e :: cache a) a in
  session_step pub sh m sh' a'
    (with_live (<[sh_auth sh := auth_cell sh' a' (Some n)]> (live m1)) m1).
Proof.
  intros Ha Hparts Hsc Htok Hn Hs Htk Hd m1 sh' a'.
  apply (session_store pub sh _ a); [done|done| | |by apply wiped_refl].
  { eapply (footprint_part (tail sh) [] [n; s; tk]); [by rewrite app_nil_r|apply tail_new| |].
    - split; intros x Hx; cbn.
      + rewrite !lookup_insert_ne by set_solver. done.
      + right. repeat (apply elem_of_cons in Hx as [->|Hx]; [done|]). by apply elem_of_nil in Hx.
    - intros x Hx. by eapply parts_live. }
  pose proof Hd as Hd'. rewrite !NoDup_cons, !not_elem_of_cons in Hd'.
  destruct Hd' as ((Nns & Nnt & _) & (Nst & _) & _ & _).
  unfold m1. apply (parts_new _ _ _ cp); try done; cbn [live with_live].
  - eapply parts_frame; [|done]. intros x Hx.
    destruct (parts_live _ _ _ _ _ Hparts Hx) as [c Hc]. by rewrite !lookup_insert_ne by congruence.
  - apply lookup_insert_eq.
  - rewrite lookup_insert_ne by done. apply lookup_insert_eq.
  - by rewrite !lookup_insert_ne, lookup_insert_eq by congruence.
  - intros x Hx Ht. destruct (parts_live _ _ _ _ _ Hparts Ht) as [c Hc].
    repeat (apply elem_of_cons in Hx as [->|Hx]; [congruence|]). by apply elem_of_nil in Hx.
Qed.

Lemma add_entry_spec pub sh a scope token exp tk t m :
  auth_at (live m) sh a -> nul_free scope -> nul_free token -> live m !! tk = None ->
  AuthState.cache_find (cache a) scope = None ->
  let e := {| te_scope := scope; te_token := token; te_exp := exp |} in
  cwp (add_entry (Some (sh_auth sh)) scope (Some tk) exp)
      (put_post pub sh a m e (add_outcome t)) t
      (with_live (<[tk := CBytes (c_string token)]> (live m)) m).
Proof.
  intros Ha Hsc Htok Htk Hnone e. unfold add_outcome.
  pose proof Ha as (Hq & cp & Eq & Hparts)%auth_at_parts.
  assert (sh_auth sh <> tk) as Nq by congruence.
  apply cwp_bind, cwp_allocate.
  { intros ->. apply cwp_bind. eapply cwp_wipe_and_free; [apply lookup_insert_eq|done|].
    split; [done|]. split; [done|]. exists sh. apply (same_live pub); [done| |].
    - cbn. rewrite delete_insert_eq. by apply delete_id.
    - apply (wiped_free pub m), (harmless_zeros pub (Datatypes.S _)). }
  intros n -> Hn _. cbn in Hn. apply lookup_insert_None in Hn as [Hn Ntk].
  assert (sh_auth sh <> n) as Nn by congruence.
  apply cwp_bind, cwp_allocate.
  { intros ->. apply cwp_bind. eapply cwp_modify_token; [apply lookup_insert_eq|]. cbn.
    apply cwp_bind. eapply cwp_wipe_and_free.
    { cbn. rewrite !lookup_insert_ne by congruence. apply lookup_insert_eq. }
    { done. }
    apply cwp_bind. eapply cwp_free.
    { cbn. rewrite lookup_delete_ne by congruence. apply lookup_insert_eq. }
    split; [done|]. split; [done|]. exists sh. apply (same_live pub); [done| |].
    - cbn. apply map_eq. intros x. rewrite !lookup_delete, !lookup_insert.
      repeat case_decide; congruence.
    - cbn. apply wiped_insert; [|done].
      apply (wiped_free pub m), (harmless_zeros pub (Datatypes.S _)). }
  intros s -> Hs _. cbn in Hs. rewrite !lookup_insert_None in Hs. destruct Hs as ((Hs & Nts) & Nns).
  assert (sh_auth sh <> s) as Ns by congruence.
  apply cwp_bind. eapply cwp_modify_token; [cbn; rewrite lookup_insert_ne by done; apply lookup_insert_eq|].
  cbn. apply cwp_bind. eapply cwp_load_auth.
  { cbn. rewrite !lookup_insert_ne by done. exact Eq. }
  cbn. apply cwp_bind. eapply cwp_modify_token; [apply lookup_insert_eq|]. cbn.
  rewrite insert_insert_eq. apply cwp_bind. eapply cwp_modify_auth.
  { cbn. rewrite !lookup_insert_ne by done. exact Eq. }
  cbn. split; [done|]. split; [done|]. exists (with_nodes ((n, s, tk) :: sh_nodes sh) sh).
  unfold cache_update. cbn. rewrite Hnone.
  apply (new_entry_step pub sh a cp e n s tk m); try done.
  rewrite !NoDup_cons, !not_elem_of_cons. split_and!; auto using not_elem_of_nil, NoDup_nil_2.
Qed.

Lemma cache_put_spec pub sh a scope token exp t m :
  auth_at (live m) sh a -> nul_free scope -> nul_free token ->
  let e := {| te_scope := scope; te_token := token; te_exp := exp |} in
  cwp (AuthMem.cache_put (Some (sh_auth sh)) scope token exp)
      (put_post pub sh a m e (put_outcome (cache a) scope t)) t m.
Proof.
  intros Ha Hsc Htok e. pose proof Ha as (Hq & cp & Eq & (Hn & Hp & Hu & Hl))%auth_at_parts.
  assert (NoDup (locs (sh_nodes sh))) as Hnl by (unfold tail in Hn; rewrite !NoDup_app in Hn; tauto).
  apply cwp_bind. eapply cwp_mono; [by eapply (cache_find_spec _ _ (cache a) (sh_nodes sh))|].
  intros p t1 m1 (-> & -> & ->). unfold put_outcome.
  pose proof (node_find_cache (cache a) (sh_nodes sh) scope (list_rep_length _ _ _ _ Hl)) as Hiff.
  apply cwp_bind, cwp_allocate.
  { intros ->. split; [done|]. split; [done|]. exists sh. by apply same_live, wiped_refl. }
  intros tk -> Htk _. destruct (node_find _ _ _) as [nd|] eqn:Hf; cbn [fmap option_fmap option_map].
  - assert (is_Some (AuthState.cache_find (cache a) scope)) as [x Ex] by (apply Hiff; eauto).
    rewrite Ex. eapply replace_token_spec; try done. by rewrite Ex.
  - destruct (AuthState.cache_find (cache a) scope) eqn:Ex.
    { destruct (proj2 Hiff ltac:(eauto)) as [? [=]]. }
    by apply add_entry_spec.
Qed.

Lemma invalidate_spec pub sh a scope t m :
  auth_at (live m) sh a -> public pub a ->
  cwp (AuthMem.ehem_auth_invalidate (Some (sh_auth sh)) scope)
      (fun _ t' m' => t' = t /\ exists sh', session_step pub sh m sh'
         match scope with
         | Some s => auth_set_cache (cache_remove (cache a) s) a
         | None => AuthState.cache_clear a
         end m') t m.
Proof.
  intros Ha Hpub. destruct scope as [scope|]; cbn.
  2: { eapply cwp_mono; [by apply cache_clear_spec|]. intros _ t' m' [-> S]. eauto. }
  pose proof Ha as (Hq & cp & Eq & Hparts)%auth_at_parts. pose proof Hparts as (Hn & Hp & Hu & Hl).
  pose proof (nodup_nodes _ (proj1 Ha)) as Hqn.
  apply cwp_bind, (cwp_load_auth _ _ _ _ _ Eq). unfold fuelled.
  eapply cwp_mono.
  { eapply (unlink_spec pub _ (sh_auth sh) None _ _ (cache a) (sh_nodes sh)); try done; [|apply Hpub].
    apply Nat.le_le_succ_r. eapply nodes_fuel; [done|]. by apply NoDup_cons in Hqn as [_ ?]. }
  cbn [default from_option id]. intros _ t' m' (-> & W & p' & ns' & Eq' & Hl' & Hn' & F).
  split; [done|]. exists (with_nodes ns' sh). by eapply (links_step pub sh a p').
Qed.

(** ** What the engine does to the session on the way *)

Lemma keep_username_spec pub sh a lbl t m :
  auth_at (live m) sh a -> public pub a -> nul_free lbl ->
  cwp (keep_username (Some (sh_auth sh)) lbl)
      (fun _ t' m' => t' = Datatypes.S t /\ exists sh', session_step pub sh m sh'
         (if p_malloc t then auth_set_username (Some lbl) a else a) m') t m.
Proof.
  intros Ha [Hpub _] Hlbl. pose proof Ha as (Hq & cp & Eq & Hparts)%auth_at_parts.
  pose proof Hparts as (Hn & Hp & Hu & Hl).
  apply cwp_bind, cwp_allocate.
  { intros ->. split; [done|]. exists sh. by apply same_live, wiped_refl. }
  intros u -> Hfu _. set (m1 := with_live _ m).
  assert (forall x, is_Some (live m !! x) -> live m1 !! x = live m !! x) as H1.
  { intros x [c Hc]. apply lookup_insert_ne. congruence. }
  assert (live m1 !! sh_auth sh = Some (auth_cell sh a cp)) as Eq1 by (rewrite H1; eauto).
  apply cwp_bind, (cwp_load_auth _ _ _ _ _ Eq1), cwp_bind. cbn [as_username].
  assert (str_rep (live m1) (sh_user sh) (username a)) as Hu1.
  { eapply str_rep_frame; [|exact Hu]. intros x Hx. apply H1. by eapply str_rep_live. }
  eapply cwp_mono; [by eapply (free_user_spec pub _ _ _ _ m1 eq_refl Hu1)|].
  intros _ t2 m2 (-> & F & W).
  assert (live m2 !! u = Some (CBytes (c_string lbl)) /\
          footprint (option_list (sh_user sh)) m [u] m2) as [Eu Fu].
  { assert (u ∉ option_list (sh_user sh)) as Nu
      by (intros Hx; destruct (str_rep_live _ _ _ _ Hu Hx); congruence).
    assert (live m1 !! u = Some (CBytes (c_string lbl))) as E1 by apply lookup_insert_eq.
    split; [rewrite <- E1; eapply footprint_agree; eauto|].
    eapply (footprint_trans _ _ (option_list (sh_user sh) ++ [u]) m1).
    - eapply (footprint_part (option_list (sh_user sh)) [] [u]);
        [by rewrite app_nil_r|done|by apply footprint_insert|].
      intros x Hx. by eapply str_rep_live.
    - eapply (footprint_part [u]); [apply Permutation_app_comm|by rewrite app_nil_r|exact F|].
      intros x ->%list_elem_of_singleton. eauto. }
  destruct (session_swap pub sh (with_user (Some u) sh) a (auth_set_username (Some lbl) a) cp
    (tail (with_user None sh)) (option_list (sh_user sh)) [u] m m2 Ha eq_refl (tail_user sh)
    (tail_user (with_user (Some u) sh)) Fu W) as (Eq2 & Hk & Hs).
  rewrite Eq in Eq2. eapply cwp_modify_auth; [exact Eq2|]. split; [done|].
  exists (with_user (Some u) sh). apply Hs.
  unfold tail in Hk. cbn in Hk. split.
  - rewrite (tail_user (with_user (Some u) sh)). cbn.
    apply NoDup_app. split; [exact (nodup_part Hn (tail_user sh))|]. split; [|apply NoDup_singleton].
    intros x Hx ->%list_elem_of_singleton.
    destruct (parts_live _ _ _ _ u Hparts); [|congruence].
    rewrite (tail_user sh). set_solver.
  - split; [eapply str_rep_frame; [|exact Hp]; intros; apply Hk; set_solver|].
    split; [done|]. eapply list_rep_frame; [|exact Hl]; intros; apply Hk; set_solver.
Qed.

Lemma drop_credential_spec pub sh a t m :
  auth_at (live m) sh a ->
  cwp (drop_credential (Some (sh_auth sh)))
      (fun _ t' m' => t' = t /\ exists sh', session_step pub sh m sh'
         (if retain a then a else AuthState.scrub_passphrase a) m') t m.
Proof.
  intros Ha. pose proof Ha as (Hq & cp & Eq & Hparts)%auth_at_parts.
  apply cwp_bind, (cwp_load_auth _ _ _ _ _ Eq). cbn [as_retain auth_cell].
  destruct (retain a).
  - split; [done|]. exists sh. by apply same_live, wiped_refl.
  - eapply cwp_mono; [by apply (scrub_spec pub)|]. intros _ t' m' [-> S]. eauto.
Qed.
End Rep.
