(* ===== verification/AuthRefine.v ===== *)
(** * The session in memory refines the session state

    Every operation on [ctx->auth], run on the blocks of [AuthMem], does what its
    counterpart of [AuthState] does to the value the context holds: the same
    return code, the same consultations of the allocator and the clock, and blocks
    that represent the new value.  None is undefined behaviour, none runs out of
    fuel, none leaks or touches a block that is not the session's, and no token or
    passphrase is left in memory that was given back. *)

From stdpp Require Import gmap.
From S2P Require Import Prelude Json World Logic Context Ejwt AuthState Notify Fake.
From S2P Require Import Mem AuthMem AuthMemProps.

Section Refine.
Context {P : Platform}.

Definition rc_of (o : outcome unit) : option ehem_rc :=
  match o with Ok _ => Some EHEM_OK | Err rc => Some rc | Diverge => None end.

(** The operations, the two the engine makes on the way included. *)
Inductive auth_op :=
  | OpLogin (passphrase : string)
  | OpLoginMobile
  | OpLogout
  | OpSeed (scope token : string)
  | OpInvalidate (scope : option string)
  | OpUsername (lbl : string)
  | OpToken (scope token : string) (exp : Z).

(** On the value of the context. *)
Definition op_value (op : auth_op) : M unit :=
  match op with
  | OpLogin pass => AuthState.ehem_login (Some pass)
  | OpLoginMobile => AuthState.ehem_login_mobile
  | OpLogout => AuthState.ehem_logout
  | OpSeed scope token => AuthState.ehem_auth_cache_seed scope token
  | OpInvalidate scope => AuthState.ehem_auth_invalidate scope
  | OpUsername lbl =>
      bind (dup_str lbl) (fun u =>
        match u with Some u => upd_auth (auth_set_username (Some u)) | None => ret tt end)
  | OpToken scope token exp =>
      bind (AuthState.cache_put scope token exp) (fun entry =>
        match entry with
        | None => out_of_memory
        | Some _ => upd_auth (fun a => if retain a then a else AuthState.scrub_passphrase a)
        end)
  end.

(** On the blocks behind [ctx->auth]. *)
Definition op_memory (no_retention : bool) (op : auth_op) (p : ptr)
  : C auth_obj (ehem_rc * ptr) :=
  match op with
  | OpLogin pass => AuthMem.ehem_login p pass no_retention
  | OpLoginMobile => AuthMem.ehem_login_mobile p
  | OpLogout => AuthMem.ehem_logout p
  | OpSeed scope token => AuthMem.ehem_auth_cache_seed p scope token
  | OpInvalidate scope => cbind (AuthMem.ehem_auth_invalidate p scope) (fun _ => cret (EHEM_OK, p))
  | OpUsername lbl => cbind (keep_username p lbl) (fun _ => cret (EHEM_OK, p))
  | OpToken scope token exp =>
      cbind (AuthMem.cache_put p scope token exp) (fun e =>
        match e with
        | None => cret (EHEM_ERR_NOMEM, p)
        | Some _ => cbind (drop_credential p) (fun _ => cret (EHEM_OK, p))
        end)
  end.

(** The engine has checked that there is a session. *)
Definition op_ready (op : auth_op) (a : option ehem_auth) : Prop :=
  match op with OpUsername _ | OpToken _ _ _ => a <> None | _ => True end.

(** The strings of an operation that are no secret. *)
Definition op_names (op : auth_op) : list string :=
  match op with
  | OpSeed scope _ | OpToken scope _ _ => [scope]
  | OpUsername lbl => [lbl]
  | OpLogin _ | OpInvalidate _ | OpLoginMobile | OpLogout => []
  end.

(** The caller's strings end at their first NUL. *)
Definition op_strings (op : auth_op) : list string :=
  match op with
  | OpLogin s | OpUsername s => [s]
  | OpSeed scope token | OpToken scope token _ => [scope; token]
  | OpInvalidate _ | OpLoginMobile | OpLogout => []
  end.

Definition op_given (pub : string -> Prop) (op : auth_op) : Prop :=
  Forall nul_free (op_strings op) /\ Forall pub (op_names op).

Definition all_public (pub : string -> Prop) (a : option ehem_auth) : Prop :=
  match a with Some a => public pub a | None => True end.

(** ** One operation *)

(** The run on the value: return code, tick, session; the options stay. *)
Definition value_is (v : M unit) (w : world) (rc : ehem_rc) (t : nat) (a : option ehem_auth) : Prop :=
  let (o, w') := v w in
  rc_of o = Some rc /\ w_tick w' = t /\ auth (w_ctx w') = a /\ cfg (w_ctx w') = cfg (w_ctx w).

(** The run on the blocks: the same, for the session behind the new pointer. *)
Definition op_post (pub : string -> Prop) (m : cmem auth_obj) (L : list positive)
    (rc : ehem_rc) (t' : nat) (a : option ehem_auth)
    (r : ehem_rc * ptr) (t1 : nat) (m' : cmem auth_obj) : Prop :=
  fst r = rc /\ t1 = t' /\ exists L',
    auth_rep (live m') (snd r) a L' /\ footprint L m L' m' /\ wiped pub m m'.

Definition memory_is (pub : string -> Prop) (c : C auth_obj (ehem_rc * ptr)) (t : nat)
    (m : cmem auth_obj) (L : list positive) (rc : ehem_rc) (t' : nat) (a : option ehem_auth)
  : Prop := cwp c (op_post pub m L rc t' a) t m.

(** Both runs come to the same. *)
Definition op_agrees (pub : string -> Prop) (op : auth_op) (p : ptr) (w : world)
    (m : cmem auth_obj) (L : list positive) : Prop :=
  exists rc t a, value_is (op_value op) w rc t a /\ all_public pub a /\
    memory_is pub (op_memory (no_credential_retention (cfg (w_ctx w))) op p)
      (w_tick w) m L rc t a.

(** A session step, as what an operation leaves behind [ctx->auth]. *)
Lemma step_rep pub sh m sh' a' m' :
  session_step pub sh m sh' a' m' ->
  exists L', auth_rep (live m') (Some (sh_auth sh)) (Some a') L' /\
             footprint (sh_locs sh) m L' m' /\ wiped pub m m'.
Proof. intros (A & E & F & W). exists (sh_locs sh'). split; [exists sh'; auto|done]. Qed.

Lemma bind_ok {A B} (v : M A) (f : A -> M B) w x w' : v w = (Ok x, w') -> bind v f w = f x w'.
Proof. intros E. unfold bind. by rewrite E. Qed.

Definition ensure_outcome (a : option ehem_auth) (t : nat) : option ehem_auth * nat :=
  match a with
  | Some a => (Some a, t)
  | None => (if p_malloc t then Some auth_zero else None, Datatypes.S t)
  end.

Lemma ensure_spec p a L t m :
  auth_rep (live m) p a L ->
  cwp (AuthMem.ensure_auth p)
      (fun r t' m' => t' = snd (ensure_outcome a t) /\
         match fst (ensure_outcome a t) with
         | Some a' => exists sh, r = Some (sh_auth sh) /\ auth_at (live m') sh a' /\
             footprint L m (sh_locs sh) m' /\ dead m' = dead m
         | None => r = None /\ m' = m /\ a = None /\ L = []
         end) t m.
Proof.
  destruct p as [q|], a as [a|]; cbn; try done.
  - intros (sh & <- & -> & Ha). split; [done|]. exists sh. split_and!; try done. apply footprint_refl.
  - intros ->. apply cwp_allocate; [by intros ->|].
    intros q -> Hq _. split; [done|]. exists (bare q). split_and!; try done.
    + split; [apply NoDup_singleton|]. split; [done|]. split; [done|]. exists None.
      split; [apply lookup_insert_eq|done].
    + by apply footprint_insert.
Qed.

Lemma ensure_value w :
  let (a, t) := ensure_outcome (auth (w_ctx w)) (w_tick w) in
  exists w', AuthState.ensure_auth w = (Ok (match a with Some _ => true | None => false end), w') /\
    w_tick w' = t /\ auth (w_ctx w') = a /\ cfg (w_ctx w') = cfg (w_ctx w).
Proof.
  unfold AuthState.ensure_auth, ensure_outcome, get_auth, malloc, ask, bind, get_ctx, ret, upd_ctx.
  cbn. destruct (auth (w_ctx w)) as [a|] eqn:E; [by exists w|]. cbn.
  destruct (p_malloc (w_tick w)); cbn; eauto.
Qed.

Lemma ensure_public pub a t a' :
  all_public pub a -> fst (ensure_outcome a t) = Some a' -> public pub a'.
Proof.
  destruct a as [a|]; cbn; [by intros H [= <-]|].
  intros _. destruct (p_malloc t); [|done]. intros [= <-]. by split.
Qed.

(** What is public stays public. *)
Lemma cache_remove_forall (Q : token_entry -> Prop) l s :
  Forall Q l -> Forall Q (cache_remove l s).
Proof.
  induction 1 as [|e l He Hl IH]; cbn; [done|]. destruct (String.eqb _ _); [done|]. by constructor.
Qed.

Lemma update_public (pub : string -> Prop) l e :
  pub (te_scope e) -> Forall (fun e => pub (te_scope e)) l ->
  Forall (fun e => pub (te_scope e)) (cache_update l e).
Proof.
  intros He Hl. unfold cache_update. destruct (AuthState.cache_find l (te_scope e)); [|by constructor].
  clear He. induction Hl as [|x l Hx Hl IH]; cbn; [done|]. destruct (String.eqb _ _); by constructor.
Qed.

(** ** Each operation agrees *)

Section Agree.
Context (pub : string -> Prop).

Lemma logout_agrees p w m L :
  auth_rep (live m) p (auth (w_ctx w)) L -> all_public pub (auth (w_ctx w)) ->
  op_agrees pub OpLogout p w m L.
Proof.
  intros Hr Hp. exists EHEM_OK, (w_tick w), None. split; [done|]. split; [done|].
  destruct p as [q|], (auth (w_ctx w)) as [a|]; try done.
  - destruct Hr as (sh & <- & -> & Ha). apply cwp_bind.
    eapply cwp_mono; [by apply (destroy_spec pub sh a)|]. intros _ t' m' (-> & F & W).
    split; [done|]. split; [done|]. exists []. by split.
  - cbn in Hr. subst L. split_and!; [done..|]. exists []. split; [done|].
    split; [apply footprint_refl|by apply wiped_refl].
Qed.

Lemma invalidate_agrees scope p w m L :
  auth_rep (live m) p (auth (w_ctx w)) L -> all_public pub (auth (w_ctx w)) ->
  op_agrees pub (OpInvalidate scope) p w m L.
Proof.
  intros Hr Hp. exists EHEM_OK, (w_tick w),
    ((fun a => match scope with
               | Some s => auth_set_cache (cache_remove (cache a) s) a
               | None => AuthState.cache_clear a
               end) <$> auth (w_ctx w)).
  split; [by destruct scope|].
  destruct p as [q|], (auth (w_ctx w)) as [a|]; try done; cbn.
  - split.
    { destruct Hp as [Hu Hc]. destruct scope; split; cbn; try done.
      by apply cache_remove_forall. }
    destruct Hr as (sh & <- & -> & Ha). apply cwp_bind.
    eapply cwp_mono; [by apply (invalidate_spec pub sh a scope)|].
    intros _ t' m' (-> & sh' & S). split_and!; [done..|]. by eapply step_rep.
  - cbn in Hr. subst L. do 3 (split; [done|]). exists []. split; [done|].
    split; [apply footprint_refl|by apply wiped_refl].
Qed.

Lemma username_agrees lbl p w m L :
  auth_rep (live m) p (auth (w_ctx w)) L -> all_public pub (auth (w_ctx w)) ->
  auth (w_ctx w) <> None -> nul_free lbl -> pub lbl -> op_agrees pub (OpUsername lbl) p w m L.
Proof.
  intros Hr Hp Hsome Hn Hl. destruct (auth (w_ctx w)) as [a|] eqn:Ea; [clear Hsome|done].
  exists EHEM_OK, (Datatypes.S (w_tick w)),
    (Some (if p_malloc (w_tick w) then auth_set_username (Some lbl) a else a)).
  split.
  { unfold value_is, op_value, dup_str, malloc, ask, bind, ret, upd_auth, upd_ctx. cbn.
    destruct (p_malloc (w_tick w)); cbn; by rewrite Ea. }
  split.
  { destruct Hp as [Hu Hc]. destruct (p_malloc (w_tick w)); split; try done. by intros u [= <-]. }
  destruct p as [q|]; [|done]. destruct Hr as (sh & <- & -> & Ha).
  apply cwp_bind. eapply cwp_mono; [by apply (keep_username_spec pub sh a)|].
  intros _ t' m' (-> & sh' & S). split_and!; [done..|]. by eapply step_rep.
Qed.

Lemma token_agrees scope token exp p w m L :
  auth_rep (live m) p (auth (w_ctx w)) L -> all_public pub (auth (w_ctx w)) ->
  auth (w_ctx w) <> None -> nul_free scope -> nul_free token -> pub scope ->
  op_agrees pub (OpToken scope token exp) p w m L.
Proof.
  intros Hr Hp Hsome Hs Ht Hps. destruct (auth (w_ctx w)) as [a|] eqn:Ea; [clear Hsome|done].
  destruct Hp as [Hu Hc].
  set (e := {| te_scope := scope; te_token := token; te_exp := exp |}).
  pose proof (put_value scope token exp a w Ea) as V.
  pose proof (fun sh Ha => cache_put_spec pub sh a scope token exp (w_tick w) m Ha Hs Ht) as S.
  fold e in V, S. destruct p as [q|]; [|done]. destruct Hr as (sh & <- & -> & Ha).
  specialize (S sh Ha). destruct (put_outcome (cache a) scope (w_tick w)) as [ok t'].
  set (a1 := auth_set_cache (cache_update (cache a) e) a) in *.
  exists (if ok then EHEM_OK else EHEM_ERR_NOMEM), t',
    (Some (if ok then if retain a1 then a1 else AuthState.scrub_passphrase a1 else a)).
  split.
  { unfold value_is, op_value, bind. rewrite V. destruct ok; [done|]. cbn. by rewrite Ea. }
  split.
  { pose proof (update_public pub (cache a) e Hps Hc).
    destruct ok; [|done]. by destruct (retain a1); split. }
  apply cwp_bind. eapply cwp_mono; [exact S|].
  intros r t1 m1 (-> & Hrr & sh1 & S1). cbn [fst snd] in *.
  destruct ok; [destruct r; [|done]|subst r].
  - apply cwp_bind. pose proof S1 as (A1 & E1 & F1 & W1). rewrite <- E1.
    eapply cwp_mono; [by apply (drop_credential_spec pub sh1 a1)|].
    intros _ t2 m2 (-> & sh2 & S2). do 2 (split; [done|]). cbn. rewrite E1.
    eapply step_rep, session_step_trans; [exact S1|exact S2].
  - do 2 (split; [done|]). by eapply step_rep.
Qed.

Lemma login_mobile_agrees p w m L :
  auth_rep (live m) p (auth (w_ctx w)) L -> all_public pub (auth (w_ctx w)) ->
  op_agrees pub OpLoginMobile p w m L.
Proof.
  intros Hr Hp. pose proof (ensure_spec p (auth (w_ctx w)) L (w_tick w) m Hr) as S.
  set (w0 := with_ctx w (ctx_set_error error_clear (w_ctx w))).
  pose proof (ensure_value w0) as V. change (w_tick w0) with (w_tick w) in V.
  change (auth (w_ctx w0)) with (auth (w_ctx w)) in V.
  change (cfg (w_ctx w0)) with (cfg (w_ctx w)) in V.
  pose proof (fun a => ensure_public pub (auth (w_ctx w)) (w_tick w) a Hp) as Hpub.
  destruct (ensure_outcome (auth (w_ctx w)) (w_tick w)) as [oa t'] eqn:Eo; cbn [fst snd] in *.
  destruct V as (w1 & V & Et & Ea & Ec). destruct oa as [a|].
  - exists EHEM_OK, t', (Some (auth_set_mobile (relogged a))).
    split.
    { unfold value_is, op_value, AuthState.ehem_login_mobile, ehem_ctx_clear_error, bind, upd_ctx.
      fold w0. rewrite V. cbn. by rewrite Ea. }
    split; [by split|].
    apply cwp_bind. eapply cwp_mono; [exact S|].
    intros r t1 m1 (-> & sh & -> & Ha & F & D). apply cwp_bind.
    eapply cwp_mono; [by apply (relogin_spec pub sh a), Hpub|].
    intros _ t2 m2 (-> & S2). pose proof S2 as (A2 & _).
    pose proof A2 as (_ & cp & Eq & _)%auth_at_parts.
    apply cwp_bind. eapply (cwp_modify_auth (sh_auth sh)); [exact Eq|].
    do 2 (split; [done|]).
    pose proof (fields_step pub (bare (sh_auth sh)) _ (auth_set_mobile (relogged a)) cp m2 A2 Eq
      eq_refl eq_refl eq_refl) as S3.
    destruct (step_rep _ _ _ _ _ _ (session_step_trans _ _ _ _ _ _ _ _ _ S2 S3)) as (L' & R & F' & W').
    exists L'. split; [exact R|]. split; [by eapply footprint_trans|].
    eapply wiped_trans; [by apply wiped_refl|exact W'].
  - exists EHEM_ERR_NOMEM, t', None. split.
    { unfold value_is, op_value, AuthState.ehem_login_mobile, ehem_ctx_clear_error, bind, upd_ctx.
      fold w0. rewrite V. cbn. by rewrite Et, Ea. }
    split; [done|]. apply cwp_bind. eapply cwp_mono; [exact S|].
    intros r t1 m1 (-> & -> & -> & Ha & ->). do 2 (split; [done|]). exists [].
    split; [done|]. split; [apply footprint_refl|by apply wiped_refl].
Qed.

(** A new block is not the session's. *)
Lemma auth_rep_insert h p a L l c :
  auth_rep h p a L -> h !! l = None -> auth_rep (<[l := c]> h) p a L /\ l ∉ L.
Proof.
  destruct p as [q|], a as [a|]; cbn; try done.
  - intros (sh & <- & -> & Ha) Hl.
    assert (forall x, x ∈ sh_locs sh -> <[l := c]> h !! x = h !! x) as Hx.
    { intros x Hx. destruct (auth_at_live _ _ _ _ Ha Hx) as [? E].
      rewrite lookup_insert_ne; congruence. }
    split; [|intros H; destruct (auth_at_live _ _ _ _ Ha H); congruence].
    exists sh. do 2 (split; [done|]). apply auth_at_parts in Ha as (Hq & cp & Eq & Hp).
    apply auth_at_parts. split; [done|]. exists cp. unfold sh_locs in Hx.
    split; [by rewrite Hx by set_solver|]. eapply parts_frame; [|done].
    intros x Hx'. apply Hx. unfold tail in Hx'. set_solver.
  - intros -> _. split; [done|apply not_elem_of_nil].
Qed.

Lemma auth_rep_live h p a L x : auth_rep h p a L -> x ∈ L -> is_Some (h !! x).
Proof.
  destruct p as [q|], a as [a|]; cbn; try done.
  - intros (sh & <- & -> & Ha). by eapply auth_at_live.
  - by intros -> ?%not_elem_of_nil.
Qed.

(** The copied passphrase moves into the session. *)
Lemma credential_spec sh a pass l b t m :
  auth_at (live m) sh a -> public pub a -> nul_free pass ->
  live m !! l = Some (CBytes (c_string pass)) -> l ∉ sh_locs sh ->
  let q := Some (sh_auth sh) in
  memory_is pub
    (cbind (relogin q) (fun _ =>
     cbind (modify_auth q (set_passphrase (Some l))) (fun _ =>
     cbind (modify_auth q (set_passphrase_len (String.length pass))) (fun _ =>
     cbind (modify_auth q (set_retain b)) (fun _ =>
     cbind (modify_auth q (set_mobile false)) (fun _ => cret (EHEM_OK, q)))))))
    t m (l :: sh_locs sh) EHEM_OK t (Some (auth_set_credential pass b (relogged a))).
Proof.
  intros Ha Hp Hn El Hl q. apply cwp_bind.
  eapply cwp_mono; [by apply (relogin_spec pub sh a)|].
  intros _ t1 m1 (-> & (A1 & _ & F1 & W1)).
  pose proof A1 as (_ & cp & Eq & _)%auth_at_parts. cbn in Eq.
  pose proof A1 as (_ & _ & _ & cp' & Eq' & Hnil). cbn in Eq', Hnil. subst cp'.
  rewrite Eq in Eq'. injection Eq' as ->.
  assert (live m1 !! l = Some (CBytes (c_string pass))) as El1
    by (rewrite <- El; eapply footprint_agree; eauto).
  assert (l <> sh_auth sh) as Nl by (intros ->; apply Hl; apply elem_of_cons; by left).
  repeat (apply cwp_bind; eapply (cwp_modify_auth (sh_auth sh));
    [first [exact Eq|apply lookup_insert_eq]|]; cbn; rewrite ?insert_insert_eq).
  unfold op_post. cbn.
  do 2 (split; [done|]). exists [sh_auth sh; l]. split; [|split].
  - exists (with_pass (Some l) (bare (sh_auth sh))). do 2 (split; [done|]).
    split; [by apply NoDup_cons; split; [set_solver|apply NoDup_singleton]|].
    split; [split; [by rewrite lookup_insert_ne|done]|]. split; [done|].
    exists None. split; [apply lookup_insert_eq|done].
  - eapply (footprint_trans _ _ (l :: [sh_auth sh]) m1).
    + apply (footprint_frame [l] _ _ _ _ F1). intros x ->%list_elem_of_singleton. eauto.
    + apply (footprint_part [l] [sh_auth sh] [sh_auth sh]); [done|apply perm_swap| |].
      * split; intros x Hx; [|by left].
        cbn. rewrite lookup_insert_ne by set_solver. by rewrite decide_False.
      * intros x ->%list_elem_of_singleton. eauto.
  - exact W1.
Qed.

#[local] Arguments AuthState.ensure_auth : simpl never.

Lemma login_value pass w :
  let r := negb (no_credential_retention (cfg (w_ctx w))) in
  let v := AuthState.ehem_login (Some pass) in
  if p_malloc (w_tick w) then
    let (a, t') := ensure_outcome (auth (w_ctx w)) (S (w_tick w)) in
    value_is v w (match a with Some _ => EHEM_OK | None => EHEM_ERR_NOMEM end) t'
      ((fun a => auth_set_credential pass r (relogged a)) <$> a)
  else value_is v w EHEM_ERR_NOMEM (S (w_tick w)) (auth (w_ctx w)).
Proof.
  intros r v. set (w0 := with_ctx w (ctx_set_error error_clear (w_ctx w))).
  pose proof (ensure_value (at_tick (S (w_tick w)) w0)) as V.
  change (w_tick (at_tick (S (w_tick w)) w0)) with (S (w_tick w)) in V.
  change (auth (w_ctx (at_tick (S (w_tick w)) w0))) with (auth (w_ctx w)) in V.
  change (cfg (w_ctx (at_tick (S (w_tick w)) w0))) with (cfg (w_ctx w)) in V.
  unfold value_is, v, AuthState.ehem_login, ehem_ctx_clear_error, bind, upd_ctx, dup_str, malloc, ask.
  cbn. destruct (p_malloc (w_tick w)); cbn; [|done]. fold w0.
  destruct (ensure_outcome (auth (w_ctx w)) (S (w_tick w))) as [a t'].
  change {| w_net := _ |} with (at_tick (S (w_tick w)) w0).
  destruct V as (w1 & -> & Et & Ea & Ec). destruct a; cbn; by rewrite ?Ec, ?Ea.
Qed.

(** The session cannot be allocated: the copy is wiped and given back. *)
Lemma login_undo l pass t m :
  live m !! l = None ->
  memory_is pub
    (cbind (zeroize (Some l) (String.length pass)) (fun _ =>
     cbind (free (Some l)) (fun _ => cret (EHEM_ERR_NOMEM, None))))
    t (with_live (<[l := CBytes (c_string pass)]> (live m)) m) [l] EHEM_ERR_NOMEM t None.
Proof.
  intros Hl. apply cwp_bind. eapply cwp_zeroize; [apply lookup_insert_eq|].
  apply cwp_bind. eapply cwp_free; [cbn; by rewrite lookup_insert_eq|].
  do 2 (split; [done|]). exists []. split; [done|]. cbn. split.
  - split; intros x Hx; [|by apply not_elem_of_nil in Hx]. cbn.
    rewrite insert_insert_eq, delete_insert_eq, lookup_delete, lookup_insert.
    repeat case_decide; set_solver.
  - apply (wiped_free pub m), (harmless_zeros pub (Datatypes.S _)).
Qed.

(** A block beside the session is allocated, then both are worked on. *)
Lemma memory_is_after l c k t m L rc t' a :
  live m !! l = None -> (forall x, x ∈ L -> is_Some (live m !! x)) ->
  memory_is pub k t (with_live (<[l := c]> (live m)) m) (l :: L) rc t' a ->
  cwp k (op_post pub m L rc t' a) t (with_live (<[l := c]> (live m)) m).
Proof.
  intros Hl HL H. eapply cwp_mono; [exact H|]. intros r t1 m1 (Er & -> & L' & R & F & W).
  do 2 (split; [done|]). exists L'. split; [done|]. split.
  - eapply footprint_trans; [|exact F].
    eapply (footprint_part L [] [l]); [by rewrite app_nil_r|apply (Permutation_app_comm [l])| |done].
    by apply footprint_insert.
  - eapply wiped_trans; [by apply wiped_refl|exact W].
Qed.

Lemma login_agrees pass p w m L :
  auth_rep (live m) p (auth (w_ctx w)) L -> all_public pub (auth (w_ctx w)) -> nul_free pass ->
  op_agrees pub (OpLogin pass) p w m L.
Proof.
  intros Hr Hp Hn. pose proof (login_value pass w) as V. cbv zeta in V.
  destruct (p_malloc (w_tick w)) eqn:Em.
  2: { exists EHEM_ERR_NOMEM, (S (w_tick w)), (auth (w_ctx w)). split; [exact V|split; [done|]].
       apply cwp_bind, cwp_allocate; [intros _|congruence].
       do 2 (split; [done|]). exists L. split; [done|].
       split; [apply footprint_refl|by apply wiped_refl]. }
  pose proof (fun a => ensure_public pub (auth (w_ctx w)) (S (w_tick w)) a Hp) as Hpub.
  pose proof (fun m1 H => ensure_spec p (auth (w_ctx w)) L (S (w_tick w)) m1 H) as E.
  destruct (ensure_outcome (auth (w_ctx w)) (S (w_tick w))) as [oa t'] eqn:Eo; cbn [fst snd] in *.
  eexists _, _, _. split; [exact V|]. split; [by destruct oa; [split|]|].
  apply cwp_bind, cwp_allocate; [congruence|]. intros l _ Hl _.
  destruct (auth_rep_insert _ _ _ _ l (CBytes (c_string pass)) Hr Hl) as [Hr1 HlL].
  apply (memory_is_after l (CBytes (c_string pass)) _ _ m L _ _ _ Hl
           (fun x => auth_rep_live _ _ _ _ x Hr)).
  apply cwp_bind. eapply cwp_mono; [by apply (E (with_live _ m))|].
  intros r t1 m1 [-> H]. destruct oa as [a|].
  - destruct H as (sh & -> & Ha & F & D). set (m0 := with_live _ m) in *.
    assert (is_Some (live m0 !! l)) as Hsome by (cbn; rewrite lookup_insert_eq; eauto).
    eapply cwp_mono; [apply (credential_spec sh a pass l); try done; [by apply Hpub| |]|].
    + rewrite (footprint_agree _ _ _ _ l F HlL Hsome). apply lookup_insert_eq.
    + by eapply footprint_fresh.
    + intros r t2 m2 (Er & -> & L' & R & F' & W'). do 2 (split; [done|]).
      exists L'. split; [exact R|]. split; [|by eapply wiped_trans; [apply wiped_refl|]].
      eapply footprint_trans; [|exact F']. apply (footprint_frame [l] _ _ _ _ F).
      by intros x ->%list_elem_of_singleton.
  - destruct H as (-> & -> & _ & ->). by apply login_undo.
Qed.

(** The expiry a seeded token gets, and the tick after it is known. *)
Definition seed_expiry (token : string) (t : nat) : Z * nat :=
  match decode_bearer_exp token with
  | Some e => (cache_expiry e, t)
  | None => (cache_expiry (p_time t + AUTH_TOKEN_LIFETIME), S t)
  end.

Lemma put_value_is scope token exp w (k : option token_entry -> M unit) a rc :
  auth (w_ctx w) = Some a ->
  (forall w', value_is (k None) w' rc (w_tick w') (auth (w_ctx w'))) ->
  (forall e w', value_is (k (Some e)) w' EHEM_OK (w_tick w') (auth (w_ctx w'))) ->
  let e := {| te_scope := scope; te_token := token; te_exp := exp |} in
  let (ok, t') := put_outcome (cache a) scope (w_tick w) in
  value_is (bind (AuthState.cache_put scope token exp) k) w
    (if ok then EHEM_OK else rc) t'
    (Some (if ok then auth_set_cache (cache_update (cache a) e) a else a)).
Proof.
  intros Ea K1 K2 e. pose proof (put_value scope token exp a w Ea) as V. fold e in V.
  destruct (put_outcome (cache a) scope (w_tick w)) as [ok t'].
  unfold value_is, bind. rewrite V. destruct ok.
  - pose proof (K2 e (with_ctx (at_tick t' w) (ctx_set_auth
      (Some (auth_set_cache (cache_update (cache a) e) a)) (w_ctx w)))) as K. exact K.
  - pose proof (K1 (at_tick t' w)) as K. unfold value_is in K. cbn in K. by rewrite Ea in K.
Qed.

#[local] Arguments AuthState.cache_put : simpl never.

Lemma seed_value scope token w :
  let v := AuthState.ehem_auth_cache_seed scope token in
  let (oa, t1) := ensure_outcome (auth (w_ctx w)) (w_tick w) in
  match oa with
  | None => value_is v w EHEM_ERR_NOMEM t1 None
  | Some a =>
      let (exp, t2) := seed_expiry token t1 in
      let e := {| te_scope := scope; te_token := token; te_exp := exp |} in
      let (ok, t3) := put_outcome (cache a) scope t2 in
      value_is v w (if ok then EHEM_OK else EHEM_ERR_NOMEM) t3
        (Some (if ok then auth_set_cache (cache_update (cache a) e) a else a))
  end.
Proof.
  intros v. pose proof (ensure_value w) as V.
  destruct (ensure_outcome (auth (w_ctx w)) (w_tick w)) as [oa t1].
  destruct V as (w1 & V & Et & Ea & Ec).
  unfold value_is, v, AuthState.ehem_auth_cache_seed, seed_expiry.
  rewrite (bind_ok _ _ _ _ _ V). destruct oa as [a|]; cbn [negb].
  2: { cbn. by rewrite Et, Ea, Ec. }
  set (k := fun e : option token_entry => match e with
    | Some _ => ret tt | None => ehem_ctx_fail EHEM_ERR_NOMEM 0 None "out of memory" end).
  assert (forall exp w2, auth (w_ctx w2) = Some a -> cfg (w_ctx w2) = cfg (w_ctx w) ->
    let e := {| te_scope := scope; te_token := token; te_exp := exp |} in
    let (ok, t3) := put_outcome (cache a) scope (w_tick w2) in
    let (o, w') := bind (AuthState.cache_put scope token exp) k w2 in
    rc_of o = Some (if ok then EHEM_OK else EHEM_ERR_NOMEM) /\ w_tick w' = t3 /\
    auth (w_ctx w') = Some (if ok then auth_set_cache (cache_update (cache a) e) a else a) /\
    cfg (w_ctx w') = cfg (w_ctx w)) as K.
  { intros exp w2 Ea2 Ec2. rewrite <- Ec2.
    by apply (put_value_is scope token exp w2 k a EHEM_ERR_NOMEM Ea2). }
  destruct (decode_bearer_exp token) as [x|]; rewrite <- Et.
  - exact (K (cache_expiry x) w1 Ea Ec).
  - exact (K _ (at_tick (S (w_tick w1)) w1) Ea Ec).
Qed.

(** The put of a seed, on the session that is there or was just made. *)
Lemma seed_put_spec sh a scope token exp t m :
  auth_at (live m) sh a -> nul_free scope -> nul_free token ->
  let e := {| te_scope := scope; te_token := token; te_exp := exp |} in
  let (ok, t') := put_outcome (cache a) scope t in
  memory_is pub
    (cbind (AuthMem.cache_put (Some (sh_auth sh)) scope token exp) (fun e =>
       match e with
       | None => cret (EHEM_ERR_NOMEM, Some (sh_auth sh))
       | Some _ => cret (EHEM_OK, Some (sh_auth sh))
       end))
    t m (sh_locs sh) (if ok then EHEM_OK else EHEM_ERR_NOMEM) t'
    (Some (if ok then auth_set_cache (cache_update (cache a) e) a else a)).
Proof.
  intros Ha Hs Ht e. pose proof (cache_put_spec pub sh a scope token exp t m Ha Hs Ht) as S.
  fold e in S. destruct (put_outcome (cache a) scope t) as [ok t'].
  apply cwp_bind. eapply cwp_mono; [exact S|]. intros r t1 m1 (-> & Hrr & sh1 & S1).
  cbn [fst snd] in *. destruct ok; [destruct r; [|done]|subst r];
    (do 2 (split; [done|])); by eapply step_rep.
Qed.

Lemma seed_agrees scope token p w m L :
  auth_rep (live m) p (auth (w_ctx w)) L -> all_public pub (auth (w_ctx w)) ->
  nul_free scope -> nul_free token -> pub scope ->
  op_agrees pub (OpSeed scope token) p w m L.
Proof.
  intros Hr Hp Hs Ht Hps. pose proof (seed_value scope token w) as V. cbv zeta in V.
  pose proof (fun a => ensure_public pub (auth (w_ctx w)) (w_tick w) a Hp) as Hpub.
  pose proof (ensure_spec p (auth (w_ctx w)) L (w_tick w) m Hr) as E.
  destruct (ensure_outcome (auth (w_ctx w)) (w_tick w)) as [oa t1] eqn:Eo; cbn [fst snd] in *.
  destruct oa as [a|].
  2: { exists EHEM_ERR_NOMEM, t1, None. do 2 (split; [done|]). apply cwp_bind.
       eapply cwp_mono; [exact E|]. intros r t2 m2 (-> & -> & -> & _ & ->).
       do 2 (split; [done|]). exists []. split; [done|].
       split; [apply footprint_refl|by apply wiped_refl]. }
  destruct (Hpub a eq_refl) as [Hu Hc].
  destruct (seed_expiry token t1) as [exp t2] eqn:Ex.
  set (e := {| te_scope := scope; te_token := token; te_exp := exp |}) in *.
  assert (forall sh m1, auth_at (live m1) sh a -> let (ok, t') := put_outcome (cache a) scope t2 in
    memory_is pub _ t2 m1 (sh_locs sh) _ t' _) as S
    by (intros sh m1 Ha; exact (seed_put_spec sh a scope token exp t2 m1 Ha Hs Ht)).
  destruct (put_outcome (cache a) scope t2) as [ok t3].
  eexists _, _, _. split; [exact V|]. split.
  { destruct ok; [split; [done|]|by split]. by apply (update_public pub (cache a) e). }
  apply cwp_bind. eapply cwp_mono; [exact E|]. intros r t' m1 (-> & sh & -> & Ha & F & D).
  specialize (S sh m1 Ha). fold e in S.
  assert (forall r t' m', op_post pub m1 (sh_locs sh) (if ok then EHEM_OK else EHEM_ERR_NOMEM) t3
    (Some (if ok then auth_set_cache (cache_update (cache a) e) a else a)) r t' m' ->
    op_post pub m L (if ok then EHEM_OK else EHEM_ERR_NOMEM) t3
    (Some (if ok then auth_set_cache (cache_update (cache a) e) a else a)) r t' m') as Hpost.
  { intros r t' m' (Er & Et & L' & R & F' & W). do 2 (split; [done|]). exists L'.
    split; [done|]. split; [by eapply footprint_trans|].
    eapply wiped_trans; [by apply wiped_refl|exact W]. }
  pose proof (cwp_mono _ _ _ _ _ S Hpost) as S'. apply cwp_bind.
  unfold seed_expiry in Ex. destruct (decode_bearer_exp token) as [x|]; injection Ex as <- <-;
    exact S'.
Qed.
End Agree.

(** Every operation agrees. *)
Lemma op_refines pub op p w m L :
  auth_rep (live m) p (auth (w_ctx w)) L -> all_public pub (auth (w_ctx w)) ->
  op_ready op (auth (w_ctx w)) -> op_given pub op -> op_agrees pub op p w m L.
Proof.
  intros Hr Hp. destruct op; intros Hready [Hs Hn]; cbn in Hready, Hs, Hn; decompose_Forall_hyps.
  - by apply login_agrees.
  - by apply login_mobile_agrees.
  - by apply logout_agrees.
  - by apply seed_agrees.
  - by apply invalidate_agrees.
  - by apply username_agrees.
  - by apply token_agrees.
Qed.

(** ** A whole session *)

(** The return codes, from the value the context holds. *)
Fixpoint ops_value (ops : list auth_op) (w : world) : list ehem_rc * world :=
  match ops with
  | [] => ([], w)
  | op :: ops =>
      let (o, w1) := op_value op w in
      let (rcs, w2) := ops_value ops w1 in
      (match rc_of o with Some rc => rc :: rcs | None => rcs end, w2)
  end.

(** The return codes and the last [ctx->auth], from its blocks. *)
Fixpoint ops_memory (no_retention : bool) (ops : list auth_op) (p : ptr)
  : C auth_obj (list ehem_rc * ptr) :=
  match ops with
  | [] => cret ([], p)
  | op :: ops =>
      cbind (op_memory no_retention op p) (fun r =>
      cbind (ops_memory no_retention ops (snd r)) (fun rs => cret (fst r :: fst rs, snd rs)))
  end.

Fixpoint ops_ready (ops : list auth_op) (w : world) : Prop :=
  match ops with
  | [] => True
  | op :: ops => op_ready op (auth (w_ctx w)) /\ ops_ready ops (snd (op_value op w))
  end.

(** The memory after a session of [ops]: what the value says it should be. *)
Definition ops_post (pub : string -> Prop) (m : cmem auth_obj) (L : list positive)
    (v : list ehem_rc * world) (r : list ehem_rc * ptr) (t : nat) (m' : cmem auth_obj) : Prop :=
  fst r = fst v /\ t = w_tick (snd v) /\ exists L',
    auth_rep (live m') (snd r) (auth (w_ctx (snd v))) L' /\
    footprint L m L' m' /\ wiped pub m m'.

Lemma ops_run pub ops p w m L :
  auth_rep (live m) p (auth (w_ctx w)) L -> all_public pub (auth (w_ctx w)) ->
  ops_ready ops w -> Forall (op_given pub) ops ->
  cwp (ops_memory (no_credential_retention (cfg (w_ctx w))) ops p)
    (ops_post pub m L (ops_value ops w)) (w_tick w) m.
Proof.
  revert p w m L. induction ops as [|op ops IH]; intros p w m L Hr Hp; cbn.
  - intros _ _. do 2 (split; [done|]). exists L. split; [done|].
    split; [apply footprint_refl|by apply wiped_refl].
  - intros [H1 H3] [H2 H4]%Forall_cons.
    destruct (op_refines pub op p w m L Hr Hp H1 H2) as (rc & t & a & V & Hp' & M).
    unfold value_is in V. destruct (op_value op w) as [o w1]. destruct V as (Eo & <- & <- & Ec).
    apply cwp_bind. eapply cwp_mono; [exact M|].
    intros r t1 m1 (<- & -> & L1 & R1 & F1 & W1). rewrite <- Ec. apply cwp_bind.
    eapply cwp_mono; [by apply IH|]. intros rs t2 m2 (E2 & -> & L2 & R2 & F2 & W2).
    destruct (ops_value ops w1) as [rcs w2]. rewrite Eo. cbn in *. subst rcs.
    do 2 (split; [done|]). exists L2. split; [done|].
    split; [by eapply footprint_trans|by eapply wiped_trans].
Qed.

(** What is no secret in a session of [ops]. *)
Definition names (ops : list auth_op) (s : string) : Prop := s ∈ ops ≫= op_names.

Lemma names_given ops :
  Forall nul_free (ops ≫= op_strings) -> Forall (op_given (names ops)) ops.
Proof.
  unfold op_given. rewrite !Forall_forall. intros H op Hop. rewrite !Forall_forall. split.
  - intros s Hs. apply H, list_elem_of_bind. eauto.
  - intros s Hs. apply list_elem_of_bind. eauto.
Qed.

Lemma all_public_true a : all_public (fun _ => True) a.
Proof. destruct a; [split; [done|by apply Forall_forall]|done]. Qed.

Lemma ops_given_true ops :
  Forall nul_free (ops ≫= op_strings) -> Forall (op_given (fun _ => True)) ops.
Proof.
  intros H%names_given. eapply Forall_impl; [exact H|]. intros op [Hn _].
  split; [done|]. by apply Forall_forall.
Qed.

(** C12: the session in memory is the session of the model.  Any sequence of logins,
    mobile logins, seeded and acquired tokens, user names, invalidations and logouts,
    run on the blocks behind [ctx->auth] -- the linked list of cached tokens walked,
    extended, spliced and freed pointer by pointer -- ends without undefined
    behaviour and within the fuel of its loops, on every pattern of failing
    allocations, with the return codes of the model, the same number of
    consultations of the allocator and the clock, and blocks that represent the
    model's session; it leaks no block and touches none that is not the session's. *)
Theorem session_memory_refines ops p w m L :
  auth_rep (live m) p (auth (w_ctx w)) L -> ops_ready ops w ->
  Forall nul_free (ops ≫= op_strings) ->
  exists rs p' t' m' L',
    ops_memory (no_credential_retention (cfg (w_ctx w))) ops p (w_tick w) m = Done (rs, p') t' m' /\
    rs = fst (ops_value ops w) /\ t' = w_tick (snd (ops_value ops w)) /\
    auth_rep (live m') p' (auth (w_ctx (snd (ops_value ops w)))) L' /\
    footprint L m L' m'.
Proof.
  intros Hr Hready Hs.
  destruct (cwp_done _ _ _ _ (ops_run (fun _ => True) ops p w m L Hr (all_public_true _) Hready
    (ops_given_true _ Hs))) as ([rs p'] & t' & m' & E & E1 & E2 & L' & R & F & _).
  eauto 10.
Qed.

Lemma ops_logout ops w :
  ops_ready ops w ->
  ops_ready (ops ++ [OpLogout]) w /\ auth (w_ctx (snd (ops_value (ops ++ [OpLogout]) w))) = None.
Proof.
  revert w. induction ops as [|op ops IH]; intros w; cbn; [done|].
  intros [H1 H2]. destruct (op_value op w) as [o w1]. destruct (IH w1 H2) as [IH1 IH2].
  by destruct (ops_value (ops ++ [OpLogout]) w1).
Qed.

(** C13: what a session took it gives back, and what it gives back holds no secret.
    Any sequence of operations that starts without a session, followed by a logout,
    leaves the live memory exactly as it was, whatever allocations failed on the way;
    and every string buffer released in between holds only zeros, or a scope or a user
    name it was given -- never a passphrase or a bearer token. *)
Theorem session_leaves_nothing ops w m :
  auth (w_ctx w) = None -> ops_ready ops w -> Forall nul_free (ops ≫= op_strings) ->
  exists rs t' m',
    ops_memory (no_credential_retention (cfg (w_ctx w))) (ops ++ [OpLogout]) None (w_tick w) m
      = Done (rs, None) t' m' /\
    live m' = live m /\
    forall l b, dead m' !! l = Some (CBytes b) ->
      dead m !! l = Some (CBytes b) \/ Forall (fun x => x = 0) b \/
      exists s, s ∈ ops ≫= op_names /\ b = c_string s.
Proof.
  intros Hnone Hready Hs. destruct (ops_logout ops w Hready) as [Hready' Hend].
  assert (auth_rep (live m) None (auth (w_ctx w)) []) as Hr by by rewrite Hnone.
  assert (all_public (names ops) (auth (w_ctx w))) as Hp by by rewrite Hnone.
  assert (Forall (op_given (names ops)) (ops ++ [OpLogout])) as Hg.
  { apply Forall_app. split; [by apply names_given|]. by repeat constructor. }
  destruct (cwp_done _ _ _ _ (ops_run (names ops) _ None w m [] Hr Hp Hready' Hg))
    as ([rs p'] & t' & m' & E & _ & _ & L' & R & F & W).
  rewrite Hend in R. destruct p'; [done|]. cbn in R. subst L'.
  exists rs, t', m'. split; [exact E|]. split.
  - apply map_eq. intros l. by rewrite (footprint_nil _ _ _ F).
  - intros l b Hl. destruct (W l _ Hl) as [|[H|(s & Hn & ->)]]; eauto.
Qed.
End Refine.

(** ** Witnesses: a session under a platform whose fifth allocation fails *)

Definition scarce_platform (bad : nat) : Platform :=
  platform_with (fake_platform []) (fun n => negb (n =? bad)%nat)
    (@p_kdf_pbkdf2_sha256 (fake_platform [])).

Definition scarce_world (bad : nat) : @world (scarce_platform bad) :=
  @Build_world (scarce_platform bad) {| script := []; fs_expired := false |} 0 true
    (fake_ctx true None) [].

Definition a_session : list auth_op :=
  [OpLogin "correct horse"; OpSeed "system:config" "t1"; OpSeed "keymgmt:list" "t2";
   OpToken "system:config" "t3" 7; OpUsername "alice"; OpInvalidate (Some "system:config");
   OpLogin "battery staple"; OpUsername "bob"; OpToken "keymgmt:use" "t4" 9;
   OpInvalidate None; OpLoginMobile; OpSeed "keymgmt:gen" "t5"].

Definition no_memory : cmem auth_obj := {| live := ∅; dead := ∅ |}.

(** The first seed fails: the copy of its token is made, the entry is not. *)
Example a_session_codes :
  fst (@ops_value (scarce_platform 4) a_session (scarce_world 4)) =
    [EHEM_OK; EHEM_ERR_NOMEM] ++ repeat EHEM_OK 10.
Proof. vm_compute. reflexivity. Qed.

(** It goes through calloc'd, spliced and freed entries: what lies in memory then. *)
Example a_session_blocks :
  match @ops_memory (scarce_platform 4) false (take 5 a_session) None 0%nat no_memory with
  | Done (_, Some _) _ m => (size (live m), size (dead m)) = (9, 1)%nat
  | _ => False
  end.
Proof. vm_compute. reflexivity. Qed.

Lemma a_session_ready : @ops_ready (scarce_platform 4) a_session (scarce_world 4).
Proof. vm_compute. repeat split; discriminate. Qed.
Lemma a_session_strings : Forall nul_free (a_session ≫= op_strings).
Proof. apply (bool_decide_unpack _). vm_compute. exact I. Qed.

Lemma session_memory_refines_witness :
  exists rs p' t' m' L',
    @ops_memory (scarce_platform 4) false a_session None 0%nat no_memory = Done (rs, p') t' m' /\
    rs = [EHEM_OK; EHEM_ERR_NOMEM] ++ repeat EHEM_OK 10 /\
    t' = w_tick (snd (@ops_value (scarce_platform 4) a_session (scarce_world 4))) /\
    auth_rep (live m') p'
      (auth (w_ctx (snd (@ops_value (scarce_platform 4) a_session (scarce_world 4))))) L' /\
    footprint [] no_memory L' m'.
Proof.
  destruct (@session_memory_refines (scarce_platform 4) a_session None (scarce_world 4) no_memory []
    eq_refl a_session_ready a_session_strings) as (rs & p' & t' & m' & L' & E & Er & R).
  exists rs, p', t', m', L'. split; [exact E|]. split; [|exact R]. rewrite Er. apply a_session_codes.
Defined.

Lemma session_leaves_nothing_witness :
  exists rs t' m',
    @ops_memory (scarce_platform 4) false (a_session ++ [OpLogout]) None 0%nat no_memory
      = Done (rs, None) t' m' /\
    live m' = ∅ /\
    forall l b, dead m' !! l = Some (CBytes b) ->
      dead no_memory !! l = Some (CBytes b) \/ Forall (fun x => x = 0) b \/
      exists s, s ∈ a_session ≫= op_names /\ b = c_string s.
Proof.
  exact (@session_leaves_nothing (scarce_platform 4) a_session (scarce_world 4) no_memory
           eq_refl a_session_ready a_session_strings).
Defined.
