(* ===== verification/MemWorld.v ===== *)
(** * Memory beside the world

    Operations that both own memory and use the context and the network: [K] runs
    on a [world] and a [cmem].  [refines] relates such an operation to one of [M]
    that has values where this one has blocks: the same outcome, the same world, and
    nothing owned on failure. *)

From stdpp Require Import gmap.
From S2P Require Import Prelude World Logic Context AuthState Mem.

(** [None] is undefined behaviour (or a loop over live blocks that overran). *)
Definition K {P : Platform} (S A : Type) : Type :=
  world -> cmem S -> option (outcome A * world * cmem S).

(** ** Consultations of the platform

    [ticks v t a t']: run at tick [t], [v] only consults the platform, up to [t'],
    and returns [a]. *)

Section Ticks.
Context {P : Platform}.

Definition ticks {A} (v : M A) (t : nat) (a : A) (t' : nat) : Prop :=
  forall w, w_tick w = t -> v w = (Ok a, at_tick t' w).

Lemma ticks_ret {A} (a : A) t : ticks (ret a) t a t.
Proof. intros w <-. by destruct w. Qed.
Lemma ticks_bind {A B} (v : M A) (f : A -> M B) t a t1 b t2 :
  ticks v t a t1 -> ticks (f a) t1 b t2 -> ticks (bind v f) t b t2.
Proof. intros H1 H2 w E. unfold bind. rewrite H1 by done. by rewrite H2. Qed.
Lemma bind_ticks {A B} (v : M A) (f : A -> M B) t a t1 w :
  ticks v t a t1 -> w_tick w = t -> bind v f w = f a (at_tick t1 w).
Proof. intros H E. unfold bind. by rewrite H. Qed.
Lemma ticks_malloc t : ticks malloc t (p_malloc t) (S t).
Proof. by intros w <-. Qed.
Lemma ticks_dup s t : ticks (dup_str s) t (if p_malloc t then Some s else None) (S t).
Proof.
  intros w E. unfold dup_str. revert w E.
  apply (ticks_bind malloc _ t (p_malloc t) (S t)); [apply ticks_malloc|apply ticks_ret].
Qed.
End Ticks.

Section Run.
Context {P : Platform} {S : Type}.

Definition kret {A} (a : A) : K S A := fun w m => Some (Ok a, w, m).
Definition kbind {A B} (k : K S A) (f : A -> K S B) : K S B := fun w m =>
  match k w m with
  | Some (Ok a, w, m) => f a w m
  | Some (Err rc, w, m) => Some (Err rc, w, m)
  | Some (Diverge, w, m) => Some (Diverge, w, m)
  | None => None
  end.
Definition kattempt {A} (k : K S A) : K S (A + ehem_rc) := fun w m =>
  match k w m with
  | Some (Ok a, w, m) => Some (Ok (inl a), w, m)
  | Some (Err rc, w, m) => Some (Ok (inr rc), w, m)
  | Some (Diverge, w, m) => Some (Diverge, w, m)
  | None => None
  end.

(** What uses no modelled memory, and what uses nothing else but the allocator. *)
Definition of_m {A} (v : M A) : K S A := fun w m => let (o, w) := v w in Some (o, w, m).
Definition of_c {A} (c : C S A) : K S A := fun w m =>
  match c (w_tick w) m with
  | Done a t m => Some (Ok a, at_tick t w, m)
  | Undefined | NoFuel => None
  end.

End Run.

Section Own.
Context {P : Platform} {S : Type}.

(** What may lie in released memory. *)
Context {good : cell S -> Prop}.

(** ** Owned memory that grows *)

Definition owns (L : list positive) (m : cmem S) : Prop :=
  NoDup L /\ forall x, x ∈ L -> is_Some (live m !! x).

(** Every block released between [m] and [m'] was [good] by then. *)
Definition leaves (m m' : cmem S) : Prop :=
  forall l c, dead m' !! l = Some c -> dead m !! l = Some c \/ good c.

Lemma leaves_refl m m' : dead m' = dead m -> leaves m m'.
Proof. intros E l c. rewrite E. by left. Qed.
Lemma leaves_trans m1 m2 m3 : leaves m1 m2 -> leaves m2 m3 -> leaves m1 m3.
Proof. intros A B l c H. destruct (B l c H) as [H2|]; [by apply A|by right]. Qed.

(** From owning [L] to owning [L']. *)
Definition step (L : list positive) (m : cmem S) (L' : list positive) (m' : cmem S) : Prop :=
  owns L' m' /\ footprint L m L' m' /\ leaves m m'.

Lemma step_refl L m : owns L m -> step L m L m.
Proof. intros H. split; [done|]. split; [apply footprint_refl|by apply leaves_refl]. Qed.
Lemma step_trans L m L1 m1 L2 m2 : step L m L1 m1 -> step L1 m1 L2 m2 -> step L m L2 m2.
Proof.
  intros (_ & F1 & W1) (O2 & F2 & W2). split; [done|].
  split; [by eapply footprint_trans|by eapply leaves_trans].
Qed.

Lemma owns_nil m : owns [] m.
Proof. split; [apply NoDup_nil_2|by intros x ?%not_elem_of_nil]. Qed.

Lemma owns_app L1 L2 m :
  owns (L1 ++ L2) m <-> owns L1 m /\ owns L2 m /\ forall x, x ∈ L1 -> x ∉ L2.
Proof.
  unfold owns. rewrite NoDup_app. setoid_rewrite elem_of_app. naive_solver.
Qed.

#[export] Instance owns_proper : Proper ((≡ₚ) ==> eq ==> iff) owns.
Proof.
  intros L1 L2 E m ? <-. unfold owns. rewrite E. split; intros [? H]; (split; [done|]);
    intros x Hx; apply H; by rewrite ?E, <- ?E in *.
Qed.
#[export] Instance step_proper : Proper ((≡ₚ) ==> eq ==> (≡ₚ) ==> eq ==> iff) step.
Proof. intros L1 L2 E m ? <- L3 L4 E' m' ? <-. unfold step. by rewrite E, E'. Qed.

(** Work on [L] beside [F]. *)
Lemma step_frame F L m L' m' :
  owns (F ++ L) m -> step L m L' m' ->
  step (F ++ L) m (F ++ L') m' /\ forall x, x ∈ F -> live m' !! x = live m !! x.
Proof.
  intros (OF & OL & Hd)%owns_app (O' & F' & W').
  assert (forall x, x ∈ F -> live m' !! x = live m !! x) as Hx.
  { intros x Hx. eapply footprint_agree; [done|by apply Hd|by apply OF]. }
  split; [|done]. split.
  - apply owns_app. split; [|split; [done|]].
    + split; [apply OF|]. intros x H. rewrite Hx by done. by apply OF.
    + intros x H. eapply footprint_fresh; [done|by apply Hd|by apply OF].
  - split; [apply footprint_frame; [done|apply OF]|done].
Qed.

Lemma step_part F A B L m L' m' :
  owns L m -> L ≡ₚ F ++ A -> L' ≡ₚ F ++ B -> step A m B m' ->
  step L m L' m' /\ forall x, x ∈ F -> live m' !! x = live m !! x.
Proof. intros O EL EL' H. rewrite EL in *. rewrite EL'. by apply step_frame. Qed.

Lemma step_new l c m :
  live m !! l = None -> step [] m [l] (with_live (<[l := c]> (live m)) m).
Proof.
  intros Hl. split; [|by split; [apply footprint_insert|apply leaves_refl]].
  split; [apply NoDup_singleton|]. intros x ->%list_elem_of_singleton. cbn. rewrite lookup_insert_eq. eauto.
Qed.
Lemma step_store l c L m :
  owns L m -> l ∈ L -> step L m L (with_live (<[l := c]> (live m)) m).
Proof.
  intros [N O] Hl. split; [split; [done|]|split; [split|by apply leaves_refl]].
  - intros x Hx. cbn. destruct (decide (x = l)) as [->|Hn]; [rewrite lookup_insert_eq; eauto|].
    rewrite lookup_insert_ne by done. auto.
  - intros x Hx. cbn. rewrite lookup_insert_ne by congruence. by rewrite decide_False.
  - by left.
Qed.
Lemma step_free l c m :
  good c -> step [l] m [] {| live := delete l (live m); dead := <[l := c]> (dead m) |}.
Proof.
  intros Hg. split; [apply owns_nil|]. split; [apply footprint_delete|].
  intros l' c'. cbn. rewrite lookup_insert_Some. intros [[_ <-]|[_ E]]; auto.
Qed.

(** A block that comes and goes. *)
Lemma step_temp l c c' m :
  live m !! l = None -> good c ->
  step [] m [] {| live := delete l (<[l := c']> (live m)); dead := <[l := c]> (dead m) |}.
Proof.
  intros Hl Hg. destruct (step_free l c m Hg) as (_ & _ & W).
  split; [apply owns_nil|]. split; [|exact W].
  split; intros x Hx; [|by apply not_elem_of_nil in Hx]. cbn.
  rewrite delete_insert_eq, delete_id by done. by rewrite decide_False by apply not_elem_of_nil.
Qed.

(** What [p] points to may be left behind. *)
Definition disposable (p : ptr) (m : cmem S) : Prop :=
  forall l c, p = Some l -> live m !! l = Some c -> good c.

(** [free] of a pointer that may be NULL. *)
Lemma cwp_free_ptr p t m :
  owns (option_list p) m -> disposable p m ->
  cwp (free p) (fun _ t' m' => t' = t /\ step (option_list p) m [] m') t m.
Proof.
  destruct p as [l|]; intros [_ O] Hg; cbn.
  - destruct (O l) as [c Hc]; [by apply list_elem_of_singleton|].
    eapply cwp_free; [exact Hc|]. split; [done|].
    apply step_free. by eapply Hg.
  - split; [done|apply step_refl, owns_nil].
Qed.

(** ** Refinement *)

Definition refines {A B} (k : K S A) (v : M B)
    (Post : A -> B -> list positive -> cmem S -> Prop)
    (L : list positive) (w : world) (m : cmem S) : Prop :=
  exists o w' m', k w m = Some (o, w', m') /\ snd (v w) = w' /\
    match o, fst (v w) with
    | Ok a, Ok b => exists L', Post a b L' m' /\ step L m L' m'
    | Err rc, Err rc' => rc = rc' /\ step L m [] m'
    | Diverge, Diverge => True
    | _, _ => False
    end.

Lemma refines_bind {A B A' B'} (k : K S A) (f : A -> K S A') (v : M B) (g : B -> M B') P1 P2 L w m :
  refines k v P1 L w m ->
  (forall a b L1 w1 m1, P1 a b L1 m1 -> step L m L1 m1 -> refines (f a) (g b) P2 L1 w1 m1) ->
  refines (kbind k f) (bind v g) P2 L w m.
Proof.
  intros (o & w1 & m1 & E & Ew & H) Hf. unfold refines, kbind, bind. rewrite E.
  destruct (v w) as [ob w1']. cbn in Ew, H. subst w1'.
  destruct o as [a|rc|], ob as [b|rc'|]; try done.
  - destruct H as (L1 & Hp & S1). destruct (Hf a b L1 w1 m1 Hp S1) as (o & w2 & m2 & E2 & Ew2 & H2).
    exists o, w2, m2. split; [done|]. split; [done|].
    destruct o, (fst (g b w1)); try done.
    + destruct H2 as (L2 & ? & ?). exists L2. split; [done|by eapply step_trans].
    + destruct H2. split; [done|by eapply step_trans].
  - destruct H as [-> H]. cbn. eauto 10.
  - cbn. eauto 10.
Qed.

Lemma refines_mono {A B} (k : K S A) (v : M B) (P1 P2 : A -> B -> list positive -> cmem S -> Prop) L w m :
  refines k v P1 L w m -> (forall a b L' m', P1 a b L' m' -> P2 a b L' m') ->
  refines k v P2 L w m.
Proof.
  intros (o & w1 & m1 & E & Ew & H) Hp. exists o, w1, m1. split; [done|]. split; [done|].
  destruct o, (fst (v w)); try done. destruct H as (L' & ? & ?). exists L'. auto.
Qed.

(** The order of what is owned does not matter. *)
Lemma refines_perm {A B} L' (k : K S A) (v : M B) (Post : A -> B -> list positive -> cmem S -> Prop) L w m :
  L ≡ₚ L' -> refines k v Post L' w m -> refines k v Post L w m.
Proof.
  intros EL (o & w1 & m1 & E & Ew & H). exists o, w1, m1. split; [done|]. split; [done|].
  destruct o, (fst (v w)); try done.
  - destruct H as (L2 & ? & ?). exists L2. by rewrite EL.
  - by rewrite EL.
Qed.

Lemma refines_ret {A B} (a : A) (b : B) (Post : A -> B -> list positive -> cmem S -> Prop) L w m :
  owns L m -> Post a b L m -> refines (kret a) (ret b) Post L w m.
Proof. intros O H. do 3 eexists. split; [done|]. split; [done|]. cbn. eauto using step_refl. Qed.

(** What owns nothing and uses no memory is itself. *)
Lemma refines_of_m {A} (v : M A) w m :
  refines (of_m v) v (fun a b L' m' => a = b /\ L' = [] /\ m' = m) [] w m.
Proof.
  unfold refines, of_m. destruct (v w) as [o w'] eqn:E. exists o, w', m.
  split; [done|]. split; [done|]. destruct o; cbn; [|split; [done|]|done].
  - exists []. split; [done|]. apply step_refl, owns_nil.
  - apply step_refl, owns_nil.
Qed.

(** Memory work alone: the world's ticks pass. *)
Lemma refines_of_c {A B} (c : C S A) (v : M B) (Post : A -> B -> list positive -> cmem S -> Prop) L w m :
  cwp c (fun a t' m' => exists b, v w = (Ok b, at_tick t' w) /\
           exists L', Post a b L' m' /\ step L m L' m') (w_tick w) m ->
  refines (of_c c) v Post L w m.
Proof.
  unfold cwp, refines, of_c. destruct (c (w_tick w) m) as [a t m'| |]; [|done..].
  intros (b & -> & H). do 3 eexists. split; [done|]. split; [done|]. done.
Qed.

(** An operation beside owned memory [F], its failure caught. *)
Lemma refines_attempt {A B} (k : K S A) (v : M B) Post F w m :
  owns F m -> refines k v Post [] w m ->
  refines (kattempt k) (attempt v)
    (fun a b L' m' =>
       (forall x, x ∈ F -> live m' !! x = live m !! x) /\
       match a, b with
       | inl a, inl b => exists L1, L' = F ++ L1 /\ Post a b L1 m' /\ owns L1 m'
       | inr rc, inr rc' => rc = rc' /\ L' = F
       | _, _ => False
       end) F w m.
Proof.
  intros O (o & w1 & m1 & E & Ew & H). unfold refines, kattempt, attempt. rewrite E.
  destruct (v w) as [ob w1']. cbn in Ew, H. subst w1'.
  assert (forall L1, step [] m L1 m1 ->
    step F m (F ++ L1) m1 /\ forall x, x ∈ F -> live m1 !! x = live m !! x) as Hfr.
  { intros L1 S1. destruct (step_frame F [] m L1 m1) as [S2 Hx]; [by rewrite app_nil_r|done|].
    by rewrite app_nil_r in S2. }
  destruct o as [a|rc|], ob as [b|rc'|]; try done.
  - destruct H as (L1 & Hp & S1). destruct (Hfr L1 S1) as [S2 Hx].
    do 3 eexists. split; [done|]. split; [done|]. cbn. exists (F ++ L1).
    split; [|done]. split; [done|]. exists L1. split; [done|]. split; [done|apply S1].
  - destruct H as [-> S1]. destruct (Hfr [] S1) as [S2 Hx]. rewrite app_nil_r in S2.
    do 3 eexists. split; [done|]. split; [done|]. cbn. eauto.
  - do 3 eexists. split; [done|]. by split.
Qed.

(** Memory work, then the rest: what is left of [v] after the same consultations. *)
Lemma refines_work {A B D} (c : C S D) (f : D -> K S A) (v : M B) Post L w m :
  cwp c (fun d t' m' => exists (v' : M B) L1,
           v w = v' (at_tick t' w) /\ step L m L1 m' /\
           refines (f d) v' Post L1 (at_tick t' w) m') (w_tick w) m ->
  refines (kbind (of_c c) f) v Post L w m.
Proof.
  unfold cwp, refines, kbind, of_c. destruct (c (w_tick w) m) as [d t m'| |]; [|done..].
  intros (v' & L1 & -> & S1 & o & w2 & m2 & E2 & Ew2 & H2). rewrite E2.
  exists o, w2, m2. split; [done|]. split; [done|].
  destruct o, (fst (v' _)); try done.
  - destruct H2 as (L2 & ? & ?). exists L2. split; [done|by eapply step_trans].
  - destruct H2. split; [done|by eapply step_trans].
Qed.

(** Memory work alone. *)
Lemma refines_mem {A B D} (c : C S D) (f : D -> K S A) (v : M B) Post L w m :
  cwp c (fun d t' m' => t' = w_tick w /\ exists L1,
           step L m L1 m' /\ refines (f d) v Post L1 w m') (w_tick w) m ->
  refines (kbind (of_c c) f) v Post L w m.
Proof.
  intros H. apply refines_work. eapply cwp_mono; [exact H|].
  intros d t' m' (-> & L1 & S1 & R). assert (at_tick (w_tick w) w = w) as -> by by destruct w.
  eauto.
Qed.

(** An allocation beside what is owned. *)
Lemma step_more L (m : cmem S) L1 m1 N m2 :
  step L m L1 m1 -> step [] m1 N m2 ->
  step L m (L1 ++ N) m2 /\ forall x, x ∈ L1 -> live m2 !! x = live m1 !! x.
Proof.
  intros S1 S2. destruct (step_part L1 [] N L1 m1 (L1 ++ N) m2) as [S3 Hx]; try done.
  - apply S1.
  - by rewrite app_nil_r.
  - split; [by eapply step_trans|done].
Qed.

(** Release part of what is owned. *)
Lemma cwp_free_part p L t (m : cmem S) :
  owns (option_list p ++ L) m -> disposable p m ->
  cwp (free p) (fun _ t' m' => t' = t /\ step (option_list p ++ L) m L m' /\
    forall x, x ∈ L -> live m' !! x = live m !! x) t m.
Proof.
  intros O Hg. pose proof O as O'. rewrite (Permutation_app_comm _ L) in O'.
  pose proof O' as (_ & Op & _)%owns_app.
  eapply cwp_mono; [by apply cwp_free_ptr|]. intros _ t' m' [-> S1]. split; [done|].
  destruct (step_frame L (option_list p) m [] m' O' S1) as [S2 Hx].
  rewrite (Permutation_app_comm _ L). by rewrite app_nil_r in S2.
Qed.

Lemma refines_eq {A B} (k : K S A) (v v' : M B) Post L w m :
  v w = v' w -> refines k v' Post L w m -> refines k v Post L w m.
Proof. unfold refines. by intros ->. Qed.

Lemma bind_attempt {A B} (v : M A) (f : A -> M B) w :
  bind v f w = bind (attempt v) (fun r => match r with inl a => f a | inr rc => throw rc end) w.
Proof. unfold bind, attempt, throw. by destruct (v w) as [[] ?]. Qed.

Lemma refines_throw {A B} rc (Post : A -> B -> list positive -> cmem S -> Prop) w m :
  refines (of_m (throw rc)) (throw rc) Post [] w m.
Proof. do 3 eexists. split; [done|]. split; [done|]. split; [done|]. apply step_refl, owns_nil. Qed.

(** Release what is owned, then fail. *)
Lemma refines_release {A B} (c : C S unit) (k : K S A) (v : M B) Post L w m :
  cwp c (fun _ t' m' => t' = w_tick w /\ step L m [] m') (w_tick w) m ->
  (forall m', refines k v Post [] w m') ->
  refines (kbind (of_c c) (fun _ => k)) v Post L w m.
Proof.
  intros H Hk. apply refines_mem. eapply cwp_mono; [exact H|].
  intros _ t' m' [-> S1]. split; [done|]. exists []. auto.
Qed.

Lemma bind_attempt_ret {A} (v : M A) w :
  v w = bind (attempt v) (fun r => match r with inl a => ret a | inr rc => throw rc end) w.
Proof. unfold bind, attempt, ret, throw. by destruct (v w) as [[] ?]. Qed.

Lemma then_refines {A B D} (a : M D) (f : D -> K S A) (g : D -> M B) Post w m :
  (forall d w m, refines (f d) (g d) Post [] w m) ->
  refines (kbind (of_m a) f) (bind a g) Post [] w m.
Proof.
  intros H. eapply refines_bind; [apply refines_of_m|].
  intros d ? L1 w1 m1 (-> & -> & ->) _. apply H.
Qed.

(** Failing is the same at every result type. *)
Lemma fail_refines {A B} rc st p msg (Post : A -> B -> list positive -> cmem S -> Prop) w m :
  refines (of_m (ehem_ctx_fail rc st p msg)) (ehem_ctx_fail rc st p msg) Post [] w m.
Proof.
  unfold refines, of_m, ehem_ctx_fail, dup_str, malloc, ask, bind, ret, throw, upd_ctx.
  destruct p; cbn; do 3 eexists; (split; [done|]); (split; [done|]); split; try done;
    apply step_refl, owns_nil.
Qed.

Lemma refines_throws {A B} rc st msg (Post : A -> B -> list positive -> cmem S -> Prop) w m :
  refines (of_m (ehem_ctx_fail rc st None msg)) (ehem_ctx_fail rc st None msg) Post [] w m.
Proof. apply fail_refines. Qed.

(** ** Results and their release

    [result_in_memory k v rep release]: for every world and memory, [k] ends without
    undefined behaviour, with the world and the outcome of [v], and whatever it
    released was [good].  A failure leaves the live memory as it was.  A result is
    represented by blocks that are all new, and nothing else changed; and in any later
    memory that still has those blocks, [release] frees them, all of them and nothing
    else, and leaves them [good]. *)

Definition result_in_memory {B} (k : K S ptr) (v : M B)
    (rep : gmap positive (cell S) -> ptr -> B -> list positive -> Prop)
    (release : ptr -> C S unit) : Prop :=
  forall w m, exists o w' m', k w m = Some (o, w', m') /\ snd (v w) = w' /\
    match o, fst (v w) with
    | Ok p, Ok b => leaves m m' /\ exists L, rep (live m') p b L /\
        (forall x, x ∈ L -> live m !! x = None) /\
        (forall x, x ∉ L -> live m' !! x = live m !! x) /\
        forall t m1, (forall x, x ∈ L -> live m1 !! x = live m' !! x) ->
          exists m2, release p t m1 = Done tt t m2 /\ leaves m1 m2 /\
            forall x, live m2 !! x = if decide (x ∈ L) then None else live m1 !! x
    | Err rc, Err rc' => rc = rc' /\ live m' = live m /\ leaves m m'
    | Diverge, Diverge => True
    | _, _ => False
    end.

Lemma result_from_refines {B} k (v : M B) rep release :
  (forall w m, refines k v (fun p b L m => rep (live m) p b L) [] w m) ->
  (forall p b L t m, rep (live m) p b L -> owns L m ->
     cwp (release p) (fun _ t' m' => t' = t /\ step L m [] m') t m) ->
  (forall h h' p b L, (forall x, x ∈ L -> h' !! x = h !! x) -> rep h p b L -> rep h' p b L) ->
  result_in_memory k v rep release.
Proof.
  intros Hk Hr Hf w m. destruct (Hk w m) as (o & w' & m' & E & Ew & H).
  exists o, w', m'. split; [exact E|]. split; [exact Ew|].
  destruct o as [p|rc|], (fst (v w)) as [b|rc'|]; try done.
  - destruct H as (L & R & (N & O) & (F1 & F2) & W). split; [exact W|]. exists L. split; [exact R|].
    split; [intros x Hx; by destruct (F2 x Hx) as [?%not_elem_of_nil|]|].
    split; [intros x Hx; rewrite (F1 x Hx); by rewrite decide_False by apply not_elem_of_nil|].
    intros t m1 Hx. destruct (cwp_done _ _ _ _ (Hr p b L t m1 (Hf _ _ _ _ _ Hx R)
      (conj N (fun x Hi => eq_ind_r is_Some (O x Hi) (Hx x Hi)))))
      as ([] & t2 & m2 & E2 & -> & _ & F & W2).
    exists m2. split; [exact E2|]. split; [exact W2|]. by apply footprint_nil.
  - destruct H as (-> & _ & F & W). split; [done|]. split; [|exact W]. apply map_eq. intros x.
    rewrite (footprint_nil _ _ _ F). by rewrite decide_False by apply not_elem_of_nil.
Qed.
End Own.

Arguments leaves {S} good m m'.
Arguments step {S} good L m L' m'.
Arguments disposable {S} good p m.
Arguments refines {P S} good {A B} k v Post L w m.
Arguments result_in_memory {P S} good {B} k v rep release.

Declare Scope kmem_scope.
Delimit Scope kmem_scope with kmem.
Notation "'let!!' x := k 'in' f" := (kbind k (fun x => f))
  (at level 10, x pattern, k at level 200, f at level 200) : kmem_scope.
Notation "k ;!! f" := (kbind k (fun _ => f))
  (at level 199, f at level 200, right associativity) : kmem_scope.

(** Nothing asked of what is released. *)
Definition any {S} (c : cell S) : Prop := True.

(** Asking less of what is left. *)
Lemma step_weaken {S} (good : cell S -> Prop) L m L' m' :
  step good L m L' m' -> step any L m L' m'.
Proof.
  intros (O & F & W). split; [done|]. split; [done|].
  intros l c H. destruct (W l c H); [by left|by right].
Qed.

Section Any.
Context {P : Platform} {S : Type}.
Lemma free_ptr p t (m : cmem S) :
  owns (option_list p) m ->
  cwp (free p) (fun _ t' m' => t' = t /\ step any (option_list p) m [] m') t m.
Proof. intros O. by apply cwp_free_ptr. Qed.
Lemma free_part p L t (m : cmem S) :
  owns (option_list p ++ L) m ->
  cwp (free p) (fun _ t' m' => t' = t /\ step any (option_list p ++ L) m L m' /\
    forall x, x ∈ L -> live m' !! x = live m !! x) t m.
Proof. intros O. by apply cwp_free_part. Qed.
End Any.
