(* ===== verification/CodecMem.v ===== *)
(** * Buffers in memory

    Fresh memory, [memcpy] into a block, and the base64 decoder of [src/ejwt.c] as it
    writes: byte by byte into the caller's buffer, so that a text that turns out to be
    malformed leaves what was decoded before the fault. *)

From stdpp Require Import gmap.
From S2P Require Import Prelude Base64 World Mem MemWorld.

Open Scope cmem_scope.

(** What a [malloc] of [n] bytes holds before it is written. *)
Class Indeterminate := {
  junk_bytes : nat -> bytes;
  length_junk_bytes n : length (junk_bytes n) = n
}.

(** ** The decoder's stores *)

(** What [b64_decode_loop] has written when it returns, with or without success. *)
Fixpoint b64_decode_stores (alpha : string) (cs : list ascii)
    (acc bits room : Z) : bytes :=
  match cs with
  | [] => []
  | c :: cs' =>
      match rev_at alpha c with
      | None => []
      | Some v =>
          let acc := Z.lor (wrap_u32 (Z.shiftl acc 6)) v in
          let bits := bits + 6 in
          if 8 <=? bits then
            let bits := bits - 8 in
            if room <=? 0 then []
            else Z.land (Z.shiftr acc bits) 255 :: b64_decode_stores alpha cs' acc bits (room - 1)
          else b64_decode_stores alpha cs' acc bits room
      end
  end.

Definition decode_stores_of (alpha s : string) (cap : Z) : bytes :=
  let cs := reverse (drop_pad (reverse (String.list_ascii_of_string s))) in
  if (length cs mod 4 =? 1)%nat then [] else b64_decode_stores alpha cs 0 0 cap.
Definition std_decode_stores : string -> Z -> bytes := decode_stores_of B64_STD_ALPHA.

Example stores_partial : std_decode_stores "TWFu!WFu" 8 = [77; 97; 110].
Proof. vm_compute. reflexivity. Qed.

Lemma decode_stores alpha cs acc bits room d :
  b64_decode_loop alpha cs acc bits room = Some d -> b64_decode_stores alpha cs acc bits room = d.
Proof.
  revert acc bits room d. induction cs as [|c cs IH]; intros acc bits room d; cbn.
  { by intros [= <-]. }
  destruct (rev_at alpha c) as [v|]; [|done]. case_match; [|apply IH].
  case_match; [done|]. destruct (b64_decode_loop _ _ _ _ _) as [r|] eqn:E; [|done].
  intros [= <-]. by rewrite (IH _ _ _ _ E).
Qed.

Lemma decode_stores_room alpha cs acc bits room :
  0 <= room -> Z.of_nat (length (b64_decode_stores alpha cs acc bits room)) <= room.
Proof.
  revert acc bits room. induction cs as [|c cs IH]; intros acc bits room H; cbn; [lia|].
  destruct (rev_at alpha c) as [v|]; [|cbn; lia]. case_match; [|by apply IH].
  case_match; [cbn; lia|]. cbn. rewrite Nat2Z.inj_succ.
  match goal with |- context [b64_decode_stores ?a ?b ?c ?d ?e] => specialize (IH c d e) end. lia.
Qed.

Lemma take_all_ascii s : take (Z.to_nat (strlen s)) (String.list_ascii_of_string s)
  = String.list_ascii_of_string s.
Proof.
  apply take_ge. unfold strlen. rewrite Nat2Z.id. induction s; cbn; lia.
Qed.

Lemma stores_of_decode alpha s cap d :
  b64_decode (Some s) (strlen s) false cap alpha = Some d -> decode_stores_of alpha s cap = d.
Proof.
  unfold b64_decode, decode_stores_of.
  rewrite bool_decide_eq_false_2 by done. cbn [orb andb default from_option id].
  rewrite take_all_ascii. case_match; [done|]. apply decode_stores.
Qed.

Lemma stores_of_room alpha s cap :
  0 <= cap -> Z.of_nat (length (decode_stores_of alpha s cap)) <= cap.
Proof.
  intros H. unfold decode_stores_of. cbv zeta. destruct (_ =? 1)%nat; [done|]. by apply decode_stores_room.
Qed.

Section Codec.
Context {P : Platform} {S : Type}.

(** [memcpy(p + i, bs, n)] within the block. *)
Definition write_at (p : ptr) (i : nat) (bs : bytes) : C S unit :=
  let! b := load_bytes p in
  if (i + length bs <=? length b)%nat then
    store p (CBytes (take i b ++ bs ++ drop (i + length bs) b))
  else undefined.

(** [b64_decode(s, strlen(s), p, cap, rev)]; [None] is [(size_t)-1]. *)
Definition b64_decode_at (alpha : string) (p : ptr) (s : string) (cap : nat) : C S (option nat) :=
  write_at p 0 (decode_stores_of alpha s (Z.of_nat cap)) ;!
  cret (length <$> b64_decode (Some s) (strlen s) false (Z.of_nat cap) alpha).
(** [ehem_b64_std_decode] and [ehem_b64url_decode]. *)
Definition decode_at : ptr -> string -> nat -> C S (option nat) := b64_decode_at B64_STD_ALPHA.
Definition url_decode_at : ptr -> string -> nat -> C S (option nat) := b64_decode_at B64_URL_ALPHA.

(** Overwriting the middle of a block. *)
Lemma cwp_write_at l x y z bs Q t (m : cmem S) :
  live m !! l = Some (CBytes (x ++ y ++ z)) -> length bs = length y ->
  Q tt t (with_live (<[l := CBytes (x ++ bs ++ z)]> (live m)) m) ->
  cwp (write_at (Some l) (length x) bs) Q t m.
Proof.
  intros E Hl HQ. unfold write_at. apply cwp_bind, (cwp_load_bytes _ _ _ _ _ E).
  destruct (Nat.leb_spec (length x + length bs) (length (x ++ y ++ z))) as [_|H];
    [|rewrite !length_app in H; lia].
  apply (cwp_store _ _ _ _ _ _ E). rewrite take_app_length, (app_assoc x y z), drop_app_length'; [done|].
  rewrite length_app. lia.
Qed.

Lemma split_block n (b : bytes) : (n <= length b)%nat -> exists y z, b = y ++ z /\ length y = n.
Proof.
  intros H. exists (take n b), (drop n b). split; [by rewrite take_drop|]. rewrite length_take. lia.
Qed.

(** The buffer after the decoder: what it wrote, then what was there. *)
Definition decoded_in (alpha s : string) (b : bytes) : bytes :=
  let w := decode_stores_of alpha s (Z.of_nat (length b)) in w ++ drop (length w) b.
Definition decoded : string -> bytes -> bytes := decoded_in B64_STD_ALPHA.

Lemma cwp_b64_decode_at alpha l s b Q t (m : cmem S) :
  live m !! l = Some (CBytes b) ->
  Q (length <$> b64_decode (Some s) (strlen s) false (Z.of_nat (length b)) alpha) t
    (with_live (<[l := CBytes (decoded_in alpha s b)]> (live m)) m) ->
  cwp (b64_decode_at alpha (Some l) s (length b)) Q t m.
Proof.
  intros E HQ. unfold b64_decode_at. apply cwp_bind.
  set (w := decode_stores_of alpha s (Z.of_nat (length b))) in *.
  assert (length w <= length b)%nat as Hw
    by (pose proof (stores_of_room alpha s (Z.of_nat (length b))); unfold w; lia).
  apply (cwp_write_at l [] (take (length w) b) (drop (length w) b)).
  - cbn [app]. by rewrite take_drop.
  - rewrite length_take. lia.
  - exact HQ.
Qed.

Lemma cwp_decode_at l s b Q t (m : cmem S) :
  live m !! l = Some (CBytes b) ->
  Q (length <$> std_decode s (Z.of_nat (length b))) t
    (with_live (<[l := CBytes (decoded s b)]> (live m)) m) ->
  cwp (decode_at (Some l) s (length b)) Q t m.
Proof. apply cwp_b64_decode_at. Qed.

Lemma decoded_in_some alpha s b d :
  b64_decode (Some s) (strlen s) false (Z.of_nat (length b)) alpha = Some d ->
  decoded_in alpha s b = d ++ drop (length d) b.
Proof. intros E. unfold decoded_in. by rewrite (stores_of_decode _ _ _ _ E). Qed.

Lemma decoded_some s b d :
  std_decode s (Z.of_nat (length b)) = Some d -> decoded s b = d ++ drop (length d) b.
Proof. apply decoded_in_some. Qed.

Lemma length_decoded s b : length (decoded s b) = length b.
Proof.
  unfold decoded, decoded_in. pose proof (stores_of_room B64_STD_ALPHA s (Z.of_nat (length b))).
  rewrite length_app, length_drop. lia.
Qed.

Lemma decoded_length_le s (b : bytes) d :
  std_decode s (Z.of_nat (length b)) = Some d -> (length d <= length b)%nat.
Proof.
  intros E. pose proof (stores_of_room B64_STD_ALPHA s (Z.of_nat (length b))) as H.
  rewrite (stores_of_decode _ _ _ _ E) in H. lia.
Qed.
End Codec.

(** ** Strings in memory *)

Section Texts.
Context {S : Type}.
Implicit Types h : gmap positive (cell S).

(** A [char *] member that may be NULL. *)
Definition text_at h (p : ptr) (s : option string) : Prop :=
  match p, s with
  | None, None => True
  | Some l, Some s => h !! l = Some (CBytes (c_string s))
  | _, _ => False
  end.

Lemma text_at_frame h h' p s :
  (forall x, x ∈ option_list p -> h' !! x = h !! x) -> text_at h p s -> text_at h' p s.
Proof. destruct p, s; cbn; try done. intros H E. by rewrite H by set_solver. Qed.
End Texts.

(** Fresh memory of the witnesses: no zeros. *)
Definition dirty_memory : Indeterminate :=
  {| junk_bytes n := repeat 165 n; length_junk_bytes n := repeat_length _ n |}.
