(* ===== verification/KeyMem.v ===== *)
(** * Key pages and key details in memory

    The part of [src/proto_keymgmt.c] that allocates: entries parsed into the array
    of a page, pages appended to one another with their entries changing owner, the
    walk that does so until the repository is complete, single-key details, and the
    functions that release them.  The network and the JSON tree are those of
    [Keymgmt]; here the results are blocks and pointers. *)

From stdpp Require Import gmap.
From S2P Require Import Prelude Base64 Json World Logic Context Ejwt Proto Notify Bindings Mem MemWorld CodecMem.
From S2P Require Keymgmt.

Open Scope cmem_scope.
Open Scope kmem_scope.

(** [ehem_key_entry] *)
Record entry_struct := {
  es_kid : ptr;
  es_type : ptr;
  es_label : ptr;
  es_descr : ptr;
  es_descr_len : nat;
  es_created : Z;
  es_updated : Z
}.

(** [ehem_key_page] *)
Record page_struct := {
  ps_offset : Z;
  ps_total : Z;
  ps_listed : nat;
  ps_entries : ptr
}.

(** [ehem_key_details] *)
Record details_struct := {
  ds_type : ptr;
  ds_updated : Z;
  ds_pubkey : ptr;
  ds_pubkey_len : nat;
  ds_der : ptr;
  ds_der_len : nat;
  ds_descr : ptr;
  ds_descr_len : nat
}.

Inductive key_obj :=
  | OPage (p : page_struct) | OEntries (es : list entry_struct) | ODetails (d : details_struct).

Definition entry_struct_zero : entry_struct :=
  {| es_kid := None; es_type := None; es_label := None; es_descr := None; es_descr_len := 0;
     es_created := 0; es_updated := 0 |}.
Definition page_struct_zero : page_struct :=
  {| ps_offset := 0; ps_total := 0; ps_listed := 0; ps_entries := None |}.
Definition details_struct_zero : details_struct :=
  {| ds_type := None; ds_updated := 0; ds_pubkey := None; ds_pubkey_len := 0; ds_der := None;
     ds_der_len := 0; ds_descr := None; ds_descr_len := 0 |}.

(** The new tail of a [realloc] of the entries, before it is written. *)
Class IndeterminateEntries := {
  junk_entries : nat -> list entry_struct;
  length_junk_entries n : length (junk_entries n) = n
}.

Section KeyMem.
Context {P : Platform} {I : Indeterminate} {J : IndeterminateEntries}.
Abbreviation C := (Mem.C key_obj).
Abbreviation K := (MemWorld.K key_obj).

Definition load_page (p : ptr) : C page_struct :=
  let! o := load_struct p in match o with OPage s => cret s | _ => undefined end.
Definition load_entries (p : ptr) : C (list entry_struct) :=
  let! o := load_struct p in match o with OEntries es => cret es | _ => undefined end.
Definition load_details (p : ptr) : C details_struct :=
  let! o := load_struct p in match o with ODetails d => cret d | _ => undefined end.
Definition modify_page (p : ptr) (f : page_struct -> page_struct) : C unit :=
  let! s := load_page p in store p (CStruct (OPage (f s))).

(** [entries[i]], out of range undefined. *)
Definition load_entry (a : ptr) (i : nat) : C entry_struct :=
  let! es := load_entries a in
  match es !! i with Some e => cret e | None => undefined end.
Definition store_entry (a : ptr) (i : nat) (e : entry_struct) : C unit :=
  let! es := load_entries a in
  if (i <? length es)%nat then store a (CStruct (OEntries (<[i := e]> es))) else undefined.

Definition set_offset_total (offset total : Z) (s : page_struct) : page_struct :=
  {| ps_offset := offset; ps_total := total; ps_listed := ps_listed s;
     ps_entries := ps_entries s |}.
Definition set_total (total : Z) (s : page_struct) : page_struct :=
  set_offset_total (ps_offset s) total s.
Definition set_listed (n : nat) (s : page_struct) : page_struct :=
  {| ps_offset := ps_offset s; ps_total := ps_total s; ps_listed := n;
     ps_entries := ps_entries s |}.
Definition set_entries (p : ptr) (s : page_struct) : page_struct :=
  {| ps_offset := ps_offset s; ps_total := ps_total s; ps_listed := ps_listed s;
     ps_entries := p |}.

(** ** Fields *)

(** The result and [*dst]. *)
Definition opt_str (obj : jptr) (key : string) : C (bool * ptr) :=
  match ehem_json_get_string obj key with
  | None => cret (true, None)
  | Some s => let! dst := strdup s in cret (match dst with Some _ => true | None => false end, dst)
  end.

(** The result, [*out] and [*out_len]. *)
Definition decode_opt_b64 (obj : jptr) (key : string) : C (bool * ptr * nat) :=
  match ehem_json_get_string obj key with
  | None => cret (true, None, O)
  | Some s =>
      if is_empty s then cret (true, None, O)
      else
        let b64_len := String.length s in
        let! raw := allocate (CBytes (junk_bytes b64_len)) in
        match raw with
        | None => cret (false, None, O)
        | Some _ =>
            let! n := decode_at raw s b64_len in
            match n with
            | None => free raw ;! cret (true, None, O)
            | Some n => cret (true, raw, n)
            end
        end
  end.

(** ** Entries *)

Definition entry_dispose (e : entry_struct) : C unit :=
  free (es_kid e) ;! free (es_type e) ;! free (es_label e) ;! free (es_descr e).

(** [*e] starts zeroed and is reached through [e] alone: it is threaded.  The error,
    or none, and what [*e] is then. *)
Definition parse_entry (obj : jptr) : C (option Keymgmt.entry_error * entry_struct) :=
  match ehem_json_get_string obj "kid" with
  | None => cret (Some (Keymgmt.Missing "kid"), entry_struct_zero)
  | Some str =>
      let! kid := strdup str in
      let e := {| es_kid := kid; es_type := None; es_label := None; es_descr := None;
                  es_descr_len := 0; es_created := 0; es_updated := 0 |} in
      match kid with
      | None => cret (Some Keymgmt.EntryOom, e)
      | Some _ =>
          match ehem_json_get_string obj "type" with
          | None => cret (Some (Keymgmt.Missing "type"), e)
          | Some str =>
              let! type := strdup str in
              let e := {| es_kid := kid; es_type := type; es_label := None; es_descr := None;
                          es_descr_len := 0; es_created := 0; es_updated := 0 |} in
              match type with
              | None => cret (Some Keymgmt.EntryOom, e)
              | Some _ =>
                  let! (ok, label) := opt_str obj "label" in
                  let e := {| es_kid := kid; es_type := type; es_label := label;
                              es_descr := None; es_descr_len := 0;
                              es_created := 0; es_updated := 0 |} in
                  if negb ok then cret (Some Keymgmt.EntryOom, e)
                  else
                    let! (ok, descr, len) := decode_opt_b64 obj "descr" in
                    if negb ok then cret (Some Keymgmt.EntryOom, e)
                    else
                      cret (None,
                        {| es_kid := kid; es_type := type; es_label := label;
                           es_descr := descr; es_descr_len := len;
                           es_created := default 0 (ehem_json_get_int64 obj "created");
                           es_updated := default 0 (ehem_json_get_int64 obj "updated") |})
              end
          end
      end
  end.

(** ** Pages *)

Fixpoint dispose_entries (a : ptr) (i k : nat) : C unit :=
  match k with
  | O => cret tt
  | S k => (let! e := load_entry a i in entry_dispose e) ;! dispose_entries a (S i) k
  end.

Definition ehem_key_page_free (page : ptr) : C unit :=
  match page with
  | None => cret tt
  | Some _ =>
      let! s := load_page page in
      dispose_entries (ps_entries s) 0 (ps_listed s) ;!
      free (ps_entries s) ;!
      free page
  end.

(** The loop of [parse_key_page]: from index [i] with [k] to go, the index and error
    of the entry that failed, or none. *)
Fixpoint parse_entries (a : ptr) (l : jptr) (i k : nat) : C (option (nat * Keymgmt.entry_error)) :=
  match k with
  | O => cret None
  | S k =>
      let! (r, e) := parse_entry (ehem_json_array_get l (Z.of_nat i)) in
      store_entry a i e ;!
      match r with
      | Some err => cret (Some (i, err))
      | None => parse_entries a l (S i) k
      end
  end.

Definition parse_key_page (root : json) : K ptr :=
  let!! page := of_c (allocate (CStruct (OPage page_struct_zero))) in
  match page with
  | None => of_m out_of_memory
  | Some _ =>
      of_c (modify_page page (set_offset_total
              (default 0 (ehem_json_get_int64 (Some root) "offset"))
              (default 0 (ehem_json_get_int64 (Some root) "total")))) ;!!
      let l := ehem_json_get (Some root) "list" in
      let n := if ehem_json_is_array l then ehem_json_array_size l else 0 in
      if n =? 0 then kret page
      else
        let n := Z.to_nat n in
        let!! entries := of_c (allocate (CStruct (OEntries (repeat entry_struct_zero n)))) in
        match entries with
        | None => of_c (free page) ;!! of_m out_of_memory
        | Some _ =>
            of_c (modify_page page (set_entries entries)) ;!!
            let!! r := of_c (parse_entries entries l 0 n) in
            match r with
            | Some (i, err) =>
                of_c (modify_page page (set_listed (S i)) ;! ehem_key_page_free page) ;!!
                match err with
                | Keymgmt.Missing field =>
                    of_m (ehem_ctx_fail EHEM_ERR_PROTOCOL 200 None
                      ("keymgmt/list: entry " +:+ dec (Z.of_nat i) +:+
                       " missing required field '" +:+ field +:+ "'"))
                | Keymgmt.EntryOom => of_m out_of_memory
                end
            | None => of_c (modify_page page (set_listed n)) ;!! kret page
            end
        end
  end.

(** [realloc(p, n * sizeof *p)]: the block may move; a failure leaves it. *)
Definition realloc_entries (p : ptr) (n : nat) : C ptr :=
  let! old := match p with Some _ => load_entries p | None => cret [] end in
  let! q := allocate (CStruct (OEntries (take n old ++ junk_entries (n - length old)))) in
  match q with
  | None => cret None
  | Some _ => free p ;! cret q
  end.

Definition page_append (dst src : ptr) : C bool :=
  let! s := load_page src in
  if (ps_listed s =? 0)%nat then cret true
  else
    let! d := load_page dst in
    let need := (ps_listed d + ps_listed s)%nat in
    let! grown := realloc_entries (ps_entries d) need in
    match grown with
    | None => cret false
    | Some _ =>
        modify_page dst (set_entries grown) ;!
        let! from := load_entries (ps_entries s) in
        let! to := load_entries grown in
        if ((ps_listed s <=? length from) && (need <=? length to))%nat then
          store grown (CStruct (OEntries
            (take (ps_listed d) to ++ take (ps_listed s) from ++ drop need to))) ;!
          modify_page dst (set_listed need) ;!
          free (ps_entries s) ;!
          modify_page src (set_entries None) ;!
          modify_page src (set_listed 0) ;!
          cret true
        else undefined
    end.

(** The loop of [ehem_key_list_all], and of [ehem_key_search_all]. *)
Fixpoint page_walk (fuel : nat) (fetch : Z -> K ptr) (offset : Z) (acc : ptr) : K ptr :=
  match fuel with
  | O => of_m diverge
  | S fuel =>
      let!! r := kattempt (fetch offset) in
      match r with
      | inr rc => of_c (ehem_key_page_free acc) ;!! of_m (throw rc)
      | inl page =>
          let!! s := of_c (load_page page) in
          of_c (modify_page acc (set_total (ps_total s))) ;!!
          let listed := Z.of_nat (ps_listed s) in
          let!! ok := of_c (page_append acc page) in
          if negb ok then
            of_c (ehem_key_page_free page ;! ehem_key_page_free acc) ;!! of_m out_of_memory
          else
            of_c (ehem_key_page_free page) ;!!
            let offset := wrap_size (offset + listed) in
            let!! a := of_c (load_page acc) in
            if (listed =? 0) || (ps_total a <=? wrap_i64 offset) then kret acc
            else page_walk fuel fetch offset acc
      end
  end.

(** ** Key details *)

Definition ehem_key_details_free (details : ptr) : C unit :=
  match details with
  | None => cret tt
  | Some _ =>
      let! d := load_details details in
      free (ds_type d) ;! free (ds_pubkey d) ;! free (ds_der d) ;! free (ds_descr d) ;!
      free details
  end.

(** From [d->type] on; whether every copy was made, and [*d]. *)
Definition fill_details (root : json) (type : string) : C (bool * details_struct) :=
  let! t := strdup type in
  let updated := default 0 (ehem_json_get_int64 (Some root) "updated") in
  let d u p pl q ql r rl :=
    {| ds_type := t; ds_updated := u; ds_pubkey := p; ds_pubkey_len := pl; ds_der := q;
       ds_der_len := ql; ds_descr := r; ds_descr_len := rl |} in
  match t with
  | None => cret (false, d 0 None O None O None O)
  | Some _ =>
      let! (ok, pub, pub_len) := decode_opt_b64 (Some root) "pubkey" in
      if negb ok then cret (false, d updated pub pub_len None O None O)
      else
        let! (ok, der, der_len) := decode_opt_b64 (Some root) "der" in
        if negb ok then cret (false, d updated pub pub_len der der_len None O)
        else
          let! (ok, descr, descr_len) := decode_opt_b64 (Some root) "descr" in
          cret (ok, d updated pub pub_len der der_len descr descr_len)
  end.

Definition parse_key_details (root : json) : K ptr :=
  let!! d := of_c (allocate (CStruct (ODetails details_struct_zero))) in
  match d with
  | None => of_m out_of_memory
  | Some _ =>
      match ehem_json_get_string (Some root) "type" with
      | None =>
          of_c (ehem_key_details_free d) ;!!
          of_m (ehem_ctx_fail EHEM_ERR_PROTOCOL 200 None
                  "keymgmt/get: missing required field 'type'")
      | Some type =>
          let!! (ok, s) := of_c (fill_details root type) in
          of_c (store d (CStruct (ODetails s))) ;!!
          if ok then kret d
          else of_c (ehem_key_details_free d) ;!! of_m out_of_memory
      end
  end.

Context `{Q : !Request}.

Definition ehem_key_list (offset limit : Z) (out : bool) : K ptr :=
  if negb out then of_m (throw EHEM_ERR_ARG)
  else
    of_m ehem_ctx_clear_error ;!!
    let!! root := of_m (ehem_proto_request_json EHEM_HTTP_GET (Keymgmt.list_path offset limit)
      None (Some Keymgmt.KEYMGMT_LIST_SCOPE) EHEM_TLS_REQ_DEFAULT) in
    parse_key_page root.

(** From the accumulator's [calloc] on; shared by [ehem_key_list_all] and
    [ehem_key_search_all]. *)
Definition walk_all (fuel : nat) (fetch : Z -> K ptr) : K ptr :=
  let!! acc := of_c (allocate (CStruct (OPage page_struct_zero))) in
  match acc with
  | None => of_m out_of_memory
  | Some _ => page_walk fuel fetch 0 acc
  end.

Definition ehem_key_list_all (fuel : nat) (out : bool) : K ptr :=
  if negb out then of_m (throw EHEM_ERR_ARG)
  else
    of_m ehem_ctx_clear_error ;!!
    walk_all fuel (fun offset => ehem_key_list offset Keymgmt.KEYMGMT_WALK_PAGE true).

(** ** Search *)

(** [*out]; NULL is NOMEM. *)
Definition build_search_descr (mode : Z) (pattern : buf) : C ptr :=
  let enc := ehem_b64_std_encoded_len (b_len pattern) in
  let! descr := allocate (CBytes (junk_bytes (Z.to_nat (enc + 2)))) in
  match descr with
  | None => cret None
  | Some _ =>
      let start := if mode =? Keymgmt.EHEM_KEY_SEARCH_PREFIX then 1%nat else O in
      (if mode =? Keymgmt.EHEM_KEY_SEARCH_PREFIX then write_at descr 0 [94] else cret tt) ;!
      match ehem_b64_std_encode (b_ptr pattern) (b_len pattern) false (enc + 1) with
      | None => free descr ;! cret None
      | Some b64 =>
          write_at descr start (c_string b64) ;!
          (if mode =? Keymgmt.EHEM_KEY_SEARCH_SUFFIX then
             write_at descr (String.length b64) [36] ;!
             write_at descr (S (String.length b64)) [0]
           else cret tt) ;!
          cret descr
      end
  end.

(** One search POST: a 404 is an empty page. *)
Definition search_one_page (descr : string) (offset limit : Z) : K ptr :=
  let!! body := of_m (build_body
    [FieldStr "descr" descr; FieldInt "offset" (wrap_i64 offset);
     FieldInt "limit" (wrap_i64 limit)]) in
  let!! r := of_m (attempt (ehem_proto_request_json EHEM_HTTP_POST "/api/keymgmt/search"
               (Some body) (Some Keymgmt.KEYMGMT_SEARCH_SCOPE) EHEM_TLS_REQ_DEFAULT)) in
  match r with
  | inr EHEM_ERR_NOT_FOUND =>
      let!! page := of_c (allocate (CStruct (OPage page_struct_zero))) in
      match page with
      | None => of_m out_of_memory
      | Some _ => of_m ehem_ctx_clear_error ;!! kret page
      end
  | inr rc => of_m (throw rc)
  | inl root => parse_key_page root
  end.

(** What both searches do around [k]: the anchored text is built before and released
    after, however [k] ends. *)
Definition with_search_descr (mode : Z) (pattern : buf) (k : string -> K ptr) : K ptr :=
  let!! descr := of_c (build_search_descr mode pattern) in
  match descr with
  | None => of_m (ehem_ctx_fail EHEM_ERR_NOMEM 0 None "out of memory")
  | Some _ =>
      let!! text := of_c (string_at descr) in
      let!! r := kattempt (k text) in
      of_c (free descr) ;!!
      match r with inl page => kret page | inr rc => of_m (throw rc) end
  end.

Definition ehem_key_search (pattern : buf) (mode offset limit : Z) (out : bool) : K ptr :=
  if negb (Keymgmt.search_args_ok pattern mode out) then of_m (throw EHEM_ERR_ARG)
  else
    of_m ehem_ctx_clear_error ;!!
    with_search_descr mode pattern (fun descr => search_one_page descr offset limit).

Definition ehem_key_search_all (fuel : nat) (pattern : buf) (mode : Z) (out : bool) : K ptr :=
  if negb (Keymgmt.search_args_ok pattern mode out) then of_m (throw EHEM_ERR_ARG)
  else
    of_m ehem_ctx_clear_error ;!!
    with_search_descr mode pattern (fun descr =>
      walk_all fuel (fun offset => search_one_page descr offset Keymgmt.KEYMGMT_WALK_PAGE)).

(** ** Get *)

Definition ehem_key_get (kid : option string) (out : bool) : K ptr :=
  match kid, out with
  | Some kid, true =>
      of_m ehem_ctx_clear_error ;!!
      of_m (require (ehem_proto_is_kid_hex kid) (Keymgmt.KID_RULE "keymgmt/get")) ;!!
      let path := snprintf_trunc 64 ("/api/keymgmt/get/" +:+ kid) in
      let!! r := of_m (attempt (ehem_proto_request_json EHEM_HTTP_GET path None
                   (Some (use_scope 64 kid)) EHEM_TLS_REQ_DEFAULT)) in
      match r with
      | inr rc => of_m (Keymgmt.map_406_not_found rc "keymgmt/get")
      | inl root => parse_key_details root
      end
  | _, _ => of_m (throw EHEM_ERR_ARG)
  end.
End KeyMem.
