(* ===== verification/KeyMemProps.v ===== *)
(** * Key pages in memory refine key pages

    The blocks of [KeyMem] against the values of [Keymgmt]: the same outcome and the
    same world, blocks that represent the page or the details, everything given back
    on failure, and everything given back by the release function. *)

From stdpp Require Import gmap.
From S2P Require Import Prelude Base64 Json World Logic Context Ejwt Proto AuthState Notify.
From S2P Require Import Bindings Mem MemWorld CodecMem KeyMem.
From S2P Require Keymgmt.

Section Rep.
Context {P : Platform} {I : Indeterminate} {J : IndeterminateEntries}.
#[local] Abbreviation step := (MemWorld.step any).
#[local] Abbreviation refines := (MemWorld.refines any).
#[local] Abbreviation step_frame := (MemWorld.step_frame (good:=any)).
#[local] Abbreviation step_new := (MemWorld.step_new (good:=any)).
#[local] Abbreviation step_more := (MemWorld.step_more (good:=any)).
Abbreviation heap := (gmap positive (cell key_obj)).

(** Decoded bytes: the first [n] of the block. *)
Definition blob_at (h : heap) (p : ptr) (n : nat) (d : option bytes) : Prop :=
  match p, d with
  | None, None => n = O
  | Some l, Some d => n = length d /\ exists r, h !! l = Some (CBytes (d ++ r))
  | _, _ => False
  end.

Definition entry_locs (s : entry_struct) : list positive :=
  option_list (es_kid s) ++ option_list (es_type s) ++
  option_list (es_label s) ++ option_list (es_descr s).

Definition entry_at (h : heap) (s : entry_struct) (e : Keymgmt.ehem_key_entry) : Prop :=
  text_at h (es_kid s) (Some (Keymgmt.ke_kid e)) /\
  text_at h (es_type s) (Some (Keymgmt.ke_type e)) /\
  text_at h (es_label s) (Keymgmt.ke_label e) /\
  blob_at h (es_descr s) (es_descr_len s) (Keymgmt.ke_descr e) /\
  es_created s = Keymgmt.ke_created e /\ es_updated s = Keymgmt.ke_updated e.

Definition locs_of (es : list entry_struct) : list positive := concat (map entry_locs es).

Lemma blob_at_frame h h' p n d :
  (forall x, x ∈ option_list p -> h' !! x = h !! x) -> blob_at h p n d -> blob_at h' p n d.
Proof. destruct p, d; cbn; try done. intros H E. by rewrite H by set_solver. Qed.
Lemma entry_at_frame h h' s e :
  (forall x, x ∈ entry_locs s -> h' !! x = h !! x) -> entry_at h s e -> entry_at h' s e.
Proof.
  unfold entry_locs. intros H (K & T & L & D & R).
  split; [eapply text_at_frame; [|exact K]; intros; apply H; set_solver|].
  split; [eapply text_at_frame; [|exact T]; intros; apply H; set_solver|].
  split; [eapply text_at_frame; [|exact L]; intros; apply H; set_solver|].
  split; [eapply blob_at_frame; [|exact D]; intros; apply H; set_solver|done].
Qed.

(** ** Fields *)

Lemma opt_str_spec obj key t m :
  cwp (KeyMem.opt_str obj key)
      (fun r t' m' => exists v, ticks (Ejwt.opt_str obj key) t v t' /\
         step [] m (option_list (snd r)) m' /\
         match v with
         | Some s => fst r = true /\ text_at (live m') (snd r) s
         | None => fst r = false
         end) t m.
Proof.
  unfold KeyMem.opt_str, Ejwt.opt_str. destruct (ehem_json_get_string obj key) as [s|].
  - apply cwp_bind, cwp_allocate; [intros E|intros l E Hl _]; eexists.
    all: split; [eapply ticks_bind; [apply ticks_dup|rewrite E; apply ticks_ret]|]; cbn.
    + split; [apply step_refl, owns_nil|done].
    + split; [by apply step_new|]. split; [done|]. apply lookup_insert_eq.
  - eexists. split; [apply ticks_ret|]. split; [apply step_refl, owns_nil|done].
Qed.

Lemma decode_spec obj key t m :
  cwp (KeyMem.decode_opt_b64 obj key)
      (fun r t' m' => exists v, ticks (Bindings.decode_opt_b64 obj key) t v t' /\
         step [] m (option_list (snd (fst r))) m' /\
         match v with
         | Some d => fst (fst r) = true /\ blob_at (live m') (snd (fst r)) (snd r) d
         | None => fst (fst r) = false /\ snd (fst r) = None
         end) t m.
Proof.
  unfold KeyMem.decode_opt_b64, Bindings.decode_opt_b64. destruct (ehem_json_get_string obj key) as [s|].
  2: { eexists. split; [apply ticks_ret|]. split; [apply step_refl, owns_nil|done]. }
  destruct (is_empty s).
  { eexists. split; [apply ticks_ret|]. split; [apply step_refl, owns_nil|done]. }
  apply cwp_bind, cwp_allocate; [intros E|intros l E Hl _].
  { eexists. split; [eapply ticks_bind; [apply ticks_malloc|rewrite E; apply ticks_ret]|].
    split; [apply step_refl, owns_nil|done]. }
  set (junk := junk_bytes (String.length s)).
  assert (length junk = String.length s) as Hj by apply length_junk_bytes.
  apply cwp_bind. rewrite <- Hj. eapply cwp_decode_at; [apply lookup_insert_eq|].
  assert (strlen s = Z.of_nat (length junk)) as Es by (unfold strlen; lia). rewrite Es, Hj in *.
  destruct (std_decode s (Z.of_nat (String.length s))) as [d|] eqn:Ed; cbn [fmap option_fmap option_map].
  - eexists. split; [eapply ticks_bind; [apply ticks_malloc|rewrite E; apply ticks_ret]|].
    cbn. rewrite insert_insert_eq. split; [exact (step_new l _ m Hl)|].
    split; [done|]. split; [done|]. eexists. rewrite lookup_insert_eq.
    rewrite (decoded_some _ _ d) by (by rewrite Hj). done.
  - apply cwp_bind. eapply cwp_free; [apply lookup_insert_eq|].
    eexists. split; [eapply ticks_bind; [apply ticks_malloc|rewrite E; apply ticks_ret]|].
    cbn. split; [|done]. rewrite insert_insert_eq. by apply step_temp.
Qed.

(** ** Entries *)

(** A required copy. *)
Lemma required_spec obj key s t :
  ehem_json_get_string obj key = Some s ->
  ticks (Keymgmt.required_copy obj key) t
    (if p_malloc t then inr s else inl Keymgmt.EntryOom) (S t).
Proof.
  intros E. unfold Keymgmt.required_copy. rewrite E.
  eapply ticks_bind; [apply ticks_dup|]. destruct (p_malloc t); apply ticks_ret.
Qed.
Lemma missing_spec obj key t :
  ehem_json_get_string obj key = None ->
  ticks (Keymgmt.required_copy obj key) t (inl (Keymgmt.Missing key)) t.
Proof. intros E. unfold Keymgmt.required_copy. rewrite E. apply ticks_ret. Qed.

(** The rest of an entry, once [kid] and [type] are copied. *)
Definition entry_post (m : cmem key_obj) (obj : jptr) (t : nat)
    (r : option Keymgmt.entry_error * entry_struct) (t' : nat) (m' : cmem key_obj) : Prop :=
  exists v, ticks (Keymgmt.parse_entry obj) t v t' /\ step [] m (entry_locs (snd r)) m' /\
    match v, fst r with
    | inr e, None => entry_at (live m') (snd r) e
    | inl err, Some err' => err = err'
    | _, _ => False
    end.

(** What [Keymgmt.parse_entry] does then. *)
Definition entry_rest (obj : jptr) (kid type : string)
  : M (Keymgmt.entry_error + Keymgmt.ehem_key_entry) :=
  bind (Ejwt.opt_str obj "label") (fun label =>
    match label with
    | None => ret (inl Keymgmt.EntryOom)
    | Some label =>
        bind (Bindings.decode_opt_b64 obj "descr") (fun descr =>
          match descr with
          | None => ret (inl Keymgmt.EntryOom)
          | Some descr => ret (inr {| Keymgmt.ke_kid := kid; Keymgmt.ke_type := type;
              Keymgmt.ke_label := label; Keymgmt.ke_descr := descr;
              Keymgmt.ke_created := default 0 (ehem_json_get_int64 obj "created");
              Keymgmt.ke_updated := default 0 (ehem_json_get_int64 obj "updated") |})
          end)
    end).

Lemma entry_rest_spec obj kid type k y t0 t m m2 :
  (forall v t', ticks (entry_rest obj kid type) t v t' -> ticks (Keymgmt.parse_entry obj) t0 v t') ->
  step [] m [k; y] m2 ->
  live m2 !! k = Some (CBytes (c_string kid)) -> live m2 !! y = Some (CBytes (c_string type)) ->
  cwp (let! (ok, label) := KeyMem.opt_str obj "label" in
       let e := {| es_kid := Some k; es_type := Some y; es_label := label; es_descr := None;
                   es_descr_len := 0; es_created := 0; es_updated := 0 |} in
       if negb ok then cret (Some Keymgmt.EntryOom, e)
       else
         let! (ok, descr, len) := KeyMem.decode_opt_b64 obj "descr" in
         if negb ok then cret (Some Keymgmt.EntryOom, e)
         else
           cret (None,
             {| es_kid := Some k; es_type := Some y; es_label := label; es_descr := descr;
                es_descr_len := len;
                es_created := default 0 (ehem_json_get_int64 obj "created");
                es_updated := default 0 (ehem_json_get_int64 obj "updated") |}))%cmem
    (entry_post m obj t0) t m2.
Proof.
  intros Hv S2 Tk Ty. apply cwp_bind. eapply cwp_mono; [apply opt_str_spec|].
  intros [ok label] t3 m3 (vl & Vl & S3 & Hl). cbn [fst snd] in *.
  destruct (step_more [] m _ m2 _ m3 S2 S3) as [S3' X3]. destruct vl as [vl|]; [destruct Hl as [-> Hl]|subst ok].
  2: { eexists. split; [apply Hv; eapply ticks_bind; [exact Vl|apply ticks_ret]|].
       split; [|done]. unfold entry_locs. cbn. by rewrite app_nil_r. }
  apply cwp_bind. eapply cwp_mono; [apply decode_spec|].
  intros [[ok descr] len] t4 m4 (vd & Vd & S4 & Hd). cbn [fst snd] in *.
  destruct (step_more [] m _ m3 _ m4 S3' S4) as [S4' X4].
  destruct vd as [vd|]; [destruct Hd as [-> Hd]|destruct Hd as [-> ->]].
  2: { eexists. split; [apply Hv; eapply ticks_bind; [exact Vl|];
         eapply ticks_bind; [exact Vd|apply ticks_ret]|].
       split; [|done]. unfold entry_locs. cbn in S4' |- *. by rewrite app_nil_r in S4' |- *. }
  eexists. split; [apply Hv; eapply ticks_bind; [exact Vl|];
    eapply ticks_bind; [exact Vd|apply ticks_ret]|].
  split; [exact S4'|].
  assert (forall x, x ∈ [k; y] -> live m4 !! x = live m2 !! x) as X.
  { intros x Hx. rewrite X4, X3; [done|done|set_solver]. }
  split; [|split; [|split; [|split; [|done]]]]; cbn.
  - by rewrite X by set_solver.
  - by rewrite X by set_solver.
  - eapply text_at_frame; [|exact Hl]. intros x Hx. apply X4. set_solver.
  - done.
Qed.

Lemma parse_entry_spec obj t m : cwp (parse_entry obj) (entry_post m obj t) t m.
Proof.
  unfold parse_entry. destruct (ehem_json_get_string obj "kid") as [kid|] eqn:Ek.
  2: { eexists. split; [eapply ticks_bind; [by apply missing_spec|apply ticks_ret]|].
       split; [apply step_refl, owns_nil|done]. }
  apply cwp_bind, cwp_allocate; [intros E1|intros k E1 Hk _].
  { eexists. split; [eapply ticks_bind; [by apply required_spec|rewrite E1; apply ticks_ret]|].
    split; [apply step_refl, owns_nil|done]. }
  set (m1 := with_live _ m). assert (step [] m [k] m1) as S1 by by apply step_new.
  assert (live m1 !! k = Some (CBytes (c_string kid))) as Tk by apply lookup_insert_eq.
  destruct (ehem_json_get_string obj "type") as [type|] eqn:Et.
  2: { eexists. split; [eapply ticks_bind; [by apply required_spec|rewrite E1]|].
       - eapply ticks_bind; [by apply missing_spec|apply ticks_ret].
       - split; [exact S1|done]. }
  apply cwp_bind, cwp_allocate; [intros E2|intros y E2 Hy _].
  { eexists. split; [eapply ticks_bind; [by apply required_spec|rewrite E1]|].
    - eapply ticks_bind; [by apply required_spec|rewrite E2; apply ticks_ret].
    - split; [exact S1|done]. }
  set (m2 := with_live _ m1). destruct (step_more [] m [k] m1 [y] m2 S1) as [S2 X2];
    [by apply step_new|].
  assert (live m2 !! y = Some (CBytes (c_string type))) as Ty by apply lookup_insert_eq.
  assert (live m2 !! k = Some (CBytes (c_string kid))) as Tk2
    by (rewrite X2; [done|by apply list_elem_of_singleton]).
  apply (entry_rest_spec obj kid type k y t _ m); try done.
  intros v t' H. eapply ticks_bind; [by apply required_spec|]. rewrite E1.
  eapply ticks_bind; [by apply required_spec|]. rewrite E2. exact H.
Qed.

(** ** Accesses *)

Lemma cwp_load_page q s Q t m :
  live m !! q = Some (CStruct (OPage s)) -> Q s t m -> cwp (load_page (Some q)) Q t m.
Proof. intros E HQ. by apply cwp_bind, (cwp_load_struct _ _ _ _ _ E). Qed.
Lemma cwp_load_entries a es Q t m :
  live m !! a = Some (CStruct (OEntries es)) -> Q es t m -> cwp (load_entries (Some a)) Q t m.
Proof. intros E HQ. by apply cwp_bind, (cwp_load_struct _ _ _ _ _ E). Qed.
Lemma cwp_load_details q d Q t m :
  live m !! q = Some (CStruct (ODetails d)) -> Q d t m -> cwp (load_details (Some q)) Q t m.
Proof. intros E HQ. by apply cwp_bind, (cwp_load_struct _ _ _ _ _ E). Qed.
Lemma cwp_modify_page q s f Q t m :
  live m !! q = Some (CStruct (OPage s)) ->
  Q tt t (with_live (<[q := CStruct (OPage (f s))]> (live m)) m) ->
  cwp (modify_page (Some q) f) Q t m.
Proof.
  intros E HQ. apply cwp_bind, (cwp_load_page _ _ _ _ _ E). by apply (cwp_store _ _ _ _ _ _ E).
Qed.

(** ** Release *)

Lemma entry_dispose_spec e L t m :
  owns (entry_locs e ++ L) m ->
  cwp (entry_dispose e) (fun _ t' m' => t' = t /\ step (entry_locs e ++ L) m L m' /\
    forall x, x ∈ L -> live m' !! x = live m !! x) t m.
Proof.
  unfold entry_locs. rewrite <- !app_assoc. intros O. unfold entry_dispose.
  apply cwp_bind. eapply cwp_mono; [by apply free_part|]. intros _ t1 m1 (-> & S1 & X1).
  apply cwp_bind. eapply cwp_mono; [apply free_part, S1|]. intros _ t2 m2 (-> & S2 & X2).
  apply cwp_bind. eapply cwp_mono; [apply free_part, S2|]. intros _ t3 m3 (-> & S3 & X3).
  eapply cwp_mono; [apply free_part, S3|]. intros _ t4 m4 (-> & S4 & X4).
  split; [done|]. split; [eauto using step_trans|].
  intros x Hx. rewrite X4, X3, X2, X1; set_solver.
Qed.

Lemma locs_of_cons e es : locs_of (e :: es) = entry_locs e ++ locs_of es.
Proof. done. Qed.

Lemma locs_of_app es es' : locs_of (es ++ es') = locs_of es ++ locs_of es'.
Proof. unfold locs_of. by rewrite map_app, concat_app. Qed.

Lemma dispose_entries_spec a front fs rest L t m :
  live m !! a = Some (CStruct (OEntries (front ++ fs ++ rest))) -> a ∈ L ->
  owns (locs_of fs ++ L) m ->
  cwp (dispose_entries (Some a) (length front) (length fs))
    (fun _ t' m' => t' = t /\ step (locs_of fs ++ L) m L m' /\
       forall x, x ∈ L -> live m' !! x = live m !! x) t m.
Proof.
  revert front m. induction fs as [|e fs IH]; intros front m Ea Ha O.
  { cbn. split; [done|]. split; [by apply step_refl|done]. }
  rewrite locs_of_cons in *. rewrite <- app_assoc in O. cbn [dispose_entries length].
  apply cwp_bind, cwp_bind, cwp_bind, (cwp_load_entries _ _ _ _ _ Ea).
  cbn [app]. rewrite list_lookup_middle by done. apply cwp_ret.
  eapply cwp_mono; [by apply entry_dispose_spec|]. intros _ t1 m1 (-> & S1 & X1).
  specialize (IH (front ++ [e]) m1). rewrite length_app in IH. cbn in IH.
  rewrite Nat.add_1_r in IH. eapply cwp_mono; [apply IH|].
  - rewrite X1 by set_solver. rewrite Ea. by rewrite <- app_assoc.
  - done.
  - apply S1.
  - intros _ t2 m2 (-> & S2 & X2). rewrite <- app_assoc. split; [done|].
    split; [by eapply step_trans|]. intros x Hx. rewrite X2, X1; set_solver.
Qed.

(** The array of a page: NULL exactly when nothing is listed, otherwise a block that
    starts with the entries that count. *)
Definition array_at (h : heap) (pe : ptr) (es : list entry_struct) : Prop :=
  match pe with
  | Some a => es <> [] /\ exists rest, h !! a = Some (CStruct (OEntries (es ++ rest)))
  | None => es = []
  end.

Lemma page_free_spec q s es t m :
  live m !! q = Some (CStruct (OPage s)) -> array_at (live m) (ps_entries s) es ->
  ps_listed s = length es ->
  owns (q :: option_list (ps_entries s) ++ locs_of es) m ->
  cwp (ehem_key_page_free (Some q))
    (fun _ t' m' => t' = t /\
       step (q :: option_list (ps_entries s) ++ locs_of es) m [] m') t m.
Proof.
  intros Eq Ha Hlen O. cbn [ehem_key_page_free].
  apply cwp_bind, (cwp_load_page _ _ _ _ _ Eq). rewrite Hlen.
  assert (q :: option_list (ps_entries s) ++ locs_of es ≡ₚ
    locs_of es ++ option_list (ps_entries s) ++ [q]) as Hp by solve_Permutation.
  rewrite Hp in O. apply cwp_bind. eapply cwp_mono.
  { instantiate (1 := fun _ t' m' => t' = t /\
      step (locs_of es ++ option_list (ps_entries s) ++ [q]) m (option_list (ps_entries s) ++ [q]) m').
    destruct (ps_entries s) as [a|]; cbn in Ha.
    - destruct Ha as (_ & rest & Ea).
      eapply cwp_mono; [apply (dispose_entries_spec a [] es rest ([a] ++ [q]) t m Ea)|]; [set_solver|done|].
      intros _ t' m' (? & ? & _). done.
    - subst es. split; [done|]. by apply step_refl. }
  intros _ t1 m1 (-> & S1). apply cwp_bind.
  eapply cwp_mono; [apply free_part, S1|]. intros _ t2 m2 (-> & S2 & _).
  eapply cwp_mono; [apply (free_ptr (Some q)), S2|]. intros _ t3 m3 (-> & S3).
  split; [done|]. rewrite Hp. by eapply step_trans, step_trans.
Qed.

(** ** The entries of a page *)

Definition entry_fail {A} (i : nat) (err : Keymgmt.entry_error) : M A :=
  match err with
  | Keymgmt.Missing field =>
      ehem_ctx_fail EHEM_ERR_PROTOCOL 200 None
        ("keymgmt/list: entry " +:+ dec (Z.of_nat i) +:+
         " missing required field '" +:+ field +:+ "'")
  | Keymgmt.EntryOom => out_of_memory
  end.

Lemma entry_fail_bind {A B} i err (f : A -> M B) w : bind (entry_fail i err) f w = entry_fail i err w.
Proof. by destruct err. Qed.

Lemma cwp_store_entry a i e es Q t m :
  live m !! a = Some (CStruct (OEntries es)) -> (i < length es)%nat ->
  Q tt t (with_live (<[a := CStruct (OEntries (<[i := e]> es))]> (live m)) m) ->
  cwp (store_entry (Some a) i e) Q t m.
Proof.
  intros Ea Hi HQ. apply cwp_bind, (cwp_load_entries _ _ _ _ _ Ea).
  destruct (Nat.ltb_spec i (length es)); [|lia]. by apply (cwp_store _ _ _ _ _ _ Ea).
Qed.

Definition entries_post (a : positive) (l : jptr) (front : list entry_struct) (k : nat)
    (L : list positive) (t : nat) (m : cmem key_obj)
    (r : option (nat * Keymgmt.entry_error)) (t' : nat) (m' : cmem key_obj) : Prop :=
  exists fs, live m' !! a =
      Some (CStruct (OEntries (front ++ fs ++ repeat entry_struct_zero (k - length fs)))) /\
    step L m (L ++ locs_of fs) m' /\
    (forall x, x ∈ L -> x <> a -> live m' !! x = live m !! x) /\
    (length fs <= k)%nat /\
    match r with
    | None => length fs = k /\ exists es,
        ticks (Keymgmt.parse_entries l (Z.of_nat (length front)) k) t es t' /\
        Forall2 (entry_at (live m')) fs es
    | Some (j, err) => S j = (length front + length fs)%nat /\
        forall w, w_tick w = t ->
          Keymgmt.parse_entries l (Z.of_nat (length front)) k w = entry_fail j err (at_tick t' w)
    end.

Lemma parse_entries_spec a l front k L t m :
  live m !! a = Some (CStruct (OEntries (front ++ repeat entry_struct_zero k))) ->
  owns L m -> a ∈ L ->
  cwp (parse_entries (Some a) l (length front) k) (entries_post a l front k L t m) t m.
Proof.
  revert front L t m. induction k as [|k IH]; intros front L t m Ea O Ha.
  { exists []. split; [exact Ea|]. split; [cbn; rewrite app_nil_r; by apply step_refl|].
    split; [done|]. split; [done|]. split; [done|].
    exists []. split; [apply ticks_ret|constructor]. }
  cbn [parse_entries]. apply cwp_bind. eapply cwp_mono; [apply parse_entry_spec|].
  intros [r e] t1 m1 (v & V & S1 & Hv). cbn [fst snd] in *.
  destruct (step_frame L [] m (entry_locs e) m1) as [S2 X2]; [by rewrite app_nil_r|done|].
  rewrite app_nil_r in S2. apply cwp_bind.
  eapply cwp_store_entry; [rewrite X2 by done; exact Ea|rewrite length_app; cbn; lia|].
  rewrite insert_app_r_alt, Nat.sub_diag by lia. cbn [repeat list_insert insert].
  set (m2 := with_live _ m1).
  assert (step L m (L ++ entry_locs e) m2) as S3.
  { eapply step_trans; [exact S2|]. apply step_store; [apply S2|set_solver]. }
  assert (forall x, x <> a -> live m2 !! x = live m1 !! x) as X3
    by (intros x Hx; by apply lookup_insert_ne).
  assert (live m2 !! a = Some (CStruct (OEntries (front ++ e :: repeat entry_struct_zero k)))) as Ea2
    by apply lookup_insert_eq.
  assert (a ∉ entry_locs e) as Na
    by (destruct S3 as [[N _] _]; apply NoDup_app in N as (_ & N & _); auto).
  destruct r as [err|].
  - destruct v as [err'|]; [subst err'|done]. exists [e]. cbn [length app].
    split; [rewrite Ea2; by rewrite Nat.sub_succ, Nat.sub_0_r|].
    split; [unfold locs_of; cbn; by rewrite app_nil_r|].
    split; [intros x Hx Nx; rewrite X3, X2 by done; done|]. split; [lia|].
    split; [lia|]. intros w Ew. cbn [Keymgmt.parse_entries].
    rewrite (bind_ticks _ _ _ _ _ _ V Ew). by destruct err.
  - destruct v as [|ev]; [done|].
    specialize (IH (front ++ [e]) (L ++ entry_locs e) t1 m2).
    rewrite <- app_assoc, length_app, Nat.add_1_r in IH.
    eapply cwp_mono; [apply IH; [exact Ea2|apply S3|set_solver]|].
    intros r2 t2 m3 (fs & E3 & S4 & X4 & Hle & Hr). exists (e :: fs). cbn [length] in *.
    rewrite <- app_assoc in E3, S4.
    split; [exact E3|]. split; [rewrite locs_of_cons; by eapply step_trans|].
    split; [intros x Hx Nx; rewrite X4, X3, X2 by set_solver; done|]. split; [lia|].
    rewrite length_app, Nat2Z.inj_add in Hr. cbn [length] in Hr. change (Z.of_nat 1) with 1 in Hr.
    destruct r2 as [[j err]|].
    + destruct Hr as [Hj Hr]. split; [lia|]. intros w Ew. cbn [Keymgmt.parse_entries].
      rewrite (bind_ticks _ _ _ _ _ _ V Ew). unfold bind at 1. rewrite Hr by done.
      by destruct err.
    + destruct Hr as (Hk & es & Hr & Hes). split; [lia|]. exists (ev :: es). split.
      * cbn [Keymgmt.parse_entries]. eapply ticks_bind; [exact V|].
        eapply ticks_bind; [exact Hr|apply ticks_ret].
      * constructor; [|done]. eapply entry_at_frame; [|exact Hv]. intros x Hx.
        rewrite X4, X3; [done|congruence|set_solver|congruence].
Qed.

(** ** Pages *)

Definition page_locs (q : positive) (s : page_struct) (es : list entry_struct) : list positive :=
  q :: option_list (ps_entries s) ++ locs_of es.

Definition page_at (h : heap) (p : ptr) (pg : Keymgmt.ehem_key_page) (L : list positive) : Prop :=
  exists q s es, p = Some q /\ h !! q = Some (CStruct (OPage s)) /\
    array_at h (ps_entries s) es /\ ps_listed s = length es /\
    Forall2 (entry_at h) es (Keymgmt.kp_entries pg) /\
    ps_offset s = Keymgmt.kp_offset pg /\ ps_total s = Keymgmt.kp_total pg /\
    L = page_locs q s es.

Definition page_post (p : ptr) (pg : Keymgmt.ehem_key_page) (L : list positive)
    (m : cmem key_obj) : Prop := page_at (live m) p pg L.

Lemma entries_frame h h' es l :
  (forall x, x ∈ locs_of es -> h' !! x = h !! x) ->
  Forall2 (entry_at h) es l -> Forall2 (entry_at h') es l.
Proof.
  intros Hx H. induction H as [|e v es l He Hes IH]; constructor.
  - eapply entry_at_frame; [|done]. intros; apply Hx; rewrite locs_of_cons; set_solver.
  - apply IH. intros; apply Hx; rewrite locs_of_cons; set_solver.
Qed.

Lemma array_frame h h' pe es :
  (forall x, x ∈ option_list pe -> h' !! x = h !! x) -> array_at h pe es -> array_at h' pe es.
Proof. destruct pe as [a|]; cbn; [|done]. intros Hx (Hn & rest & E). split; [done|]. exists rest. by rewrite Hx by set_solver. Qed.

Lemma page_frame h h' p pg L :
  (forall x, x ∈ L -> h' !! x = h !! x) -> page_at h p pg L -> page_at h' p pg L.
Proof.
  intros Hx (q & s & es & -> & Eq & Ha & Hl & Hes & Ho & Ht & ->). unfold page_locs in Hx.
  exists q, s, es. split; [done|]. split; [by rewrite Hx by set_solver|].
  split; [eapply array_frame; [|done]; intros; apply Hx; set_solver|]. split; [done|].
  split; [eapply entries_frame; [|done]; intros; apply Hx; set_solver|done].
Qed.

(** The loop of [parse_key_page] and what follows it. *)
Lemma fill_page_refines q a s l n w m :
  n <> O ->
  live m !! q = Some (CStruct (OPage s)) -> ps_entries s = Some a ->
  live m !! a = Some (CStruct (OEntries (repeat entry_struct_zero n))) -> owns [q; a] m ->
  refines
    (let!! r := of_c (parse_entries (Some a) l 0 n) in
     match r with
     | Some (i, err) =>
         of_c (modify_page (Some q) (set_listed (S i)) ;! ehem_key_page_free (Some q)) ;!!
         match err with
         | Keymgmt.Missing field =>
             of_m (ehem_ctx_fail EHEM_ERR_PROTOCOL 200 None
               ("keymgmt/list: entry " +:+ dec (Z.of_nat i) +:+
                " missing required field '" +:+ field +:+ "'"))
         | Keymgmt.EntryOom => of_m out_of_memory
         end
     | None => of_c (modify_page (Some q) (set_listed n)) ;!! kret (Some q)
     end)%cmem%kmem
    (bind (Keymgmt.parse_entries l 0 n) (fun entries =>
       ret {| Keymgmt.kp_offset := ps_offset s; Keymgmt.kp_total := ps_total s;
              Keymgmt.kp_entries := entries |}))
    page_post [q; a] w m.
Proof.
  intros Hn Eq Es Ea O. assert (q <> a) as Nqa by (intros ->; congruence).
  apply refines_work. eapply cwp_mono.
  { apply (parse_entries_spec a l [] n [q; a]); [done|done|set_solver]. }
  intros r t1 m1 (fs & E1 & S1 & X1 & Hle & Hr). cbn [length app Z.of_nat Nat.add] in *.
  assert (live m1 !! q = Some (CStruct (OPage s))) as Eq1 by (rewrite X1; [done|set_solver|done]).
  assert (forall k m2, m2 = with_live (<[q := CStruct (OPage (set_listed k s))]> (live m1)) m1 ->
    step [q; a] m ([q; a] ++ locs_of fs) m2 /\ (forall x, x <> q -> live m2 !! x = live m1 !! x) /\
    live m2 !! q = Some (CStruct (OPage (set_listed k s)))) as Hset.
  { intros k m2 ->. split; [eapply step_trans; [exact S1|]; apply step_store; [apply S1|set_solver]|].
    split; [intros x Hx; by apply lookup_insert_ne|apply lookup_insert_eq]. }
  destruct r as [[i err]|].
  - destruct Hr as [Hi Hr]. exists (entry_fail i err), ([q; a] ++ locs_of fs).
    split; [unfold bind; rewrite Hr by done; by destruct err|]. split; [done|].
    apply refines_mem, cwp_bind. eapply cwp_modify_page; [exact Eq1|].
    match goal with |- cwp _ _ _ ?m2 => destruct (Hset (S i) m2 eq_refl) as (S2 & X2 & Eq2) end.
    eapply cwp_mono; [apply (page_free_spec q (set_listed (S i) s) fs); [exact Eq2| | |]|].
    + cbn [ps_entries set_listed]. rewrite Es. split; [intros ->; cbn in Hi; lia|].
      exists (repeat entry_struct_zero (n - length fs)).
      rewrite X2 by done. exact E1.
    + done.
    + cbn [ps_entries set_listed]. rewrite Es. apply S2.
    + intros _ t3 m3 (-> & S3). split; [done|]. exists []. cbn [ps_entries set_listed] in S3.
      rewrite Es in S3. split; [|destruct err; apply refines_throws].
      eapply step_trans; [|exact S3]. apply step_store; [apply S1|set_solver].
  - destruct Hr as (Hlen & es & Hr & Hes).
    exists (ret {| Keymgmt.kp_offset := ps_offset s; Keymgmt.kp_total := ps_total s;
                   Keymgmt.kp_entries := es |}), ([q; a] ++ locs_of fs).
    split; [unfold bind; by rewrite Hr|]. split; [done|].
    apply refines_mem. eapply cwp_modify_page; [exact Eq1|].
    match goal with |- _ /\ exists _, step _ _ _ ?m2 /\ _ => destruct (Hset n m2 eq_refl) as (S2 & X2 & Eq2) end.
    split; [done|]. exists ([q; a] ++ locs_of fs).
    split; [apply step_store; [apply S1|set_solver]|]. apply refines_ret; [apply S2|].
    exists q, (set_listed n s), fs. split; [done|]. split; [exact Eq2|].
    split; [cbn [ps_entries set_listed]; rewrite Es; split; [intros ->; by apply Hn|]; exists []; rewrite X2 by done;
            rewrite E1, Hlen, Nat.sub_diag; done|].
    split; [done|]. split.
    { eapply entries_frame; [|exact Hes]. intros x Hx. apply X2. intros ->.
      destruct S1 as [[N _] _]. apply NoDup_cons in N as [N _]. set_solver. }
    split; [done|]. split; [done|]. unfold page_locs. cbn [ps_entries set_listed]. by rewrite Es.
Qed.

Lemma array_size_nonneg l : 0 <= ehem_json_array_size l.
Proof.
  unfold ehem_json_array_size. destruct l as [[]|]; try done. case_match; [lia|done].
Qed.

(** The page is there, its array is not yet. *)
Lemma page_rest_refines q s l n w m :
  0 <= n ->
  live m !! q = Some (CStruct (OPage s)) -> ps_entries s = None -> ps_listed s = O -> owns [q] m ->
  refines
    (if n =? 0 then kret (Some q)
     else
       let n := Z.to_nat n in
       let!! entries := of_c (allocate (CStruct (OEntries (repeat entry_struct_zero n)))) in
       match entries with
       | None => of_c (free (Some q)) ;!! of_m out_of_memory
       | Some _ =>
           of_c (modify_page (Some q) (set_entries entries)) ;!!
           let!! r := of_c (parse_entries entries l 0 n) in
           match r with
           | Some (i, err) =>
               of_c (modify_page (Some q) (set_listed (S i)) ;! ehem_key_page_free (Some q)) ;!!
               match err with
               | Keymgmt.Missing field =>
                   of_m (ehem_ctx_fail EHEM_ERR_PROTOCOL 200 None
                     ("keymgmt/list: entry " +:+ dec (Z.of_nat i) +:+
                      " missing required field '" +:+ field +:+ "'"))
               | Keymgmt.EntryOom => of_m out_of_memory
               end
           | None => of_c (modify_page (Some q) (set_listed n)) ;!! kret (Some q)
           end
       end)%cmem%kmem
    (if n =? 0 then ret {| Keymgmt.kp_offset := ps_offset s; Keymgmt.kp_total := ps_total s;
                           Keymgmt.kp_entries := [] |}
     else bind calloc_or_fail (fun _ => bind (Keymgmt.parse_entries l 0 (Z.to_nat n)) (fun entries =>
       ret {| Keymgmt.kp_offset := ps_offset s; Keymgmt.kp_total := ps_total s;
              Keymgmt.kp_entries := entries |})))
    page_post [q] w m.
Proof.
  intros Hpos Eq Ee El O. destruct (Z.eqb_spec n 0).
  { apply refines_ret; [done|]. exists q, s, []. unfold page_locs, array_at. rewrite Ee.
    split; [done|]. split; [done|]. split; [done|]. split; [done|]. split; [constructor|].
    done. }
  cbv zeta. apply refines_work, cwp_allocate; [intros E|intros a E Ha _].
  - exists out_of_memory, [q].
    split; [unfold calloc_or_fail, malloc, ask, bind; by rewrite E|].
    split; [by apply step_refl|]. apply refines_mem.
    eapply cwp_mono; [by apply (free_ptr (Some q))|]. intros _ t1 m1 (-> & S1).
    split; [done|]. exists []. split; [done|]. apply refines_throws.
  - eexists _, [q; a]. split; [unfold calloc_or_fail, malloc, ask; unfold bind at 1 2; rewrite E; reflexivity|].
    set (m1 := with_live _ m).
    destruct (step_more [q] m [q] m [a] m1) as [S1 X1]; [by apply step_refl|by apply step_new|].
    split; [exact S1|]. apply refines_mem.
    assert (q <> a) as Nqa by congruence.
    eapply cwp_modify_page; [rewrite X1 by set_solver; exact Eq|].
    split; [done|]. exists [q; a]. split; [apply step_store; [apply S1|set_solver]|].
    apply (fill_page_refines q a (set_entries (Some a) s)).
    + lia.
    + apply lookup_insert_eq.
    + done.
    + cbn. rewrite lookup_insert_ne by done. apply lookup_insert_eq.
    + eapply (step_store (good:=any)); [apply S1|set_solver].
Qed.

Lemma parse_key_page_refines root w m :
  refines (parse_key_page root) (Keymgmt.parse_key_page root) page_post [] w m.
Proof.
  apply refines_work, cwp_allocate; [intros E|intros q E Hq _].
  { exists out_of_memory, []. split; [unfold Keymgmt.parse_key_page, calloc_or_fail, malloc, ask, bind; by rewrite E|].
    split; [apply step_refl, owns_nil|apply refines_throws]. }
  eexists _, [q].
  split; [unfold Keymgmt.parse_key_page, calloc_or_fail at 1, malloc, ask; unfold bind at 1 2; rewrite E; reflexivity|].
  split; [by apply step_new|].
  apply refines_mem. eapply cwp_modify_page; [apply lookup_insert_eq|]. split; [done|]. exists [q].
  set (m1 := with_live _ m). destruct (step_new q (CStruct (OPage page_struct_zero)) m Hq) as [O _].
  split; [apply step_store; [exact O|set_solver]|].
  apply (page_rest_refines q (set_offset_total _ _ page_struct_zero)).
  - destruct (ehem_json_is_array _); [apply array_size_nonneg|done].
  - apply lookup_insert_eq.
  - done.
  - done.
  - eapply (step_store (good:=any)); [exact O|set_solver].
Qed.
End Rep.
