(* ===== verification/KeyMemWalk.v ===== *)
(** * Pages that grow, and the walk over the repository in memory

    Appending a page to another moves its entries from one owner to the other;
    the walk keeps one accumulator alive over the pages it fetches.  Both do what
    [Keymgmt] says of the values, and give back what they do not return. *)

From stdpp Require Import gmap.
From S2P Require Import Prelude Base64 Json World Logic Context Ejwt Proto AuthState Notify.
From S2P Require Import Bindings Mem MemWorld CodecMem KeyMem KeyMemProps.
From S2P Require Keymgmt.

Section Walk.
Context {P : Platform} {I : Indeterminate} {J : IndeterminateEntries}.
#[local] Abbreviation step := (MemWorld.step any).
#[local] Abbreviation refines := (MemWorld.refines any).
#[local] Abbreviation step_frame := (MemWorld.step_frame (good:=any)).
#[local] Abbreviation step_new := (MemWorld.step_new (good:=any)).
#[local] Abbreviation step_more := (MemWorld.step_more (good:=any)).
Abbreviation heap := (gmap positive (cell key_obj)).

(** ** Owned pages *)

(** Writing a field of a page. *)
Lemma modify_page_spec q s f L t (m : cmem key_obj) :
  live m !! q = Some (CStruct (OPage s)) -> owns L m -> q ∈ L ->
  cwp (modify_page (Some q) f)
    (fun _ t' m' => t' = t /\ step L m L m' /\ live m' !! q = Some (CStruct (OPage (f s))) /\
       forall x, x <> q -> live m' !! x = live m !! x) t m.
Proof.
  intros Eq O Hq. eapply cwp_modify_page; [exact Eq|]. split; [done|].
  split; [by apply step_store|]. split; [apply lookup_insert_eq|].
  intros x Hx. by apply lookup_insert_ne.
Qed.

Lemma page_free_at p pg L R t (m : cmem key_obj) :
  page_at (live m) p pg L -> owns (L ++ R) m ->
  cwp (ehem_key_page_free p)
    (fun _ t' m' => t' = t /\ step (L ++ R) m R m' /\
       forall x, x ∈ R -> live m' !! x = live m !! x) t m.
Proof.
  intros (q & s & es & -> & Eq & Ha & Hl & _ & _ & _ & ->) O.
  rewrite (Permutation_app_comm _ R) in O.
  pose proof O as (_ & O' & _)%owns_app.
  eapply cwp_mono; [by apply (page_free_spec q s es)|].
  intros _ t1 m1 [-> S1]. split; [done|].
  destruct (step_frame R _ m _ m1 O S1) as [S2 Hx]. rewrite app_nil_r in S2.
  by rewrite (Permutation_app_comm _ R).
Qed.

(** A page written in its total only. *)
Lemma page_at_total h h' q pg L n :
  page_at h (Some q) pg L -> NoDup L ->
  (exists s, h !! q = Some (CStruct (OPage s)) /\
     h' !! q = Some (CStruct (OPage (set_total n s)))) ->
  (forall x, x <> q -> h' !! x = h !! x) ->
  page_at h' (Some q)
    {| Keymgmt.kp_offset := Keymgmt.kp_offset pg; Keymgmt.kp_total := n;
       Keymgmt.kp_entries := Keymgmt.kp_entries pg |} L.
Proof.
  intros (q' & s & es & [= <-] & Eq & Ha & Hl & Hes & Ho & Ht & ->) N (s' & E1 & E2) Hx.
  assert (s' = s) as -> by congruence. apply NoDup_cons in N as [N _].
  exists q, (set_total n s), es. split; [done|]. split; [done|].
  split; [eapply array_frame; [|exact Ha]; cbn; intros x Hi; apply Hx; set_solver|].
  split; [done|].
  split; [eapply entries_frame; [|exact Hes]; intros x Hi; apply Hx; set_solver|].
  done.
Qed.

(** ** [realloc] *)

Lemma realloc_spec pe es n L t (m : cmem key_obj) :
  array_at (live m) pe es -> (length es <= n)%nat -> owns (option_list pe ++ L) m ->
  cwp (realloc_entries pe n)
    (fun r t' m' => t' = S t /\
       match r with
       | None => p_malloc t = false /\ m' = m
       | Some a => p_malloc t = true /\
           (exists rest, live m' !! a = Some (CStruct (OEntries (es ++ rest))) /\
              (n <= length (es ++ rest))%nat) /\
           step (option_list pe ++ L) m (a :: L) m' /\
           forall x, x ∈ L -> live m' !! x = live m !! x
       end) t m.
Proof.
  intros Ha Hn O. unfold realloc_entries. apply cwp_bind.
  eapply (cwp_mono _ (fun old t' m' => t' = t /\ m' = m /\ exists rest, old = es ++ rest)).
  { destruct pe as [b|]; [|cbn in Ha; subst es; split; [done|split; [done|by exists []]]].
    destruct Ha as (_ & rest & Ea). eapply cwp_load_entries; [exact Ea|]. eauto. }
  intros old t' m' (-> & -> & rest & ->). apply cwp_bind, cwp_allocate; [intros E; by split|].
  intros a E Ea _. set (m1 := with_live _ m).
  destruct (step_more _ m _ m [a] m1 (step_refl _ _ O)) as [S1 X1]; [by apply step_new|].
  assert (option_list pe ++ (a :: L) ≡ₚ (option_list pe ++ L) ++ [a]) as Hp by solve_Permutation.
  apply cwp_bind. eapply cwp_mono; [apply free_part; rewrite Hp; apply S1|].
  intros _ t2 m2 (-> & S2 & X2). rewrite Hp in S2. split; [done|]. split; [done|].
  split; [|split; [by eapply step_trans|]].
  - eexists. split.
    + rewrite X2 by set_solver. unfold m1. cbn. rewrite lookup_insert_eq.
      rewrite take_app, take_ge by done. by rewrite <- app_assoc.
    + rewrite !length_app, length_take, length_junk_entries. lia.
  - intros x Hx. rewrite X2 by set_solver. apply X1. set_solver.
Qed.

(** ** Appending *)

Lemma forall2_listed h es (pg : Keymgmt.ehem_key_page) :
  Forall2 (entry_at h) es (Keymgmt.kp_entries pg) -> Keymgmt.listed pg = Z.of_nat (length es).
Proof. intros H. unfold Keymgmt.listed. by rewrite (Forall2_length _ _ _ H). Qed.

Definition append_post (p q : ptr) (d s : Keymgmt.ehem_key_page) (L : list positive)
    (t : nat) (m : cmem key_obj) (ok : bool) (t' : nat) (m' : cmem key_obj) : Prop :=
  exists v, ticks (Keymgmt.page_append d s) t v t' /\
    match v with
    | Some d' => ok = true /\ exists Ld Ls s', step L m (Ld ++ Ls) m' /\
        page_at (live m') p d' Ld /\ page_at (live m') q s' Ls
    | None => ok = false /\ m' = m
    end.

(** The part after the [realloc]: [a] is the grown array of [p], [b] the array of [q]. *)
Lemma append_move p q a b sp sq ed eq rest rest' t (m : cmem key_obj) :
  let L := a :: p :: q :: b :: locs_of ed ++ locs_of eq in
  owns L m ->
  live m !! p = Some (CStruct (OPage sp)) -> live m !! q = Some (CStruct (OPage sq)) ->
  ps_listed sp = length ed ->
  live m !! a = Some (CStruct (OEntries (ed ++ rest))) ->
  live m !! b = Some (CStruct (OEntries (eq ++ rest'))) ->
  (length ed + length eq <= length (ed ++ rest))%nat ->
  cwp (let need := (ps_listed sp + length eq)%nat in
       modify_page (Some p) (set_entries (Some a)) ;!
       let! from := load_entries (Some b) in
       let! to := load_entries (Some a) in
       if ((length eq <=? length from) && (need <=? length to))%nat then
         store (Some a) (CStruct (OEntries
           (take (ps_listed sp) to ++ take (length eq) from ++ drop need to))) ;!
         modify_page (Some p) (set_listed need) ;!
         free (Some b) ;!
         modify_page (Some q) (set_entries None) ;!
         modify_page (Some q) (set_listed 0) ;!
         cret true
       else undefined)%cmem
    (fun ok t' m' => ok = true /\ t' = t /\
       step L m ((p :: a :: locs_of ed ++ locs_of eq) ++ [q]) m' /\
       live m' !! p = Some (CStruct (OPage
         (set_listed (length ed + length eq) (set_entries (Some a) sp)))) /\
       live m' !! q = Some (CStruct (OPage (set_listed 0 (set_entries None sq)))) /\
       (exists r, live m' !! a = Some (CStruct (OEntries ((ed ++ eq) ++ r)))) /\
       forall x, x ∈ locs_of ed ++ locs_of eq -> live m' !! x = live m !! x) t m.
Proof.
  intros L O Ep Eq Lp Ea Eb' Hlen. pose proof O as [N _].
  unfold L in N. rewrite !NoDup_cons in N. destruct N as (Na & Np & Nq & Nb & _).
  rewrite Lp. cbv zeta. apply cwp_bind.
  eapply cwp_mono; [eapply (modify_page_spec p _ _ L); [exact Ep|done|set_solver]|].
  intros _ t1 m1 (-> & S1 & E1 & X1).
  apply cwp_bind. eapply cwp_load_entries; [rewrite X1 by set_solver; exact Eb'|].
  apply cwp_bind. eapply cwp_load_entries; [rewrite X1 by set_solver; exact Ea|].
  rewrite length_app at 1.
  destruct (Nat.leb_spec (length eq) (length eq + length rest')); [|lia].
  destruct (Nat.leb_spec (length ed + length eq) (length (ed ++ rest))); [|lia]. cbn [andb].
  rewrite !take_app_length.
  apply cwp_bind. eapply cwp_store; [rewrite X1 by set_solver; exact Ea|]. set (m2 := with_live _ m1).
  assert (step L m1 L m2) as S2 by (apply step_store; [apply S1|set_solver]).
  assert (forall x, x <> a -> live m2 !! x = live m1 !! x) as X2
    by (intros x Hx; by apply lookup_insert_ne).
  apply cwp_bind. eapply cwp_mono.
  { eapply (modify_page_spec p _ _ L); [rewrite X2 by set_solver; exact E1|apply S2|set_solver]. }
  intros _ t3 m3 (-> & S3 & E3 & X3).
  set (L' := a :: p :: q :: locs_of ed ++ locs_of eq).
  assert (L ≡ₚ option_list (Some b) ++ L') as HL by (unfold L, L'; cbn; solve_Permutation).
  apply cwp_bind. eapply cwp_mono; [apply (free_part _ L'); rewrite <- HL; apply S3|].
  intros _ t4 m4 (-> & S4 & X4). rewrite <- HL in S4.
  apply cwp_bind. eapply cwp_mono.
  { eapply (modify_page_spec q _ _ L'); [|apply S4|unfold L'; set_solver].
    rewrite X4 by (unfold L'; set_solver). rewrite X3, X2, X1 by set_solver. exact Eq. }
  intros _ t5 m5 (-> & S5 & E5 & X5).
  apply cwp_bind. eapply cwp_mono; [eapply (modify_page_spec q _ _ L'); [exact E5|apply S5|unfold L'; set_solver]|].
  intros _ t6 m6 (-> & S6 & E6 & X6). cbn.
  split; [done|]. split; [done|].
  split.
  { replace (p :: a :: (locs_of ed ++ locs_of eq) ++ [q]) with ((p :: a :: locs_of ed ++ locs_of eq) ++ [q]) by done.
    assert ((p :: a :: locs_of ed ++ locs_of eq) ++ [q] ≡ₚ L') as -> by (unfold L'; solve_Permutation).
    eauto 8 using step_trans. }
  split; [rewrite X6, X5, X4, E3 by (unfold L'; set_solver); done|].
  split; [exact E6|]. split.
  - eexists. rewrite X6, X5, X4, X3 by (unfold L'; set_solver). unfold m2. cbn.
    rewrite lookup_insert_eq, <- app_assoc. done.
  - intros x Hx. rewrite X6, X5, X4, X3, X2, X1; try done; unfold L'; set_solver.
Qed.

Lemma page_append_spec p q d s Ld Ls t (m : cmem key_obj) :
  page_at (live m) p d Ld -> page_at (live m) q s Ls -> owns (Ld ++ Ls) m ->
  cwp (page_append p q) (append_post p q d s (Ld ++ Ls) t m) t m.
Proof.
  intros Hd Hs O. pose proof Hs as (lq & sq & eq & -> & Eq & Aq & Nq & Fq & Oq & Tq & EL).
  unfold page_append. apply cwp_bind, (cwp_load_page _ _ _ _ _ Eq).
  pose proof (forall2_listed _ _ _ Fq) as Hl. rewrite Nq.
  destruct (Nat.eqb_spec (length eq) 0) as [E0|En].
  { exists (Some d). split; [unfold Keymgmt.page_append; rewrite Hl, E0; apply ticks_ret|].
    split; [done|]. exists Ld, Ls, s. split; [by apply step_refl|done]. }
  assert (forall t, ticks (Keymgmt.page_append d s) t
    (if p_malloc t then Some {| Keymgmt.kp_offset := Keymgmt.kp_offset d;
       Keymgmt.kp_total := Keymgmt.kp_total d;
       Keymgmt.kp_entries := Keymgmt.kp_entries d ++ Keymgmt.kp_entries s |} else None) (S t)) as Tk.
  { intros t0. unfold Keymgmt.page_append. destruct (Z.eqb_spec (Keymgmt.listed s) 0); [lia|].
    eapply ticks_bind; [apply ticks_malloc|]. destruct (p_malloc t0); apply ticks_ret. }
  destruct Hd as (lp & sp & ed & -> & Ep & Ap & Np & Fp & Op & Tp & ->).
  destruct (ps_entries sq) as [b|] eqn:Eb; [destruct Aq as (_ & rest' & Ea')|by rewrite Aq in En].
  unfold page_locs in EL. rewrite Eb in EL. subst Ls. cbn [option_list app] in O.
  apply cwp_bind, (cwp_load_page _ _ _ _ _ Ep). cbv zeta.
  set (L1 := lp :: lq :: b :: locs_of ed ++ locs_of eq).
  assert (page_locs lp sp ed ++ lq :: b :: locs_of eq ≡ₚ option_list (ps_entries sp) ++ L1) as HL
    by (unfold page_locs, L1; solve_Permutation).
  rewrite HL in O. apply cwp_bind.
  eapply cwp_mono; [eapply (realloc_spec _ ed _ L1); [exact Ap|lia|exact O]|].
  intros [a|] t1 m1 [-> Hr]; [|destruct Hr as [E ->]; exists None; split; [|done];
    specialize (Tk t); by rewrite E in Tk].
  destruct Hr as (E & (rest & Ea & Hlen) & S1 & X1). rewrite Np in Hlen.
  eapply cwp_mono.
  { eapply (append_move lp lq a b sp sq ed eq rest rest'); try done; [apply S1|..];
      rewrite X1 by (unfold L1; set_solver); done. }
  intros ok t2 m2 (-> & -> & S2 & E2 & F2 & [r A2] & X2).
  eexists. split; [apply Tk|]. rewrite E. split; [done|].
  exists (page_locs lp (set_listed (length ed + length eq) (set_entries (Some a) sp)) (ed ++ eq)), [lq],
    {| Keymgmt.kp_offset := Keymgmt.kp_offset s; Keymgmt.kp_total := Keymgmt.kp_total s;
       Keymgmt.kp_entries := [] |}.
  cbn [option_list app]. split; [|split].
  - rewrite HL. eapply step_trans; [exact S1|]. unfold page_locs. cbn. by rewrite locs_of_app.
  - exists lp, (set_listed (length ed + length eq) (set_entries (Some a) sp)), (ed ++ eq).
    split; [done|]. split; [done|]. split; [split; [by destruct ed, eq|by exists r]|]. split; [cbn; by rewrite length_app|].
    split; [|done]. apply Forall2_app; [eapply (entries_frame (live m)); [|exact Fp]|
      eapply (entries_frame (live m)); [|exact Fq]]; intros x Hx;
      rewrite X2 by set_solver; apply X1; unfold L1; set_solver.
  - exists lq, (set_listed 0 (set_entries None sq)), []. done.
Qed.
(** ** The walk *)

Lemma page_owned h p pg L : page_at h p pg L -> exists q, p = Some q /\ q ∈ L.
Proof. intros (q & s & es & -> & _ & _ & _ & _ & _ & _ & ->). exists q. unfold page_locs. set_solver. Qed.

Lemma page_load h p pg L :
  page_at h p pg L -> exists q s, p = Some q /\ h !! q = Some (CStruct (OPage s)) /\
    ps_total s = Keymgmt.kp_total pg /\ Z.of_nat (ps_listed s) = Keymgmt.listed pg.
Proof.
  intros (q & s & es & -> & Eq & _ & Hl & Hes & _ & Ht & _). exists q, s.
  rewrite (forall2_listed _ _ _ Hes), Hl. done.
Qed.

Section Fetch.
Variables (kfetch : Z -> MemWorld.K key_obj ptr) (vfetch : Z -> M Keymgmt.ehem_key_page).
Hypothesis Hfetch : forall o w m, refines (kfetch o) (vfetch o) page_post [] w m.

(** One round, once the page is there. *)
Lemma walk_page_refines fuel offset p acc L page pg Lp w m :
  (forall offset p acc L w m, page_at (live m) p acc L -> owns L m ->
     refines (page_walk fuel kfetch offset p) (Keymgmt.page_walk fuel vfetch offset acc)
       page_post L w m) ->
  page_at (live m) p acc L -> page_at (live m) page pg Lp -> owns (L ++ Lp) m ->
  refines
    (let!! s := of_c (load_page page) in
     of_c (modify_page p (set_total (ps_total s))) ;!!
     let listed := Z.of_nat (ps_listed s) in
     let!! ok := of_c (page_append p page) in
     if negb ok then
       of_c (ehem_key_page_free page ;! ehem_key_page_free p) ;!! of_m out_of_memory
     else
       of_c (ehem_key_page_free page) ;!!
       let offset := wrap_size (offset + listed) in
       let!! a := of_c (load_page p) in
       if (listed =? 0) || (ps_total a <=? wrap_i64 offset) then kret p
       else page_walk fuel kfetch offset p)%cmem%kmem
    (bind (Keymgmt.page_append
        {| Keymgmt.kp_offset := Keymgmt.kp_offset acc; Keymgmt.kp_total := Keymgmt.kp_total pg;
           Keymgmt.kp_entries := Keymgmt.kp_entries acc |} pg)
      (fun acc => match acc with
       | None => out_of_memory
       | Some acc =>
           let offset := wrap_size (offset + Keymgmt.listed pg) in
           if (Keymgmt.listed pg =? 0) || (Keymgmt.kp_total acc <=? wrap_i64 offset) then ret acc
           else Keymgmt.page_walk fuel vfetch offset acc
       end))
    page_post (L ++ Lp) w m.
Proof.
  intros IH Hacc Hpg O. pose proof O as (OL & _ & Hd)%owns_app.
  destruct (page_load _ _ _ _ Hpg) as (lq & sq & -> & Eq & Tq & Nq).
  apply refines_mem. eapply cwp_load_page; [exact Eq|]. split; [done|].
  exists (L ++ Lp). split; [by apply step_refl|].
  destruct (page_load _ _ _ _ Hacc) as (lp & sp & -> & Ep & _ & _).
  destruct (page_owned _ _ _ _ Hacc) as (? & [= <-] & Hp).
  apply refines_mem. eapply cwp_mono; [eapply (modify_page_spec lp _ _ (L ++ Lp)); [exact Ep|done|set_solver]|].
  intros _ t1 m1 (-> & S1 & E1 & X1). split; [done|]. exists (L ++ Lp). split; [exact S1|].
  eapply page_at_total in Hacc; [|apply OL|exists sp; split; [exact Ep|exact E1]|exact X1].
  eapply page_frame in Hpg; [|intros x Hx; apply X1; intros ->; by apply (Hd lp)].
  rewrite Tq in Hacc. cbv zeta. rewrite Nq. apply refines_work.
  eapply cwp_mono; [apply (page_append_spec _ _ _ _ _ _ _ _ Hacc Hpg), S1|].
  intros ok t2 m2 (v & V & H2). set (w2 := at_tick t2 w).
  destruct v as [acc'|].
  - destruct H2 as (-> & Ld & Ls & pg' & S2 & Hacc' & Hpg').
    rewrite (Permutation_app_comm Ld) in S2. eexists _, _.
    split; [by apply (bind_ticks _ _ _ _ _ _ V)|]. split; [exact S2|].
    cbn [negb]. apply refines_mem.
    eapply cwp_mono; [apply (page_free_at _ _ _ Ld _ _ Hpg'), S2|].
    intros _ t3 m3 (-> & S3 & X3). split; [done|]. exists Ld.
    split; [exact S3|]. eapply page_frame in Hacc'; [|exact X3].
    destruct (page_load _ _ _ _ Hacc') as (la & sa & [= <-] & Ea & <- & _).
    apply refines_mem. eapply cwp_load_page; [exact Ea|]. split; [done|].
    exists Ld. split; [apply step_refl, S3|].
    destruct (_ || _); [apply refines_ret; [apply S3|done]|by apply IH; [|apply S3]].
  - destruct H2 as [-> ->]. eexists _, _. split; [by apply (bind_ticks _ _ _ _ _ _ V)|].
    split; [by apply step_refl; apply S1|]. apply refines_release; [|intros; apply refines_throws].
    assert (owns (Lp ++ L) m1) as O1 by (rewrite Permutation_app_comm; apply S1).
    apply cwp_bind. eapply cwp_mono; [apply (page_free_at _ _ _ _ _ _ Hpg O1)|].
    intros _ t3 m3 (-> & S3 & X3). eapply page_frame in Hacc; [|exact X3].
    eapply cwp_mono; [apply (page_free_at _ _ _ [] _ _ Hacc); rewrite app_nil_r; apply S3|].
    intros _ t4 m4 (-> & S4 & _). split; [done|]. rewrite app_nil_r in S4.
    rewrite Permutation_app_comm. by eapply step_trans.
Qed.

Lemma page_walk_refines fuel offset p acc L w m :
  page_at (live m) p acc L -> owns L m ->
  refines (page_walk fuel kfetch offset p) (Keymgmt.page_walk fuel vfetch offset acc) page_post L w m.
Proof.
  revert offset p acc L w m. induction fuel as [|fuel IH]; intros offset p acc L w m Hacc O.
  { do 3 eexists. split; [done|]. by split. }
  cbn [page_walk Keymgmt.page_walk].
  eapply refines_eq; [apply bind_attempt|].
  eapply refines_bind; [apply refines_attempt; [exact O|apply Hfetch]|].
  intros [page|rc] [pg|rc'] L1 w1 m1 [X1 H1] S1; try done.
  2: { destruct H1 as [-> ->]. apply refines_release; [|intros; apply refines_throw].
       eapply page_frame in Hacc; [|exact X1].
       eapply cwp_mono; [apply (page_free_at _ _ _ [] _ _ Hacc); rewrite app_nil_r; apply S1|].
       intros _ t' m' (-> & S2 & _). by rewrite app_nil_r in S2. }
  destruct H1 as (Lp & -> & Hpg & Op). unfold page_post in Hpg.
  eapply page_frame in Hacc; [|exact X1]. apply (walk_page_refines fuel); try done. apply S1.
Qed.
End Fetch.
End Walk.
