(* ===== verification/KeyMemRefine.v ===== *)
(** * The key operations in memory refine the key operations

    Listing, walking, searching and getting with their results in memory: for every
    world and memory they run without undefined behaviour, end as [Keymgmt] says, and
    own exactly what they return. *)

From stdpp Require Import gmap.
From S2P Require Import Prelude Base64 Json World Logic Context Ejwt Proto AuthState Notify.
From S2P Require Import Bindings Mem MemWorld CodecMem KeyMem KeyMemProps KeyMemWalk Session Fake.
From S2P Require Keymgmt KeymgmtProps.

(** ** The anchored text *)

Lemma std_text_length l :
  strlen (b64_encode_loop B64_STD_ALPHA true l) = ehem_b64_std_encoded_len (Z.of_nat (length l)).
Proof.
  unfold strlen, ehem_b64_std_encoded_len.
  induction l as [|a|a b|a b c l IH] using list_ind3; [done..|].
  cbn [b64_encode_loop String.length length]. rewrite !Nat2Z.inj_succ, IH.
  replace (Z.succ (Z.succ (Z.succ (Z.of_nat (length l)))) + 2)
    with (Z.of_nat (length l) + 2 + 1 * 3) by lia.
  rewrite Z.div_add by lia. lia.
Qed.

Lemma nul_free_cons c s : nul_free (String c s) <-> c <> NUL /\ nul_free s.
Proof.
  unfold nul_free. cbn. rewrite Forall_cons.
  assert (byte_of_ascii c <> 0 <-> c <> NUL) as ->; [|done].
  split; intros H E; apply H; [by subst|].
  destruct c as [[] [] [] [] [] [] [] []]; vm_compute in E |- *; congruence.
Qed.

Lemma std_char_not_nul v k : alpha_at B64_STD_ALPHA (Z.land (Z.shiftr v k) 63) <> NUL.
Proof.
  intros E.
  assert (0 <= Z.land (Z.shiftr v k) 63 < 64) as Hr
    by (change 63 with (Z.ones 6); rewrite Z.land_ones by lia; by apply Z.mod_pos_bound).
  pose proof (alpha_rev (alpha:=B64_STD_ALPHA) _ Hr) as H. rewrite E in H. done.
Qed.

Lemma std_text_nul_free l : nul_free (b64_encode_loop B64_STD_ALPHA true l).
Proof.
  induction l as [|a|a b|a b c l IH] using list_ind3; cbn [b64_encode_loop].
  1: by constructor.
  all: repeat (apply nul_free_cons; split; [try apply std_char_not_nul; done|]).
  all: first [exact IH|constructor].
Qed.

Lemma nul_free_app s s' : nul_free s -> nul_free s' -> nul_free (s +:+ s').
Proof. unfold nul_free. rewrite bytes_of_string_app, Forall_app. done. Qed.

Lemma read_string_app s r : nul_free s -> read_string (c_string s ++ r) = Some s.
Proof.
  intros H. pose proof (read_string_string s H) as E. unfold read_string in *.
  assert (forall b n, find_nul b = Some n -> find_nul (b ++ r) = Some n /\ (n < length b)%nat) as Hf.
  { induction b as [|x b IH]; intros n Hb; [done|]. cbn in Hb |- *.
    destruct (x =? 0); [injection Hb as <-; split; [done|lia]|].
    destruct (find_nul b) as [k|]; [|done]. injection Hb as <-.
    destruct (IH k eq_refl) as [-> ?]. split; [done|lia]. }
  rewrite find_nul_string in E by done. rewrite (proj1 (Hf _ _ (find_nul_string s H))).
  cbn in *. rewrite take_app_le; [done|]. apply find_nul_string, Hf in H as [_ H]. lia.
Qed.

Section Refine.
Context {P : Platform} {I : Indeterminate} {J : IndeterminateEntries}.
#[local] Abbreviation step := (MemWorld.step any).
#[local] Abbreviation refines := (MemWorld.refines any).
#[local] Abbreviation step_frame := (MemWorld.step_frame (good:=any)).
#[local] Abbreviation step_new := (MemWorld.step_new (good:=any)).
#[local] Abbreviation step_more := (MemWorld.step_more (good:=any)).

Lemma length_c_string s : length (c_string s) = S (String.length s).
Proof. unfold c_string. rewrite length_app, length_bytes_of_string. cbn. lia. Qed.

Lemma std_encode_buffer p n b64 :
  ehem_b64_std_encode p n false (ehem_b64_std_encoded_len n + 1) = Some b64 -> 0 <= n ->
  Z.of_nat (String.length b64) <= ehem_b64_std_encoded_len n /\ nul_free b64.
Proof.
  unfold ehem_b64_std_encode, b64_encode. destruct (_ || _); [done|].
  rewrite Z.ltb_irrefl. intros [= <-] Hn. split; [|apply std_text_nul_free].
  pose proof (std_text_length (take (Z.to_nat n) (default [] p))) as H. unfold strlen in H. rewrite H.
  rewrite length_take. unfold ehem_b64_std_encoded_len. apply Z.mul_le_mono_nonneg_l; [lia|].
  apply Z.div_le_mono; lia.
Qed.

(** The anchored text of a pattern. *)
Definition anchored (mode : Z) (b64 : string) : string :=
  if mode =? Keymgmt.EHEM_KEY_SEARCH_PREFIX then "^" +:+ b64
  else if mode =? Keymgmt.EHEM_KEY_SEARCH_SUFFIX then b64 +:+ "$"
  else b64.

(** The writes of [build_search_descr] into a block with room for them. *)
Lemma anchor_spec mode l b64 b Q t (m : cmem key_obj) :
  live m !! l = Some (CBytes b) -> (String.length b64 + 2 <= length b)%nat ->
  (forall r, Q (Some l) t
     (with_live (<[l := CBytes (c_string (anchored mode b64) ++ r)]> (live m)) m)) ->
  cwp ((if mode =? Keymgmt.EHEM_KEY_SEARCH_PREFIX then write_at (Some l) 0 [94] else cret tt) ;!
       write_at (Some l) (if mode =? Keymgmt.EHEM_KEY_SEARCH_PREFIX then 1%nat else O) (c_string b64) ;!
       (if mode =? Keymgmt.EHEM_KEY_SEARCH_SUFFIX then
          write_at (Some l) (String.length b64) [36] ;!
          write_at (Some l) (S (String.length b64)) [0]
        else cret tt) ;!
       cret (Some l))%cmem Q t m.
Proof.
  intros E Hb HQ. unfold anchored in HQ.
  destruct (Z.eqb_spec mode Keymgmt.EHEM_KEY_SEARCH_PREFIX) as [->|_].
  - destruct b as [|j b]; [cbn in Hb; lia|]. cbn in Hb.
    destruct (split_block (S (String.length b64)) b) as (y & z & -> & Hy); [lia|].
    apply cwp_bind. eapply (cwp_write_at l [] [j]); [exact E|done|].
    apply cwp_bind. eapply (cwp_write_at l [94] y z); [apply lookup_insert_eq|by rewrite length_c_string|].
    apply cwp_bind, cwp_ret, cwp_ret. cbn. rewrite insert_insert_eq. apply (HQ z).
  - apply cwp_bind, cwp_ret.
    destruct (split_block (S (String.length b64)) b) as (y & z & -> & Hy); [lia|].
    apply cwp_bind. eapply (cwp_write_at l [] y z); [exact E|by rewrite length_c_string|]. cbn [app].
    destruct (mode =? Keymgmt.EHEM_KEY_SEARCH_SUFFIX).
    + destruct z as [|j z]; [rewrite length_app in Hb; cbn in Hb; lia|].
      apply cwp_bind, cwp_bind. rewrite <- (length_bytes_of_string b64).
      eapply (cwp_write_at l _ [0] (j :: z)); [etransitivity; [apply lookup_insert_eq|]; unfold c_string; by rewrite <- app_assoc|done|].
      replace (S (length (bytes_of_string b64))) with (length (bytes_of_string b64 ++ [36]))
        by (rewrite length_app; cbn; lia).
      eapply (cwp_write_at l _ [j] z); [etransitivity; [apply lookup_insert_eq|]; by rewrite <- app_assoc|done|].
      apply cwp_ret. cbn. rewrite !insert_insert_eq, <- app_assoc.
      pose proof (HQ z) as H. unfold c_string in H.
      by rewrite bytes_of_string_app, <- !app_assoc in H.
    + apply cwp_bind, cwp_ret, cwp_ret. apply HQ.
Qed.

Lemma build_descr_spec mode pat t (m : cmem key_obj) :
  0 <= b_len pat ->
  cwp (build_search_descr mode pat)
    (fun p t' m' => exists v, ticks (attempt (Keymgmt.build_search_descr mode pat)) t v t' /\
       match p, v with
       | Some l, inl text => step [] m [l] m' /\ nul_free text /\
           exists r, live m' !! l = Some (CBytes (c_string text ++ r))
       | None, inr rc => rc = EHEM_ERR_NOMEM /\ step [] m [] m'
       | _, _ => False
       end) t m.
Proof.
  intros Hp. unfold build_search_descr. cbv zeta. set (enc := ehem_b64_std_encoded_len (b_len pat)).
  assert (forall r, ehem_b64_std_encode (b_ptr pat) (b_len pat) false (enc + 1) = r ->
    ticks (attempt (Keymgmt.build_search_descr mode pat)) t
      (if p_malloc t then match r with Some b64 => inl (anchored mode b64) | None => inr EHEM_ERR_NOMEM end
       else inr EHEM_ERR_NOMEM) (S t)) as Tk.
  { intros r Er w <-. unfold attempt, Keymgmt.build_search_descr, bind, malloc, ask. fold enc.
    rewrite Er. destruct (p_malloc (w_tick w)); [|done]. by destruct r. }
  apply cwp_bind, cwp_allocate; [intros E|intros l E Hl _].
  { eexists. split; [exact (Tk _ eq_refl)|]. rewrite E. split; [done|]. apply step_refl, owns_nil. }
  assert (0 <= enc) as He by (unfold enc, ehem_b64_std_encoded_len; apply Z.mul_nonneg_nonneg; [lia|apply Z.div_pos; lia]).
  set (m1 := with_live _ m).
  assert (live m1 !! l = Some (CBytes (junk_bytes (Z.to_nat (enc + 2))))) as El by apply lookup_insert_eq.
  pose proof (length_junk_bytes (Z.to_nat (enc + 2))) as Lj.
  destruct (ehem_b64_std_encode (b_ptr pat) (b_len pat) false (enc + 1)) as [b64|] eqn:Ee.
  - apply std_encode_buffer in Ee as [Hlen Hnul]; [|done].
    eapply anchor_spec; [exact El|rewrite Lj; lia|]. intros r. eexists. split; [exact (Tk _ eq_refl)|]. rewrite E.
    unfold m1. cbn. rewrite insert_insert_eq. split; [exact (step_new l _ m Hl)|].
    split; [|exists r; apply lookup_insert_eq]. unfold anchored.
    repeat case_match; try done; apply nul_free_app; try done; by vm_compute; repeat constructor.
  - assert (forall c, cwp (free (Some l) ;! cret None)%cmem
      (fun p t' m' => exists v, ticks (attempt (Keymgmt.build_search_descr mode pat)) t v t' /\
       match p, v with
       | Some l, inl text => step [] m [l] m' /\ nul_free text /\
           exists r, live m' !! l = Some (CBytes (c_string text ++ r))
       | None, inr rc => rc = EHEM_ERR_NOMEM /\ step [] m [] m'
       | _, _ => False
       end) (S t) (with_live (<[l := c]> (live m)) m)) as Hfree.
    { intros c. apply cwp_bind. eapply cwp_free; [apply lookup_insert_eq|].
      eexists. split; [exact (Tk _ eq_refl)|]. rewrite E. cbn. split; [done|].
      by apply step_temp. }
    apply cwp_bind. destruct (mode =? Keymgmt.EHEM_KEY_SEARCH_PREFIX); [|apply cwp_ret; exact (Hfree _)].
    destruct (junk_bytes (Z.to_nat (enc + 2))) as [|j b]; [cbn in Lj; lia|].
    eapply (cwp_write_at l [] [j] b); [exact El|done|]. unfold m1. cbn. rewrite insert_insert_eq. exact (Hfree _).
Qed.

(** ** Searching *)

(** An operation that returns a page, with block [l] released after it. *)
Lemma released_after l (k : MemWorld.K key_obj ptr) (v : M Keymgmt.ehem_key_page) w m :
  owns [l] m -> refines k v page_post [] w m ->
  refines
    (let!! r := kattempt k in
     of_c (free (Some l)) ;!!
     match r with inl page => kret page | inr rc => of_m (throw rc) end)%kmem
    v page_post [l] w m.
Proof.
  intros O Hk. eapply refines_eq; [apply bind_attempt_ret|].
  eapply refines_bind; [apply refines_attempt; [exact O|exact Hk]|].
  intros [page|rc] [pg|rc'] L1 w1 m1 [_ H1] S1; try done.
  - destruct H1 as (Lp & -> & Hpg & _). apply refines_mem.
    eapply cwp_mono; [apply (free_part (Some l) Lp), S1|].
    intros _ t2 m2 (-> & S2 & X2). split; [done|]. exists Lp. split; [exact S2|].
    apply refines_ret; [apply S2|]. by eapply page_frame.
  - destruct H1 as [-> ->]. apply refines_mem.
    eapply cwp_mono; [apply (free_ptr (Some l)), S1|].
    intros _ t2 m2 [-> S2]. split; [done|]. exists []. split; [exact S2|apply refines_throw].
Qed.

Lemma with_search_descr_refines mode pat k v w m :
  0 <= b_len pat -> (forall s w m, refines (k s) (v s) page_post [] w m) ->
  refines (with_search_descr mode pat k) (bind (Keymgmt.search_descr mode pat) v) page_post [] w m.
Proof.
  intros Hp Hk. apply refines_work. eapply cwp_mono; [by apply build_descr_spec|].
  intros p t1 m1 (r & Tk & H). specialize (Tk w eq_refl).
  assert (forall (B : Type) (f : _ -> M B), bind (attempt (Keymgmt.build_search_descr mode pat)) f w
    = f r (at_tick t1 w)) as Eb by (intros; unfold bind at 1; by rewrite Tk).
  assert (forall f : string -> M Keymgmt.ehem_key_page, bind (Keymgmt.search_descr mode pat) f w =
    match r with inl d => f d | inr rc => ehem_ctx_fail rc 0 None "out of memory" end (at_tick t1 w)) as Ev.
  { intros f. unfold Keymgmt.search_descr. unfold bind at 1. rewrite Eb. by destruct r. }
  rewrite Ev. destruct p as [l|], r as [text|rc]; try done.
  - destruct H as (S1 & Hn & rest & El). exists (v text), [l]. split; [done|]. split; [exact S1|].
    apply refines_mem, cwp_bind, (cwp_load_bytes _ _ _ _ _ El). rewrite read_string_app by done.
    split; [done|]. exists [l]. split; [apply step_refl, S1|].
    by apply released_after; [apply S1|].
  - destruct H as [-> S1]. eexists _, []. split; [done|]. split; [exact S1|]. apply refines_throws.
Qed.

(** ** Fetching *)

(** A fresh empty page, or nothing. *)
Lemma fresh_page_refines (k : ptr -> MemWorld.K key_obj ptr) (v : unit -> M Keymgmt.ehem_key_page) w m :
  (forall q w m, page_at (live m) (Some q) Keymgmt.page_zero [q] -> owns [q] m ->
     refines (k (Some q)) (v tt) page_post [q] w m) ->
  refines
    (let!! p := of_c (allocate (CStruct (OPage page_struct_zero))) in
     match p with None => of_m out_of_memory | Some _ => k p end)%kmem
    (bind calloc_or_fail v) page_post [] w m.
Proof.
  intros Hk. apply refines_work, cwp_allocate; [intros E|intros q E Hq _].
  - exists out_of_memory, []. split; [unfold calloc_or_fail, malloc, ask, bind; by rewrite E|].
    split; [apply step_refl, owns_nil|apply refines_throws].
  - exists (v tt), [q]. split; [unfold calloc_or_fail, malloc, ask, bind; by rewrite E|].
    split; [by apply step_new|]. apply Hk; [|by apply step_new].
    exists q, page_struct_zero, []. split; [done|]. split; [apply lookup_insert_eq|]. done.
Qed.

Lemma walk_all_refines fuel kfetch vfetch w m :
  (forall o w m, refines (kfetch o) (vfetch o) page_post [] w m) ->
  refines (walk_all fuel kfetch)
    (bind calloc_or_fail (fun _ => Keymgmt.page_walk fuel vfetch 0 Keymgmt.page_zero))
    page_post [] w m.
Proof. intros Hf. apply fresh_page_refines. intros q w1 m1 Hp O. by apply page_walk_refines. Qed.

Context `{Q : !Request}.

Lemma ehem_key_list_refines offset limit out w m :
  refines (ehem_key_list offset limit out) (Keymgmt.ehem_key_list offset limit out) page_post [] w m.
Proof.
  unfold ehem_key_list, Keymgmt.ehem_key_list. destruct out; cbn [negb]; [|apply refines_throw].
  apply then_refines. intros _ w1 m1. apply then_refines. intros root w2 m2. apply parse_key_page_refines.
Qed.

Lemma search_one_page_refines descr offset limit w m :
  refines (search_one_page descr offset limit) (Keymgmt.search_one_page descr offset limit)
    page_post [] w m.
Proof.
  apply then_refines. intros body w1 m1. apply then_refines. intros [root|rc] w2 m2.
  - apply parse_key_page_refines.
  - destruct rc; try apply refines_throw. apply fresh_page_refines. intros q w3 m3 Hp O.
    do 3 eexists. split; [done|]. split; [done|]. exists [q]. split; [exact Hp|by apply step_refl].
Qed.

Lemma ehem_key_list_all_refines fuel out w m :
  refines (ehem_key_list_all fuel out) (Keymgmt.ehem_key_list_all fuel out) page_post [] w m.
Proof.
  unfold ehem_key_list_all, Keymgmt.ehem_key_list_all. destruct out; cbn [negb]; [|apply refines_throw].
  apply then_refines. intros _ w1 m1. apply walk_all_refines. intros o w2 m2. apply ehem_key_list_refines.
Qed.

Lemma ehem_key_search_refines pat mode offset limit out w m :
  0 <= b_len pat ->
  refines (ehem_key_search pat mode offset limit out)
    (Keymgmt.ehem_key_search pat mode offset limit out) page_post [] w m.
Proof.
  intros Hp. unfold ehem_key_search, Keymgmt.ehem_key_search.
  destruct (negb _); [apply refines_throw|]. apply then_refines. intros _ w1 m1.
  apply with_search_descr_refines; [done|]. intros s w2 m2. apply search_one_page_refines.
Qed.

Lemma ehem_key_search_all_refines fuel pat mode out w m :
  0 <= b_len pat ->
  refines (ehem_key_search_all fuel pat mode out)
    (Keymgmt.ehem_key_search_all fuel pat mode out) page_post [] w m.
Proof.
  intros Hp. unfold ehem_key_search_all, Keymgmt.ehem_key_search_all.
  destruct (negb _); [apply refines_throw|]. apply then_refines. intros _ w1 m1.
  apply with_search_descr_refines; [done|]. intros s w2 m2. apply walk_all_refines.
  intros o w3 m3. apply search_one_page_refines.
Qed.

(** ** Details *)

Definition details_locs (q : positive) (d : details_struct) : list positive :=
  q :: option_list (ds_type d) ++ option_list (ds_pubkey d) ++
  option_list (ds_der d) ++ option_list (ds_descr d).

Definition details_at (h : gmap positive (cell key_obj)) (p : ptr)
    (kd : Keymgmt.ehem_key_details) (L : list positive) : Prop :=
  exists q d, p = Some q /\ h !! q = Some (CStruct (ODetails d)) /\
    text_at h (ds_type d) (Some (Keymgmt.kd_type kd)) /\
    blob_at h (ds_pubkey d) (ds_pubkey_len d) (Keymgmt.kd_pubkey kd) /\
    blob_at h (ds_der d) (ds_der_len d) (Keymgmt.kd_der kd) /\
    blob_at h (ds_descr d) (ds_descr_len d) (Keymgmt.kd_descr kd) /\
    ds_updated d = Keymgmt.kd_updated kd /\ L = details_locs q d.

Definition details_post (p : ptr) (kd : Keymgmt.ehem_key_details) (L : list positive)
    (m : cmem key_obj) : Prop := details_at (live m) p kd L.

Lemma details_free_spec q d R t (m : cmem key_obj) :
  live m !! q = Some (CStruct (ODetails d)) -> owns (details_locs q d ++ R) m ->
  cwp (ehem_key_details_free (Some q))
    (fun _ t' m' => t' = t /\ step (details_locs q d ++ R) m R m' /\
       forall x, x ∈ R -> live m' !! x = live m !! x) t m.
Proof.
  intros Eq O. cbn [ehem_key_details_free]. apply cwp_bind, (cwp_load_details _ _ _ _ _ Eq).
  assert (details_locs q d ++ R ≡ₚ option_list (ds_type d) ++ option_list (ds_pubkey d) ++
    option_list (ds_der d) ++ option_list (ds_descr d) ++ option_list (Some q) ++ R) as Hp
    by (unfold details_locs; cbn; solve_Permutation).
  rewrite Hp in O. apply cwp_bind.
  eapply cwp_mono; [apply free_part, O|]. intros _ t1 m1 (-> & S1 & X1). apply cwp_bind.
  eapply cwp_mono; [apply free_part, S1|]. intros _ t2 m2 (-> & S2 & X2). apply cwp_bind.
  eapply cwp_mono; [apply free_part, S2|]. intros _ t3 m3 (-> & S3 & X3). apply cwp_bind.
  eapply cwp_mono; [apply free_part, S3|]. intros _ t4 m4 (-> & S4 & X4).
  eapply cwp_mono; [apply (free_part (Some q)), S4|]. intros _ t5 m5 (-> & S5 & X5).
  split; [done|]. split; [rewrite Hp; eauto 8 using step_trans|].
  intros x Hx. rewrite X5, X4, X3, X2, X1; set_solver.
Qed.

Definition blob_locs (d : details_struct) : list positive :=
  option_list (ds_type d) ++ option_list (ds_pubkey d) ++
  option_list (ds_der d) ++ option_list (ds_descr d).

(** [Keymgmt.parse_key_details] from the copy of [type] on. *)
Definition details_rest (root : json) (type : string) : M Keymgmt.ehem_key_details :=
  bind (dup_or_fail type) (fun type =>
    let updated := default 0 (ehem_json_get_int64 (Some root) "updated") in
    bind (let? pubkey := Bindings.decode_opt_b64 (Some root) "pubkey" in
          let? der := Bindings.decode_opt_b64 (Some root) "der" in
          let? descr := Bindings.decode_opt_b64 (Some root) "descr" in
          ret (Some (pubkey, der, descr))) (fun blobs =>
      match blobs with
      | None => out_of_memory
      | Some (pubkey, der, descr) =>
          ret {| Keymgmt.kd_type := type; Keymgmt.kd_updated := updated;
                 Keymgmt.kd_pubkey := pubkey; Keymgmt.kd_der := der;
                 Keymgmt.kd_descr := descr |}
      end))%hem.

Definition fill_post (root : json) (type : string) (t : nat) (m : cmem key_obj)
    (r : bool * details_struct) (t' : nat) (m' : cmem key_obj) : Prop :=
  step [] m (blob_locs (snd r)) m' /\
  if fst r then exists kd, ticks (details_rest root type) t kd t' /\
    forall h q, (forall x, x ∈ blob_locs (snd r) -> h !! x = live m' !! x) ->
      h !! q = Some (CStruct (ODetails (snd r))) ->
      details_at h (Some q) kd (details_locs q (snd r))
  else forall w, w_tick w = t -> details_rest root type w = out_of_memory (at_tick t' w).

(** A failed decode keeps what was there. *)
Lemma decode_more key root L (m : cmem key_obj) t m1 :
  step [] m L m1 ->
  cwp (KeyMem.decode_opt_b64 (Some root) key)
    (fun r t' m2 => exists v, ticks (Bindings.decode_opt_b64 (Some root) key) t v t' /\
       step [] m (L ++ option_list (snd (fst r))) m2 /\
       (forall x, x ∈ L -> live m2 !! x = live m1 !! x) /\
       match v with
       | Some d => fst (fst r) = true /\ blob_at (live m2) (snd (fst r)) (snd r) d
       | None => fst (fst r) = false /\ snd (fst r) = None
       end) t m1.
Proof.
  intros S1. eapply cwp_mono; [apply decode_spec|]. intros r t2 m2 (v & V & S2 & H).
  destruct (step_more [] m L m1 _ m2 S1 S2) as [S3 X]. eauto 10.
Qed.

Lemma fill_details_spec root type t m :
  cwp (fill_details root type) (fill_post root type t m) t m.
Proof.
  unfold fill_details. cbv zeta. apply cwp_bind, cwp_allocate; [intros E|intros l E Hl _].
  { split; [apply step_refl, owns_nil|]. intros w Ew. unfold details_rest, dup_or_fail.
    unfold bind at 1 2. rewrite (ticks_dup type t w Ew). by rewrite E. }
  set (m1 := with_live _ m).
  assert (step [] m [l] m1) as S1 by by apply step_new.
  assert (live m1 !! l = Some (CBytes (c_string type))) as El by apply lookup_insert_eq.
  assert (ticks (dup_or_fail type) t type (S t)) as Vt.
  { unfold dup_or_fail. eapply ticks_bind; [apply ticks_dup|]. rewrite E. apply ticks_ret. }
  apply cwp_bind. eapply cwp_mono; [apply decode_more, S1|].
  intros [[ok pub] pl] t2 m2 (v2 & V2 & S2 & X2 & H2). cbn [fst snd] in *.
  destruct v2 as [pk|]; [destruct H2 as [-> B2]|destruct H2 as [-> ->]]; cbn [negb].
  2: { split; [unfold blob_locs; cbn in S2 |- *; by rewrite ?app_nil_r in S2 |- *|].
       intros w Ew. unfold details_rest. rewrite (bind_ticks _ _ _ _ _ _ Vt Ew). cbv zeta.
       rewrite (bind_ticks _ _ (S t) None t2); [done| |done]. eapply ticks_bind; [exact V2|apply ticks_ret]. }
  apply cwp_bind. eapply cwp_mono; [apply decode_more, S2|].
  intros [[ok der] ql] t3 m3 (v3 & V3 & S3 & X3 & H3). cbn [fst snd] in *.
  destruct v3 as [dk|]; [destruct H3 as [-> B3]|destruct H3 as [-> ->]]; cbn [negb].
  2: { split; [unfold blob_locs; cbn in S3 |- *; by rewrite ?app_nil_r in S3 |- *|].
       intros w Ew. unfold details_rest. rewrite (bind_ticks _ _ _ _ _ _ Vt Ew). cbv zeta.
       rewrite (bind_ticks _ _ (S t) None t3); [done| |done]. eapply ticks_bind; [exact V2|].
       eapply ticks_bind; [exact V3|apply ticks_ret]. }
  apply cwp_bind. eapply cwp_mono; [apply decode_more, S3|].
  intros [[ok descr] rl] t4 m4 (v4 & V4 & S4 & X4 & H4). cbn [fst snd] in *.
  destruct v4 as [ck|]; [destruct H4 as [-> B4]|destruct H4 as [-> ->]].
  2: { split; [unfold blob_locs; cbn in S4 |- *; by rewrite ?app_nil_r, <- ?app_assoc in S4 |- *|].
       intros w Ew. unfold details_rest. rewrite (bind_ticks _ _ _ _ _ _ Vt Ew). cbv zeta.
       rewrite (bind_ticks _ _ (S t) None t4); [done| |done]. eapply ticks_bind; [exact V2|].
       eapply ticks_bind; [exact V3|]. eapply ticks_bind; [exact V4|apply ticks_ret]. }
  split; [by rewrite <- !app_assoc in S4|].
  eexists. split.
  { eapply ticks_bind; [exact Vt|]. cbv zeta. eapply ticks_bind.
    - eapply ticks_bind; [exact V2|]. eapply ticks_bind; [exact V3|].
      eapply ticks_bind; [exact V4|apply ticks_ret].
    - apply ticks_ret. }
  intros h q Hx Eq. unfold blob_locs in Hx. cbn [fst snd ds_type ds_pubkey ds_der ds_descr] in Hx.
  eexists q, _. split; [done|]. split; [exact Eq|]. cbn.
  split; [rewrite Hx, X4, X3, X2 by set_solver; exact El|].
  split; [eapply blob_at_frame; [|exact B2]; intros x Hi; rewrite Hx, X4, X3; set_solver|].
  split; [eapply blob_at_frame; [|exact B3]; intros x Hi; rewrite Hx, X4; set_solver|].
  split; [eapply blob_at_frame; [|exact B4]; intros x Hi; apply Hx; set_solver|done].
Qed.

(** The details are there, their fields are not yet. *)
Lemma details_rest_refines root type q w m :
  live m !! q = Some (CStruct (ODetails details_struct_zero)) -> owns [q] m ->
  refines
    (let!! (ok, s) := of_c (fill_details root type) in
     of_c (store (Some q) (CStruct (ODetails s))) ;!!
     if ok then kret (Some q)
     else of_c (ehem_key_details_free (Some q)) ;!! of_m out_of_memory)%kmem
    (details_rest root type) details_post [q] w m.
Proof.
  intros Eq O. apply refines_work. eapply cwp_mono; [apply fill_details_spec|].
  intros [ok s] t1 m1 [S1 H]. cbn [fst snd] in *.
  destruct (step_frame [q] [] m _ m1 O S1) as [S2 X2].
  assert (live m1 !! q = Some (CStruct (ODetails details_struct_zero))) as Eq1
    by (rewrite X2; [exact Eq|set_solver]).
  assert (forall v', details_rest root type w = v' (at_tick t1 w) ->
    (forall m2, step [q] m ([q] ++ blob_locs s) m2 -> live m2 !! q = Some (CStruct (ODetails s)) ->
       (forall x, x ∈ blob_locs s -> live m2 !! x = live m1 !! x) ->
       refines (if ok then kret (Some q)
                else of_c (ehem_key_details_free (Some q)) ;!! of_m out_of_memory)%kmem
         v' details_post ([q] ++ blob_locs s) (at_tick t1 w) m2) ->
    exists v' L1, details_rest root type w = v' (at_tick t1 w) /\ step [q] m L1 m1 /\
      refines (of_c (store (Some q) (CStruct (ODetails s))) ;!!
        if ok then kret (Some q)
        else of_c (ehem_key_details_free (Some q)) ;!! of_m out_of_memory)%kmem
        v' details_post L1 (at_tick t1 w) m1) as Hk.
  { intros v' Ev Hk. exists v', ([q] ++ blob_locs s). split; [exact Ev|]. split; [exact S2|].
    apply refines_mem. eapply cwp_store; [exact Eq1|]. split; [done|].
    assert (step ([q] ++ blob_locs s) m1 ([q] ++ blob_locs s)
      (with_live (<[q := CStruct (ODetails s)]> (live m1)) m1)) as S3
      by (apply step_store; [apply S2|set_solver]).
    eexists. split; [exact S3|]. apply Hk.
    - by eapply step_trans.
    - apply lookup_insert_eq.
    - intros x Hx. apply lookup_insert_ne. intros <-. destruct S2 as [[N _] _].
      apply NoDup_cons in N as [N _]. done. }
  destruct ok.
  - destruct H as (kd & V & Hd). apply (Hk (ret kd)); [by apply V|].
    intros m2 S3 E3 X3. apply refines_ret; [apply S3|]. by apply Hd.
  - apply (Hk out_of_memory); [by apply H|]. intros m2 S3 E3 X3.
    apply refines_release; [|intros; apply refines_throws].
    eapply cwp_mono; [apply (details_free_spec q s []); [exact E3|]|].
    + rewrite app_nil_r. apply S3.
    + intros _ t4 m4 (-> & S4 & _). by rewrite app_nil_r in S4.
Qed.

Lemma parse_key_details_refines root w m :
  refines (parse_key_details root) (Keymgmt.parse_key_details root) details_post [] w m.
Proof.
  apply refines_work, cwp_allocate; [intros E|intros q E Hq _].
  { exists out_of_memory, []. split; [unfold Keymgmt.parse_key_details, calloc_or_fail, malloc, ask, bind; by rewrite E|].
    split; [apply step_refl, owns_nil|apply refines_throws]. }
  eexists _, [q].
  split; [unfold Keymgmt.parse_key_details, calloc_or_fail at 1, malloc, ask; unfold bind at 1 2; rewrite E; reflexivity|].
  destruct (step_new q (CStruct (ODetails details_struct_zero)) m Hq) as [O F]. split; [by split|].
  destruct (ehem_json_get_string (Some root) "type") as [type|].
  - apply (details_rest_refines root type); [apply lookup_insert_eq|exact O].
  - apply refines_release; [|intros; apply refines_throws].
    eapply cwp_mono; [apply (details_free_spec q details_struct_zero []); [apply lookup_insert_eq|exact O]|].
    intros _ t m' (-> & S1 & _). by split.
Qed.

Lemma map_406_refines {A B} rc what (Post : A -> B -> list positive -> cmem key_obj -> Prop) w m :
  refines (of_m (Keymgmt.map_406_not_found rc what)) (Keymgmt.map_406_not_found rc what) Post [] w m.
Proof.
  unfold Keymgmt.map_406_not_found.
  unfold refines, of_m. unfold bind at 1 3. cbn.
  destruct (negb _ || _); [apply (refines_throw rc Post w m)|apply (fail_refines _ _ _ _ Post w m)].
Qed.

Lemma ehem_key_get_refines kid out w m :
  refines (ehem_key_get kid out) (Keymgmt.ehem_key_get kid out) details_post [] w m.
Proof.
  unfold ehem_key_get, Keymgmt.ehem_key_get. destruct kid as [kid|], out; try apply refines_throw.
  apply then_refines. intros _ w1 m1. apply then_refines. intros _ w2 m2. cbv zeta.
  apply then_refines. intros [root|rc] w3 m3; [apply parse_key_details_refines|].
  apply map_406_refines.
Qed.

Lemma page_release p pg L t (m : cmem key_obj) :
  page_at (live m) p pg L -> owns L m ->
  cwp (ehem_key_page_free p) (fun _ t' m' => t' = t /\ step L m [] m') t m.
Proof.
  intros H O. eapply cwp_mono; [apply (page_free_at _ _ _ [] _ _ H); by rewrite app_nil_r|].
  intros _ t' m' (-> & S1 & _). by rewrite app_nil_r in S1.
Qed.

Lemma details_release p kd L t (m : cmem key_obj) :
  details_at (live m) p kd L -> owns L m ->
  cwp (ehem_key_details_free p) (fun _ t' m' => t' = t /\ step L m [] m') t m.
Proof.
  intros (q & d & -> & Eq & _ & _ & _ & _ & _ & ->) O.
  eapply cwp_mono; [apply (details_free_spec q d [] _ _ Eq); by rewrite app_nil_r|].
  intros _ t' m' (-> & S1 & _). by rewrite app_nil_r in S1.
Qed.

Lemma details_frame h h' p kd L :
  (forall x, x ∈ L -> h' !! x = h !! x) -> details_at h p kd L -> details_at h' p kd L.
Proof.
  intros Hx (q & d & -> & Eq & T & B1 & B2 & B3 & U & ->). unfold details_locs in Hx.
  exists q, d. split; [done|]. split; [by rewrite Hx by set_solver|].
  split; [eapply text_at_frame; [|exact T]; intros; apply Hx; set_solver|].
  split; [eapply blob_at_frame; [|exact B1]; intros; apply Hx; set_solver|].
  split; [eapply blob_at_frame; [|exact B2]; intros; apply Hx; set_solver|].
  split; [eapply blob_at_frame; [|exact B3]; intros; apply Hx; set_solver|done].
Qed.

(** C14: every key operation that returns an allocated result — one page of the
    repository, the walk over all of it, one page of a search, the whole search, the
    details of one key — runs in memory without undefined behaviour whatever the
    device answers, the allocator refuses and memory holds, and ends with the world
    and the outcome of its description by values.  A failure, also in the middle of a
    walk, leaves the live memory as it was.  A success changes nothing but the new
    blocks that represent the result, from the page down to every string, and the
    release function frees exactly those, at any later time. *)
Theorem key_results_in_memory fuel offset limit pat mode kid out :
  0 <= b_len pat ->
  result_in_memory any (ehem_key_list offset limit out)
    (Keymgmt.ehem_key_list offset limit out) page_at ehem_key_page_free /\
  result_in_memory any (ehem_key_list_all fuel out)
    (Keymgmt.ehem_key_list_all fuel out) page_at ehem_key_page_free /\
  result_in_memory any (ehem_key_search pat mode offset limit out)
    (Keymgmt.ehem_key_search pat mode offset limit out) page_at ehem_key_page_free /\
  result_in_memory any (ehem_key_search_all fuel pat mode out)
    (Keymgmt.ehem_key_search_all fuel pat mode out) page_at ehem_key_page_free /\
  result_in_memory any (ehem_key_get kid out)
    (Keymgmt.ehem_key_get kid out) details_at ehem_key_details_free.
Proof.
  intros Hp. split; [|split; [|split; [|split]]]; apply result_from_refines;
    try (intros; by eapply page_release); try (intros; by eapply page_frame);
    try (intros; by eapply details_release); try (intros; by eapply details_frame).
  - intros w m. apply ehem_key_list_refines.
  - intros w m. apply ehem_key_list_all_refines.
  - intros w m. by apply ehem_key_search_refines.
  - intros w m. by apply ehem_key_search_all_refines.
  - intros w m. apply ehem_key_get_refines.
Qed.
End Refine.

(** ** The walk over two pages, with an allocator that refuses request [bad] *)

Definition dirty_entries : IndeterminateEntries :=
  {| junk_entries n := repeat {| es_kid := Some 1%positive; es_type := None; es_label := None;
                                 es_descr := None; es_descr_len := 9; es_created := 1;
                                 es_updated := 2 |} n;
     length_junk_entries n := repeat_length _ n |}.

Definition walk_platform (bad : nat) : Platform :=
  platform_with (fake_platform KeymgmtProps.list_table) (fun n => negb (n =? bad)%nat)
    (@p_kdf_pbkdf2_sha256 (fake_platform [])).

Definition walk_world (bad : nat) : @world (walk_platform bad) :=
  @Build_world (walk_platform bad)
    {| script := [http 200 "page1"; http 200 "page2"]; fs_expired := false |} 0 true
    (fake_ctx true (Some (fake_session Keymgmt.KEYMGMT_LIST_SCOPE "tok"))) [].

Definition empty_memory : cmem key_obj := {| live := ∅; dead := ∅ |}.

Definition walk_in_memory (bad : nat) :=
  @ehem_key_list_all (walk_platform bad) dirty_memory dirty_entries session_request 3 true
    (walk_world bad) empty_memory.

Definition walk_blocks (bad : nat) : option (ehem_rc * nat * nat) :=
  match walk_in_memory bad with
  | Some (Ok _, _, m) => Some (EHEM_OK, size (live m), size (dead m))
  | Some (Err rc, _, m) => Some (rc, size (live m), size (dead m))
  | _ => None
  end.

(** Refusing any one of its requests to the allocator: NOMEM with nothing live, or
    (for the copy of the server name and of the path) no effect at all. *)
Example walk_any_refusal :
  forallb (fun bad =>
    match walk_blocks bad with
    | Some (EHEM_OK, 8, 5)%nat | Some (EHEM_ERR_NOMEM, O, _) => true
    | _ => false
    end) (seq 0 20) = true.
Proof. vm_compute. reflexivity. Qed.

Definition two_keys : Keymgmt.ehem_key_page :=
  {| Keymgmt.kp_offset := 0; Keymgmt.kp_total := 2;
     Keymgmt.kp_entries := map (fun kid =>
       {| Keymgmt.ke_kid := kid; Keymgmt.ke_type := "ED25519,PKEY"; Keymgmt.ke_label := Some "k"%string;
          Keymgmt.ke_descr := None; Keymgmt.ke_created := 7; Keymgmt.ke_updated := 9 |})
       ["a"; "b"]%string |}.

Lemma key_results_in_memory_witness :
  (exists p w' m' L, walk_in_memory 99 = Some (Ok p, w', m') /\ page_at (live m') p two_keys L /\
     forall t, exists m2, ehem_key_page_free p t m' = Done tt t m2 /\
       forall x, live m2 !! x = if decide (x ∈ L) then None else live m' !! x) /\
  (exists w' m', walk_in_memory 13 = Some (Err EHEM_ERR_NOMEM, w', m') /\ live m' = ∅).
Proof.
  assert (0 <= b_len no_buf) as H0 by done. split.
  - destruct (proj1 (proj2 (@key_results_in_memory (walk_platform 99) dirty_memory dirty_entries session_request
      3 0 0 no_buf 0 None true H0)) (walk_world 99) empty_memory) as (o & w' & m' & E & _ & R).
    assert (fst (@Keymgmt.ehem_key_list_all (walk_platform 99) session_request 3 true (walk_world 99))
      = Ok two_keys) as V by (vm_compute; reflexivity).
    rewrite V in R. destruct o as [p|rc|]; try contradiction.
    destruct R as (_ & L & Hp & _ & _ & Hr). exists p, w', m', L. split; [exact E|].
    split; [exact Hp|]. intros t.
    destruct (Hr t m') as (m2 & E2 & _ & F2); [reflexivity|]. exists m2. split; [exact E2|exact F2].
  - destruct (proj1 (proj2 (@key_results_in_memory (walk_platform 13) dirty_memory dirty_entries session_request
      3 0 0 no_buf 0 None true H0)) (walk_world 13) empty_memory) as (o & w' & m' & E & _ & R).
    assert (fst (@Keymgmt.ehem_key_list_all (walk_platform 13) session_request 3 true (walk_world 13))
      = Err EHEM_ERR_NOMEM) as V by (vm_compute; reflexivity).
    rewrite V in R. destruct o as [p|rc|]; try contradiction.
    destruct R as (-> & R & _). exists w', m'. split; [exact E|exact R].
Defined.
