(* ===== verification/CryptoMem.v ===== *)
(** * Crypto results in memory

    The part of [src/proto_crypto.c] that allocates and releases results: the struct,
    the buffer a base64 member is decoded into, the fixed-size members, and what is
    wiped before it is freed.  Requests and the JSON tree are those of [Crypto].

    The nine result types of include/ehem/crypto.h are one record here, with the
    members of all of them; what a type does not have stays as [calloc] left it. *)

From stdpp Require Import gmap.
From S2P Require Import Prelude Base64 Json World Logic Context Ejwt Proto Notify Bindings Mem MemWorld CodecMem.
From S2P Require Crypto.

Open Scope cmem_scope.
Open Scope kmem_scope.

Record result_struct := {
  rs_data : ptr;
  rs_len : nat;
  rs_alg : string;
  rs_ss : bytes;
  rs_iv : option bytes;
  rs_tag : option bytes
}.

Definition ss_zero : bytes := repeat 0 (Z.to_nat Crypto.EHEM_MLKEM_SS_LEN).
Definition result_zero : result_struct :=
  {| rs_data := None; rs_len := 0; rs_alg := ""; rs_ss := ss_zero; rs_iv := None; rs_tag := None |}.

Definition set_data (p : ptr) (s : result_struct) : result_struct :=
  {| rs_data := p; rs_len := rs_len s; rs_alg := rs_alg s; rs_ss := rs_ss s;
     rs_iv := rs_iv s; rs_tag := rs_tag s |}.
Definition set_len (n : nat) (s : result_struct) : result_struct :=
  {| rs_data := rs_data s; rs_len := n; rs_alg := rs_alg s; rs_ss := rs_ss s;
     rs_iv := rs_iv s; rs_tag := rs_tag s |}.
Definition set_alg (alg : string) (s : result_struct) : result_struct :=
  {| rs_data := rs_data s; rs_len := rs_len s; rs_alg := alg; rs_ss := rs_ss s;
     rs_iv := rs_iv s; rs_tag := rs_tag s |}.
Definition set_ss (ss : bytes) (s : result_struct) : result_struct :=
  {| rs_data := rs_data s; rs_len := rs_len s; rs_alg := rs_alg s; rs_ss := ss;
     rs_iv := rs_iv s; rs_tag := rs_tag s |}.
Definition set_iv_tag (iv tag : option bytes) (s : result_struct) : result_struct :=
  {| rs_data := rs_data s; rs_len := rs_len s; rs_alg := rs_alg s; rs_ss := rs_ss s;
     rs_iv := iv; rs_tag := tag |}.

Section CryptoMem.
Context {P : Platform} {I : Indeterminate}.
Abbreviation C := (Mem.C result_struct).
Abbreviation K := (MemWorld.K result_struct).

Definition modify (p : ptr) (f : result_struct -> result_struct) : C unit :=
  let! s := load_struct p in store p (CStruct (f s)).

(** ** Release *)

(** [ehem_signature_free] and the others whose buffer is no secret. *)
Definition free_public (p : ptr) : C unit :=
  match p with
  | None => cret tt
  | Some _ => let! s := load_struct p in free (rs_data s) ;! free p
  end.
Definition ehem_signature_free : ptr -> C unit := free_public.
Definition ehem_mac_free : ptr -> C unit := free_public.
Definition ehem_ciphertext_free : ptr -> C unit := free_public.
Definition ehem_wrapped_free : ptr -> C unit := free_public.
Definition ehem_mldsa_signature_free : ptr -> C unit := free_public.

(** [ehem_ecdh_secret_free] and the others whose buffer is wiped first. *)
Definition free_secret (p : ptr) : C unit :=
  match p with
  | None => cret tt
  | Some _ =>
      let! s := load_struct p in
      match rs_data s with
      | Some _ => zeroize (rs_data s) (rs_len s) ;! free (rs_data s)
      | None => cret tt
      end ;!
      free p
  end.
Definition ehem_ecdh_secret_free : ptr -> C unit := free_secret.
Definition ehem_plaintext_free : ptr -> C unit := free_secret.
Definition ehem_unwrapped_free : ptr -> C unit := free_secret.

Definition ehem_mlkem_encaps_result_free (p : ptr) : C unit :=
  match p with
  | None => cret tt
  | Some _ =>
      modify p (set_ss ss_zero) ;!
      let! s := load_struct p in
      free (rs_data s) ;! free p
  end.

Definition ehem_mlkem_secret_free (p : ptr) : C unit :=
  match p with
  | None => cret tt
  | Some _ => modify p (set_ss ss_zero) ;! free p
  end.

(** ** A decoded result *)

(** The struct and a buffer of [n] bytes, or nothing. *)
Definition new_result (release : ptr -> C unit) (n : nat) : C ptr :=
  let! r := allocate (CStruct result_zero) in
  match r with
  | None => cret None
  | Some _ =>
      let! d := allocate (CBytes (junk_bytes n)) in
      modify r (set_data d) ;!
      match d with
      | None => release r ;! cret None
      | Some _ => cret r
      end
  end.

(** [decode(b64, strlen, result->data, strlen)] *)
Definition decode_data (r : ptr) (b64 : string) : C (option nat) :=
  let! s := load_struct r in decode_at (rs_data s) b64 (String.length b64).

(** [scrub]: the buffer is wiped whole before a failure releases it. *)
Definition drop_result (release : ptr -> C unit) (scrub : bool) (n : nat) (r : ptr) : C unit :=
  (if scrub then let! s := load_struct r in zeroize (rs_data s) n else cret tt) ;! release r.

Definition decode_result (release : ptr -> C unit) (scrub : bool) (b64 bad : string) : K ptr :=
  let!! r := of_c (new_result release (String.length b64)) in
  match r with
  | None => of_m out_of_memory
  | Some _ =>
      let!! n := of_c (decode_data r b64) in
      match n with
      | None | Some O =>
          of_c (drop_result release scrub (String.length b64) r) ;!!
          of_m (ehem_ctx_fail EHEM_ERR_PROTOCOL 200 None bad)
      | Some n => of_c (modify r (set_len n)) ;!! kret r
      end
  end.

(** The response member [field], present and non-empty, decoded. *)
Definition decode_required (release : ptr -> C unit) (scrub : bool) (root : json)
    (field missing bad : string) : K ptr :=
  match nonempty_string root field with
  | None => of_m (ehem_ctx_fail EHEM_ERR_PROTOCOL 200 None missing)
  | Some b64 => decode_result release scrub b64 bad
  end.

(** ** The endpoints *)

Context `{Q : !Request}.

Definition ehem_sign (kid alg : option string) (msg sig_ctx : buf) (out : bool) : K ptr :=
  match kid, alg with
  | Some kid, Some alg =>
      if b_null msg || negb out then of_m (throw EHEM_ERR_ARG)
      else
        of_m ehem_ctx_clear_error ;!!
        of_m (require (ehem_proto_is_kid_hex kid) (Crypto.kid_rule "crypto/sign")) ;!!
        of_m (require (negb (is_empty alg)) "crypto/sign: alg must be non-empty") ;!!
        of_m (require (b_within 1 Crypto.EHEM_SIGN_MSG_MAX msg)
          (Crypto.range_rule "crypto/sign" "msg" Crypto.EHEM_SIGN_MSG_MAX +:+
           " (the device rejects an empty message)")) ;!!
        of_m (require (negb (Crypto.opt_too_long Crypto.EHEM_SIGN_SIG_CTX_MAX sig_ctx))
          (Crypto.cap_rule "crypto/sign" "sig_ctx" Crypto.EHEM_SIGN_SIG_CTX_MAX)) ;!!
        let!! body := of_m (build_body
          ([FieldStr "kid" kid; FieldB64 "msg" msg; FieldStr "alg" alg] ++
           opt_field (b_given sig_ctx) (FieldB64 "ctx" sig_ctx))) in
        let!! root := of_m (Crypto.post_json "/api/crypto/exdsa/sign" body (use_scope 64 kid)) in
        decode_required ehem_signature_free false root "sign"
          "crypto/sign: response missing 'sign'" "crypto/sign: 'sign' is not valid base64"
  | _, _ => of_m (throw EHEM_ERR_ARG)
  end.

Definition ehem_ecdh (kid ext_kid : option string) (pubkey : buf) (alg : option string)
    (out : bool) : K ptr :=
  match kid, out with
  | Some kid, true =>
      of_m ehem_ctx_clear_error ;!!
      of_m (require (ehem_proto_is_kid_hex kid) (Crypto.kid_rule "crypto/ecdh")) ;!!
      of_m (Crypto.check_peer_args "crypto/ecdh" ext_kid pubkey false) ;!!
      of_m (require (negb (Crypto.is_some alg && is_empty (default "" alg)))
        "crypto/ecdh: alg must be non-empty when given") ;!!
      let!! body := of_m (build_body
        ([FieldStr "kid" kid] ++ Crypto.peer_fields ext_kid pubkey ++ opt_str_field "alg" alg)) in
      let!! root := of_m (Crypto.post_json "/api/crypto/ecdh" body (use_scope 64 kid)) in
      decode_required ehem_ecdh_secret_free true root "ecdh"
        "crypto/ecdh: response missing 'ecdh'" "crypto/ecdh: 'ecdh' is not valid base64"
  | _, _ => of_m (throw EHEM_ERR_ARG)
  end.

Definition ehem_hmac (kid alg : option string) (msg : buf) (ext_kid : option string)
    (pubkey : buf) (out : bool) : K ptr :=
  match kid, out with
  | Some kid, true =>
      if b_null msg then of_m (throw EHEM_ERR_ARG)
      else
        of_m ehem_ctx_clear_error ;!!
        let!! body := of_m (Crypto.hmac_build "crypto/hmac/hash" kid alg msg no_buf ext_kid pubkey) in
        let!! root := of_m (Crypto.post_json "/api/crypto/hmac/hash" body (use_scope 64 kid)) in
        decode_required ehem_mac_free false root "mac"
          "crypto/hmac/hash: response missing 'mac'" "crypto/hmac/hash: 'mac' is not valid base64"
  | _, _ => of_m (throw EHEM_ERR_ARG)
  end.

Definition ehem_encrypt (kid alg : option string) (msg aad : buf)
    (ext_kid : option string) (pubkey hkdf_ctx : buf) (out : bool) : K ptr :=
  match kid, alg with
  | Some kid, Some alg =>
      if b_null msg || negb out then of_m (throw EHEM_ERR_ARG)
      else
        of_m ehem_ctx_clear_error ;!!
        let!! body := of_m (Crypto.cipher_build "crypto/cipher/encrypt" kid alg msg
                       Crypto.EHEM_CIPHER_MSG_MAX no_buf no_buf aad ext_kid pubkey hkdf_ctx) in
        let!! root := of_m (Crypto.post_json "/api/crypto/cipher/encrypt" body (use_scope 64 kid)) in
        let malformed := "crypto/cipher/encrypt: malformed response field" in
        let bad r := of_c (ehem_ciphertext_free r) ;!!
                     of_m (ehem_ctx_fail EHEM_ERR_PROTOCOL 200 None malformed) in
        let!! r := decode_required ehem_ciphertext_free false root "ciphertext"
          "crypto/cipher/encrypt: response missing 'ciphertext'" malformed in
        match Crypto.decode_fixed_field root "iv" Crypto.EHEM_CIPHER_IV_LEN with
        | None => bad r
        | Some iv =>
            match Crypto.decode_fixed_field root "tag" Crypto.EHEM_CIPHER_TAG_LEN with
            | None => bad r
            | Some tag => of_c (modify r (set_iv_tag iv tag)) ;!! kret r
            end
        end
  | _, _ => of_m (throw EHEM_ERR_ARG)
  end.

Definition ehem_decrypt (kid alg : option string) (msg iv tag aad : buf)
    (ext_kid : option string) (pubkey hkdf_ctx : buf) (out : bool) : K ptr :=
  match kid, alg with
  | Some kid, Some alg =>
      if b_null msg || negb out then of_m (throw EHEM_ERR_ARG)
      else
        of_m ehem_ctx_clear_error ;!!
        let!! body := of_m (Crypto.cipher_build "crypto/cipher/decrypt" kid alg msg
                       Crypto.EHEM_CIPHER_CT_MAX iv tag aad ext_kid pubkey hkdf_ctx) in
        let!! root := of_m (Crypto.post_json "/api/crypto/cipher/decrypt" body (use_scope 64 kid)) in
        match ehem_json_get_string (Some root) "plaintext" with
        | None =>
            of_m (ehem_ctx_fail EHEM_ERR_PROTOCOL 200 None
              "crypto/cipher/decrypt: response missing 'plaintext'")
        | Some b64 =>
            let!! r := of_c (new_result ehem_plaintext_free
                         (if is_empty b64 then 1 else String.length b64)) in
            match r with
            | None => of_m out_of_memory
            | Some _ =>
                if is_empty b64 then kret r
                else
                  let!! n := of_c (decode_data r b64) in
                  match n with
                  | None =>
                      of_c (drop_result ehem_plaintext_free true (String.length b64) r) ;!!
                      of_m (ehem_ctx_fail EHEM_ERR_PROTOCOL 200 None
                        "crypto/cipher/decrypt: 'plaintext' is not valid base64")
                  | Some n => of_c (modify r (set_len n)) ;!! kret r
                  end
            end
        end
  | _, _ => of_m (throw EHEM_ERR_ARG)
  end.

(** [*data_out] and [*len_out]. *)
Definition wrap_request (path scope body resp_field : string) : K (ptr * nat) :=
  let!! root := of_m (Crypto.post_json path body scope) in
  match nonempty_string root resp_field with
  | None =>
      of_m (ehem_ctx_fail EHEM_ERR_PROTOCOL 200 None
        (path +:+ ": response missing '" +:+ resp_field +:+ "'"))
  | Some b64 =>
      let!! data := of_c (allocate (CBytes (junk_bytes (String.length b64)))) in
      match data with
      | None => of_m out_of_memory
      | Some _ =>
          let!! n := of_c (decode_at data b64 (String.length b64)) in
          match n with
          | None | Some O =>
              of_c (free data) ;!!
              of_m (ehem_ctx_fail EHEM_ERR_PROTOCOL 200 None
                (path +:+ ": '" +:+ resp_field +:+ "' is not valid base64"))
          | Some n => kret (data, n)
          end
      end
  end.

(** [ehem_wrap] and [ehem_unwrap] from the result's [calloc] on. *)
Definition wrap_result (path scope body resp_field : string) : K ptr :=
  let!! r := of_c (allocate (CStruct result_zero)) in
  match r with
  | None => of_m out_of_memory
  | Some _ =>
      let!! x := kattempt (wrap_request path scope body resp_field) in
      match x with
      | inr rc => of_c (free r) ;!! of_m (throw rc)
      | inl (data, n) => of_c (modify r (set_data data) ;! modify r (set_len n)) ;!! kret r
      end
  end.

Definition ehem_wrap (kid alg : option string) (msg : buf) (ext_kid : option string)
    (pubkey hkdf_ctx iv : buf) (out : bool) : K ptr :=
  match kid, out with
  | Some kid, true =>
      of_m ehem_ctx_clear_error ;!!
      let!! body := of_m (Crypto.build_wrap_body "crypto/cipher/wrap" kid alg msg ext_kid
                     pubkey hkdf_ctx iv) in
      wrap_result "/api/crypto/cipher/wrap" (use_scope 48 kid) body "wrapped"
  | _, _ => of_m (throw EHEM_ERR_ARG)
  end.

Definition ehem_unwrap (kid alg : option string) (msg : buf) (ext_kid : option string)
    (pubkey hkdf_ctx iv : buf) (out : bool) : K ptr :=
  match kid, out with
  | Some kid, true =>
      of_m ehem_ctx_clear_error ;!!
      let!! body := of_m (Crypto.build_wrap_body "crypto/cipher/unwrap" kid alg msg ext_kid
                     pubkey hkdf_ctx iv) in
      wrap_result "/api/crypto/cipher/unwrap" (use_scope 48 kid) body "unwrapped"
  | _, _ => of_m (throw EHEM_ERR_ARG)
  end.

Definition ehem_mlkem_encaps (kid : option string) (out : bool) : K ptr :=
  match kid, out with
  | Some kid, true =>
      of_m ehem_ctx_clear_error ;!!
      of_m (require (ehem_proto_is_kid_hex kid) (Crypto.kid_rule "crypto/mlkem/encaps")) ;!!
      let!! body := of_m (build_body [FieldStr "kid" kid]) in
      let!! root := of_m (Crypto.post_json "/api/crypto/pqc/mlkem/encaps" body (use_scope 64 kid)) in
      let!! r := decode_required ehem_mlkem_encaps_result_free false root "ct"
        "crypto/mlkem/encaps: response missing 'ct'" "crypto/mlkem/encaps: malformed 'ct'/'ss'" in
      match Crypto.decode_ss root with
      | None =>
          of_c (ehem_mlkem_encaps_result_free r) ;!!
          of_m (ehem_ctx_fail EHEM_ERR_PROTOCOL 200 None "crypto/mlkem/encaps: malformed 'ct'/'ss'")
      | Some ss =>
          of_c (modify r (set_ss ss) ;! modify r (set_alg (Crypto.copy_alg root))) ;!! kret r
      end
  | _, _ => of_m (throw EHEM_ERR_ARG)
  end.

Definition ehem_mlkem_decaps (kid : option string) (ct : buf) (out : bool) : K ptr :=
  match kid, out with
  | Some kid, true =>
      if b_null ct then of_m (throw EHEM_ERR_ARG)
      else
        of_m ehem_ctx_clear_error ;!!
        of_m (require (ehem_proto_is_kid_hex kid) (Crypto.kid_rule "crypto/mlkem/decaps")) ;!!
        of_m (require (b_within 1 Crypto.EHEM_MLKEM_CT_MAX ct)
          (Crypto.range_rule "crypto/mlkem/decaps" "ct" Crypto.EHEM_MLKEM_CT_MAX +:+
           " (the key's set demands its exact size)")) ;!!
        let!! body := of_m (Crypto.decaps_body kid ct) in
        let!! root := of_m (Crypto.post_json "/api/crypto/pqc/mlkem/decaps" body (use_scope 64 kid)) in
        let!! r := of_c (allocate (CStruct result_zero)) in
        match r with
        | None => of_m out_of_memory
        | Some _ =>
            match Crypto.decode_ss root with
            | None =>
                of_c (ehem_mlkem_secret_free r) ;!!
                of_m (ehem_ctx_fail EHEM_ERR_PROTOCOL 200 None
                  "crypto/mlkem/decaps: response missing/bad 'ss'")
            | Some ss =>
                of_c (modify r (set_ss ss) ;! modify r (set_alg (Crypto.copy_alg root))) ;!! kret r
            end
        end
  | _, _ => of_m (throw EHEM_ERR_ARG)
  end.

Definition ehem_mldsa_sign (kid : option string) (msg sig_ctx : buf) (out : bool) : K ptr :=
  match kid, out with
  | Some kid, true =>
      if b_null msg then of_m (throw EHEM_ERR_ARG)
      else
        of_m ehem_ctx_clear_error ;!!
        let!! body := of_m (Crypto.mldsa_build "crypto/mldsa/sign" kid msg no_buf sig_ctx) in
        let!! root := of_m (Crypto.post_json "/api/crypto/pqc/mldsa/sign" body (use_scope 64 kid)) in
        let!! r := decode_required ehem_mldsa_signature_free false root "sign"
          "crypto/mldsa/sign: response missing 'sign'"
          "crypto/mldsa/sign: 'sign' is not valid base64" in
        of_c (modify r (set_alg (Crypto.copy_alg root))) ;!! kret r
  | _, _ => of_m (throw EHEM_ERR_ARG)
  end.
End CryptoMem.
