(* ===== verification/CryptoMemProps.v ===== *)
(** * Crypto results in memory refine crypto results, and leave no secret

    The endpoints of [CryptoMem] against those of [Crypto]: the same outcome and the
    same world, the result in blocks of its own, everything given back on failure and
    by the release function.  For the endpoints that return secrets, what lies in the
    released memory: nothing the device sent. *)

From stdpp Require Import gmap.
From S2P Require Import Prelude Base64 Json World Logic Context Ejwt Proto AuthState Notify.
From S2P Require Import Bindings Mem MemWorld CodecMem CryptoMem Session Fake.
From S2P Require Crypto.

Section Rep.
Context {P : Platform} {I : Indeterminate}.
Abbreviation heap := (gmap positive (cell result_struct)).

(** ** Clean memory *)

(** From [k] on, a block is as it was allocated. *)
Definition untouched (k : nat) (b : bytes) : Prop := drop k b = drop k (junk_bytes (length b)).

(** Zeros, then what was never written. *)
Definition scrubbed_bytes (b : bytes) : Prop :=
  exists k, (k <= length b)%nat /\ b = repeat 0 k ++ drop k (junk_bytes (length b)).

(** A released block without anything of a decoded secret. *)
Definition scrubbed (c : cell result_struct) : Prop :=
  match c with CBytes b => scrubbed_bytes b | CStruct s => rs_ss s = ss_zero end.
(** A released struct without its shared secret; the buffers are public. *)
Definition scrubbed_ss (c : cell result_struct) : Prop :=
  match c with CBytes _ => True | CStruct s => rs_ss s = ss_zero end.

Lemma scrubbed_junk n : scrubbed_bytes (junk_bytes n).
Proof. exists O. rewrite length_junk_bytes. split; [lia|done]. Qed.
Lemma scrubbed_zeros n : scrubbed_bytes (repeat 0 n).
Proof.
  exists n. rewrite repeat_length. split; [lia|]. rewrite drop_ge; [by rewrite app_nil_r|].
  by rewrite length_junk_bytes.
Qed.
Lemma zero_prefix_nil b : zero_prefix 0 b = b.
Proof. done. Qed.
Lemma zero_prefix_all b : zero_prefix (length b) b = repeat 0 (length b).
Proof. unfold zero_prefix. rewrite drop_ge by lia. by rewrite app_nil_r. Qed.
Lemma length_zero_prefix k b : (k <= length b)%nat -> length (zero_prefix k b) = length b.
Proof. intros H. unfold zero_prefix. rewrite length_app, repeat_length, length_drop. lia. Qed.
Lemma scrubbed_prefix k b : (k <= length b)%nat -> untouched k b -> scrubbed_bytes (zero_prefix k b).
Proof.
  intros H U. exists k. rewrite length_zero_prefix by done. split; [done|].
  unfold zero_prefix. by rewrite U.
Qed.

(** ** Steps *)

Lemma cwp_modify {good} q s f L t (m : cmem result_struct) :
  live m !! q = Some (CStruct s) -> owns L m -> q ∈ L ->
  cwp (modify (Some q) f)
    (fun _ t' m' => t' = t /\ step good L m L m' /\ live m' !! q = Some (CStruct (f s)) /\
       forall x, x <> q -> live m' !! x = live m !! x) t m.
Proof.
  intros Eq O Hq. apply cwp_bind, (cwp_load_struct _ _ _ _ _ Eq).
  apply (cwp_store _ _ _ _ _ _ Eq). split; [done|].
  split; [by apply step_store|]. split; [apply lookup_insert_eq|].
  intros x Hx. by apply lookup_insert_ne.
Qed.

Lemma cwp_zero {good} l n b L t (m : cmem result_struct) :
  live m !! l = Some (CBytes b) -> owns L m -> l ∈ L -> (n <= length b)%nat ->
  cwp (zeroize (Some l) n)
    (fun _ t' m' => t' = t /\ step good L m L m' /\
       live m' !! l = Some (CBytes (zero_prefix n b)) /\
       forall x, x <> l -> live m' !! x = live m !! x) t m.
Proof.
  intros El O Hl Hn. unfold zeroize. apply cwp_bind, (cwp_load_bytes _ _ _ _ _ El).
  destruct (Nat.leb_spec n (length b)); [|lia]. apply (cwp_store _ _ _ _ _ _ El).
  split; [done|]. split; [by apply step_store|]. split; [apply lookup_insert_eq|].
  intros x Hx. by apply lookup_insert_ne.
Qed.

(** ** Release *)

Definition locs (q : positive) (s : result_struct) : list positive :=
  option_list (rs_data s) ++ [q].

(** What a release needs to know of the buffer, for secrets also that its length
    covers what was written. *)
Definition data_ok (secret : bool) (h : heap) (s : result_struct) : Prop :=
  forall l, rs_data s = Some l -> exists b, h !! l = Some (CBytes b) /\
    (rs_len s <= length b)%nat /\
    (secret = true -> scrubbed_bytes (zero_prefix (rs_len s) b)).

Class Releases (good : cell result_struct -> Prop) (secret : bool) (release : ptr -> C result_struct unit) :=
  release_spec q s t m :
    live m !! q = Some (CStruct s) -> rs_ss s = ss_zero ->
    owns (locs q s) m -> data_ok secret (live m) s ->
    cwp (release (Some q)) (fun _ t' m' => t' = t /\ step good (locs q s) m [] m') t m.

Lemma free_public_spec q s t m :
  live m !! q = Some (CStruct s) -> owns (locs q s) m ->
  cwp (free_public (Some q)) (fun _ t' m' => t' = t /\ step any (locs q s) m [] m') t m.
Proof.
  intros Eq O. cbn [free_public]. apply cwp_bind, (cwp_load_struct _ _ _ _ _ Eq).
  apply cwp_bind. eapply cwp_mono; [apply free_part, O|]. intros _ t1 m1 (-> & S1 & _).
  eapply cwp_mono; [apply (free_ptr (Some q)), S1|]. intros _ t2 m2 (-> & S2).
  split; [done|]. by eapply step_trans.
Qed.
#[export] Instance free_public_releases : Releases any false free_public.
Proof. intros q s t m Eq _ O _. by apply free_public_spec. Qed.

(** The last two frees, of a buffer and a struct that may be left behind. *)
Lemma free_both {good} q s t m :
  live m !! q = Some (CStruct s) -> good (CStruct s) ->
  (forall l c, rs_data s = Some l -> live m !! l = Some c -> good c) -> owns (locs q s) m ->
  cwp (free (rs_data s) ;! free (Some q))%cmem
    (fun _ t' m' => t' = t /\ step good (locs q s) m [] m') t m.
Proof.
  intros Eq Gq Gd O. apply cwp_bind. eapply cwp_mono; [apply (cwp_free_part (good:=good)); [exact O|]|].
  { intros l c El Hc. by eapply Gd. }
  intros _ t1 m1 (-> & S1 & X1). eapply cwp_mono; [apply (cwp_free_ptr (good:=good) (Some q)); [apply S1|]|].
  { intros l c [= <-] Hc. rewrite X1, Eq in Hc by set_solver. by injection Hc as <-. }
  intros _ t2 m2 (-> & S2). split; [done|]. by eapply step_trans.
Qed.

Lemma free_secret_spec q s t m :
  live m !! q = Some (CStruct s) -> rs_ss s = ss_zero ->
  owns (locs q s) m -> data_ok true (live m) s ->
  cwp (free_secret (Some q)) (fun _ t' m' => t' = t /\ step scrubbed (locs q s) m [] m') t m.
Proof.
  intros Eq Ess O D. cbn [free_secret]. apply cwp_bind, (cwp_load_struct _ _ _ _ _ Eq).
  destruct (rs_data s) as [l|] eqn:El.
  - destruct (D l El) as (b & Eb & Hlen & Hs). specialize (Hs eq_refl).
    unfold locs in *. rewrite El in *. cbn [option_list app] in *.
    assert (l <> q) as Nlq by congruence.
    assert (owns ([l] ++ [q]) m) as O' by done.
    apply cwp_bind, cwp_bind. eapply cwp_mono; [eapply (cwp_zero (good:=scrubbed)); [exact Eb|exact O|set_solver|done]|].
    intros _ t1 m1 (-> & S1 & E1 & X1).
    eapply cwp_mono; [apply (cwp_free_part (good:=scrubbed) (Some l) [q]); [apply S1|]|].
    { intros l' c [= <-] Hc. rewrite E1 in Hc. by injection Hc as <-. }
    intros _ t2 m2 (-> & S2 & X2).
    eapply cwp_mono; [apply (cwp_free_ptr (good:=scrubbed) (Some q)); [apply S2|]|].
    { intros l' c [= <-] Hc. rewrite X2, X1, Eq in Hc by set_solver. by injection Hc as <-. }
    intros _ t3 m3 (-> & S3). split; [done|]. eauto using step_trans.
  - apply cwp_bind, cwp_ret. unfold locs in *. rewrite El in *. cbn [option_list app] in *.
    eapply cwp_mono; [apply (cwp_free_ptr (good:=scrubbed) (Some q)); [exact O|]|].
    { intros l' c [= <-] Hc. rewrite Eq in Hc. by injection Hc as <-. }
    done.
Qed.
#[export] Instance free_secret_releases : Releases scrubbed true free_secret.
Proof. intros q s t m. apply free_secret_spec. Qed.

Lemma encaps_free_spec q s t m :
  live m !! q = Some (CStruct s) -> owns (locs q s) m -> data_ok false (live m) s ->
  cwp (ehem_mlkem_encaps_result_free (Some q))
    (fun _ t' m' => t' = t /\ step scrubbed_ss (locs q s) m [] m') t m.
Proof.
  intros Eq O D. cbn [ehem_mlkem_encaps_result_free]. apply cwp_bind.
  eapply cwp_mono; [eapply (cwp_modify (good:=scrubbed_ss)); [exact Eq|exact O|unfold locs; set_solver]|].
  intros _ t1 m1 (-> & S1 & E1 & X1). apply cwp_bind, (cwp_load_struct _ _ _ _ _ E1).
  eapply cwp_mono; [apply (free_both (good:=scrubbed_ss) q (set_ss ss_zero s))|]; try done.
  - intros l c El Hc. cbn in El. destruct (D l El) as (b & Eb & _).
    assert (l <> q) as Nlq by congruence. rewrite X1, Eb in Hc by done. by injection Hc as <-.
  - apply S1.
  - intros _ t2 m2 (-> & S2). split; [done|]. by eapply step_trans.
Qed.
#[export] Instance encaps_free_releases : Releases scrubbed_ss false ehem_mlkem_encaps_result_free.
Proof. intros q s t m Eq _ O D. by apply encaps_free_spec. Qed.

Lemma secret_free_spec q s t m :
  live m !! q = Some (CStruct s) -> owns [q] m ->
  cwp (ehem_mlkem_secret_free (Some q)) (fun _ t' m' => t' = t /\ step scrubbed_ss [q] m [] m') t m.
Proof.
  intros Eq O. cbn [ehem_mlkem_secret_free]. apply cwp_bind.
  eapply cwp_mono; [eapply (cwp_modify (good:=scrubbed_ss)); [exact Eq|exact O|set_solver]|].
  intros _ t1 m1 (-> & S1 & E1 & X1).
  eapply cwp_mono; [apply (cwp_free_ptr (good:=scrubbed_ss) (Some q)); [apply S1|]|].
  { intros l' c [= <-] Hc. rewrite E1 in Hc. by injection Hc as <-. }
  intros _ t2 m2 (-> & S2). split; [done|]. by eapply step_trans.
Qed.

(** ** Decoded results *)

(** A freshly decoded result: its length set, the rest of the buffer never written. *)
Definition decoded_post (p : ptr) (d : bytes) (L : list positive) (m : cmem result_struct) : Prop :=
  exists q l r, p = Some q /\
    live m !! q = Some (CStruct (set_len (length d) (set_data (Some l) result_zero))) /\
    live m !! l = Some (CBytes (d ++ r)) /\ untouched (length d) (d ++ r) /\ L = [l; q].

(** The struct and its buffer: [calloc], then [malloc]. *)
Lemma alloc_value {A} (k : M A) w :
  bind calloc_or_fail (fun _ => bind malloc (fun ok => if negb ok then out_of_memory else k)) w =
  if p_malloc (w_tick w) then
    if p_malloc (S (w_tick w)) then k (at_tick (S (S (w_tick w))) w)
    else out_of_memory (at_tick (S (S (w_tick w))) w)
  else out_of_memory (at_tick (S (w_tick w)) w).
Proof.
  unfold calloc_or_fail, malloc, ask, bind. destruct (p_malloc (w_tick w)); [|done]. cbn.
  by destruct (p_malloc (S (w_tick w))).
Qed.

Section Decode.
Context {good : cell result_struct -> Prop} {secret : bool} {release : ptr -> C result_struct unit}
        `{!Releases good secret release}.

Definition new_post (n : nat) (t : nat) (m : cmem result_struct) (p : ptr) (t' : nat)
    (m' : cmem result_struct) : Prop :=
  match p with
  | None => step good [] m [] m' /\
      (p_malloc t = false /\ t' = S t \/
       p_malloc t = true /\ p_malloc (S t) = false /\ t' = S (S t))
  | Some q => p_malloc t = true /\ p_malloc (S t) = true /\ t' = S (S t) /\
      exists l, live m' !! q = Some (CStruct (set_data (Some l) result_zero)) /\
        live m' !! l = Some (CBytes (junk_bytes n)) /\ step good [] m [l; q] m'
  end.

Lemma new_result_spec n t m : cwp (new_result release n) (new_post n t m) t m.
Proof.
  unfold new_result. apply cwp_bind, cwp_allocate; [intros E; split; [apply step_refl, owns_nil|by left]|].
  intros q E Hq _. set (m1 := with_live _ m).
  assert (step good [] m [q] m1) as S1 by by apply step_new.
  assert (live m1 !! q = Some (CStruct result_zero)) as Eq by apply lookup_insert_eq.
  apply cwp_bind, cwp_allocate; [intros E2|intros l E2 Hl _]; apply cwp_bind.
  - eapply cwp_mono; [eapply (cwp_modify (good:=good)); [exact Eq|apply S1|set_solver]|].
    intros _ t2 m2 (-> & S2 & Eq2 & _). apply cwp_bind.
    eapply cwp_mono; [apply (release_spec q _ _ m2 Eq2 eq_refl)|].
    + apply S2.
    + by intros l [=].
    + intros _ t3 m3 (-> & S3). split; [by eapply step_trans, step_trans|]. by right.
  - set (m2 := with_live _ m1).
    destruct (step_more [] m [q] m1 [l] m2 S1) as [S2 X2]; [by apply step_new|].
    eapply cwp_mono; [eapply (cwp_modify (good:=good)); [|apply S2|set_solver]|].
    { rewrite X2 by set_solver. exact Eq. }
    intros _ t3 m3 (-> & S3 & Eq3 & X3). split; [done|]. split; [done|]. split; [done|]. exists l.
    split; [exact Eq3|]. split.
    + rewrite X3 by congruence. apply lookup_insert_eq.
    + assert ([l; q] ≡ₚ [q] ++ [l]) as -> by solve_Permutation. by eapply step_trans.
Qed.

(** Giving up a result whose length is not set yet. *)
Lemma drop_result_spec q l b t m :
  live m !! q = Some (CStruct (set_data (Some l) result_zero)) ->
  live m !! l = Some (CBytes b) -> owns [l; q] m ->
  cwp (drop_result release secret (length b) (Some q))
    (fun _ t' m' => t' = t /\ step good [l; q] m [] m') t m.
Proof.
  intros Eq El O. unfold drop_result. apply cwp_bind. assert (l <> q) as Nlq by congruence.
  destruct secret eqn:Es.
  - apply cwp_bind, (cwp_load_struct _ _ _ _ _ Eq). cbn [rs_data set_data].
    eapply cwp_mono; [eapply (cwp_zero (good:=good)); [exact El|exact O|set_solver|lia]|].
    intros _ t1 m1 (-> & S1 & E1 & X1).
    eapply cwp_mono; [eapply (release_spec q _ _ m1); [by rewrite X1|done|apply S1|]|].
    + intros l' [= <-]. exists (zero_prefix (length b) b). split; [exact E1|].
      split; [cbn; lia|]. intros _. cbn [rs_len set_data result_zero].
      rewrite zero_prefix_nil, zero_prefix_all. apply scrubbed_zeros.
    + intros _ t2 m2 (-> & S2). split; [done|]. by eapply step_trans.
  - apply cwp_ret. apply (release_spec q (set_data (Some l) result_zero) t m Eq eq_refl O).
    intros l' [= <-]. exists b. split; [done|]. split; [cbn; lia|done].
Qed.

(** The decoder on the buffer of a fresh result. *)
Lemma decode_data_spec q l b64 t m :
  live m !! q = Some (CStruct (set_data (Some l) result_zero)) ->
  live m !! l = Some (CBytes (junk_bytes (String.length b64))) -> owns [l; q] m ->
  cwp (decode_data (Some q) b64)
    (fun n t' m' => t' = t /\ step good [l; q] m [l; q] m' /\
       n = length <$> std_decode b64 (strlen b64) /\
       live m' !! q = Some (CStruct (set_data (Some l) result_zero)) /\
       live m' !! l = Some (CBytes (decoded b64 (junk_bytes (String.length b64))))) t m.
Proof.
  intros Eq El O. unfold decode_data. apply cwp_bind, (cwp_load_struct _ _ _ _ _ Eq).
  cbn [rs_data set_data].
  pose proof (length_junk_bytes (String.length b64)) as Hj.
  assert (strlen b64 = Z.of_nat (length (junk_bytes (String.length b64)))) as Es
    by (unfold strlen; lia).
  rewrite <- Hj at 1. eapply cwp_decode_at; [exact El|]. split; [done|].
  assert (l <> q) as Nlq by congruence.
  split; [apply step_store; [exact O|set_solver]|]. split; [by rewrite Es|].
  split; [cbn; by rewrite lookup_insert_ne|apply lookup_insert_eq].
Qed.

(** A failed decode, and a successful one. *)
Lemma bad_decode_refines {B} q l b64 msg Post (v : M B) w m :
  live m !! q = Some (CStruct (set_data (Some l) result_zero)) ->
  live m !! l = Some (CBytes (decoded b64 (junk_bytes (String.length b64)))) -> owns [l; q] m ->
  v = ehem_ctx_fail EHEM_ERR_PROTOCOL 200 None msg ->
  refines good (A:=ptr)
    (of_c (drop_result release secret (String.length b64) (Some q)) ;!!
     of_m (ehem_ctx_fail EHEM_ERR_PROTOCOL 200 None msg))%kmem v Post [l; q] w m.
Proof.
  intros Eq El O ->. apply refines_release; [|intros; apply refines_throws].
  pose proof (drop_result_spec q l _ (w_tick w) m Eq El O) as H.
  by rewrite length_decoded, length_junk_bytes in H.
Qed.

Lemma good_decode_refines q l b64 d w m :
  live m !! q = Some (CStruct (set_data (Some l) result_zero)) ->
  live m !! l = Some (CBytes (decoded b64 (junk_bytes (String.length b64)))) -> owns [l; q] m ->
  std_decode b64 (strlen b64) = Some d ->
  refines good (of_c (modify (Some q) (set_len (length d))) ;!! kret (Some q))%kmem
    (ret d) decoded_post [l; q] w m.
Proof.
  intros Eq El O Ed. assert (l <> q) as Nlq by congruence.
  set (junk := junk_bytes (String.length b64)) in *.
  pose proof (length_junk_bytes (String.length b64)) as Hj. fold junk in Hj.
  assert (std_decode b64 (Z.of_nat (length junk)) = Some d) as Ed' by (rewrite Hj; exact Ed).
  apply refines_mem. eapply cwp_mono; [eapply (cwp_modify (good:=good)); [exact Eq|exact O|set_solver]|].
  intros _ t2 m2 (-> & S2 & Eq2 & X2). split; [done|]. exists [l; q]. split; [exact S2|].
  apply refines_ret; [apply S2|]. exists q, l, (drop (length d) junk). split; [done|].
  split; [exact Eq2|]. rewrite X2, El by done. rewrite (decoded_some _ _ d) by done.
  split; [done|]. split; [|done]. pose proof (decoded_length_le _ _ _ Ed') as Hle.
  unfold untouched. rewrite drop_app_length, length_app, length_drop.
  replace (length d + (length junk - length d))%nat with (String.length b64) by lia. done.
Qed.

Lemma decode_result_refines b64 bad w m :
  refines good (decode_result release secret b64 bad) (decode_into b64 bad) decoded_post [] w m.
Proof.
  apply refines_work. eapply cwp_mono; [apply new_result_spec|]. intros [q|] t1 m1 H.
  - destruct H as (E1 & E2 & -> & l & Eq & El & S1).
    eexists _, [l; q]. split; [unfold decode_into; rewrite alloc_value, E1, E2; reflexivity|].
    split; [exact S1|]. apply refines_mem.
    eapply cwp_mono; [apply (decode_data_spec q l b64 _ m1 Eq El), S1|].
    intros n t2 m2 (-> & S2 & -> & Eq2 & El2). split; [done|]. exists [l; q]. split; [exact S2|].
    destruct (std_decode b64 (strlen b64)) as [[|d0 d]|] eqn:Ed; cbn [fmap option_fmap option_map length].
    1, 3: apply (bad_decode_refines q l); [exact Eq2|exact El2|apply S2|done].
    apply (good_decode_refines q l b64 (d0 :: d)); [exact Eq2|exact El2|apply S2|exact Ed].
  - destruct H as [S1 H]. exists out_of_memory, []. split; [|split; [exact S1|apply refines_throws]].
    unfold decode_into. rewrite alloc_value. destruct H as [[-> ->]|(-> & -> & ->)]; done.
Qed.

Lemma decode_required_refines root field missing bad w m :
  refines good (decode_required release secret root field missing bad)
    (Crypto.decode_required root field missing bad) decoded_post [] w m.
Proof.
  unfold decode_required, Crypto.decode_required. destruct (nonempty_string root field) as [b64|].
  - apply decode_result_refines.
  - apply refines_throws.
Qed.
End Decode.

(** ** Results *)

(** The blocks of a result: the struct, and a buffer that starts with the data; [view]
    reads the value off the struct and the data. *)
Definition result_at {B} (view : result_struct -> bytes -> B -> Prop)
    (h : heap) (p : ptr) (b : B) (L : list positive) : Prop :=
  exists q s l d r, p = Some q /\ h !! q = Some (CStruct s) /\ rs_data s = Some l /\
    rs_len s = length d /\ h !! l = Some (CBytes (d ++ r)) /\ untouched (length d) (d ++ r) /\
    view s d b /\ L = [l; q].

Definition blob_view (s : result_struct) (d b : bytes) : Prop := rs_ss s = ss_zero /\ b = d.
Definition ciphertext_view (s : result_struct) (d : bytes) (c : Crypto.ehem_ciphertext) : Prop :=
  c = {| Crypto.ct_bytes := d; Crypto.ct_iv := rs_iv s; Crypto.ct_tag := rs_tag s |}.
Definition encaps_view (s : result_struct) (d : bytes) (e : Crypto.ehem_mlkem_encaps_result) : Prop :=
  e = {| Crypto.me_alg := rs_alg s; Crypto.me_ss := rs_ss s; Crypto.me_ct := d |}.
Definition mldsa_view (s : result_struct) (d : bytes) (g : Crypto.ehem_mldsa_signature) : Prop :=
  g = {| Crypto.md_alg := rs_alg s; Crypto.md_sig := d |}.

(** A shared secret: the struct alone. *)
Definition secret_at (h : heap) (p : ptr) (x : Crypto.ehem_mlkem_secret) (L : list positive) : Prop :=
  exists q s, p = Some q /\ h !! q = Some (CStruct s) /\
    x = {| Crypto.ms_alg := rs_alg s; Crypto.ms_ss := rs_ss s |} /\ L = [q].

Definition result_post {B} (view : result_struct -> bytes -> B -> Prop) (p : ptr) (b : B)
    (L : list positive) (m : cmem result_struct) : Prop := result_at view (live m) p b L.
Definition secret_post (p : ptr) (x : Crypto.ehem_mlkem_secret)
    (L : list positive) (m : cmem result_struct) : Prop := secret_at (live m) p x L.

Lemma decoded_blob p d L m : decoded_post p d L m -> result_post blob_view p d L m.
Proof.
  intros (q & l & r & -> & Eq & El & U & ->).
  exists q, (set_len (length d) (set_data (Some l) result_zero)), l, d, r. by repeat split.
Qed.

Lemma result_frame {B} (view : _ -> _ -> B -> Prop) h h' p b L :
  (forall x, x ∈ L -> h' !! x = h !! x) -> result_at view h p b L -> result_at view h' p b L.
Proof.
  intros Hx (q & s & l & d & r & -> & Eq & Ed & Hn & El & U & Hv & ->).
  exists q, s, l, d, r. rewrite !Hx by set_solver. by repeat split.
Qed.
Lemma secret_frame h h' p b L :
  (forall x, x ∈ L -> h' !! x = h !! x) -> secret_at h p b L -> secret_at h' p b L.
Proof.
  intros Hx (q & s & -> & Eq & Hv & ->). exists q, s. rewrite Hx by set_solver. by repeat split.
Qed.

(** *** Release of a result *)

Lemma public_release {B} (view : _ -> _ -> B -> Prop) p b L t m :
  result_at view (live m) p b L -> owns L m ->
  cwp (free_public p) (fun _ t' m' => t' = t /\ step any L m [] m') t m.
Proof.
  intros (q & s & l & d & r & -> & Eq & Ed & _ & _ & _ & _ & ->) O.
  pose proof (free_public_spec q s t m Eq) as H. unfold locs in H. rewrite Ed in H. by apply H.
Qed.
Lemma secret_blob_release p b L t m :
  result_at blob_view (live m) p b L -> owns L m ->
  cwp (free_secret p) (fun _ t' m' => t' = t /\ step scrubbed L m [] m') t m.
Proof.
  intros (q & s & l & d & r & -> & Eq & Ed & Hn & El & U & [Hs _] & ->) O.
  pose proof (free_secret_spec q s t m Eq Hs) as H. unfold locs in H. rewrite Ed in H.
  apply H; [exact O|]. intros l' E. rewrite Ed in E. injection E as <-.
  exists (d ++ r). split; [exact El|]. rewrite Hn, length_app. split; [lia|].
  intros _. apply scrubbed_prefix; [rewrite length_app; lia|exact U].
Qed.
Lemma unwrapped_release p b L t m :
  result_at blob_view (live m) p b L -> owns L m ->
  cwp (ehem_unwrapped_free p) (fun _ t' m' => t' = t /\ step any L m [] m') t m.
Proof.
  intros H O. eapply cwp_mono; [by apply (secret_blob_release p b L t m)|].
  intros _ t' m' (-> & S1). split; [done|]. by eapply step_weaken.
Qed.
Lemma encaps_release p b L t m :
  result_at encaps_view (live m) p b L -> owns L m ->
  cwp (ehem_mlkem_encaps_result_free p) (fun _ t' m' => t' = t /\ step scrubbed_ss L m [] m') t m.
Proof.
  intros (q & s & l & d & r & -> & Eq & Ed & Hn & El & U & _ & ->) O.
  pose proof (encaps_free_spec q s t m Eq) as H. unfold locs in H. rewrite Ed in H.
  apply H; [exact O|]. intros l' E. rewrite Ed in E. injection E as <-.
  exists (d ++ r). split; [exact El|]. rewrite Hn, length_app. split; [lia|done].
Qed.
Lemma secret_release p b L t m :
  secret_at (live m) p b L -> owns L m ->
  cwp (ehem_mlkem_secret_free p) (fun _ t' m' => t' = t /\ step scrubbed_ss L m [] m') t m.
Proof. intros (q & s & -> & Eq & _ & ->) O. by eapply secret_free_spec. Qed.

(** Filling in more of a result: [c] turns the struct into [f] of it. *)
Definition fills (good : cell result_struct -> Prop) (c : ptr -> C result_struct unit)
    (f : result_struct -> result_struct) : Prop :=
  forall q s L t m, live m !! q = Some (CStruct s) -> owns L m -> q ∈ L ->
    cwp (c (Some q))
      (fun _ t' m' => t' = t /\ step good L m L m' /\ live m' !! q = Some (CStruct (f s)) /\
         forall x, x <> q -> live m' !! x = live m !! x) t m.

Lemma fills_one good f : fills good (fun p => modify p f) f.
Proof. intros q s L t m. apply cwp_modify. Qed.
Lemma fills_two good f g : fills good (fun p => modify p f ;! modify p g)%cmem (fun s => g (f s)).
Proof.
  intros q s L t m Eq O Hq. apply cwp_bind.
  eapply cwp_mono; [eapply (cwp_modify (good:=good)); [exact Eq|exact O|exact Hq]|].
  intros _ t1 m1 (-> & S1 & E1 & X1).
  eapply cwp_mono; [eapply (cwp_modify (good:=good)); [exact E1|apply S1|exact Hq]|].
  intros _ t2 m2 (-> & S2 & E2 & X2). split; [done|]. split; [by eapply step_trans|].
  split; [exact E2|]. intros x Hx. by rewrite X2, X1.
Qed.

Lemma fill_refines {good B} (view : _ -> _ -> B -> Prop) c f p d L (b : B) w m :
  decoded_post p d L m -> owns L m -> fills good c f ->
  (forall s, rs_data (f s) = rs_data s /\ rs_len (f s) = rs_len s) ->
  (forall l, view (f (set_len (length d) (set_data (Some l) result_zero))) d b) ->
  refines good (of_c (c p) ;!! kret p)%kmem (ret b) (result_post view) L w m.
Proof.
  intros (q & l & r & -> & Eq & El & U & ->) O Hc Hf Hv. assert (l <> q) as Nlq by congruence.
  apply refines_mem. eapply cwp_mono; [eapply Hc; [exact Eq|exact O|set_solver]|].
  intros _ t1 m1 (-> & S1 & E1 & X1). split; [done|]. exists [l; q].
  split; [exact S1|]. apply refines_ret; [apply S1|].
  eexists q, _, l, d, r. split; [done|]. split; [exact E1|].
  destruct (Hf (set_len (length d) (set_data (Some l) result_zero))) as [-> ->].
  split; [done|]. split; [done|]. rewrite X1 by done. by repeat split.
Qed.

(** Giving up a decoded result. *)
Lemma give_up_refines {good B} release p d L (v : M B) msg
    (Post : ptr -> B -> list positive -> cmem result_struct -> Prop) w m `{!Releases good false release} :
  decoded_post p d L m -> owns L m ->
  (forall w, v w = ehem_ctx_fail EHEM_ERR_PROTOCOL 200 None msg w) ->
  refines good (of_c (release p) ;!! of_m (ehem_ctx_fail EHEM_ERR_PROTOCOL 200 None msg))%kmem
    v Post L w m.
Proof.
  intros (q & l & r & -> & Eq & El & U & ->) O Hv. eapply refines_eq; [apply Hv|].
  apply refines_release; [|intros; apply refines_throws].
  apply (release_spec q (set_len (length d) (set_data (Some l) result_zero)) _ m Eq eq_refl O).
  intros l' [= <-]. exists (d ++ r). split; [exact El|]. split; [cbn; rewrite length_app; lia|done].
Qed.

(** ** The endpoints *)

Context `{Q : !Request}.

Lemma ehem_sign_refines kid alg msg sig_ctx out w m :
  refines any (ehem_sign kid alg msg sig_ctx out) (Crypto.ehem_sign kid alg msg sig_ctx out)
    (result_post blob_view) [] w m.
Proof.
  unfold ehem_sign, Crypto.ehem_sign. destruct kid as [kid|], alg as [alg|]; try apply refines_throw.
  destruct (b_null msg || negb out); [apply refines_throw|].
  repeat (apply then_refines; intros). eapply refines_mono; [|apply decoded_blob].
  apply decode_required_refines.
Qed.

Lemma ehem_ecdh_refines kid ext_kid pubkey alg out w m :
  refines scrubbed (ehem_ecdh kid ext_kid pubkey alg out)
    (Crypto.ehem_ecdh kid ext_kid pubkey alg out) (result_post blob_view) [] w m.
Proof.
  unfold ehem_ecdh, Crypto.ehem_ecdh. destruct kid as [kid|], out; try apply refines_throw.
  repeat (apply then_refines; intros). eapply refines_mono; [|apply decoded_blob].
  apply decode_required_refines.
Qed.

Lemma ehem_hmac_refines kid alg msg ext_kid pubkey out w m :
  refines any (ehem_hmac kid alg msg ext_kid pubkey out)
    (Crypto.ehem_hmac kid alg msg ext_kid pubkey out) (result_post blob_view) [] w m.
Proof.
  unfold ehem_hmac, Crypto.ehem_hmac. destruct kid as [kid|], out; try apply refines_throw.
  destruct (b_null msg); [apply refines_throw|].
  repeat (apply then_refines; intros). eapply refines_mono; [|apply decoded_blob].
  apply decode_required_refines.
Qed.

Lemma ehem_encrypt_refines kid alg msg aad ext_kid pubkey hkdf_ctx out w m :
  refines any (ehem_encrypt kid alg msg aad ext_kid pubkey hkdf_ctx out)
    (Crypto.ehem_encrypt kid alg msg aad ext_kid pubkey hkdf_ctx out)
    (result_post ciphertext_view) [] w m.
Proof.
  unfold ehem_encrypt, Crypto.ehem_encrypt. destruct kid as [kid|], alg as [alg|]; try apply refines_throw.
  destruct (b_null msg || negb out); [apply refines_throw|].
  apply then_refines; intros _ w1 m1. apply then_refines; intros body w2 m2.
  apply then_refines; intros root w3 m3. cbv zeta.
  eapply refines_bind; [apply decode_required_refines|]. intros p ct L w4 m4 Hp S4.
  destruct (Crypto.decode_fixed_field root "iv" _) as [iv|];
    [|eapply give_up_refines; [apply _|exact Hp|apply S4|done]].
  destruct (Crypto.decode_fixed_field root "tag" _) as [tag|];
    [|eapply give_up_refines; [apply _|exact Hp|apply S4|done]].
  eapply (fill_refines ciphertext_view (fun p => modify p (set_iv_tag iv tag)) _ p ct); [exact Hp|apply S4|apply fills_one|done|done].
Qed.

Lemma ehem_mldsa_sign_refines kid msg sig_ctx out w m :
  refines any (ehem_mldsa_sign kid msg sig_ctx out) (Crypto.ehem_mldsa_sign kid msg sig_ctx out)
    (result_post mldsa_view) [] w m.
Proof.
  unfold ehem_mldsa_sign, Crypto.ehem_mldsa_sign. destruct kid as [kid|], out; try apply refines_throw.
  destruct (b_null msg); [apply refines_throw|].
  apply then_refines; intros _ w1 m1. apply then_refines; intros body w2 m2.
  apply then_refines; intros root w3 m3.
  eapply refines_bind; [apply decode_required_refines|]. intros p sig L w4 m4 Hp S4.
  eapply (fill_refines mldsa_view (fun p => modify p (set_alg (Crypto.copy_alg root))) _ p sig); [exact Hp|apply S4|apply fills_one|done|done].
Qed.

Lemma ehem_mlkem_encaps_refines kid out w m :
  refines scrubbed_ss (ehem_mlkem_encaps kid out) (Crypto.ehem_mlkem_encaps kid out)
    (result_post encaps_view) [] w m.
Proof.
  unfold ehem_mlkem_encaps, Crypto.ehem_mlkem_encaps. destruct kid as [kid|], out; try apply refines_throw.
  apply then_refines; intros _ w1 m1. apply then_refines; intros _ w2 m2.
  apply then_refines; intros body w3 m3. apply then_refines; intros root w4 m4.
  eapply refines_bind; [apply decode_required_refines|]. intros p ct L w5 m5 Hp S5.
  destruct (Crypto.decode_ss root) as [ss|];
    [|eapply give_up_refines; [apply _|exact Hp|apply S5|done]].
  eapply (fill_refines encaps_view
    (fun p => modify p (set_ss ss) ;! modify p (set_alg (Crypto.copy_alg root)))%cmem _ p ct); [exact Hp|apply S5|apply fills_two|done|done].
Qed.

Lemma ehem_mlkem_decaps_refines kid ct out w m :
  refines scrubbed_ss (ehem_mlkem_decaps kid ct out) (Crypto.ehem_mlkem_decaps kid ct out)
    secret_post [] w m.
Proof.
  unfold ehem_mlkem_decaps, Crypto.ehem_mlkem_decaps. destruct kid as [kid|], out; try apply refines_throw.
  destruct (b_null ct); [apply refines_throw|].
  apply then_refines; intros _ w1 m1. apply then_refines; intros _ w2 m2.
  apply then_refines; intros _ w3 m3. apply then_refines; intros body w4 m4.
  apply then_refines; intros root w5 m5. apply refines_work, cwp_allocate; [intros E|intros q E Hq _].
  { exists out_of_memory, []. split; [unfold calloc_or_fail, malloc, ask, bind; by rewrite E|].
    split; [apply step_refl, owns_nil|apply refines_throws]. }
  eexists _, [q]. split; [unfold calloc_or_fail, malloc, ask; unfold bind at 1 2; rewrite E; reflexivity|].
  destruct (step_new (good:=scrubbed_ss) q (CStruct result_zero) m5 Hq) as [O F]. split; [by split|].
  set (m6 := with_live _ m5) in *.
  assert (live m6 !! q = Some (CStruct result_zero)) as Eq by apply lookup_insert_eq.
  destruct (Crypto.decode_ss root) as [ss|].
  - apply refines_mem. eapply cwp_mono; [apply (fills_two scrubbed_ss (set_ss ss) (set_alg (Crypto.copy_alg root))); [exact Eq|exact O|set_solver]|].
    intros _ t7 m7 (-> & S7 & E7 & _). split; [done|]. exists [q]. split; [exact S7|].
    apply refines_ret; [apply S7|]. eexists q, _. split; [done|]. split; [exact E7|done].
  - apply refines_release; [|intros; apply refines_throws]. by eapply secret_free_spec.
Qed.

Lemma ehem_decrypt_refines kid alg msg iv tag aad ext_kid pubkey hkdf_ctx out w m :
  refines scrubbed (ehem_decrypt kid alg msg iv tag aad ext_kid pubkey hkdf_ctx out)
    (Crypto.ehem_decrypt kid alg msg iv tag aad ext_kid pubkey hkdf_ctx out)
    (result_post blob_view) [] w m.
Proof.
  unfold ehem_decrypt, Crypto.ehem_decrypt. destruct kid as [kid|], alg as [alg|]; try apply refines_throw.
  destruct (b_null msg || negb out); [apply refines_throw|].
  apply then_refines; intros _ w1 m1. apply then_refines; intros body w2 m2.
  apply then_refines; intros root w3 m3.
  destruct (ehem_json_get_string (Some root) "plaintext") as [b64|]; [|apply refines_throws].
  apply refines_work. eapply cwp_mono; [apply (new_result_spec (good:=scrubbed) (secret:=true))|].
  intros [q|] t4 m4 H.
  2: { destruct H as [S4 H]. exists out_of_memory, [].
       split; [rewrite alloc_value; by destruct H as [[-> ->]|(-> & -> & ->)]|].
       split; [exact S4|apply refines_throws]. }
  destruct H as (E1 & E2 & -> & l & Eq & El & S4).
  eexists _, [l; q]. split; [rewrite alloc_value, E1, E2; reflexivity|]. split; [exact S4|].
  destruct (is_empty b64).
  { apply refines_ret; [apply S4|]. eexists q, _, l, [], (junk_bytes 1). split; [done|].
    split; [exact Eq|]. split; [done|]. split; [done|]. split; [exact El|].
    split; [unfold untouched; cbn [app]; by rewrite length_junk_bytes|done]. }
  apply refines_mem.
  eapply cwp_mono; [apply (decode_data_spec (good:=scrubbed) q l b64 _ m4 Eq El), S4|].
  intros n t5 m5 (-> & S5 & -> & Eq5 & El5). split; [done|]. exists [l; q]. split; [exact S5|].
  destruct (std_decode b64 (strlen b64)) as [d|] eqn:Ed; cbn [fmap option_fmap option_map].
  - eapply refines_mono; [|apply decoded_blob].
    apply (good_decode_refines q l b64 d); [exact Eq5|exact El5|apply S5|exact Ed].
  - apply (bad_decode_refines q l); [exact Eq5|exact El5|apply S5|done].
Qed.

(** *** Wrapping *)

Definition buffer_post (x : ptr * nat) (d : bytes) (L : list positive) (m : cmem result_struct) : Prop :=
  exists l r, x = (Some l, length d) /\ live m !! l = Some (CBytes (d ++ r)) /\
    untouched (length d) (d ++ r) /\ L = [l].

(** From the [malloc] of the buffer on. *)
Lemma wrap_decode_refines b64 msg w m :
  refines any
    (let!! data := of_c (allocate (CBytes (junk_bytes (String.length b64)))) in
     match data with
     | None => of_m out_of_memory
     | Some _ =>
         let!! n := of_c (decode_at data b64 (String.length b64)) in
         match n with
         | None | Some O => of_c (free data) ;!! of_m (ehem_ctx_fail EHEM_ERR_PROTOCOL 200 None msg)
         | Some n => kret (data, n)
         end
     end)%kmem
    (bind malloc (fun ok =>
       if negb ok then out_of_memory
       else match std_decode b64 (strlen b64) with
            | None | Some [] => ehem_ctx_fail EHEM_ERR_PROTOCOL 200 None msg
            | Some b => ret b
            end)) buffer_post [] w m.
Proof.
  apply refines_work, cwp_allocate; [intros E|intros l E Hl _].
  { exists out_of_memory, []. split; [unfold malloc, ask, bind; by rewrite E|].
    split; [apply step_refl, owns_nil|apply refines_throws]. }
  eexists _, [l]. split; [unfold malloc, ask; unfold bind at 1; rewrite E; reflexivity|].
  destruct (step_new (good:=any) l (CBytes (junk_bytes (String.length b64))) m Hl) as [O F].
  split; [by split|]. set (m1 := with_live _ m) in *. cbn [negb].
  set (junk := junk_bytes (String.length b64)) in *.
  pose proof (length_junk_bytes (String.length b64)) as Hj. fold junk in Hj.
  assert (strlen b64 = Z.of_nat (length junk)) as Es by (unfold strlen; lia).
  apply refines_mem. rewrite <- Hj, Es. eapply cwp_decode_at; [apply lookup_insert_eq|].
  split; [done|]. exists [l]. set (m2 := with_live _ m1).
  assert (step any [l] m1 [l] m2) as S2 by (apply step_store; [exact O|set_solver]).
  split; [exact S2|].
  assert (live m2 !! l = Some (CBytes (decoded b64 junk))) as El by apply lookup_insert_eq.
  assert (forall w, refines any (A:=ptr * nat)
    (of_c (free (Some l)) ;!! of_m (ehem_ctx_fail EHEM_ERR_PROTOCOL 200 None msg))%kmem
    (ehem_ctx_fail EHEM_ERR_PROTOCOL 200 None msg) buffer_post [l] w m2) as Hbad.
  { intros w'. apply refines_release; [|intros; apply refines_throws]. apply (free_ptr (Some l)), S2. }
  destruct (std_decode b64 (Z.of_nat (length junk))) as [[|d0 d]|] eqn:Ed; cbn [fmap option_fmap option_map length].
  1, 3: apply Hbad.
  apply refines_ret; [apply S2|]. exists l, (drop (length (d0 :: d)) junk). split; [done|].
  rewrite El, (decoded_some _ _ (d0 :: d)) by done. split; [done|]. split; [|done].
  pose proof (decoded_length_le _ _ _ Ed) as Hle.
  unfold untouched. rewrite drop_app_length, length_app, length_drop.
  replace (length (d0 :: d) + (length junk - length (d0 :: d)))%nat with (String.length b64) by lia. done.
Qed.

Lemma wrap_request_refines path scope body field w m :
  refines any (wrap_request path scope body field) (Crypto.wrap_request path scope body field)
    buffer_post [] w m.
Proof.
  unfold wrap_request, Crypto.wrap_request. apply then_refines. intros root w1 m1.
  destruct (nonempty_string root field) as [b64|]; [apply wrap_decode_refines|apply refines_throws].
Qed.

Lemma wrap_result_refines path scope body field w m :
  refines any (wrap_result path scope body field)
    (bind calloc_or_fail (fun _ => Crypto.wrap_request path scope body field))
    (result_post blob_view) [] w m.
Proof.
  apply refines_work, cwp_allocate; [intros E|intros q E Hq _].
  { exists out_of_memory, []. split; [unfold calloc_or_fail, malloc, ask, bind; by rewrite E|].
    split; [apply step_refl, owns_nil|apply refines_throws]. }
  exists (Crypto.wrap_request path scope body field), [q].
  split; [unfold calloc_or_fail, malloc, ask, bind; by rewrite E|].
  destruct (step_new (good:=any) q (CStruct result_zero) m Hq) as [O F]. split; [by split|].
  set (m1 := with_live _ m) in *.
  assert (live m1 !! q = Some (CStruct result_zero)) as Eq by apply lookup_insert_eq.
  eapply refines_eq; [apply bind_attempt_ret|].
  eapply refines_bind; [apply refines_attempt; [exact O|apply wrap_request_refines]|].
  intros [[data n]|rc] [d|rc'] L1 w1 m2 [X1 H1] S1; try done.
  - destruct H1 as (L2 & -> & (l & r & [= -> ->] & El & U & ->) & Ol).
    assert (live m2 !! q = Some (CStruct result_zero)) as Eq2 by (rewrite X1 by set_solver; exact Eq).
    assert (l <> q) as Nlq by congruence.
    apply refines_mem. eapply cwp_mono; [apply (fills_two any (set_data (Some l)) (set_len (length d)));
      [exact Eq2|apply S1|set_solver]|].
    intros _ t3 m3 (-> & S3 & E3 & X3). split; [done|]. exists ([q] ++ [l]). split; [exact S3|].
    assert ([q] ++ [l] ≡ₚ [l; q]) as Hp by solve_Permutation. rewrite Hp in S3.
    eapply (refines_perm [l; q]); [exact Hp|].
    apply refines_ret; [apply S3|]. eexists q, _, l, d, r. split; [done|]. split; [exact E3|].
    rewrite X3 by done. by repeat split.
  - destruct H1 as [-> ->]. apply refines_release; [|intros; apply refines_throw].
    apply (free_ptr (Some q)), S1.
Qed.

Lemma ehem_wrap_refines kid alg msg ext_kid pubkey hkdf_ctx iv out w m :
  refines any (ehem_wrap kid alg msg ext_kid pubkey hkdf_ctx iv out)
    (Crypto.ehem_wrap kid alg msg ext_kid pubkey hkdf_ctx iv out) (result_post blob_view) [] w m.
Proof.
  unfold ehem_wrap, Crypto.ehem_wrap. destruct kid as [kid|], out; try apply refines_throw.
  apply then_refines; intros _ w1 m1. apply then_refines; intros body w2 m2. apply wrap_result_refines.
Qed.
Lemma ehem_unwrap_refines kid alg msg ext_kid pubkey hkdf_ctx iv out w m :
  refines any (ehem_unwrap kid alg msg ext_kid pubkey hkdf_ctx iv out)
    (Crypto.ehem_unwrap kid alg msg ext_kid pubkey hkdf_ctx iv out) (result_post blob_view) [] w m.
Proof.
  unfold ehem_unwrap, Crypto.ehem_unwrap. destruct kid as [kid|], out; try apply refines_throw.
  apply then_refines; intros _ w1 m1. apply then_refines; intros body w2 m2. apply wrap_result_refines.
Qed.

(** ** Properties *)

(** C15: the crypto endpoints that return public data (sign, HMAC, encrypt, wrap,
    ML-DSA sign) and unwrap run in memory without undefined behaviour whatever the
    device answers and the allocator refuses, with the outcome of their description by
    values: a failure leaves the live memory as it was; a success is represented by a
    new struct and a new buffer that starts with the data, and the release function
    frees exactly these two. *)
Theorem crypto_results_in_memory kid alg msg sig_ctx ext_kid pubkey hkdf_ctx aad iv out :
  result_in_memory any (ehem_sign kid alg msg sig_ctx out)
    (Crypto.ehem_sign kid alg msg sig_ctx out) (result_at blob_view) ehem_signature_free /\
  result_in_memory any (ehem_hmac kid alg msg ext_kid pubkey out)
    (Crypto.ehem_hmac kid alg msg ext_kid pubkey out) (result_at blob_view) ehem_mac_free /\
  result_in_memory any (ehem_encrypt kid alg msg aad ext_kid pubkey hkdf_ctx out)
    (Crypto.ehem_encrypt kid alg msg aad ext_kid pubkey hkdf_ctx out)
    (result_at ciphertext_view) ehem_ciphertext_free /\
  result_in_memory any (ehem_wrap kid alg msg ext_kid pubkey hkdf_ctx iv out)
    (Crypto.ehem_wrap kid alg msg ext_kid pubkey hkdf_ctx iv out)
    (result_at blob_view) ehem_wrapped_free /\
  result_in_memory any (ehem_unwrap kid alg msg ext_kid pubkey hkdf_ctx iv out)
    (Crypto.ehem_unwrap kid alg msg ext_kid pubkey hkdf_ctx iv out)
    (result_at blob_view) ehem_unwrapped_free /\
  result_in_memory any (ehem_mldsa_sign kid msg sig_ctx out)
    (Crypto.ehem_mldsa_sign kid msg sig_ctx out) (result_at mldsa_view) ehem_mldsa_signature_free.
Proof.
  split_and!; apply result_from_refines; try (intros; by eapply result_frame);
    try (intros; by eapply public_release); try (intros; by eapply unwrapped_release); intros w m.
  - apply ehem_sign_refines.
  - apply ehem_hmac_refines.
  - apply ehem_encrypt_refines.
  - apply ehem_wrap_refines.
  - apply ehem_unwrap_refines.
  - apply ehem_mldsa_sign_refines.
Qed.

(** C16: no secret is left in released memory.  Through ECDH, decryption, ML-KEM
    encapsulation and decapsulation, whether they succeed, fail at any allocation or
    decode a malformed answer half-way, and through the release of their results,
    every buffer given back holds zeros and bytes that were never written (the public
    ciphertext of an encapsulation apart), and every struct a zero shared secret; these
    operations otherwise behave as their description by values.  Of unwrapping only
    the release of a delivered secret is claimed here: a failed unwrap is the
    exception, and the subject of [failed_unwrap_leaves_prefix]. *)
Theorem crypto_secrets_scrubbed kid alg msg iv tag aad ext_kid pubkey hkdf_ctx ct out :
  result_in_memory scrubbed (ehem_ecdh kid ext_kid pubkey alg out)
    (Crypto.ehem_ecdh kid ext_kid pubkey alg out) (result_at blob_view) ehem_ecdh_secret_free /\
  result_in_memory scrubbed (ehem_decrypt kid alg msg iv tag aad ext_kid pubkey hkdf_ctx out)
    (Crypto.ehem_decrypt kid alg msg iv tag aad ext_kid pubkey hkdf_ctx out)
    (result_at blob_view) ehem_plaintext_free /\
  result_in_memory scrubbed_ss (ehem_mlkem_encaps kid out)
    (Crypto.ehem_mlkem_encaps kid out) (result_at encaps_view) ehem_mlkem_encaps_result_free /\
  result_in_memory scrubbed_ss (ehem_mlkem_decaps kid ct out)
    (Crypto.ehem_mlkem_decaps kid ct out) secret_at ehem_mlkem_secret_free /\
  (forall w m p w' m' t,
     ehem_unwrap kid alg msg ext_kid pubkey hkdf_ctx iv out w m = Some (Ok p, w', m') ->
     exists m2, ehem_unwrapped_free p t m' = Done tt t m2 /\ leaves scrubbed m' m2).
Proof.
  split_and!.
  1-4: apply result_from_refines; try (intros; by eapply result_frame);
    try (intros; by eapply secret_frame); try (intros; by eapply secret_blob_release);
    try (intros; by eapply encaps_release); try (intros; by eapply secret_release); intros w m.
  - apply ehem_ecdh_refines.
  - apply ehem_decrypt_refines.
  - apply ehem_mlkem_encaps_refines.
  - apply ehem_mlkem_decaps_refines.
  - intros w m p w' m' t E.
    destruct (ehem_unwrap_refines kid alg msg ext_kid pubkey hkdf_ctx iv out w m)
      as (o & w2 & m2 & E2 & _ & H). rewrite E in E2. injection E2 as <- <- <-.
    destruct (fst _) as [b|rc|]; try done. destruct H as (L & R & S1).
    destruct (cwp_done _ _ _ _ (secret_blob_release p b L t m' R (proj1 S1)))
      as ([] & t2 & m2 & E2 & -> & _ & _ & W). eauto.
Qed.
End Rep.

(** ** A failed unwrap *)

Section Residue.
Context {P : Platform} {I : Indeterminate} `{Q : !Request}.

(** C17: what a failed unwrap leaves.  When the base64 text of the answer is malformed
    somewhere, [wrap_request] fails with PROTOCOL and frees its buffer as it is: the
    bytes decoded before the fault, of the secret the device was to unwrap, stay in the
    released block.  ([ehem_ecdh] and [ehem_decrypt] wipe this residue.) *)
Theorem failed_unwrap_leaves_prefix path scope body field b64 root w w1 m :
  Crypto.post_json path body scope w = (Ok root, w1) ->
  nonempty_string root field = Some b64 ->
  std_decode b64 (strlen b64) = None ->
  p_malloc (w_tick w1) = true ->
  exists w2 m' l, wrap_request path scope body field w m = Some (Err EHEM_ERR_PROTOCOL, w2, m') /\
    live m' = live m /\ live m !! l = None /\
    dead m' !! l = Some (CBytes (decoded b64 (junk_bytes (String.length b64)))).
Proof.
  intros Ep Ef Ed Em. unfold wrap_request, kbind at 1, of_m at 1. rewrite Ep, Ef.
  set (junk := junk_bytes (String.length b64)).
  pose proof (length_junk_bytes (String.length b64)) as Hj. fold junk in Hj.
  set (l := fresh (dom (live m) ∪ dom (dead m))).
  assert (live m !! l = None) as Hl.
  { apply not_elem_of_dom. intros H. apply (is_fresh (dom (live m) ∪ dom (dead m))). set_solver. }
  unfold kbind at 1, of_c at 1, allocate. rewrite Em. fold l junk.
  set (m1 := with_live _ m). set (w3 := at_tick _ w1).
  assert (exists m2, decode_at (Some l) b64 (String.length b64) (w_tick w3) m1 = Done None (w_tick w3) m2 /\
    live m2 = <[l := CBytes (decoded b64 junk)]> (live m) /\ dead m2 = dead m) as (m2 & E2 & L2 & D2).
  { assert (cwp (decode_at (Some l) b64 (String.length b64))
      (fun n t' m2 => n = None /\ t' = w_tick w3 /\
         live m2 = <[l := CBytes (decoded b64 junk)]> (live m) /\ dead m2 = dead m) (w_tick w3) m1) as H.
    { rewrite <- Hj at 1. eapply cwp_decode_at; [apply lookup_insert_eq|].
      assert (strlen b64 = Z.of_nat (length junk)) as <- by (unfold strlen; lia).
      rewrite Ed. split; [done|]. split; [done|]. split; [|done].
      unfold m1. cbn. by rewrite insert_insert_eq. }
    destruct (cwp_done _ _ _ _ H) as (n & t2 & m2 & E & -> & -> & ? & ?). eauto. }
  unfold kbind at 1, of_c at 1. rewrite E2. unfold kbind, of_c at 1, free.
  rewrite L2, lookup_insert_eq. do 3 eexists. split; [reflexivity|]. cbn.
  rewrite delete_insert_eq, delete_id by done. split; [done|]. split; [exact Hl|].
  apply lookup_insert_eq.
Qed.
End Residue.

(** ** Runs *)

Definition KID : string := "0123456789abcdef0123456789abcdef".
Definition answers : list (string * json) :=
  [("ecdh", JObject [("ecdh", JString "S0VZS0VZ")]);
   ("torn", JObject [("ecdh", JString "S0VZ!0VZ"); ("unwrapped", JString "S0VZ!0VZ")]);
   ("unwrapped", JObject [("unwrapped", JString "S0VZS0VZ")])].

Definition crypto_platform (bad : nat) : Platform :=
  platform_with (fake_platform answers) (fun n => negb (n =? bad)%nat)
    (@p_kdf_pbkdf2_sha256 (fake_platform [])).
Definition crypto_world (bad : nat) (answer : string) : @world (crypto_platform bad) :=
  @Build_world (crypto_platform bad) {| script := [http 200 answer]; fs_expired := false |} 0 true
    (fake_ctx true (Some (fake_session ("keymgmt:use:" +:+ KID) "tok"))) [].
Definition no_blocks : cmem result_struct := {| live := ∅; dead := ∅ |}.

Definition run_ecdh (bad : nat) (answer : string) :=
  @ehem_ecdh (crypto_platform bad) dirty_memory session_request (Some KID) (Some KID) no_buf None true
    (crypto_world bad answer) no_blocks.
Definition run_unwrap (answer : string) :=
  @ehem_unwrap (crypto_platform 99) dirty_memory session_request (Some KID) None (buf_of [1; 2; 3])
    None no_buf no_buf no_buf true (crypto_world 99 answer) no_blocks.

Definition bytes_left (x : cmem result_struct) : list bytes :=
  omap (fun c => match c with CBytes b => Some b | CStruct _ => None end)
    (map snd (map_to_list (dead x))).

(** The buffers left by a good answer, a torn one, and a torn one to unwrap: [75; 69; 89]
    is what precedes the fault. *)
Example ecdh_leaves :
  option_map (fun r => bytes_left (snd r)) (run_ecdh 99 "ecdh") = Some [] /\
  option_map (fun r => bytes_left (snd r)) (run_ecdh 99 "torn") = Some [repeat 0 8].
Proof. split; vm_compute; reflexivity. Qed.
Example unwrap_leaves :
  option_map (fun r => bytes_left (snd r)) (run_unwrap "torn") = Some [[75; 69; 89] ++ repeat 165 5].
Proof. vm_compute. reflexivity. Qed.

(** Every allocation of the exchange refused in turn: NOMEM or the answer, nothing live on
    failure. *)
Example ecdh_any_refusal :
  forallb (fun bad =>
    match run_ecdh bad "ecdh" with
    | Some (Ok _, _, m) => (size (live m) =? 2)%nat
    | Some (Err EHEM_ERR_NOMEM, _, m) =>
        (size (live m) =? 0)%nat &&
        forallb (forallb (fun x => (x =? 0) || (x =? 165))) (bytes_left m)
    | _ => false
    end) (seq 0 12) = true.
Proof. vm_compute. reflexivity. Qed.

Lemma crypto_secrets_scrubbed_witness :
  (exists w' m', run_ecdh 99 "torn" = Some (Err EHEM_ERR_PROTOCOL, w', m') /\ live m' = ∅ /\
     leaves (@scrubbed dirty_memory) no_blocks m') /\
  (exists p w' m' m2, run_unwrap "unwrapped" = Some (Ok p, w', m') /\
     ehem_unwrapped_free p O m' = Done tt 0%nat m2 /\ leaves (@scrubbed dirty_memory) m' m2).
Proof.
  split.
  - destruct (proj1 (@crypto_secrets_scrubbed (crypto_platform 99) dirty_memory session_request
      (Some KID) None no_buf no_buf no_buf no_buf (Some KID) no_buf no_buf no_buf true)
      (crypto_world 99 "torn") no_blocks) as (o & w' & m' & E & _ & R).
    assert (fst (@Crypto.ehem_ecdh (crypto_platform 99) session_request (Some KID) (Some KID) no_buf None
      true (crypto_world 99 "torn")) = Err EHEM_ERR_PROTOCOL) as V by (vm_compute; reflexivity).
    rewrite V in R. destruct o as [p|rc|]; try contradiction.
    destruct R as (-> & R & W). exists w', m'. split; [exact E|]. split; [exact R|exact W].
  - destruct (run_unwrap "unwrapped") as [[[[p|rc|] w'] m']|] eqn:E; try (vm_compute in E; discriminate E).
    destruct (proj2 (proj2 (proj2 (proj2 (@crypto_secrets_scrubbed (crypto_platform 99) dirty_memory
      session_request (Some KID) None (buf_of [1; 2; 3]) no_buf no_buf no_buf None no_buf no_buf no_buf
      true)))) (crypto_world 99 "unwrapped") no_blocks p w' m' O E) as (m2 & E2 & W).
    exists p, w', m', m2. split; [reflexivity|]. split; [exact E2|exact W].
Defined.

Lemma failed_unwrap_leaves_prefix_witness :
  exists w2 m' l,
    @wrap_request (crypto_platform 99) dirty_memory session_request "/api/crypto/cipher/unwrap"
      ("keymgmt:use:" +:+ KID) "{}" "unwrapped" (crypto_world 99 "torn") no_blocks
      = Some (Err EHEM_ERR_PROTOCOL, w2, m') /\
    dead m' !! l = Some (CBytes ([75; 69; 89] ++ repeat 165 5)).
Proof.
  destruct (@Crypto.post_json (crypto_platform 99) session_request "/api/crypto/cipher/unwrap" "{}"
    ("keymgmt:use:" +:+ KID) (crypto_world 99 "torn")) as [[root|rc|] w1] eqn:Ep;
    try (vm_compute in Ep; discriminate Ep).
  assert (nonempty_string root "unwrapped" = Some "S0VZ!0VZ"%string) as Ef.
  { assert (fst (@Crypto.post_json (crypto_platform 99) session_request "/api/crypto/cipher/unwrap" "{}"
      ("keymgmt:use:" +:+ KID) (crypto_world 99 "torn")) = Ok root) as E by (rewrite Ep; reflexivity).
    vm_compute in E. injection E as <-. reflexivity. }
  assert (@p_malloc (crypto_platform 99) (w_tick w1) = true) as Em.
  { assert (w_tick (snd (@Crypto.post_json (crypto_platform 99) session_request
      "/api/crypto/cipher/unwrap" "{}" ("keymgmt:use:" +:+ KID) (crypto_world 99 "torn"))) = w_tick w1)
      as E by (rewrite Ep; reflexivity).
    rewrite <- E. vm_compute. reflexivity. }
  destruct (@failed_unwrap_leaves_prefix (crypto_platform 99) dirty_memory session_request
    "/api/crypto/cipher/unwrap" ("keymgmt:use:" +:+ KID) "{}" "unwrapped" "S0VZ!0VZ" root
    (crypto_world 99 "torn") w1 no_blocks Ep Ef ltac:(vm_compute; reflexivity) Em)
    as (w2 & m' & l & E & _ & _ & D).
  exists w2, m', l. split; [exact E|exact D].
Defined.
