(* ===== verification/InfoMem.v ===== *)
(** * Results made of strings, in memory

    What the system, logger, notification, pairing and initialisation bindings return:
    a struct whose members are owned strings, at times an array of owned strings, and
    scalars.  Here is how [src/proto_system.c], [src/proto_logger.c],
    [src/proto_notify.c], [src/proto_ext.c] and [src/proto_auth.c] allocate, fill and
    release them.  Requests and the JSON tree are those of the files that model the
    bindings by values.

    One struct type stands for all of them: its [char *] members in the order they are
    listed at each operation, its one [char **] member with the count, and the scalar
    members as one value of a type [V] of the operation's own. *)

From stdpp Require Import gmap.
From S2P Require Import Prelude Base64 Json World Logic Context Ejwt Proto AuthState Notify Mem MemWorld CodecMem.
From S2P Require Checkin Ext System DeviceInit.

Open Scope cmem_scope.
Open Scope kmem_scope.

Record info_struct (V : Type) := {
  is_str : list ptr;
  is_array : ptr;
  is_count : nat;
  is_rest : V
}.
Arguments is_str {V}.
Arguments is_array {V}.
Arguments is_count {V}.
Arguments is_rest {V}.
Arguments Build_info_struct {V}.

Inductive info_obj (V : Type) := OInfo (s : info_struct V) | OArray (ps : list ptr).
Arguments OInfo {V} s.
Arguments OArray {V} ps.

(** Why a required member could not be copied. *)
Inductive copy_error := Missing (key : string) | NoMemory.

Section Info.
Context {P : Platform} {V : Type}.
Abbreviation C := (Mem.C (info_obj V)).
Abbreviation K := (MemWorld.K (info_obj V)).

Definition info_zero (n : nat) (v : V) : info_struct V :=
  {| is_str := repeat None n; is_array := None; is_count := 0; is_rest := v |}.
Definition set_str (i : nat) (p : ptr) (s : info_struct V) : info_struct V :=
  {| is_str := <[i := p]> (is_str s); is_array := is_array s; is_count := is_count s;
     is_rest := is_rest s |}.
Definition set_array (p : ptr) (s : info_struct V) : info_struct V :=
  {| is_str := is_str s; is_array := p; is_count := is_count s; is_rest := is_rest s |}.
Definition set_count (n : nat) (s : info_struct V) : info_struct V :=
  {| is_str := is_str s; is_array := is_array s; is_count := n; is_rest := is_rest s |}.
Definition set_rest (v : V) (s : info_struct V) : info_struct V :=
  {| is_str := is_str s; is_array := is_array s; is_count := is_count s; is_rest := v |}.

Definition load_info (p : ptr) : C (info_struct V) :=
  let! o := load_struct p in match o with OInfo s => cret s | OArray _ => undefined end.
Definition load_array (p : ptr) : C (list ptr) :=
  let! o := load_struct p in match o with OArray ps => cret ps | OInfo _ => undefined end.
Definition modify_info (p : ptr) (f : info_struct V -> info_struct V) : C unit :=
  let! s := load_info p in store p (CStruct (OInfo (f s))).

(** ** Release *)

Fixpoint free_members (ps : list ptr) : C unit :=
  match ps with [] => cret tt | p :: ps => free p ;! free_members ps end.

(** Every [char *] member, then the struct. *)
Definition free_info (p : ptr) : C unit :=
  match p with
  | None => cret tt
  | Some _ => let! s := load_info p in free_members (is_str s) ;! free p
  end.

(** [for (i = 0; i < count; i++) free(a[i])], from [i] with [k] to go. *)
Fixpoint free_elements (a : ptr) (i k : nat) : C unit :=
  match k with
  | O => cret tt
  | S k =>
      (let! ps := load_array a in
       match ps !! i with Some q => free q | None => undefined end) ;!
      free_elements a (S i) k
  end.

(** The same with an array of strings. *)
Definition free_listing (p : ptr) : C unit :=
  match p with
  | None => cret tt
  | Some _ =>
      let! s := load_info p in
      free_elements (is_array s) 0 (is_count s) ;!
      free (is_array s) ;!
      free_members (is_str s) ;!
      free p
  end.

(** ** Filling *)

Definition new_info (n : nat) (v : V) : C ptr := allocate (CStruct (OInfo (info_zero n v))).

(** Member [i] becomes [dup_str(s)]; whether it is not NULL. *)
Definition copy_to (r : ptr) (i : nat) (s : string) : C bool :=
  let! d := strdup s in
  modify_info r (set_str i d) ;!
  cret (match d with Some _ => true | None => false end).

(** A chain of required members: the error of the first that cannot be copied. *)
Fixpoint copy_required (r : ptr) (root : json) (l : list (nat * string)) : C (option copy_error) :=
  match l with
  | [] => cret None
  | (i, key) :: l =>
      match ehem_json_get_string (Some root) key with
      | None => cret (Some (Missing key))
      | Some s =>
          let! ok := copy_to r i s in
          if ok then copy_required r root l else cret (Some NoMemory)
      end
  end.

(** [opt_str] *)
Definition opt_str_to (r : ptr) (root : json) (i : nat) (key : string) : C bool :=
  match ehem_json_get_string (Some root) key with
  | None => cret true
  | Some s => copy_to r i s
  end.

(** A chain [opt_str(...) && opt_str(...) && ...]. *)
Fixpoint copy_optional (r : ptr) (root : json) (l : list (nat * string)) : C bool :=
  match l with
  | [] => cret true
  | (i, key) :: l =>
      let! ok := opt_str_to r root i key in
      if ok then copy_optional r root l else cret false
  end.

(** The array member becomes [calloc(n, sizeof *p)]. *)
Definition new_array (r : ptr) (n : nat) : C ptr :=
  let! a := allocate (CStruct (OArray (repeat None n))) in
  modify_info r (set_array a) ;!
  cret a.

(** [a[i] = p] *)
Definition store_element (a : ptr) (i : nat) (p : ptr) : C unit :=
  let! ps := load_array a in
  if (i <? length ps)%nat then store a (CStruct (OArray (<[i := p]> ps))) else undefined.

(** Element [i] becomes a copy of [s]; whether it is not NULL. *)
Definition copy_element (r : ptr) (i : nat) (s : string) : C bool :=
  let! d := strdup s in
  let! st := load_info r in
  store_element (is_array st) i d ;!
  cret (match d with Some _ => true | None => false end).

(** The struct, or NOMEM. *)
Definition with_info (n : nat) (v : V) (k : ptr -> K ptr) : K ptr :=
  let!! r := of_c (new_info n v) in
  match r with None => of_m out_of_memory | Some _ => k r end.

(** The struct is released, then the error recorded. *)
Definition drop_then {A} (release : ptr -> C unit) (r : ptr) (error : M A) : K A :=
  of_c (release r) ;!! of_m error.
(** The error is recorded, then the struct released. *)
Definition fail_then_drop (release : ptr -> C unit) (r : ptr) (error : M ptr) : K ptr :=
  let!! x := kattempt (of_m error) in
  of_c (release r) ;!!
  match x with inl p => kret p | inr rc => of_m (throw rc) end.
End Info.
Arguments info_obj V : clear implicits.
