(* ===== verification/InfoMemProps.v ===== *)
(** * Results made of strings, in memory: what the helpers do

    [filled] describes a result while it is being filled; the lemmas take an operation
    of [InfoMem] and its counterpart by values one member further. *)

From stdpp Require Import gmap.
From S2P Require Import Prelude Json World Logic Context Ejwt AuthState Notify Mem MemWorld CodecMem InfoMem.

Section Rep.
Context {P : Platform} {V : Type}.
Abbreviation heap := (gmap positive (cell (info_obj V))).
Implicit Types m : cmem (info_obj V).

Definition ptrs (l : list ptr) : list positive := concat (map option_list l).

(** The struct, the strings of its members, and its array. *)
Definition info_at (h : heap) (q : positive) (s : info_struct V) (ps : list ptr)
    (vals : list (option string)) : Prop :=
  h !! q = Some (CStruct (OInfo s)) /\ Forall2 (text_at h) (is_str s) vals /\
  match is_array s with
  | Some a => h !! a = Some (CStruct (OArray ps))
  | None => ps = [] /\ is_count s = 0%nat
  end.

Definition info_locs (q : positive) (s : info_struct V) (ps : list ptr) : list positive :=
  [q] ++ option_list (is_array s) ++ ptrs (is_str s) ++ ptrs ps.

Lemma ptrs_app l1 l2 : ptrs (l1 ++ l2) = ptrs l1 ++ ptrs l2.
Proof. unfold ptrs. by rewrite map_app, concat_app. Qed.
Lemma ptrs_repeat n : ptrs (repeat None n) = [].
Proof. by induction n. Qed.
Lemma ptrs_none l : Forall (eq None) l -> ptrs l = [].
Proof. by induction 1 as [|? ? <-]. Qed.
Lemma elem_ptrs x l : x ∈ ptrs l <-> Some x ∈ l.
Proof.
  induction l as [|[y|] l IH]; cbn.
  - split; by intros ?%not_elem_of_nil.
  - unfold ptrs in IH. rewrite !elem_of_cons, IH. naive_solver.
  - unfold ptrs in IH. rewrite elem_of_cons, IH. naive_solver.
Qed.

(** Filling a NULL member. *)
Lemma ptrs_insert (l : list ptr) i x : l !! i = Some None -> ptrs (<[i := Some x]> l) ≡ₚ x :: ptrs l.
Proof.
  revert i. induction l as [|p l IH]; intros [|i] H; cbn in *; try done.
  - injection H as ->. done.
  - change (option_list p ++ ptrs (<[i:=Some x]> l) ≡ₚ x :: option_list p ++ ptrs l).
    rewrite IH by done. solve_Permutation.
Qed.

Lemma texts_frame (h h' : heap) ps vals :
  (forall x, x ∈ ptrs ps -> h' !! x = h !! x) ->
  Forall2 (text_at h) ps vals -> Forall2 (text_at h') ps vals.
Proof.
  intros H F. induction F as [|p v ps vals E F IH]; [done|].
  change (ptrs (p :: ps)) with (option_list p ++ ptrs ps) in H. constructor.
  - eapply text_at_frame; [|exact E]. intros x Hx. apply H. set_solver.
  - apply IH. intros x Hx. apply H. set_solver.
Qed.

Lemma info_at_frame (h h' : heap) q s ps vals :
  (forall x, x ∈ info_locs q s ps -> h' !! x = h !! x) ->
  info_at h q s ps vals -> info_at h' q s ps vals.
Proof.
  unfold info_locs. intros H (Eq & F & A). split; [rewrite H; [done|set_solver]|]. split.
  - eapply texts_frame; [|exact F]. intros x Hx. apply H. set_solver.
  - destruct (is_array s) as [a|]; [|done]. rewrite H; [done|set_solver].
Qed.

(** ** Release *)

Lemma free_members_spec ps L t m :
  owns (ptrs ps ++ L) m ->
  cwp (free_members ps) (fun _ t' m' => t' = t /\ step any (ptrs ps ++ L) m L m' /\
    forall x, x ∈ L -> live m' !! x = live m !! x) t m.
Proof.
  revert t m. induction ps as [|p ps IH]; intros t m O.
  { apply cwp_ret. split; [done|]. split; [by apply step_refl|done]. }
  change (ptrs (p :: ps)) with (option_list p ++ ptrs ps) in *. rewrite <- app_assoc in *.
  apply cwp_bind. eapply cwp_mono; [by apply free_part|]. intros _ t1 m1 (-> & S1 & X1).
  eapply cwp_mono; [apply IH, S1|]. intros _ t2 m2 (-> & S2 & X2). split; [done|].
  split; [by eapply step_trans|]. intros x Hx. rewrite X2, X1 by set_solver. done.
Qed.

Lemma cwp_load_info q s Q t m :
  live m !! q = Some (CStruct (OInfo s)) -> Q s t m -> cwp (load_info (Some q)) Q t m.
Proof. intros E HQ. apply cwp_bind, (cwp_load_struct _ _ _ _ _ E), HQ. Qed.
Lemma cwp_load_array a ps Q t m :
  live m !! a = Some (CStruct (OArray ps)) -> Q ps t m -> cwp (load_array (Some a)) Q t m.
Proof. intros E HQ. apply cwp_bind, (cwp_load_struct _ _ _ _ _ E), HQ. Qed.

(** The elements from [i] on; what is after them is NULL. *)
Lemma free_elements_spec a ps k i L t m :
  live m !! a = Some (CStruct (OArray ps)) -> a ∈ L -> (i + k <= length ps)%nat ->
  Forall (eq None) (drop (i + k) ps) -> owns (ptrs (drop i ps) ++ L) m ->
  cwp (free_elements (Some a) i k) (fun _ t' m' => t' = t /\
    step any (ptrs (drop i ps) ++ L) m L m' /\
    forall x, x ∈ L -> live m' !! x = live m !! x) t m.
Proof.
  revert i t m. induction k as [|k IH]; intros i t m Ea Ha Hk Hn O; cbn [free_elements].
  { rewrite Nat.add_0_r in Hn. rewrite (ptrs_none _ Hn) in *. apply cwp_ret. split; [done|].
    split; [by apply step_refl|done]. }
  destruct (lookup_lt_is_Some_2 ps i) as [p Ep]; [lia|].
  rewrite (drop_S _ _ _ Ep) in *. change (ptrs (p :: drop (S i) ps)) with (option_list p ++ ptrs (drop (S i) ps)) in *.
  rewrite <- app_assoc in *. apply cwp_bind, cwp_bind, (cwp_load_array _ _ _ _ _ Ea). rewrite Ep.
  eapply cwp_mono; [by apply free_part|]. intros _ t1 m1 (-> & S1 & X1).
  eapply cwp_mono; [apply IH|].
  - rewrite X1 by set_solver. exact Ea.
  - done.
  - lia.
  - by replace (S i + k)%nat with (i + S k)%nat by lia.
  - apply S1.
  - intros _ t2 m2 (-> & S2 & X2). split; [done|]. split; [by eapply step_trans|].
    intros x Hx. rewrite X2, X1 by set_solver. done.
Qed.

(** The members and the struct, last in every release. *)
Lemma free_rest_spec q ps t m :
  owns (ptrs ps ++ [q]) m ->
  cwp (free_members ps ;! free (Some q))%cmem
    (fun _ t' m' => t' = t /\ step any (ptrs ps ++ [q]) m [] m') t m.
Proof.
  intros O. apply cwp_bind. eapply cwp_mono; [by apply free_members_spec|].
  intros _ t1 m1 (-> & S1 & _). eapply cwp_mono; [apply (free_ptr (Some q)), S1|].
  intros _ t2 m2 (-> & S2). split; [done|]. by eapply step_trans.
Qed.

(** The order of what is released does not matter. *)
Lemma release_perm L' (c : Mem.C (info_obj V) unit) L t m :
  L ≡ₚ L' -> owns L m ->
  (owns L' m -> cwp c (fun _ t' m' => t' = t /\ step any L' m [] m') t m) ->
  cwp c (fun _ t' m' => t' = t /\ step any L m [] m') t m.
Proof.
  intros Hp O H. rewrite Hp in O. eapply cwp_mono; [by apply H|].
  intros _ t' m' [-> S1]. split; [done|]. by rewrite Hp.
Qed.

Lemma free_info_spec q s t m :
  live m !! q = Some (CStruct (OInfo s)) -> is_array s = None -> owns (info_locs q s []) m ->
  cwp (free_info (Some q)) (fun _ t' m' => t' = t /\ step any (info_locs q s []) m [] m') t m.
Proof.
  intros Eq En O. unfold info_locs in *. rewrite En in *. cbn [option_list app ptrs map concat] in *.
  rewrite app_nil_r in *. apply (release_perm (ptrs (is_str s) ++ [q])); [solve_Permutation|exact O|].
  clear O. intros O. cbn [free_info]. apply cwp_bind, (cwp_load_info _ _ _ _ _ Eq).
  by apply free_rest_spec.
Qed.

Lemma free_listing_spec q s ps vals t m :
  info_at (live m) q s ps vals -> (is_count s <= length ps)%nat ->
  Forall (eq None) (drop (is_count s) ps) -> owns (info_locs q s ps) m ->
  cwp (free_listing (Some q)) (fun _ t' m' => t' = t /\ step any (info_locs q s ps) m [] m') t m.
Proof.
  intros (Eq & _ & A) Hc Hn O. unfold info_locs in *. cbn [free_listing].
  apply cwp_bind, (cwp_load_info _ _ _ _ _ Eq). destruct (is_array s) as [a|] eqn:Ea.
  - cbn [option_list app] in *.
    apply (release_perm (ptrs ps ++ [a] ++ ptrs (is_str s) ++ [q])); [solve_Permutation|exact O|].
    clear O. intros O. apply cwp_bind.
    eapply cwp_mono; [apply (free_elements_spec a ps (is_count s) 0 ([a] ++ ptrs (is_str s) ++ [q])); [exact A|set_solver|lia|done|exact O]|].
    intros _ t1 m1 (-> & S1 & X1). apply cwp_bind.
    eapply cwp_mono; [apply (free_part (Some a)), S1|]. intros _ t2 m2 (-> & S2 & X2).
    eapply cwp_mono; [apply free_rest_spec, S2|]. intros _ t3 m3 (-> & S3). split; [done|].
    by eapply step_trans, step_trans.
  - destruct A as [-> ->].
    cbn [option_list app ptrs map concat] in *. rewrite app_nil_r in *.
    apply (release_perm (ptrs (is_str s) ++ [q])); [solve_Permutation|exact O|].
    clear O. intros O. apply cwp_bind, cwp_ret, cwp_bind, cwp_free_null.
    by apply free_rest_spec.
Qed.

(** ** Filling *)

(** A result without an array, its members so far. *)
Definition filled (q : positive) (vals : list (option string)) (v : V) (L : list positive) m : Prop :=
  exists s, info_at (live m) q s [] vals /\ is_array s = None /\ is_rest s = v /\
    L ≡ₚ info_locs q s [] /\ owns L m.

Lemma filled_owns q vals v L m : filled q vals v L m -> owns L m.
Proof. by intros (s & _ & _ & _ & _ & O). Qed.

Lemma filled_free q vals v L t m :
  filled q vals v L m ->
  cwp (free_info (Some q)) (fun _ t' m' => t' = t /\ step any L m [] m') t m.
Proof.
  intros (s & (Eq & _) & En & _ & Hp & O). apply (release_perm (info_locs q s [])); [done..|].
  by apply free_info_spec.
Qed.

Lemma new_info_spec n v t m :
  cwp (new_info n v) (fun r t' m' => t' = S t /\
    match r with
    | None => p_malloc t = false /\ m' = m
    | Some q => p_malloc t = true /\ step any [] m [q] m' /\ filled q (repeat None n) v [q] m'
    end) t m.
Proof.
  apply cwp_allocate; [done|]. intros q E Hq _. split; [done|]. split; [done|].
  pose proof (step_new (good:=any) q (CStruct (OInfo (info_zero n v))) m Hq) as [O F].
  split; [by split|]. exists (info_zero n v). split; [split; [apply lookup_insert_eq|]|].
  - split; [|done]. cbn [is_str info_zero]. generalize (live (with_live (<[q:=CStruct (OInfo (info_zero n v))]> (live m)) m)). intros h.
    clear. induction n as [|n IH]; [done|]. cbn [repeat]. apply Forall2_cons. by split.
  - split; [done|]. split; [done|]. split; [|done].
    unfold info_locs. cbn [is_array is_str info_zero option_list app]. by rewrite ptrs_repeat.
Qed.

Lemma modify_info_spec q s f L t m :
  live m !! q = Some (CStruct (OInfo s)) -> owns L m -> q ∈ L ->
  cwp (modify_info (Some q) f)
    (fun _ t' m' => t' = t /\ step any L m L m' /\ live m' !! q = Some (CStruct (OInfo (f s))) /\
       forall x, x <> q -> live m' !! x = live m !! x) t m.
Proof.
  intros Eq O Hq. apply cwp_bind, (cwp_load_info _ _ _ _ _ Eq).
  apply (cwp_store _ _ _ _ _ _ Eq). split; [done|].
  split; [by apply step_store|]. split; [apply lookup_insert_eq|].
  intros x Hx. by apply lookup_insert_ne.
Qed.

(** What a step on the struct alone keeps. *)
Lemma owned_not_head q s ps m : owns (info_locs q s ps) m -> forall x, x ∈ option_list (is_array s) ++ ptrs (is_str s) ++ ptrs ps -> x <> q.
Proof.
  intros [N _] x Hx ->. unfold info_locs in N. apply NoDup_app in N as (_ & N & _).
  apply (N q); [set_solver|done].
Qed.

Lemma filled_rest q vals v v' L t m :
  filled q vals v L m ->
  cwp (modify_info (Some q) (set_rest v'))
    (fun _ t' m' => t' = t /\ step any L m L m' /\ filled q vals v' L m') t m.
Proof.
  intros (s & (Eq & F & A) & En & _ & Hp & O).
  assert (owns (info_locs q s []) m) as O' by by rewrite <- Hp.
  eapply cwp_mono; [apply modify_info_spec; [exact Eq|exact O|rewrite Hp; unfold info_locs; set_solver]|].
  intros _ t' m' (-> & S1 & E1 & X1). split; [done|]. split; [exact S1|].
  exists (set_rest v' s). split; [split; [exact E1|]|].
  - cbn. split; [|rewrite En in A |- *; exact A]. eapply texts_frame; [|exact F]. intros x Hx.
    apply X1. apply (owned_not_head _ _ _ _ O'). set_solver.
  - split; [done|]. split; [done|]. split; [done|apply S1].
Qed.

Lemma filled_frame q vals v L m m' :
  (forall x, x ∈ L -> live m' !! x = live m !! x) -> filled q vals v L m -> filled q vals v L m'.
Proof.
  intros H (s & A & En & Ev & Hp & N & O). exists s.
  split; [eapply info_at_frame; [|exact A]; intros x Hx; apply H; by rewrite Hp|].
  split; [done|]. split; [done|]. split; [done|]. split; [done|]. intros x Hx. rewrite H by done. auto.
Qed.

(** A NULL member takes over a string that is there already. *)
Lemma adopt_spec q vals v i l str L t m :
  filled q vals v L m -> vals !! i = Some None ->
  live m !! l = Some (CBytes (c_string str)) -> owns (L ++ [l]) m ->
  cwp (modify_info (Some q) (set_str i (Some l)))
    (fun _ t' m' => t' = t /\ step any (L ++ [l]) m (L ++ [l]) m' /\
       filled q (<[i := Some str]> vals) v (L ++ [l]) m') t m.
Proof.
  intros (s & (Eq & F & A) & En & Ev & Hp & O) Hi El O1.
  assert (owns (info_locs q s []) m) as O' by by rewrite <- Hp.
  assert (q ∈ L) as Hq by (rewrite Hp; unfold info_locs; set_solver).
  assert (is_str s !! i = Some None) as Hs.
  { destruct (Forall2_lookup_r _ _ _ _ _ F Hi) as ([p|] & E & T); [done|exact E]. }
  assert (l <> q) as Nlq by (intros ->; congruence).
  eapply cwp_mono; [apply (modify_info_spec q s); [exact Eq|exact O1|set_solver]|].
  intros _ t2 m2 (-> & S2 & E2 & X2). split; [done|]. split; [exact S2|]. exists (set_str i (Some l) s).
  split; [split; [exact E2|]; split; [|cbn; rewrite En in A |- *; exact A]|].
  - cbn. apply Forall2_insert.
    + eapply texts_frame; [|exact F]. intros x Hx. apply X2, (owned_not_head _ _ _ _ O'). set_solver.
    + cbn. by rewrite X2.
  - split; [done|]. split; [done|]. split; [|apply S2].
    unfold info_locs. cbn [is_str is_array set_str]. rewrite ptrs_insert by done.
    rewrite Hp. unfold info_locs. solve_Permutation.
Qed.

Lemma copy_to_spec q vals v i str L t m :
  filled q vals v L m -> vals !! i = Some None ->
  cwp (copy_to (Some q) i str)
    (fun ok t' m' => t' = S t /\ ok = p_malloc t /\ exists L', step any L m L' m' /\
       filled q (if ok then <[i := Some str]> vals else vals) v L' m') t m.
Proof.
  intros Hf Hi. pose proof Hf as (s & (Eq & F & A) & En & Ev & Hp & O). unfold copy_to.
  apply cwp_bind, cwp_allocate; [intros E|intros l E Hl _]; apply cwp_bind.
  - assert (owns (info_locs q s []) m) as O' by by rewrite <- Hp.
    assert (is_str s !! i = Some None) as Hs.
    { destruct (Forall2_lookup_r _ _ _ _ _ F Hi) as ([p|] & E' & T); [done|exact E']. }
    eapply cwp_mono; [apply modify_info_spec; [exact Eq|exact O|rewrite Hp; unfold info_locs; set_solver]|].
    intros _ t' m' (-> & S1 & E1 & X1). apply cwp_ret. split; [done|]. split; [done|].
    exists L. split; [exact S1|].
    assert (set_str i None s = s) as Es by (unfold set_str; rewrite list_insert_id by done; by destruct s).
    rewrite Es in E1. exists s. split; [|split; [done|]; split; [done|]; split; [done|apply S1]].
    split; [exact E1|]. split; [|rewrite En in A |- *; exact A]. eapply texts_frame; [|exact F].
    intros x Hx. apply X1, (owned_not_head _ _ _ _ O'). set_solver.
  - set (m1 := with_live _ m).
    destruct (step_more (good:=any) L m L m [l] m1) as [S1 X1]; [by apply step_refl|by apply step_new|].
    eapply cwp_mono; [apply (adopt_spec q vals v i l str L); [by eapply filled_frame|done|apply lookup_insert_eq|apply S1]|].
    intros _ t2 m2 (-> & S2 & F2). apply cwp_ret. split; [done|]. split; [done|].
    exists (L ++ [l]). split; [by eapply step_trans|exact F2].
Qed.

(** ** Arrays *)

(** A result with an array: [items] copied into it, [k] elements still NULL. *)
Definition listing (q : positive) (vals : list (option string)) (v : V) (items : list string)
    (k c : nat) (L : list positive) m : Prop :=
  exists s a ps, info_at (live m) q s ps vals /\ is_array s = Some a /\ is_count s = c /\
    is_rest s = v /\ L ≡ₚ info_locs q s ps /\ owns L m /\
    Forall2 (text_at (live m)) ps (map Some items ++ repeat None k).

Lemma nulls_drop (h : heap) ps items k :
  Forall2 (text_at h) ps (map Some items ++ repeat None k) ->
  (length items <= length ps)%nat /\ Forall (eq None) (drop (length items) ps).
Proof.
  intros F. pose proof (Forall2_length _ _ _ F) as Hl. rewrite length_app, length_map in Hl.
  split; [lia|]. apply (Forall2_drop _ _ _ (length items)) in F.
  rewrite drop_app_length' in F by by rewrite length_map.
  revert F. generalize (drop (length items) ps). clear. intros l. revert k.
  induction l as [|p l IH]; intros k F; [constructor|]. destruct k as [|k]; cbn [repeat] in F.
  - by apply Forall2_nil_inv_r in F.
  - apply Forall2_cons in F as [T F]. constructor; [by destruct p|by eapply IH].
Qed.

Lemma listing_free q vals v items k L t m :
  listing q vals v items k (length items) L m ->
  cwp (free_listing (Some q)) (fun _ t' m' => t' = t /\ step any L m [] m') t m.
Proof.
  intros (s & a & ps & A & Ea & Ec & _ & Hp & O & F).
  destruct (nulls_drop _ _ _ _ F) as [Hl Hn]. apply (release_perm (info_locs q s ps)); [done..|].
  intros O'. eapply free_listing_spec; [exact A|lia|by rewrite Ec|done].
Qed.

(** What a store into the struct, or into the array, leaves as it was. *)
Lemma listing_distinct q a s ps m :
  is_array s = Some a -> owns (info_locs q s ps) m ->
  q <> a /\ q ∉ ptrs (is_str s) ++ ptrs ps /\ a ∉ ptrs (is_str s) ++ ptrs ps.
Proof.
  unfold info_locs. intros -> [N _]. cbn [option_list app] in N.
  apply NoDup_cons in N as [Nq N]. apply NoDup_cons in N as [Na N]. set_solver.
Qed.

Lemma modify_listing q vals v items k c L f v' c' t m :
  (forall s, is_str (f s) = is_str s /\ is_array (f s) = is_array s) ->
  (forall s, is_rest s = v -> is_count s = c -> is_rest (f s) = v' /\ is_count (f s) = c') ->
  listing q vals v items k c L m ->
  cwp (modify_info (Some q) f)
    (fun _ t' m' => t' = t /\ step any L m L m' /\ listing q vals v' items k c' L m') t m.
Proof.
  intros Hf Hc (s & a & ps & (Eq & F & A) & Ea & Ec & Er & Hp & O & G).
  destruct (Hf s) as [Fs Fa]. destruct (Hc s Er Ec) as [Fr Fc].
  assert (owns (info_locs q s ps) m) as O' by by rewrite <- Hp.
  destruct (listing_distinct _ _ _ _ _ Ea O') as (Nqa & Nq & _). rewrite Ea in A.
  eapply cwp_mono; [apply (modify_info_spec q s f L); [exact Eq|exact O|rewrite Hp; unfold info_locs; set_solver]|].
  intros _ t' m' (-> & S1 & E1 & X1). split; [done|]. split; [exact S1|]. exists (f s), a, ps.
  split; [|split; [by rewrite Fa|]; split; [done|]; split; [done|]; split; [|split; [apply S1|]]].
  - split; [exact E1|]. rewrite Fs, Fa, Ea. split; [|by rewrite X1].
    eapply texts_frame; [|exact F]. intros x Hx. apply X1. set_solver.
  - unfold info_locs. rewrite Fs, Fa. exact Hp.
  - eapply texts_frame; [|exact G]. intros x Hx. apply X1. set_solver.
Qed.

Lemma count_listing q vals v items k c c' L t m :
  listing q vals v items k c L m ->
  cwp (modify_info (Some q) (set_count c'))
    (fun _ t' m' => t' = t /\ step any L m L m' /\ listing q vals v items k c' L m') t m.
Proof. by apply modify_listing. Qed.

Lemma new_array_spec q vals v n L t m :
  filled q vals v L m ->
  cwp (new_array (Some q) n) (fun r t' m' => t' = S t /\
    match r with
    | None => p_malloc t = false /\ step any L m L m' /\ filled q vals v L m'
    | Some _ => p_malloc t = true /\ exists L', step any L m L' m' /\ listing q vals v [] n 0 L' m'
    end) t m.
Proof.
  intros (s & (Eq & F & A) & En & Ev & Hp & O). rewrite En in A. destruct A as [_ Ec].
  assert (owns (info_locs q s []) m) as O' by by rewrite <- Hp.
  assert (q ∈ L) as Hq by (rewrite Hp; unfold info_locs; set_solver).
  apply cwp_bind, cwp_allocate; [intros E|intros a E Ha _]; apply cwp_bind.
  - eapply cwp_mono; [apply modify_info_spec; [exact Eq|exact O|exact Hq]|].
    intros _ t' m' (-> & S1 & E1 & X1). apply cwp_ret. split; [done|]. split; [done|].
    split; [exact S1|]. assert (set_array None s = s) as Es by (unfold set_array; rewrite <- En; by destruct s).
    rewrite Es in E1. exists s. split; [|split; [done|]; split; [done|]; split; [done|apply S1]].
    split; [exact E1|]. rewrite En. split; [|done]. eapply texts_frame; [|exact F].
    intros x Hx. apply X1, (owned_not_head _ _ _ _ O'). set_solver.
  - set (m1 := with_live _ m).
    destruct (step_more (good:=any) L m L m [a] m1) as [S1 X1]; [by apply step_refl|by apply step_new|].
    eapply cwp_mono; [apply (modify_info_spec q s); [|apply S1|set_solver]|].
    { rewrite X1 by done. exact Eq. }
    intros _ t2 m2 (-> & S2 & E2 & X2). apply cwp_ret. split; [done|]. split; [done|].
    exists (L ++ [a]). split; [by eapply step_trans|].
    assert (a <> q) as Naq by (intros ->; congruence).
    exists (set_array (Some a) s), a, (repeat None n).
    split; [split; [exact E2|]; split|].
    + cbn. eapply texts_frame; [|exact F]. intros x Hx.
      rewrite X2 by (apply (owned_not_head _ _ _ _ O'); set_solver).
      apply X1. rewrite Hp. unfold info_locs. set_solver.
    + cbn. rewrite X2 by done. apply lookup_insert_eq.
    + split; [done|]. split; [done|]. split; [done|]. split; [|split; [apply S2|]].
      * unfold info_locs. cbn [is_str is_array set_array option_list]. rewrite ptrs_repeat, Hp.
        unfold info_locs. rewrite En. cbn [option_list].
        change (ptrs []) with (@nil positive). solve_Permutation.
      * cbn [map app]. clear. induction n as [|n IH]; [done|]. cbn [repeat]. by apply Forall2_cons.
Qed.

Lemma cwp_assoc {A B D} (c : Mem.C (info_obj V) A) (f : A -> Mem.C (info_obj V) B)
    (g : B -> Mem.C (info_obj V) D) Q t m :
  cwp (cbind (cbind c f) g) Q t m -> cwp (cbind c (fun a => cbind (f a) g)) Q t m.
Proof. unfold cwp, cbind. by destruct (c t m). Qed.

(** The next element is there, and NULL. *)
Lemma listing_next (h : heap) ps items k :
  Forall2 (text_at h) ps (map Some items ++ repeat None (S k)) ->
  (length items < length ps)%nat /\ ps !! length items = Some None.
Proof.
  intros G. destruct (nulls_drop _ _ _ _ G) as [_ Hn].
  pose proof (Forall2_length _ _ _ G) as H. rewrite length_app, length_map, repeat_length in H.
  split; [lia|]. destruct (lookup_lt_is_Some_2 ps (length items)) as [p Ep]; [lia|].
  rewrite (drop_S _ _ _ Ep) in Hn. by inversion Hn; subst.
Qed.

Lemma listing_frame q vals v items k c L m m' :
  (forall x, x ∈ L -> live m' !! x = live m !! x) ->
  listing q vals v items k c L m -> listing q vals v items k c L m'.
Proof.
  intros H (s & a & ps & A & Ea & Ec & Er & Hp & [N O] & G). exists s, a, ps.
  split; [eapply info_at_frame; [|exact A]; intros x Hx; apply H; by rewrite Hp|].
  repeat (split; [done|]). split; [split; [done|]; intros x Hx; rewrite H by done; auto|].
  eapply texts_frame; [|exact G]. intros x Hx. apply H. rewrite Hp. unfold info_locs. set_solver.
Qed.

(** [a[i] = p] for the next element, NULL and then a string that is there already. *)
Lemma store_null_spec q vals v items k c L t m :
  listing q vals v items (S k) c L m ->
  cwp (let! st := load_info (Some q) in store_element (is_array st) (length items) None)%cmem
    (fun _ t' m' => t' = t /\ step any L m L m' /\ listing q vals v items (S k) c L m') t m.
Proof.
  intros H. pose proof H as (s & a & ps & (Eq & F & A) & Ea & Ec & Er & Hp & O & G). rewrite Ea in A.
  destruct (listing_next _ _ _ _ G) as [Hl Hi].
  apply cwp_bind, (cwp_load_info _ _ _ _ _ Eq). rewrite Ea. apply cwp_bind, (cwp_load_array _ _ _ _ _ A).
  destruct (Nat.ltb_spec (length items) (length ps)); [|lia].
  apply (cwp_store _ _ _ _ _ _ A). rewrite list_insert_id by done. split; [done|].
  split; [apply step_store; [done|rewrite Hp; unfold info_locs; rewrite Ea; set_solver]|].
  eapply listing_frame; [|exact H]. intros x _. cbn. by rewrite insert_id.
Qed.

Lemma adopt_element_spec q vals v items k c l str L t m :
  listing q vals v items (S k) c L m -> live m !! l = Some (CBytes (c_string str)) -> owns (L ++ [l]) m ->
  cwp (let! st := load_info (Some q) in store_element (is_array st) (length items) (Some l))%cmem
    (fun _ t' m' => t' = t /\ step any (L ++ [l]) m (L ++ [l]) m' /\
       listing q vals v (items ++ [str]) k c (L ++ [l]) m') t m.
Proof.
  intros (s & a & ps & (Eq & F & A) & Ea & Ec & Er & Hp & O & G) El O1. rewrite Ea in A.
  assert (owns (info_locs q s ps) m) as O' by by rewrite <- Hp.
  destruct (listing_distinct _ _ _ _ _ Ea O') as (Nqa & Nq & Na).
  destruct (listing_next _ _ _ _ G) as [Hl Hi].
  apply cwp_bind, (cwp_load_info _ _ _ _ _ Eq). rewrite Ea. apply cwp_bind, (cwp_load_array _ _ _ _ _ A).
  destruct (Nat.ltb_spec (length items) (length ps)); [|lia].
  apply (cwp_store _ _ _ _ _ _ A). split; [done|].
  assert (step any (L ++ [l]) m (L ++ [l]) (with_live (<[a:=CStruct (OArray (<[length items:=Some l]> ps))]> (live m)) m)) as S1.
  { apply step_store; [exact O1|]. rewrite Hp. unfold info_locs. rewrite Ea. set_solver. }
  split; [exact S1|]. set (m2 := with_live _ m) in *.
  assert (forall x, x <> a -> live m2 !! x = live m !! x) as X2 by (intros x Hx; by apply lookup_insert_ne).
  assert (forall x, x ∈ ptrs (is_str s) ++ ptrs ps -> live m2 !! x = live m !! x) as X3 by (intros x Hx; apply X2; set_solver).
  exists s, a, (<[length items := Some l]> ps).
  split; [|split; [done|]; split; [done|]; split; [done|]; split; [|split; [apply S1|]]].
  - split; [by rewrite X2|]. rewrite Ea. split; [|apply lookup_insert_eq].
    eapply texts_frame; [|exact F]. intros x Hx. apply X3. set_solver.
  - unfold info_locs. rewrite ptrs_insert by done. rewrite Hp. unfold info_locs. solve_Permutation.
  - rewrite map_app, <- app_assoc. cbn [map app].
    assert (map Some items ++ Some str :: repeat None k =
            <[length items := Some str]> (map Some items ++ repeat None (S k))) as ->.
    { rewrite insert_app_r_alt by by rewrite length_map. by rewrite length_map, Nat.sub_diag. }
    apply Forall2_insert; [eapply texts_frame; [|exact G]; intros x Hx; apply X3; set_solver|].
    cbn. rewrite X2 by (intros ->; congruence). exact El.
Qed.

Lemma copy_element_spec q vals v items k c str L t m :
  listing q vals v items (S k) c L m ->
  cwp (copy_element (Some q) (length items) str)
    (fun ok t' m' => t' = S t /\ ok = p_malloc t /\ exists L', step any L m L' m' /\
       (if ok then listing q vals v (items ++ [str]) k c L' m'
        else listing q vals v items (S k) c L' m')) t m.
Proof.
  intros H. pose proof H as (s & a & ps & _ & _ & _ & _ & _ & O & _).
  apply cwp_bind, cwp_allocate; [intros E|intros l E Hlv _]; rewrite E; apply cwp_assoc, cwp_bind.
  - eapply cwp_mono; [by eapply store_null_spec|]. intros _ t1 m1 (-> & S1 & H1).
    apply cwp_ret. split; [done|]. split; [done|]. by exists L.
  - set (m1 := with_live _ m).
    destruct (step_more (good:=any) L m L m [l] m1) as [S1 X1]; [by apply step_refl|by apply step_new|].
    eapply cwp_mono; [apply (adopt_element_spec q vals v items k c l str L); [by eapply listing_frame|apply lookup_insert_eq|apply S1]|].
    intros _ t2 m2 (-> & S2 & H2). apply cwp_ret. split; [done|]. split; [done|].
    exists (L ++ [l]). split; [by eapply step_trans|exact H2].
Qed.

(** ** Refinement, a step at a time *)

Lemma refines_c_bind {A D B} (c : Mem.C (info_obj V) A) (h : A -> Mem.C (info_obj V) D)
    (f : D -> MemWorld.K (info_obj V) ptr) (v : M B) Post L w m :
  refines any (kbind (of_c c) (fun a => kbind (of_c (h a)) f)) v Post L w m ->
  refines any (kbind (of_c (cbind c h)) f) v Post L w m.
Proof.
  unfold refines, kbind, of_c, cbind. destruct (c (w_tick w) m) as [a t' m'| |]; [|done..].
  cbn. by destruct (h a t' m').
Qed.

Lemma refines_c_ret {A B} (a : A) (f : A -> MemWorld.K (info_obj V) ptr) (v : M B) Post L w m :
  refines any (f a) v Post L w m -> refines any (kbind (of_c (cret a)) f) v Post L w m.
Proof.
  unfold refines, kbind, of_c, cret. assert (at_tick (w_tick w) w = w) as -> by by destruct w. done.
Qed.

Lemma refines_k_eq {A B} (k k' : MemWorld.K (info_obj V) A) (v : M B) Post L w m :
  k w m = k' w m -> refines any k' v Post L w m -> refines any k v Post L w m.
Proof. unfold refines. by intros ->. Qed.

Lemma of_c_assoc {A A' D E} (c : Mem.C (info_obj V) A) (g : A -> Mem.C (info_obj V) A')
    (h : A' -> Mem.C (info_obj V) D) (f : D -> MemWorld.K (info_obj V) E) w m :
  kbind (of_c (cbind (cbind c g) h)) f w m = kbind (of_c (cbind c (fun a => cbind (g a) h))) f w m.
Proof. unfold kbind, of_c, cbind. by destruct (c (w_tick w) m). Qed.

Lemma of_c_ret_assoc {A E} (c : Mem.C (info_obj V) A) (f : A -> MemWorld.K (info_obj V) E) w m :
  kbind (of_c c) f w m = kbind (of_c (cbind c cret)) f w m.
Proof. unfold kbind, of_c, cbind. by destruct (c (w_tick w) m). Qed.

Lemma kbind_ret {A} (k : MemWorld.K (info_obj V) A) w m : k w m = kbind k kret w m.
Proof. unfold kbind, kret. by destruct (k w m) as [[[[] ?] ?]|]. Qed.

(** Two computations that fail alike, at any result types. *)
Definition fail_alike {A B} (v : M A) (v' : M B) : Prop :=
  forall w, exists rc w', v w = (Err rc, w') /\ v' w = (Err rc, w').

Lemma ctx_fail_alike {A B} rc st p msg :
  fail_alike (ehem_ctx_fail (A:=A) rc st p msg) (ehem_ctx_fail (A:=B) rc st p msg).
Proof.
  intros w. unfold ehem_ctx_fail, dup_str, malloc, ask, bind, ret, throw, upd_ctx.
  destruct p; cbn; eauto.
Qed.
Lemma bind_ctx_fail {A B} rc st p msg (g : A -> M B) w :
  bind (ehem_ctx_fail rc st p msg) g w = ehem_ctx_fail rc st p msg w.
Proof.
  unfold bind. destruct (ctx_fail_alike (A:=A) (B:=B) rc st p msg w) as (rc' & w' & -> & ->). done.
Qed.
Lemma throw_alike {A B} rc : fail_alike (throw (A:=A) rc) (throw (A:=B) rc).
Proof. intros w. by exists rc, w. Qed.

Section Steps.
Context {B : Type} {Post : ptr -> B -> list positive -> cmem (info_obj V) -> Prop}.
Abbreviation refines := (refines any).

Lemma alike_refines (v : M ptr) (v' : M B) w m : fail_alike v v' -> refines (of_m v) v' Post [] w m.
Proof.
  intros H. destruct (H w) as (rc & w' & E & E'). unfold MemWorld.refines, of_m. rewrite E, E'.
  do 3 eexists. split; [done|]. split; [done|]. split; [done|]. apply step_refl, owns_nil.
Qed.

Lemma with_info_refines n v k (g : M B) w m :
  (forall q w m, filled q (repeat None n) v [q] m -> refines (k (Some q)) g Post [q] w m) ->
  refines (with_info n v k) (bind calloc_or_fail (fun _ => g)) Post [] w m.
Proof.
  intros Hk. apply refines_work. eapply cwp_mono; [apply new_info_spec|]. intros [q|] t' m' [-> H].
  - destruct H as (E & S1 & F). exists g, [q].
    split; [unfold calloc_or_fail, malloc, ask, bind; by rewrite E|]. split; [exact S1|by apply Hk].
  - destruct H as [E ->]. exists out_of_memory, [].
    split; [unfold calloc_or_fail, malloc, ask, bind; by rewrite E|].
    split; [apply step_refl, owns_nil|]. apply fail_refines.
Qed.

Lemma drop_refines q vals v L (e : M ptr) (e' : M B) w m :
  filled q vals v L m -> fail_alike e e' ->
  refines (drop_then free_info (Some q) e) e' Post L w m.
Proof.
  intros F H. apply refines_release; [by eapply filled_free|]. intros m'. by apply alike_refines.
Qed.

Lemma fail_drop_refines q vals v L (e : M ptr) (e' : M B) w m :
  filled q vals v L m -> fail_alike e e' ->
  refines (fail_then_drop free_info (Some q) e) e' Post L w m.
Proof.
  intros F H. destruct (H w) as (rc & w' & E & E').
  unfold fail_then_drop, MemWorld.refines, kbind at 1, kattempt, of_m at 1. rewrite E, E'.
  destruct (cwp_done _ _ _ _ (filled_free q vals v L (w_tick w') m F)) as ([] & t2 & m2 & E2 & -> & S2).
  unfold kbind, of_c. rewrite E2. unfold of_m, throw. do 3 eexists. split; [done|].
  split; [by destruct w'|done].
Qed.

Lemma copy_refines {D} q vals v i s (h : bool -> Mem.C (info_obj V) D) f (g : option string -> M B) L w m :
  filled q vals v L m -> vals !! i = Some None ->
  (forall L w m, filled q (<[i := Some s]> vals) v L m ->
     refines (kbind (of_c (h true)) f) (g (Some s)) Post L w m) ->
  (forall L w m, filled q vals v L m -> refines (kbind (of_c (h false)) f) (g None) Post L w m) ->
  refines (kbind (of_c (cbind (copy_to (Some q) i s) h)) f) (bind (dup_str s) g) Post L w m.
Proof.
  intros F Hi Ht Hf. apply refines_c_bind, refines_work.
  eapply cwp_mono; [by apply copy_to_spec|]. intros ok t' m' (-> & -> & L1 & S1 & F1).
  eexists (g (if p_malloc (w_tick w) then Some s else None)), L1.
  split; [|split; [exact S1|]].
  - rewrite (bind_ticks _ _ _ _ _ _ (ticks_dup s (w_tick w))) by done. done.
  - destruct (p_malloc (w_tick w)); [by apply Ht|by apply Hf].
Qed.

Lemma copy_optional_cons r root i key l :
  copy_optional (V:=V) r root ((i, key) :: l) =
  (let! ok := opt_str_to r root i key in if ok then copy_optional r root l else cret false)%cmem.
Proof. done. Qed.

(** A copy whose failure is only looked at later. *)
Lemma copy_any_refines q vals v i s f (g : option string -> M B) L w m :
  filled q vals v L m -> vals !! i = Some None ->
  (forall o L w m, filled q (<[i := o]> vals) v L m ->
     refines (f (match o with Some _ => true | None => false end)) (g o) Post L w m) ->
  refines (kbind (of_c (copy_to (Some q) i s)) f) (bind (dup_str s) g) Post L w m.
Proof.
  intros F Hi Hk. eapply refines_k_eq; [apply of_c_ret_assoc|].
  eapply copy_refines; [exact F|exact Hi|..]; intros L1 w1 m1 F1; apply refines_c_ret.
  - by apply (Hk (Some s)).
  - apply (Hk None). by rewrite list_insert_id.
Qed.

(** What cannot fail, beside owned memory. *)
Lemma own_then_refines {D} (c : M D) (f : D -> MemWorld.K (info_obj V) ptr) (g : D -> M B) L w m :
  owns L m -> (forall w, exists a w', c w = (Ok a, w')) ->
  (forall a w, refines (f a) (g a) Post L w m) ->
  refines (kbind (of_m c) f) (bind c g) Post L w m.
Proof.
  intros O Hc Hk. destruct (Hc w) as (a & w' & E). specialize (Hk a w').
  unfold MemWorld.refines, kbind, of_m, bind in *. by rewrite E.
Qed.

Lemma required_cons q vals v i key l root f (req miss : M string) (bad : copy_error -> M B) g L w m :
  filled q vals v L m -> vals !! i = Some None ->
  req = match ehem_json_get_string (Some root) key with None => miss | Some s => dup_or_fail s end ->
  (forall w, bind miss g w = bad (Missing key) w) ->
  bad NoMemory = out_of_memory ->
  (forall e vals L w m, filled q vals v L m -> refines (f (Some e)) (bad e) Post L w m) ->
  (forall s L w m, ehem_json_get_string (Some root) key = Some s ->
     filled q (<[i := Some s]> vals) v L m ->
     refines (kbind (of_c (copy_required (Some q) root l)) f) (g s) Post L w m) ->
  refines (kbind (of_c (copy_required (Some q) root ((i, key) :: l))) f) (bind req g) Post L w m.
Proof.
  intros F Hi -> Hm Hb Hgive Hnext. cbn [copy_required].
  destruct (ehem_json_get_string (Some root) key) as [s|] eqn:Es.
  - apply refines_eq with (v' := bind (dup_str s)
      (fun o => bind (match o with Some d => ret d | None => out_of_memory end) g)).
    { unfold dup_or_fail, bind. by destruct (dup_str s w) as [[] ?]. }
    eapply copy_refines; [exact F|exact Hi|..]; intros L1 w1 m1 F1.
    + eapply refines_eq; [|eapply Hnext; [done|exact F1]]. done.
    + apply refines_c_ret. eapply refines_eq; [apply bind_ctx_fail|].
      change (ehem_ctx_fail EHEM_ERR_NOMEM 0 None "out of memory") with (out_of_memory (A:=B)).
      rewrite <- Hb. by eapply Hgive.
  - apply refines_c_ret. eapply refines_eq; [apply Hm|]. by eapply Hgive.
Qed.

Lemma optional_cons {X} q vals v i key l root f (F : option string -> M (option X)) (bad : M B) G L w m :
  filled q vals v L m -> vals !! i = Some None ->
  G None = bad ->
  (forall vals L w m, filled q vals v L m -> refines (f false) bad Post L w m) ->
  (forall a L w m, ehem_json_get_string (Some root) key = a ->
     filled q (<[i := a]> vals) v L m ->
     refines (kbind (of_c (copy_optional (Some q) root l)) f) (bind (F a) G) Post L w m) ->
  refines (kbind (of_c (copy_optional (Some q) root ((i, key) :: l))) f)
    (bind (bind (opt_str (Some root) key) (fun o => match o with Some a => F a | None => ret None end)) G)
    Post L w m.
Proof.
  intros Hf Hi HG Hbad Hnext. cbn [copy_optional]. unfold opt_str_to, opt_str.
  destruct (ehem_json_get_string (Some root) key) as [s|] eqn:Es.
  - apply refines_eq with (v' := bind (dup_str s)
      (fun o => match o with Some d => bind (F (Some d)) G | None => bad end)).
    { rewrite <- HG. unfold bind. by destruct (dup_str s w) as [[[]| |] ?]. }
    eapply copy_refines; [exact Hf|exact Hi|..]; intros L1 w1 m1 F1.
    + eapply Hnext; [done|exact F1].
    + apply refines_c_ret. by eapply Hbad.
  - apply refines_c_bind, refines_c_ret. eapply refines_eq; [reflexivity|].
    apply Hnext; [done|]. by rewrite list_insert_id.
Qed.

Lemma rest_refines q vals v v' (k : MemWorld.K (info_obj V) ptr) (g : M B) L w m :
  filled q vals v L m ->
  (forall m, filled q vals v' L m -> refines k g Post L w m) ->
  refines (kbind (of_c (modify_info (Some q) (set_rest v'))) (fun _ => k)) g Post L w m.
Proof.
  intros F Hk. apply refines_mem. eapply cwp_mono; [eapply filled_rest, F|].
  intros _ t' m' (-> & S1 & F1). split; [done|]. exists L. auto.
Qed.
End Steps.

(** ** Results *)

(** The blocks of a result whose members are [strs b] and scalars [rest b]. *)
Definition info_result {B} (strs : B -> list (option string)) (rest : B -> V)
    (h : heap) (p : ptr) (b : B) (L : list positive) : Prop :=
  exists q s, p = Some q /\ info_at h q s [] (strs b) /\ is_array s = None /\ is_rest s = rest b /\
    L ≡ₚ info_locs q s [].

Lemma info_result_frame {B} strs rest (h h' : heap) p (b : B) L :
  (forall x, x ∈ L -> h' !! x = h !! x) -> info_result strs rest h p b L -> info_result strs rest h' p b L.
Proof.
  intros H (q & s & -> & A & En & Er & Hp). exists q, s. split; [done|]. split; [|done].
  eapply info_at_frame; [|exact A]. intros x Hx. apply H. by rewrite Hp.
Qed.

Lemma info_result_release {B} strs rest p (b : B) L t m :
  info_result strs rest (live m) p b L -> owns L m ->
  cwp (free_info p) (fun _ t' m' => t' = t /\ step any L m [] m') t m.
Proof.
  intros (q & s & -> & (Eq & _) & En & _ & Hp) O. apply (release_perm (info_locs q s [])); [done..|].
  by apply free_info_spec.
Qed.

Lemma done_refines {B} strs rest q vals v (b : B) L w m :
  filled q vals v L m -> vals = strs b -> v = rest b ->
  refines any (kret (Some q)) (ret b) (fun p b L m => info_result strs rest (live m) p b L) L w m.
Proof.
  intros (s & A & En & Er & Hp & O) -> ->. apply refines_ret; [exact O|]. exists q, s. auto.
Qed.
End Rep.
