(* ===== verification/SystemMem.v ===== *)
(** * System, logger and initialisation results in memory

    The operations of [src/proto_system.c], [src/proto_logger.c] and the end of
    [ehem_device_init] that return a struct, on the memory of [InfoMem]: every
    allocation, every early exit with what it releases, and the release functions.
    The scalar members, which own nothing, are stored at once where the code stores
    them one by one. *)

From stdpp Require Import gmap.
From S2P Require Import Prelude Base64 Json World Logic Context Ejwt Proto AuthState Notify Mem MemWorld CodecMem InfoMem.
From S2P Require Checkin Ext System DeviceInit.

Open Scope cmem_scope.
Open Scope kmem_scope.

(** The scalar members of [ehem_status_info]; an optional one is its [has_*] flag and
    its value. *)
Record status_rest := {
  sr_ctx : Z; sr_fls_state : Z; sr_uptime : Z; sr_temp : spec_float; sr_time : option Z;
  sr_fw_upgrade : option bool; sr_inited : option bool; sr_https : option bool;
  sr_tts : option bool
}.
Definition status_zero : status_rest :=
  {| sr_ctx := 0; sr_fls_state := 0; sr_uptime := 0; sr_temp := S754_zero false;
     sr_time := None; sr_fw_upgrade := None; sr_inited := None; sr_https := None;
     sr_tts := None |}.

(** The scalar members of [ehem_config_info]. *)
Record config_rest := {
  cr_iat : option Z; cr_uts : option Z; cr_ctx : option Z; cr_storage_mode : option Z;
  cr_storage_disk0size : option Z; cr_storage_capacity : option Z;
  cr_dnsd : option bool; cr_trusted_ts : option bool; cr_trusted_backend : option bool;
  cr_allow_keysearch : option bool; cr_http_hsts : option bool
}.
Definition config_zero : config_rest :=
  {| cr_iat := None; cr_uts := None; cr_ctx := None; cr_storage_mode := None;
     cr_storage_disk0size := None; cr_storage_capacity := None; cr_dnsd := None;
     cr_trusted_ts := None; cr_trusted_backend := None; cr_allow_keysearch := None;
     cr_http_hsts := None |}.

Section System.
Context {P : Platform}.
Abbreviation C V := (Mem.C (info_obj V)).
Abbreviation K V := (MemWorld.K (info_obj V)).

Definition system_error {A} (what : string) (e : copy_error) : M A :=
  match e with
  | Missing key => System.missing_field what key
  | NoMemory => out_of_memory
  end.

(** ** Status *)

Definition ehem_system_status_free : ptr -> C status_rest unit := free_listing.

(** The loop over the elements, from [i] with [k] to go; [storage_count] counts the
    copies made. *)
Fixpoint copy_strings {V} (s : ptr) (l : jptr) (i : Z) (k : nat) : C V bool :=
  match k with
  | O => cret true
  | S k =>
      match ehem_json_as_string (ehem_json_array_get l i) with
      | None => copy_strings s l (i + 1) k
      | Some v =>
          let! st := load_info s in
          let! ok := copy_element s (is_count st) v in
          if ok then
            modify_info s (set_count (S (is_count st))) ;!
            copy_strings s l (i + 1) k
          else cret false
      end
  end.

(** [calloc] of the array and the loop, or nothing if there are no elements. *)
Definition copy_storage (s : ptr) (root : json) : C status_rest bool :=
  let node := ehem_json_get (Some root) "storage" in
  let n := if ehem_json_is_array node then ehem_json_array_size node else 0 in
  if 0 <? n then
    let! a := new_array s (Z.to_nat n) in
    match a with
    | None => cret false
    | Some _ => copy_strings s node 0 (Z.to_nat n)
    end
  else cret true.

Definition parse_status (root : json) : K status_rest ptr :=
  let i64 := ehem_json_get_int64 (Some root) in
  let bool_ := ehem_json_get_bool (Some root) in
  with_info 3 status_zero (fun s =>
    let missing key := drop_then ehem_system_status_free s
                         (System.missing_field "system/status" key) in
    let oom := drop_then ehem_system_status_free s out_of_memory in
    match i64 "ctx" with
    | None => missing "ctx"
    | Some ctx =>
    match i64 "fls_state" with
    | None => missing "fls_state"
    | Some fls =>
    match i64 "uptime" with
    | None => missing "uptime"
    | Some uptime =>
    match ehem_json_get_double (Some root) "temp" with
    | None => missing "temp"
    | Some temp =>
        let!! ok := of_c (copy_optional s root [(0%nat, "ts"); (1%nat, "hostname"); (2%nat, "format")]) in
        if negb ok then oom
        else
          of_c (modify_info s (set_rest
            {| sr_ctx := ctx; sr_fls_state := fls; sr_uptime := uptime; sr_temp := temp;
               sr_time := i64 "time"; sr_fw_upgrade := bool_ "fw_upgrade";
               sr_inited := bool_ "inited"; sr_https := bool_ "https";
               sr_tts := bool_ "tts" |})) ;!!
          let!! ok := of_c (copy_storage s root) in
          if negb ok then oom else kret s
    end end end end).

(** ** Version, config *)

Definition ehem_system_version_free : ptr -> C unit unit := free_info.

(** hwv, fwv, blv, fwk, fws, blk, bls, uis, sd_csd, sd_cid *)
Definition parse_version (root : json) : K unit ptr :=
  with_info 10 tt (fun v =>
    let!! e := of_c (copy_required v root [(0%nat, "hwv"); (1%nat, "fwv")]) in
    match e with
    | Some e => drop_then ehem_system_version_free v (system_error "system/version" e)
    | None =>
        let!! ok := of_c (copy_optional v root
          [(2%nat, "blv"); (3%nat, "fwk"); (4%nat, "fws"); (5%nat, "blk"); (6%nat, "bls");
           (7%nat, "uis"); (8%nat, "sd_csd"); (9%nat, "sd_cid")]) in
        if negb ok then drop_then ehem_system_version_free v out_of_memory else kret v
    end).

Definition ehem_system_config_free : ptr -> C config_rest unit := free_info.

(** devid, hostname, user, email, eid, instanceid, origin, ip, genuine_id *)
Definition parse_config (root : json) : K config_rest ptr :=
  let i64 := ehem_json_get_int64 (Some root) in
  let bool_ := ehem_json_get_bool (Some root) in
  with_info 9 config_zero (fun c =>
    let!! e := of_c (copy_required c root [(0%nat, "devid"); (1%nat, "hostname"); (2%nat, "user")]) in
    match e with
    | Some e => drop_then ehem_system_config_free c (system_error "system/config" e)
    | None =>
        let!! ok := of_c (copy_optional c root
          [(3%nat, "email"); (4%nat, "eid"); (5%nat, "instanceid"); (6%nat, "origin");
           (7%nat, "ip"); (8%nat, "genuine_id")]) in
        if negb ok then drop_then ehem_system_config_free c out_of_memory
        else
          of_c (modify_info c (set_rest
            {| cr_iat := i64 "iat"; cr_uts := i64 "uts"; cr_ctx := i64 "ctx";
               cr_storage_mode := i64 "storage_mode";
               cr_storage_disk0size := i64 "storage_disk0size";
               cr_storage_capacity := i64 "storage_capacity"; cr_dnsd := bool_ "dnsd";
               cr_trusted_ts := bool_ "trusted_ts";
               cr_trusted_backend := bool_ "trusted_backend";
               cr_allow_keysearch := bool_ "allow_keysearch";
               cr_http_hsts := bool_ "http_option_hsts" |})) ;!!
          kret c
    end).

(** ** Certificate inspection *)

Context {I : Indeterminate}.

Definition ehem_cert_info_free : ptr -> C unit unit := free_info.

(** [malloc] of the DER buffer and the decode into it: the buffer and the length. *)
Definition decode_der (crt : string) : C unit (ptr * option nat) :=
  let! der := allocate (CBytes (junk_bytes (String.length crt))) in
  match der with
  | None => cret (None, None)
  | Some _ => let! n := decode_at der crt (String.length crt) in cret (der, n)
  end.

(** serial, subject_cn, not_before, not_after *)
Definition ehem_cert_inspect (crt_b64 : option string) (out : bool) : K unit ptr :=
  match crt_b64, out with
  | Some crt, true =>
      of_m ehem_ctx_clear_error ;!!
      if strlen crt =? 0 then
        of_m (ehem_ctx_fail EHEM_ERR_PROTOCOL 0 None "cert: empty certificate string")
      else
        let!! (der, n) := of_c (decode_der crt) in
        match der, n with
        | None, _ => of_m out_of_memory
        | Some _, None =>
            of_c (free der) ;!!
            of_m (ehem_ctx_fail EHEM_ERR_PROTOCOL 0 None "cert: not valid base64")
        | Some _, Some n =>
            let!! b := of_c (load_bytes der) in
            let!! (rc, f) := of_m (ask (fun t => p_cert_parse_leaf t (take n b))) in
            of_c (free der) ;!!
            if negb (ok_rc rc) then
              of_m (ehem_ctx_fail EHEM_ERR_PROTOCOL 0 None
                "cert: could not parse X.509 leaf certificate")
            else
              with_info 4 tt (fun info =>
                let!! serial := of_c (copy_to info 0 (cf_serial_hex f)) in
                let!! cn := of_c (copy_to info 1 (cf_subject_cn f)) in
                let!! nb := of_c (copy_to info 2 (cf_not_before f)) in
                let!! na := of_c (copy_to info 3 (cf_not_after f)) in
                if serial && cn && nb && na then kret info
                else drop_then ehem_cert_info_free info out_of_memory)
        end
  | _, _ => of_m (throw EHEM_ERR_ARG)
  end.

(** ** Check-in *)

Definition ehem_checkin_result_free : ptr -> C bool unit := free_info.

(** [p != NULL && p[0] != 0] *)
Definition nonempty_text {V} (p : ptr) : C V bool :=
  match p with
  | None => cret false
  | Some _ =>
      let! b := load_bytes p in
      match b with x :: _ => cret (negb (x =? 0)) | [] => undefined end
  end.

(** [false] is NOMEM; the pointer is [*out], NULL where it is left alone. *)
Definition harvest_jwt_claim {V} (envelope env_key claim : string) : C V (bool * ptr) :=
  match ehem_json_parse envelope with
  | None => cret (true, None)
  | Some env =>
      match ehem_json_get_string (Some env) env_key ≫= Checkin.jwt_payload_segment with
      | None => cret (true, None)
      | Some seg =>
          if is_empty seg then cret (true, None)
          else
            let! raw := allocate (CBytes (junk_bytes (String.length seg))) in
            match raw with
            | None => cret (false, None)
            | Some _ =>
                let! n := url_decode_at raw seg (String.length seg) in
                match n with
                | None => free raw ;! cret (true, None)
                | Some n =>
                    let! b := load_bytes raw in
                    match ehem_json_get_string
                            (ehem_json_parse (string_of_bytes (take n b))) claim with
                    | None => free raw ;! cret (true, None)
                    | Some value =>
                        let! dup := strdup value in
                        free raw ;!
                        cret (match dup with Some _ => true | None => false end, dup)
                    end
                end
            end
      end
  end.

(** Member 5 is [current_serial]. *)
Definition harvest_current_serial (challenge : string) (r : ptr) : C bool bool :=
  let! (ok, csn_b64) := harvest_jwt_claim challenge "check" "csn" in
  match ok, csn_b64 with
  | false, _ => cret false
  | true, None => cret true
  | true, Some _ =>
      let! s := string_at csn_b64 in
      free csn_b64 ;!
      match ehem_b64_std_decode (Some s) (strlen s) false 64 with
      | None | Some [] => cret true
      | Some serial =>
          copy_to r 5 (Checkin.ehem_serial_hex serial Checkin.EHEM_CERT_SERIAL_HEX_CAP)
      end
  end.

(** status, newcrt, newfws, newuis, newcrt_chain, current_serial; the scalar member is
    [cert_updated]. *)
Definition parse_checkin (root : json) : K bool ptr :=
  with_info 6 false (fun r =>
    let!! ok := of_c (copy_optional r root
      [(0%nat, "status"); (1%nat, "newcrt"); (2%nat, "newfws"); (3%nat, "newuis")]) in
    if negb ok then drop_then ehem_checkin_result_free r out_of_memory
    else
      of_c (let! s := load_info r in
            let! updated := nonempty_text (default None (is_str s !! 1%nat)) in
            modify_info r (set_rest updated)) ;!!
      kret r).

(** Member 4 is [newcrt_chain]. *)
Definition harvest_all (challenge verified : string) (r : ptr) : C bool bool :=
  let! (ok, chain) := harvest_jwt_claim verified "checked" "newcrt" in
  match chain with Some _ => modify_info r (set_str 4 chain) | None => cret tt end ;!
  if ok then harvest_current_serial challenge r else cret false.

Context `{Q : !Request}.

Definition checkin_details (challenge verified : string) (root : json) : K bool ptr :=
  let!! r := parse_checkin root in
  let!! ok := of_c (harvest_all challenge verified r) in
  if ok then kret r else drop_then ehem_checkin_result_free r out_of_memory.

Definition checkin_legs (dev_ov : ehem_tls_req_override) (want : bool) : K bool ptr :=
  let!! challenge := of_m (ehem_proto_request_raw EHEM_HTTP_GET CHECKIN_PATH None None dev_ov) in
  let!! c := of_m get_ctx in
  let!! verified :=
    of_m (ehem_proto_request_raw EHEM_HTTP_POST (checkin_url (cfg c)) (Some challenge) None
            EHEM_TLS_REQ_VERIFY) in
  let!! root :=
    of_m (ehem_proto_request_json EHEM_HTTP_POST CHECKIN_PATH (Some verified) None dev_ov) in
  if want then checkin_details challenge verified root else kret None.

(** [*out]; NULL without [want]. *)
Definition ehem_checkin_run (relax_device_tls want : bool) : K bool ptr :=
  let dev_ov := if relax_device_tls then EHEM_TLS_REQ_RELAX else EHEM_TLS_REQ_DEFAULT in
  of_m (upd_ctx (ctx_set_in_checkin true)) ;!!
  let!! r := kattempt (checkin_legs dev_ov want) in
  of_m (upd_ctx (ctx_set_in_checkin false)) ;!!
  match r with
  | inl r => kret r
  | inr rc => of_m (throw rc)
  end.

Definition ehem_system_checkin (out : bool) : K bool ptr :=
  if negb out then of_m (throw EHEM_ERR_ARG)
  else of_m ehem_ctx_clear_error ;!! ehem_checkin_run true true.

(** ** The other endpoints *)

Definition ehem_system_status (out : bool) : K status_rest ptr :=
  if negb out then of_m (throw EHEM_ERR_ARG)
  else
    of_m ehem_ctx_clear_error ;!!
    let!! root := of_m (System.get_json "/api/system/status" None) in
    parse_status root.

Definition ehem_system_version (out : bool) : K unit ptr :=
  if negb out then of_m (throw EHEM_ERR_ARG)
  else
    of_m ehem_ctx_clear_error ;!!
    let!! root := of_m (System.get_json "/api/system/version" None) in
    parse_version root.

Definition ehem_system_config (out : bool) : K config_rest ptr :=
  if negb out then of_m (throw EHEM_ERR_ARG)
  else
    of_m ehem_ctx_clear_error ;!!
    let!! root := of_m (System.get_json "/api/system/config" (Some "system:config")) in
    parse_config root.

Definition ehem_attestation_free : ptr -> C unit unit := free_info.

(** crt_b64, csr_pem, key_b64, genuine; there are no scalar members, [v] stands for
    them. *)
Definition parse_attestation {V} (v : V) (root : json) : K V ptr :=
  with_info 4 v (fun info =>
    match ehem_json_get_string (Some root) "genuine" with
    | None =>
        drop_then free info
          (ehem_ctx_fail EHEM_ERR_PROTOCOL 200 None
             "system/config/attestation: response missing 'genuine'")
    | Some _ =>
        let!! ok := of_c (copy_optional info root
          [(3%nat, "genuine"); (0%nat, "crt"); (1%nat, "csr"); (2%nat, "key")]) in
        if negb ok then drop_then free_info info out_of_memory else kret info
    end).
Definition attestation {V} (v : V) (out : bool) : K V ptr :=
  if negb out then of_m (throw EHEM_ERR_ARG)
  else
    of_m ehem_ctx_clear_error ;!!
    let!! root := of_m (System.get_json "/api/system/config/attestation" (Some "system:config")) in
    parse_attestation v root.
Definition ehem_system_attestation : bool -> K unit ptr := attestation tt.

(** A struct that owns nothing, its scalar members once they are all set. *)
Definition plain_result {V} (zero v : V) : K V ptr :=
  with_info 0 zero (fun info => of_c (modify_info info (set_rest v)) ;!! kret info).

Definition ehem_cert_install_free : ptr -> C System.ehem_cert_install_info unit := free.

Definition install_result (root : json) (out : bool) : K System.ehem_cert_install_info ptr :=
  if out then
    plain_result {| System.in_updated := false; System.in_reboot_required := false |}
      {| System.in_updated := default false (ehem_json_get_bool (Some root) "updated");
         System.in_reboot_required :=
           default false (ehem_json_get_bool (Some root) "reboot_required") |}
  else kret None.

Definition ehem_system_config_install_cert (crt_b64 : option string) (out : bool)
  : K System.ehem_cert_install_info ptr :=
  match crt_b64 with
  | None => of_m (throw EHEM_ERR_ARG)
  | Some crt =>
      of_m ehem_ctx_clear_error ;!!
      let!! body := of_m
        (let? obj := ehem_json_new_object in
         let? tls := alloc json_new_object in
         let? tls := ehem_json_add_string tls "crt" crt in
         ehem_json_print (json_add obj "tls" tls))%hem in
      match body with
      | None => of_m out_of_memory
      | Some body =>
          let!! root := of_m (ehem_proto_request_json EHEM_HTTP_POST "/api/system/config"
                         (Some body) (Some "system:config") EHEM_TLS_REQ_DEFAULT) in
          install_result root out
      end
  end.

(** The attestation lives until its token is in the body. *)
Definition ehem_tls_recover (register_url : option string) (out : bool)
  : K System.ehem_cert_install_info ptr :=
  let none := {| System.in_updated := false; System.in_reboot_required := false |} in
  let url := default System.EHEM_DEFAULT_REGISTER_URL register_url in
  of_m ehem_ctx_clear_error ;!!
  let!! att := attestation none true in
  let!! genuine := of_c (let! s := load_info att in string_at (default None (is_str s !! 3%nat))) in
  let!! obj := of_m (let? obj := ehem_json_new_object in
                     json_add_strings obj [("genuine", genuine)])%hem in
  of_c (free_info att) ;!!
  let!! body := of_m (match obj with Some obj => ehem_json_print obj | None => ret None end) in
  match body with
  | None => of_m out_of_memory
  | Some body =>
      let!! bundle := of_m (ehem_proto_request_raw EHEM_HTTP_POST url (Some body) None
                              EHEM_TLS_REQ_VERIFY) in
      match ehem_json_get_string (ehem_json_parse bundle) "crt" with
      | None =>
          of_m (ehem_ctx_fail EHEM_ERR_PROTOCOL 0 None
            "tls-recover: the cloud delivered no usable bundle (no JSON object with 'crt')")
      | Some _ =>
          let!! ok := of_m malloc in
          if negb ok then of_m out_of_memory
          else
            let!! root := of_m (ehem_proto_request_json EHEM_HTTP_POST "/api/system/config"
                           (Some (System.tls_body bundle)) (Some "system:config")
                           EHEM_TLS_REQ_DEFAULT) in
            install_result root out
      end
  end.

Definition ehem_selftest_free : ptr -> C System.ehem_selftest_info unit := free.

Definition selftest_zero : System.ehem_selftest_info :=
  {| System.st_fls_state := 0; System.st_selftest_ts := 0; System.st_last_selftest_ts := 0;
     System.st_last_fls_state := 0; System.st_last_entropytest_ts := 0;
     System.st_last_kat_ts := 0; System.st_kat_busy := false; System.st_se_state := 0;
     System.st_repo_total := 0; System.st_repo_deleted := 0; System.st_repo_invalid := 0;
     System.st_repo_fragmented := 0; System.st_repo_freeslots := 0 |}.

Definition ehem_system_selftest (out : bool) : K System.ehem_selftest_info ptr :=
  if negb out then of_m (throw EHEM_ERR_ARG)
  else
    of_m ehem_ctx_clear_error ;!!
    let!! root := of_m (System.get_json "/api/system/selftest" (Some "system:config")) in
    let i64 d key := default d (ehem_json_get_int64 (Some root) key) in
    let stat key := default (-1) (ehem_json_get_int64
                      (ehem_json_get (Some root) "repo_stats") key) in
    with_info 0 selftest_zero (fun info =>
      match ehem_json_get_int64 (Some root) "fls_state" with
      | None =>
          drop_then free info
            (ehem_ctx_fail EHEM_ERR_PROTOCOL 200 None
               "system/selftest: response missing 'fls_state'")
      | Some fls =>
          of_c (modify_info info (set_rest
            {| System.st_fls_state := fls; System.st_selftest_ts := i64 0 "selftest_ts";
               System.st_last_selftest_ts := i64 0 "last_selftest_ts";
               System.st_last_fls_state := i64 0 "last_fls_state";
               System.st_last_entropytest_ts := i64 0 "last_entropytest_ts";
               System.st_last_kat_ts := i64 0 "last_kat_ts";
               System.st_kat_busy := default false (ehem_json_get_bool (Some root) "kat_busy");
               System.st_se_state := i64 (-1) "se_state";
               System.st_repo_total := stat "total"; System.st_repo_deleted := stat "deleted";
               System.st_repo_invalid := stat "invalid";
               System.st_repo_fragmented := stat "fragmented";
               System.st_repo_freeslots := stat "freeslots" |})) ;!!
          kret info
      end).

(** ** Logger *)

Definition ehem_logger_key_free : ptr -> C System.ehem_logger_key_info unit := free.

Definition logger_key_zero : System.ehem_logger_key_info :=
  {| System.lk_key := repeat 0 32; System.lk_nonce := repeat 0 32;
     System.lk_nonce_signed := repeat 0 64 |}.

Definition ehem_logger_key (out : bool) : K System.ehem_logger_key_info ptr :=
  if negb out then of_m (throw EHEM_ERR_ARG)
  else
    of_m ehem_ctx_clear_error ;!!
    let!! root := of_m (System.get_json "/api/logger/key" (Some System.LOGGER_SCOPE)) in
    with_info 0 logger_key_zero (fun info =>
      match System.decode_fixed_b64 root "key" System.EHEM_LOGGER_KEY_SIZE,
            System.decode_fixed_b64 root "nonce" System.EHEM_LOGGER_NONCE_SIZE,
            System.decode_fixed_b64 root "nonce_signed" System.EHEM_LOGGER_SIG_SIZE with
      | Some k, Some n, Some s =>
          of_c (modify_info info (set_rest
            {| System.lk_key := k; System.lk_nonce := n; System.lk_nonce_signed := s |})) ;!!
          kret info
      | _, _, _ =>
          drop_then free info
            (ehem_ctx_fail EHEM_ERR_PROTOCOL 200 None
              "logger/key: key/nonce/nonce_signed must base64-decode to 32/32/64 bytes")
      end).

Definition ehem_logger_page_free : ptr -> C Z unit := free_listing.

(** How the loop over the ids ended: all copied, or where and why not. *)
Inductive ids_error := NotAString (i : nat) | IdNoMemory (i : nat).

Definition ids_index (e : ids_error) : nat :=
  match e with NotAString i | IdNoMemory i => i end.
Definition ids_failure {A} (e : ids_error) : M A :=
  match e with
  | NotAString i =>
      ehem_ctx_fail EHEM_ERR_PROTOCOL 200 None
        ("logger/list: 'id' element " +:+ dec (Z.of_nat i) +:+ " is not a string")
  | IdNoMemory _ => out_of_memory
  end.

Fixpoint copy_ids (page : ptr) (ids : jptr) (i k : nat) : C Z (option ids_error) :=
  match k with
  | O => cret None
  | S k =>
      match ehem_json_as_string (ehem_json_array_get ids (Z.of_nat i)) with
      | None => cret (Some (NotAString i))
      | Some s =>
          let! ok := copy_element page i s in
          if ok then copy_ids page ids (S i) k else cret (Some (IdNoMemory i))
      end
  end.

(** The scalar member is [total]; [count] is set where the loop ends. *)
Definition ehem_logger_list (offset : Z) (out : bool) : K Z ptr :=
  if negb out then of_m (throw EHEM_ERR_ARG)
  else
    of_m ehem_ctx_clear_error ;!!
    let path := snprintf_trunc 64 ("/api/logger/list/" +:+ dec offset) in
    let!! root := of_m (System.get_json path (Some System.LOGGER_SCOPE)) in
    with_info 0 0 (fun page =>
      of_c (modify_info page (set_rest (default 0 (ehem_json_get_int64 (Some root) "total")))) ;!!
      let ids := ehem_json_get (Some root) "id" in
      let n := if ehem_json_is_array ids then ehem_json_array_size ids else 0 in
      if 0 <? n then
        let!! a := of_c (new_array page (Z.to_nat n)) in
        match a with
        | None => drop_then ehem_logger_page_free page out_of_memory
        | Some _ =>
            let!! e := of_c (copy_ids page ids 0 (Z.to_nat n)) in
            match e with
            | None => of_c (modify_info page (set_count (Z.to_nat n))) ;!! kret page
            | Some e =>
                of_c (modify_info page (set_count (ids_index e))) ;!!
                drop_then ehem_logger_page_free page (ids_failure e)
            end
        end
      else kret page).

(** ** Device initialisation *)

Definition ehem_init_info_free : ptr -> C bool unit := free_info.

(** [if (ehem_json_get_string(...)) member = auth_strdup(s)], unchecked. *)
Definition copy_unchecked (info : ptr) (i : nat) (root : json) (key : string) : C bool unit :=
  match ehem_json_get_string (Some root) key with
  | Some s => copy_to info i s ;! cret tt
  | None => cret tt
  end.

(** instanceid, csr, genuine; the scalar member is [reboot_required]. *)
Definition init_info (result : json) (instanceid : string) : K bool ptr :=
  with_info 3 false (fun info =>
    let!! ok := of_c (copy_to info 0 instanceid) in
    of_c (copy_unchecked info 1 result "csr" ;! copy_unchecked info 2 result "genuine" ;!
          modify_info info (set_rest
            (default false (ehem_json_get_bool (Some result) "reboot_required")))) ;!!
    if negb ok then drop_then ehem_init_info_free info out_of_memory else kret info).
End System.
