(* ===== verification/SystemMemProps.v ===== *)
(** * System, logger and initialisation results in memory refine those by values

    The operations of [SystemMem] against those of [System], [Checkin] and
    [DeviceInit]: the same outcome and the same world, the result in blocks of its own,
    everything given back on failure and by the release function. *)

From stdpp Require Import gmap.
From S2P Require Import Prelude Base64 Json World Logic Context Ejwt Proto AuthState Notify.
From S2P Require Import Mem MemWorld CodecMem InfoMem InfoMemProps SystemMem Session Fake.
From S2P Require Checkin Ext System DeviceInit.

(** A text from the JSON parser is a C string: it holds no NUL. *)
Class CleanJson {J : CJson} : Prop :=
  clean_string text key s : ehem_json_get_string (ehem_json_parse text) key = Some s -> nul_free s.

Section Endpoints.
Context {P : Platform} {I : Indeterminate}.
Abbreviation heap V := (gmap positive (cell (info_obj V))).

Lemma system_alike {A B} what e : fail_alike (system_error (A:=A) what e) (system_error (A:=B) what e).
Proof. destruct e; apply ctx_fail_alike. Qed.

(** ** Tactics

    One member, or one chain, further in a refinement. *)
Ltac drop := intros; eapply drop_refines; [eassumption|eauto using system_alike, ctx_fail_alike].
Ltac step_required err :=
  eapply required_cons with (bad := err);
  [eassumption|reflexivity|reflexivity|intros; apply bind_ctx_fail|reflexivity|drop|];
  let F := fresh "F" in let E := fresh "E" in intros ? ? ? ? E F; cbn [list_insert insert] in F.
Ltac step_optional :=
  eapply optional_cons; [eassumption|reflexivity|reflexivity|drop|];
  let F := fresh "F" in let E := fresh "E" in intros ? ? ? ? E F; cbn [list_insert insert] in F.
(** The end of a chain: nothing failed. *)
Ltac chain_done := apply refines_c_ret; (eapply refines_eq; [reflexivity|]); cbv beta iota.
(** The result is complete. *)
Ltac result_done := by eapply done_refines.

Definition version_strs (b : System.ehem_version_info) : list (option string) :=
  [Some (System.vi_hwv b); Some (System.vi_fwv b); System.vi_blv b; System.vi_fwk b;
   System.vi_fws b; System.vi_blk b; System.vi_bls b; System.vi_uis b; System.vi_sd_csd b;
   System.vi_sd_cid b].

Lemma parse_version_refines root w m :
  refines any (parse_version root) (System.parse_version root)
    (fun p b L m => info_result version_strs (fun _ => tt) (live m) p b L) [] w m.
Proof.
  apply with_info_refines. intros q w1 m1 F1. cbn [repeat] in F1.
  do 2 step_required (system_error (A:=System.ehem_version_info) "system/version"). chain_done.
  do 8 step_optional. chain_done. result_done.
Qed.

Definition config_strs (b : System.ehem_config_info) : list (option string) :=
  [Some (System.co_devid b); Some (System.co_hostname b); Some (System.co_user b);
   System.co_email b; System.co_eid b; System.co_instanceid b; System.co_origin b;
   System.co_ip b; System.co_genuine_id b].
Definition config_of (b : System.ehem_config_info) : config_rest :=
  {| cr_iat := System.co_iat b; cr_uts := System.co_uts b; cr_ctx := System.co_ctx b;
     cr_storage_mode := System.co_storage_mode b;
     cr_storage_disk0size := System.co_storage_disk0size b;
     cr_storage_capacity := System.co_storage_capacity b; cr_dnsd := System.co_dnsd b;
     cr_trusted_ts := System.co_trusted_ts b;
     cr_trusted_backend := System.co_trusted_backend b;
     cr_allow_keysearch := System.co_allow_keysearch b;
     cr_http_hsts := System.co_http_hsts b |}.

Lemma parse_config_refines root w m :
  refines any (parse_config root) (System.parse_config root)
    (fun p b L m => info_result config_strs config_of (live m) p b L) [] w m.
Proof.
  apply with_info_refines. intros q w1 m1 F1. cbn [repeat] in F1.
  do 3 step_required (system_error (A:=System.ehem_config_info) "system/config"). chain_done.
  do 6 step_optional. chain_done. eapply rest_refines; [eassumption|]. intros. result_done.
Qed.

(** A struct that owns no strings is released by [free]. *)
Lemma plain_release {V B} (rest : B -> V) p b L t m :
  info_result (fun _ => []) rest (live m) p b L -> owns L m ->
  cwp (free p) (fun _ t' m' => t' = t /\ step any L m [] m') t m.
Proof.
  intros (q & s & -> & (_ & F & _) & En & _ & Hp) O. apply Forall2_nil_inv_r in F.
  unfold info_locs in Hp. rewrite En, F in Hp. cbn in Hp. rewrite Hp in O.
  eapply cwp_mono; [apply (free_ptr (Some q)), O|]. intros _ t' m' [-> S1]. by rewrite Hp.
Qed.

Lemma drop_plain_refines {V B} q vals v (e : M ptr) (e' : M B) Post w (m : cmem (info_obj V)) :
  filled q vals v [q] m -> fail_alike e e' -> refines any (drop_then free (Some q) e) e' Post [q] w m.
Proof.
  intros F H. apply refines_release; [apply (free_ptr (Some q)); by eapply filled_owns|].
  intros. by apply alike_refines.
Qed.

Lemma plain_result_refines {V} (zero v : V) w m :
  refines any (plain_result zero v) (bind calloc_or_fail (fun _ => ret v))
    (fun p b L m => info_result (fun _ => []) id (live m) p b L) [] w m.
Proof.
  apply with_info_refines. intros q w1 m1 F1. eapply rest_refines; [exact F1|].
  intros. result_done.
Qed.

(** Nothing, for a result that was not asked for. *)
Definition opt_result {V B} (rep : heap V -> ptr -> B -> list positive -> Prop)
    (h : heap V) (p : ptr) (b : option B) (L : list positive) : Prop :=
  match b with Some b => rep h p b L | None => p = None /\ L = [] end.

Lemma install_result_refines root out w m :
  refines any (install_result root out) (System.install_result root out)
    (fun p b L m => opt_result (info_result (fun _ => []) id) (live m) p b L) [] w m.
Proof.
  unfold install_result, System.install_result. destruct out.
  - apply with_info_refines. intros q w1 m1 F1. eapply rest_refines; [exact F1|].
    intros m2 (s & A & En & Er & Hp & O). apply refines_ret; [exact O|]. exists q, s. auto.
  - apply refines_ret; [apply owns_nil|done].
Qed.

Definition init_strs (b : DeviceInit.ehem_init_info) : list (option string) :=
  [Some (DeviceInit.ii_instanceid b); DeviceInit.ii_csr b; DeviceInit.ii_genuine b].

Lemma copy_unchecked_refines {D B} q vals v i root key (h : unit -> Mem.C (info_obj bool) D)
    (f : D -> MemWorld.K (info_obj bool) ptr) (g : option string -> M B) Post L w m :
  filled q vals v L m -> vals !! i = Some None ->
  (forall a L w m, filled q (<[i := a]> vals) v L m ->
     refines any (kbind (of_c (h tt)) f) (g a) Post L w m) ->
  refines any (kbind (of_c (cbind (copy_unchecked (Some q) i root key) h)) f)
    (bind (DeviceInit.opt_copy root key) g) Post L w m.
Proof.
  intros F Hi Hk. unfold copy_unchecked, DeviceInit.opt_copy.
  destruct (ehem_json_get_string (Some root) key) as [s|].
  - assert (forall a L w m, filled q (<[i := a]> vals) v L m ->
      refines any (kbind (of_c (cbind (cret tt) h)) f) (g a) Post L w m) as Hk'.
    { intros. apply refines_c_bind, refines_c_ret. by eapply Hk. }
    eapply refines_k_eq; [apply of_c_assoc|]. eapply copy_refines; [exact F|exact Hi|..].
    + apply Hk'.
    + intros. apply Hk'. by rewrite list_insert_id.
  - apply refines_c_bind, refines_c_ret. eapply refines_eq; [reflexivity|].
    apply Hk. by rewrite list_insert_id.
Qed.

Lemma init_info_refines result instanceid w m :
  refines any (init_info result instanceid) (DeviceInit.init_info result instanceid)
    (fun p b L m => info_result init_strs DeviceInit.ii_reboot_required (live m) p b L) [] w m.
Proof.
  apply with_info_refines. intros q w1 m1 F1. cbn [repeat] in F1.
  eapply copy_any_refines; [exact F1|reflexivity|]. intros uuid L2 w2 m2 F2.
  eapply copy_unchecked_refines; [exact F2|reflexivity|]. intros csr L3 w3 m3 F3.
  eapply copy_unchecked_refines; [exact F3|reflexivity|]. intros genuine L4 w4 m4 F4.
  eapply rest_refines; [exact F4|]. intros m5 F5.
  destruct uuid as [uuid|]; cbn [negb]; [by eapply done_refines|drop].
Qed.

(** ** Endpoints that ask the device *)

Context `{Q : !Request}.

Lemma ehem_system_version_refines out w m :
  refines any (ehem_system_version out) (System.ehem_system_version out)
    (fun p b L m => info_result version_strs (fun _ => tt) (live m) p b L) [] w m.
Proof.
  unfold ehem_system_version, System.ehem_system_version. destruct out; [|apply refines_throw].
  repeat (apply then_refines; intros). apply parse_version_refines.
Qed.
Lemma ehem_system_config_refines out w m :
  refines any (ehem_system_config out) (System.ehem_system_config out)
    (fun p b L m => info_result config_strs config_of (live m) p b L) [] w m.
Proof.
  unfold ehem_system_config, System.ehem_system_config. destruct out; [|apply refines_throw].
  repeat (apply then_refines; intros). apply parse_config_refines.
Qed.

Definition attestation_strs (b : System.ehem_attestation_info) : list (option string) :=
  [System.at_crt_b64 b; System.at_csr_pem b; System.at_key_b64 b; Some (System.at_genuine b)].

(** The value side of [parse_attestation]. *)
Definition attestation_value (root : json) : M System.ehem_attestation_info :=
  bind calloc_or_fail (fun _ =>
  match ehem_json_get_string (Some root) "genuine" with
  | None =>
      ehem_ctx_fail EHEM_ERR_PROTOCOL 200 None
        "system/config/attestation: response missing 'genuine'"
  | Some genuine =>
      let* r :=
        (let? genuine := dup_str genuine in
         let? crt := opt_str (Some root) "crt" in
         let? csr := opt_str (Some root) "csr" in
         let? key := opt_str (Some root) "key" in
         ret (Some {| System.at_genuine := genuine; System.at_crt_b64 := crt;
                      System.at_csr_pem := csr; System.at_key_b64 := key |})) in
      match r with Some r => ret r | None => out_of_memory end
  end)%hem.

Lemma parse_attestation_refines {V} (v : V) root w m :
  refines any (parse_attestation v root) (attestation_value root)
    (fun p b L m => exists q, p = Some q /\ filled q (attestation_strs b) v L m /\
       ehem_json_get_string (Some root) "genuine" = Some (System.at_genuine b)) [] w m.
Proof.
  apply with_info_refines. intros q w3 m3 F3. cbn [repeat] in F3.
  destruct (ehem_json_get_string (Some root) "genuine") as [genuine|] eqn:Eg.
  2: { eapply drop_plain_refines; [exact F3|apply ctx_fail_alike]. }
  rewrite copy_optional_cons. unfold opt_str_to at 1. rewrite Eg.
  eapply refines_eq; [apply bind_bind|].
  eapply copy_refines; [exact F3|reflexivity|..]; intros L4 w4 m4 F4; cbn [list_insert insert] in F4;
    cbv beta iota.
  - do 3 step_optional. chain_done. apply refines_ret; [by eapply filled_owns|].
    exists q. split; [done|]. split; [eassumption|done].
  - chain_done. drop.
Qed.

Lemma filled_info {V B} strs rest q vals (v : V) L (b : B) m :
  filled q vals v L m -> vals = strs b -> v = rest b -> info_result strs rest (live m) (Some q) b L.
Proof. intros (s & A & En & Er & Hp & O) -> ->. exists q, s. auto. Qed.

Lemma attestation_refines {V} (v : V) out w m :
  refines any (attestation v out) (System.ehem_system_attestation out)
    (fun p b L m => info_result attestation_strs (fun _ => v) (live m) p b L) [] w m.
Proof.
  unfold attestation, System.ehem_system_attestation. destruct out; [|apply refines_throw].
  apply then_refines; intros _ w1 m1. apply then_refines; intros root w2 m2.
  eapply refines_mono; [apply parse_attestation_refines|]. intros p b L m3 (q & -> & F & _).
  by eapply filled_info.
Qed.

Lemma ehem_system_selftest_refines out w m :
  refines any (ehem_system_selftest out) (System.ehem_system_selftest out)
    (fun p b L m => info_result (fun _ => []) id (live m) p b L) [] w m.
Proof.
  unfold ehem_system_selftest, System.ehem_system_selftest. destruct out; [|apply refines_throw].
  apply then_refines; intros _ w1 m1. apply then_refines; intros root w2 m2. cbv zeta.
  apply with_info_refines. intros q w3 m3 F3.
  destruct (ehem_json_get_int64 (Some root) "fls_state") as [fls|].
  - eapply rest_refines; [exact F3|]. intros. result_done.
  - eapply drop_plain_refines; [exact F3|apply ctx_fail_alike].
Qed.

Lemma ehem_logger_key_refines out w m :
  refines any (ehem_logger_key out) (System.ehem_logger_key out)
    (fun p b L m => info_result (fun _ => []) id (live m) p b L) [] w m.
Proof.
  unfold ehem_logger_key, System.ehem_logger_key. destruct out; [|apply refines_throw].
  apply then_refines; intros _ w1 m1. apply then_refines; intros root w2 m2.
  apply with_info_refines. intros q w3 m3 F3.
  destruct (System.decode_fixed_b64 root "key" System.EHEM_LOGGER_KEY_SIZE) as [k|],
    (System.decode_fixed_b64 root "nonce" System.EHEM_LOGGER_NONCE_SIZE) as [n|],
    (System.decode_fixed_b64 root "nonce_signed" System.EHEM_LOGGER_SIG_SIZE) as [s|];
    try (eapply drop_plain_refines; [exact F3|apply ctx_fail_alike]).
  eapply rest_refines; [exact F3|]. intros. result_done.
Qed.

Lemma install_cert_refines crt out w m :
  refines any (ehem_system_config_install_cert crt out)
    (System.ehem_system_config_install_cert crt out)
    (fun p b L m => opt_result (info_result (fun _ => []) id) (live m) p b L) [] w m.
Proof.
  unfold ehem_system_config_install_cert, System.ehem_system_config_install_cert.
  destruct crt as [crt|]; [|apply refines_throw]. apply then_refines; intros _ w1 m1.
  apply then_refines; intros [body|] w2 m2; [|apply fail_refines].
  apply then_refines; intros root w3 m3. apply install_result_refines.
Qed.

(** ** Results with an array *)

(** The blocks of a result with an array: its strings, those of the array (which may
    have room left), its scalars. *)
Definition list_result {V B} (strs : B -> list (option string)) (items : B -> list string)
    (rest : B -> V) (h : heap V) (p : ptr) (b : B) (L : list positive) : Prop :=
  exists q s ps k, p = Some q /\ info_at h q s ps (strs b) /\ is_rest s = rest b /\
    is_count s = length (items b) /\
    Forall2 (text_at h) ps (map Some (items b) ++ repeat None k) /\ L ≡ₚ info_locs q s ps.

Lemma list_result_frame {V B} strs items rest (h h' : heap V) p (b : B) L :
  (forall x, x ∈ L -> h' !! x = h !! x) ->
  list_result strs items rest h p b L -> list_result strs items rest h' p b L.
Proof.
  intros H (q & s & ps & k & -> & A & Er & Ec & F & Hp). exists q, s, ps, k. split; [done|].
  split; [eapply info_at_frame; [|exact A]; intros x Hx; apply H; by rewrite Hp|].
  split; [done|]. split; [done|]. split; [|done]. eapply texts_frame; [|exact F].
  intros x Hx. apply H. rewrite Hp. unfold info_locs. set_solver.
Qed.

Lemma list_result_release {V B} strs items (rest : B -> V) p b L t m :
  list_result strs items rest (live m) p b L -> owns L m ->
  cwp (free_listing p) (fun _ t' m' => t' = t /\ step any L m [] m') t m.
Proof.
  intros (q & s & ps & k & -> & A & _ & Ec & F & Hp) O.
  apply nulls_drop in F as [Hl Hn]. apply (release_perm (info_locs q s ps)); [done..|].
  intros O'. eapply free_listing_spec; [exact A|lia|by rewrite Ec|done].
Qed.

Lemma listing_result {V B} strs items rest q vals (v : V) its k L (b : B) m :
  listing q vals v its k (length its) L m -> vals = strs b -> v = rest b -> its = items b ->
  list_result strs items rest (live m) (Some q) b L.
Proof.
  intros (s & a & ps & A & _ & Ec & Er & Hp & _ & F) -> -> ->. exists q, s, ps, k. auto 10.
Qed.
Lemma filled_result {V B} strs items rest q vals (v : V) L (b : B) m :
  filled q vals v L m -> vals = strs b -> v = rest b -> items b = [] ->
  list_result strs items rest (live m) (Some q) b L.
Proof.
  intros (s & A & En & Er & Hp & _) -> -> Ei. exists q, s, [], O. rewrite Ei.
  pose proof A as (_ & _ & A3). rewrite En in A3. destruct A3 as [_ Ec].
  split; [done|]. split; [done|]. split; [done|]. split; [done|]. split; [by constructor|done].
Qed.

Lemma filled_list_free {V} q vals (v : V) L t m :
  filled q vals v L m ->
  cwp (free_listing (Some q)) (fun _ t' m' => t' = t /\ step any L m [] m') t m.
Proof.
  intros (s & A & En & _ & Hp & O). apply (release_perm (info_locs q s [])); [done..|]. intros O'.
  pose proof A as (_ & _ & A3). rewrite En in A3. destruct A3 as [_ Ec].
  eapply free_listing_spec; [exact A|by rewrite Ec|by rewrite Ec|done].
Qed.

Lemma drop_list_refines {V B} q L (e : M ptr) (e' : M B) Post w (m : cmem (info_obj V)) :
  (forall t, cwp (free_listing (Some q)) (fun _ t' m' => t' = t /\ step any L m [] m') t m) ->
  fail_alike e e' -> refines any (drop_then free_listing (Some q) e) e' Post L w m.
Proof. intros F H. apply refines_release; [apply F|]. intros. by apply alike_refines. Qed.

(** *** Status *)

Lemma copy_strings_spec {V} q vals (v : V) l k i items j t L m :
  (k <= j)%nat -> listing q vals v items j (length items) L m ->
  cwp (copy_strings (Some q) l i k) (fun ok t' m' =>
    exists r, ticks (System.copy_strings l i k) t r t' /\ exists L' its j', step any L m L' m' /\
      listing q vals v its j' (length its) L' m' /\
      match r with Some vs => ok = true /\ its = items ++ vs | None => ok = false end) t m.
Proof.
  revert i items j t L m. induction k as [|k IH]; intros i items j t L m Hj H; cbn [copy_strings System.copy_strings].
  { exists (Some []). split; [apply ticks_ret|]. exists L, items, j.
    pose proof H as (? & ? & ? & _ & _ & _ & _ & _ & O & _).
    split; [by apply step_refl|]. split; [done|]. by rewrite app_nil_r. }
  destruct (ehem_json_as_string (ehem_json_array_get l i)) as [s|].
  2: { apply (IH (i + 1) items j); [lia|done]. }
  destruct j as [|j]; [lia|]. pose proof H as (st & a & ps & (Eq & _) & _ & Ec & _).
  apply cwp_bind, (cwp_load_info _ _ _ _ _ Eq). rewrite Ec. apply cwp_bind.
  eapply cwp_mono; [by apply copy_element_spec|]. intros ok t1 m1 (-> & -> & L1 & S1 & H1).
  destruct (p_malloc t) eqn:E.
  - apply cwp_bind. eapply cwp_mono; [eapply count_listing, H1|].
    intros _ t2 m2 (-> & S2 & H2). eapply cwp_mono; [apply (IH (i + 1) (items ++ [s]) j); [lia|]|].
    { rewrite length_app. cbn [length]. by rewrite Nat.add_1_r. }
    intros ok t3 m3 (r & T & L3 & its & j3 & S3 & H3 & R).
    exists (match r with Some vs => Some (s :: vs) | None => None end). split.
    + eapply ticks_bind; [apply ticks_dup|]. rewrite E. eapply ticks_bind; [exact T|].
      destruct r; apply ticks_ret.
    + exists L3, its, j3. split; [by eapply step_trans, step_trans|]. split; [done|].
      destruct r as [vs|]; [|done]. destruct R as [-> ->]. by rewrite <- app_assoc.
  - apply cwp_ret. exists None. split.
    + eapply ticks_bind; [apply ticks_dup|]. rewrite E. apply ticks_ret.
    + exists L1, items, (S j). auto.
Qed.

Definition status_strs (b : System.ehem_status_info) : list (option string) :=
  [System.si_ts b; System.si_hostname b; System.si_format b].
Definition status_of (b : System.ehem_status_info) : status_rest :=
  {| sr_ctx := System.si_ctx b; sr_fls_state := System.si_fls_state b;
     sr_uptime := System.si_uptime b; sr_temp := System.si_temp b; sr_time := System.si_time b;
     sr_fw_upgrade := System.si_fw_upgrade b; sr_inited := System.si_inited b;
     sr_https := System.si_https b; sr_tts := System.si_tts b |}.

(** The array, and what the caller does with its outcome. *)
Lemma copy_storage_refines {B} q vals v root (f : bool -> MemWorld.K (info_obj status_rest) ptr)
    (g : option (list string) -> M B) Post L w m :
  filled q vals v L m ->
  (forall its L w m, (exists k, listing q vals v its k (length its) L m) \/ its = [] /\ filled q vals v L m ->
     refines any (f true) (g (Some its)) Post L w m) ->
  (forall L w m,
     (forall t, cwp (free_listing (Some q)) (fun _ t' m' => t' = t /\ step any L m [] m') t m) ->
     refines any (f false) (g None) Post L w m) ->
  refines any (kbind (of_c (copy_storage (Some q) root)) f)
    (bind (System.status_storage root) g) Post L w m.
Proof.
  intros F Ht Hf. unfold copy_storage, System.status_storage. cbv zeta.
  set (node := ehem_json_get _ _). destruct (0 <? _).
  2: { apply refines_c_ret. eapply refines_eq; [reflexivity|]. apply Ht. by right. }
  apply refines_c_bind, refines_work. eapply cwp_mono; [by apply new_array_spec|].
  intros [a|] t' m' [-> H].
  - destruct H as (E & L1 & S1 & H). set (n := Z.to_nat _) in *.
    exists (bind (System.copy_strings node 0 n) g), L1.
    split; [unfold malloc, ask, bind; by rewrite E|]. split; [exact S1|].
    apply refines_work. eapply cwp_mono; [apply (copy_strings_spec q vals v node n 0 [] n); [done|exact H]|].
    intros ok t2 m2 (r & T & L2 & its & j & S2 & H2 & R).
    exists (g r), L2. split; [by rewrite (bind_ticks _ _ _ _ _ _ T)|]. split; [exact S2|].
    destruct r as [vs|].
    + destruct R as [-> ->]. apply Ht. left. eauto.
    + subst ok. apply Hf. intros t. by eapply listing_free.
  - destruct H as (E & S1 & F1). exists (g None), L.
    split; [unfold malloc, ask, bind; by rewrite E|]. split; [exact S1|].
    apply refines_c_ret, Hf. intros t. by eapply filled_list_free.
Qed.

Lemma parse_status_refines root w m :
  refines any (parse_status root) (System.parse_status root)
    (fun p b L m => list_result status_strs System.si_storage status_of (live m) p b L) [] w m.
Proof.
  apply with_info_refines. intros q w1 m1 F1. cbn [repeat] in F1. cbv zeta.
  assert (forall B key vals v L Post w m, filled q vals v L m ->
    refines any (A:=ptr) (drop_then ehem_system_status_free (Some q) (System.missing_field "system/status" key))
      (System.missing_field (A:=B) "system/status" key) Post L w m) as Hmiss.
  { intros. apply drop_list_refines; [|apply ctx_fail_alike]. intros. by eapply filled_list_free. }
  do 3 (destruct (ehem_json_get_int64 (Some root) _) as [?|]; [|by eapply Hmiss]).
  destruct (ehem_json_get_double (Some root) "temp") as [temp|]; [|by eapply Hmiss].
  assert (forall B vals v L Post w m, filled q vals v L m ->
    refines any (A:=ptr) (drop_then ehem_system_status_free (Some q) out_of_memory)
      (out_of_memory (A:=B)) Post L w m) as Hoom.
  { intros. apply drop_list_refines; [|apply ctx_fail_alike]. intros. by eapply filled_list_free. }
  do 3 (eapply optional_cons; [eassumption|reflexivity|reflexivity|intros; by eapply Hoom|];
        let F := fresh "F" in let E := fresh "E" in intros ? ? ? ? E F; cbn [list_insert insert] in F).
  chain_done. cbn [negb]. eapply rest_refines; [eassumption|]. intros m5 F5.
  eapply refines_eq; [apply bind_bind|]. eapply copy_storage_refines; [exact F5|..].
  - intros its L6 w6 m6 H6. cbn [negb]. eapply refines_eq; [reflexivity|]. cbv beta iota.
    apply refines_ret.
    + destruct H6 as [(k & ? & ? & ? & _ & _ & _ & _ & _ & O & _)|[_ H6]]; [exact O|by eapply filled_owns].
    + destruct H6 as [[k H6]|[-> H6]]; [by eapply listing_result|by eapply filled_result].
  - intros L6 w6 m6 H6. cbn [negb]. eapply drop_list_refines; [exact H6|apply ctx_fail_alike].
Qed.

Lemma ehem_system_status_refines out w m :
  refines any (ehem_system_status out) (System.ehem_system_status out)
    (fun p b L m => list_result status_strs System.si_storage status_of (live m) p b L) [] w m.
Proof.
  unfold ehem_system_status, System.ehem_system_status. destruct out; [|apply refines_throw].
  repeat (apply then_refines; intros). apply parse_status_refines.
Qed.

(** *** Logger pages *)

Lemma ids_alike {A B} e : fail_alike (ids_failure (A:=A) e) (ids_failure (A:=B) e).
Proof. destruct e; apply ctx_fail_alike. Qed.

(** The loop, its failures caught up with by the caller [f]. *)
Lemma copy_ids_refines {B} q vals total ids k items
    (f : option ids_error -> MemWorld.K (info_obj Z) ptr) (g : list string -> M B) Post L w m :
  listing q vals total items k 0 L m ->
  (forall rest L w m, length rest = k -> listing q vals total (items ++ rest) 0 0 L m ->
     refines any (f None) (g rest) Post L w m) ->
  (forall e its j L w m, ids_index e = length its -> listing q vals total its j 0 L m ->
     refines any (f (Some e)) (ids_failure (A:=B) e) Post L w m) ->
  refines any (kbind (of_c (copy_ids (Some q) ids (length items) k)) f)
    (bind (System.logger_ids ids (Z.of_nat (length items)) k) g) Post L w m.
Proof.
  revert items g L w m. induction k as [|k IH]; intros items g L w m H Hk Hf; cbn [copy_ids System.logger_ids].
  { apply refines_c_ret. eapply refines_eq; [reflexivity|]. apply Hk; [done|]. by rewrite app_nil_r. }
  destruct (ehem_json_as_string (ehem_json_array_get ids (Z.of_nat (length items)))) as [s|].
  2: { apply refines_c_ret. eapply refines_eq; [apply bind_ctx_fail|]. by eapply (Hf (NotAString _)). }
  eapply refines_eq; [rewrite bind_bind; unfold dup_or_fail; apply bind_bind|].
  apply refines_c_bind, refines_work. eapply cwp_mono; [by apply copy_element_spec|].
  intros ok t' m' (-> & -> & L1 & S1 & H1).
  eexists _, L1. split; [by rewrite (bind_ticks _ _ _ _ _ _ (ticks_dup s (w_tick w)))|].
  split; [exact S1|]. destruct (p_malloc (w_tick w)).
  - eapply refines_eq; [cbv beta iota; unfold bind at 1, ret at 1; apply bind_bind|].
    assert (length (items ++ [s]) = S (length items)) as El by (rewrite length_app; cbn; lia).
    rewrite <- El. replace (Z.of_nat (length items) + 1) with (Z.of_nat (length (items ++ [s]))) by lia.
    apply IH; [done| |done]. intros rest L2 w2 m2 Hl H2. eapply refines_eq; [reflexivity|].
    apply Hk; [cbn; lia|]. by rewrite <- app_assoc in H2.
  - apply refines_c_ret. eapply refines_eq; [cbv beta iota; apply bind_ctx_fail|].
    by eapply (Hf (IdNoMemory _)).
Qed.

Lemma ehem_logger_list_refines offset out w m :
  refines any (ehem_logger_list offset out) (System.ehem_logger_list offset out)
    (fun p b L m => list_result (fun _ => []) System.lp_ids System.lp_total (live m) p b L) [] w m.
Proof.
  unfold ehem_logger_list, System.ehem_logger_list. destruct out; [|apply refines_throw].
  apply then_refines; intros _ w1 m1. cbv zeta. apply then_refines; intros root w2 m2.
  apply with_info_refines. intros q w3 m3 F3. eapply rest_refines; [exact F3|]. intros m4 F4.
  set (ids := ehem_json_get _ _). set (total := default 0 _) in *. destruct (0 <? _).
  2: { apply refines_ret; [by eapply filled_owns|]. by eapply filled_result. }
  set (n := Z.to_nat _). apply refines_work. eapply cwp_mono; [by apply new_array_spec|].
  intros [a|] t' m' [-> H].
  - destruct H as (E & L1 & S1 & H). eexists _, L1.
    split; [unfold calloc_or_fail, malloc, ask; unfold bind at 1 2; rewrite E; reflexivity|].
    split; [exact S1|]. apply (copy_ids_refines q (repeat None 0) total ids n []); [exact H|..].
    + intros rest L2 w5 m5 Hl H2. apply refines_mem. eapply cwp_mono; [eapply count_listing, H2|].
      intros _ t6 m6 (-> & S6 & H6). split; [done|]. exists L2. split; [exact S6|].
      apply refines_ret; [apply S6|]. rewrite <- Hl in H6. by eapply listing_result.
    + intros e its j L2 w5 m5 Ei H2. apply refines_mem. eapply cwp_mono; [eapply count_listing, H2|].
      intros _ t6 m6 (-> & S6 & H6). split; [done|]. exists L2. split; [exact S6|].
      apply drop_list_refines; [|apply ids_alike]. intros t. rewrite Ei in H6. by eapply listing_free.
  - destruct H as (E & S1 & F1). exists out_of_memory, [q].
    split; [unfold calloc_or_fail, malloc, ask, bind; by rewrite E|]. split; [exact S1|].
    apply drop_list_refines; [|apply ctx_fail_alike]. intros t. by eapply filled_list_free.
Qed.

(** ** Certificates *)

Definition cert_strs (b : System.ehem_cert_info) : list (option string) :=
  [Some (System.cert_serial b); Some (System.cert_subject_cn b);
   Some (System.cert_not_before b); Some (System.cert_not_after b)].

(** The struct and its four copies, all tried. *)
Lemma cert_info_refines f w m :
  refines any
    (with_info 4 tt (fun info =>
       let!! serial := of_c (copy_to info 0 (cf_serial_hex f)) in
       let!! cn := of_c (copy_to info 1 (cf_subject_cn f)) in
       let!! nb := of_c (copy_to info 2 (cf_not_before f)) in
       let!! na := of_c (copy_to info 3 (cf_not_after f)) in
       if serial && cn && nb && na then kret info
       else drop_then ehem_cert_info_free info out_of_memory))%kmem
    (bind calloc_or_fail (fun _ =>
     bind (dup_str (cf_serial_hex f)) (fun serial =>
     bind (dup_str (cf_subject_cn f)) (fun cn =>
     bind (dup_str (cf_not_before f)) (fun nb =>
     bind (dup_str (cf_not_after f)) (fun na =>
     match serial, cn, nb, na with
     | Some serial, Some cn, Some nb, Some na =>
         ret {| System.cert_serial := serial; System.cert_subject_cn := cn;
                System.cert_not_before := nb; System.cert_not_after := na |}
     | _, _, _, _ => out_of_memory
     end))))))
    (fun p b L m => info_result cert_strs (fun _ => tt) (live m) p b L) [] w m.
Proof.
  apply with_info_refines. intros q w1 m1 F1.
  eapply copy_any_refines; [exact F1|reflexivity|]. intros serial L2 w2 m2 F2.
  eapply copy_any_refines; [exact F2|reflexivity|]. intros cn L3 w3 m3 F3.
  eapply copy_any_refines; [exact F3|reflexivity|]. intros nb L4 w4 m4 F4.
  eapply copy_any_refines; [exact F4|reflexivity|]. intros na L5 w5 m5 F5.
  destruct serial, cn, nb, na; cbn [andb]; first [by eapply done_refines|drop].
Qed.

Lemma ehem_cert_inspect_refines crt out w m :
  refines any (ehem_cert_inspect crt out) (System.ehem_cert_inspect crt out)
    (fun p b L m => info_result cert_strs (fun _ => tt) (live m) p b L) [] w m.
Proof.
  unfold ehem_cert_inspect, System.ehem_cert_inspect. destruct crt as [crt|], out; try apply refines_throw.
  apply then_refines; intros _ w1 m1. destruct (strlen crt =? 0); [apply fail_refines|].
  set (n := String.length crt). pose proof (length_junk_bytes n) as Hj.
  set (junk := junk_bytes n) in *. assert (strlen crt = Z.of_nat (length junk)) as Es by by rewrite Hj.
  apply refines_work, cwp_bind, cwp_allocate; [intros E|intros l E Hl _].
  { apply cwp_ret. exists out_of_memory, []. split; [unfold malloc, ask, bind; by rewrite E|].
    split; [apply step_refl, owns_nil|apply fail_refines]. }
  apply cwp_bind. fold n junk. rewrite <- Hj. eapply cwp_decode_at; [apply lookup_insert_eq|]. apply cwp_ret.
  eexists _, [l]. split; [unfold malloc, ask; unfold bind at 1; rewrite E; reflexivity|]. cbn [negb].
  set (m2 := with_live _ (with_live _ m1)).
  assert (step any [] m1 [l] m2) as S2.
  { eapply step_trans; [by apply step_new|]. apply step_store; [|set_solver].
    by apply (step_new (good:=any) l (CBytes junk)). }
  split; [exact S2|]. rewrite Es.
  destruct (std_decode crt (Z.of_nat (length junk))) as [d|] eqn:Ed; cbn [fmap option_fmap option_map].
  2: { apply refines_release; [apply (free_ptr (Some l)), S2|]. intros. apply fail_refines. }
  apply refines_mem. eapply cwp_load_bytes; [apply lookup_insert_eq|]. split; [done|].
  exists [l]. split; [apply step_refl, S2|]. rewrite (decoded_some _ _ d), take_app_length by done.
  apply own_then_refines; [apply S2|intros w'; by eexists _, _|]. intros [rc f] w3.
  apply refines_release; [apply (free_ptr (Some l)), S2|]. intros m3.
  destruct (negb (ok_rc rc)); [apply fail_refines|apply cert_info_refines].
Qed.

(** ** Check-in *)

(** Run at tick [t], [v] only consults the platform, up to [t'], and returns [o], or
    NOMEM. *)
Definition tries {A} (v : M A) (t : nat) (o : option A) (t' : nat) : Prop :=
  forall w, w_tick w = t ->
    v w = (match o with Some a => Ok a | None => Err EHEM_ERR_NOMEM end, at_tick t' w).

Lemma tries_ret {A} (a : A) t : tries (ret a) t (Some a) t.
Proof. intros w <-. by destruct w. Qed.
Lemma tries_bind {A B} (v : M A) (f : A -> M B) t a t1 o t2 :
  tries v t (Some a) t1 -> tries (f a) t1 o t2 -> tries (bind v f) t o t2.
Proof. intros H1 H2 w E. unfold bind. rewrite H1 by done. by rewrite H2. Qed.
Lemma tries_none {A B} (v : M A) (f : A -> M B) t t1 : tries v t None t1 -> tries (bind v f) t None t1.
Proof. intros H w E. unfold bind. by rewrite H. Qed.
Lemma ticks_tries {A B} (v : M A) (f : A -> M B) t a t1 o t2 :
  ticks v t a t1 -> tries (f a) t1 o t2 -> tries (bind v f) t o t2.
Proof. intros H1 H2 w E. unfold bind. rewrite H1 by done. by rewrite H2. Qed.
Lemma tries_throw {A} t : tries (throw EHEM_ERR_NOMEM : M A) t None t.
Proof. intros w <-. by destruct w. Qed.

Context `{CJ : !@CleanJson p_json}.

(** [r]: what a harvest of [v] from tick [t] and memory [m] gives. *)
Definition harvest_post {V} (v : M (option string)) t (m : cmem (info_obj V)) (r : bool * ptr)
    t' m' : Prop :=
  exists o, tries v t o t' /\ step any [] m (option_list (snd r)) m' /\
    match o with
    | Some v => fst r = true /\ text_at (live m') (snd r) v /\ from_option nul_free True v
    | None => r = (false, None)
    end.

Lemma harvest_none {V} t (m : cmem (info_obj V)) : cwp (cret (true, None)) (harvest_post (ret None) t m) t m.
Proof.
  apply cwp_ret. exists (Some None). split; [apply tries_ret|]. split; [apply step_refl, owns_nil|done].
Qed.

(** After the buffer was allocated: nothing to harvest, or a value. *)
Definition after_buffer (v : M (option string)) : M (option string) :=
  bind malloc (fun ok => if negb ok then throw EHEM_ERR_NOMEM else v).

Lemma tries_after (v : M (option string)) t o t' :
  p_malloc t = true -> tries v (S t) o t' -> tries (after_buffer v) t o t'.
Proof. intros E H. eapply ticks_tries; [apply ticks_malloc|]. by rewrite E. Qed.

Lemma harvest_nothing {V} l t (m m1 : cmem (info_obj V)) (v : M (option string)) :
  step any [] m [l] m1 -> p_malloc t = true -> (forall w, v w = ret None w) ->
  cwp (free (Some l) ;! cret (true, None))%cmem (harvest_post (after_buffer v) t m) (S t) m1.
Proof.
  intros S1 E Hv. apply cwp_bind. eapply cwp_mono; [apply (free_ptr (Some l)), S1|]. intros _ t2 m2 [-> S2].
  apply cwp_ret. exists (Some None). split; [|split; [by eapply step_trans|done]].
  apply tries_after; [done|]. intros w <-. rewrite Hv. by destruct w.
Qed.

Lemma harvest_value {V} l s t (m m1 : cmem (info_obj V)) :
  step any [] m [l] m1 -> p_malloc t = true -> nul_free s ->
  cwp (let! dup := strdup s in free (Some l) ;!
       cret (match dup with Some _ => true | None => false end, dup))%cmem
    (harvest_post (after_buffer (bind (dup_str s) (fun d =>
       match d with Some d => ret (Some d) | None => throw EHEM_ERR_NOMEM end))) t m) (S t) m1.
Proof.
  intros S1 E Hn. apply cwp_bind, cwp_allocate; [intros E2|intros x E2 Hx _]; apply cwp_bind.
  - eapply cwp_mono; [apply (free_ptr (Some l)), S1|]. intros _ t2 m2 [-> S2]. apply cwp_ret.
    exists None. split; [|split; [by eapply step_trans|done]]. apply tries_after; [done|].
    eapply ticks_tries; [apply ticks_dup|]. rewrite E2. apply tries_throw.
  - set (m2 := with_live _ m1).
    destruct (step_more (good:=any) [] m [l] m1 [x] m2 S1) as [S2 X2]; [by apply step_new|].
    eapply cwp_mono; [apply (free_part (Some l) [x]), S2|]. intros _ t3 m3 (-> & S3 & X3). apply cwp_ret.
    exists (Some (Some s)). split; [|split; [by eapply step_trans|]].
    + apply tries_after; [done|]. eapply ticks_tries; [apply ticks_dup|]. rewrite E2. apply tries_ret.
    + split; [done|]. split; [|done]. cbn. rewrite X3 by set_solver. apply lookup_insert_eq.
Qed.

Lemma harvest_spec {V} envelope env_key claim t (m : cmem (info_obj V)) :
  cwp (harvest_jwt_claim envelope env_key claim)
    (harvest_post (Checkin.harvest_jwt_claim envelope env_key claim) t m) t m.
Proof.
  unfold harvest_jwt_claim, Checkin.harvest_jwt_claim.
  destruct (ehem_json_parse envelope) as [env|]; [|apply harvest_none].
  destruct (_ ≫= Checkin.jwt_payload_segment) as [seg|]; [|apply harvest_none].
  destruct (is_empty seg); [apply harvest_none|].
  set (n := String.length seg). pose proof (length_junk_bytes n) as Hj. set (junk := junk_bytes n) in *.
  assert (strlen seg = Z.of_nat (length junk)) as Es by by rewrite Hj.
  apply cwp_bind, cwp_allocate; [intros E|intros l E Hl _].
  { apply cwp_ret. exists None. split; [|split; [apply step_refl, owns_nil|done]].
    eapply ticks_tries; [apply ticks_malloc|]. rewrite E. apply tries_throw. }
  apply cwp_bind. rewrite <- Hj. eapply cwp_b64_decode_at; [apply lookup_insert_eq|].
  set (m1 := with_live _ (with_live _ m)).
  assert (step any [] m [l] m1) as S1.
  { eapply step_trans; [by apply step_new|]. apply step_store; [|set_solver].
    by apply (step_new (good:=any) l (CBytes junk)). }
  assert (live m1 !! l = Some (CBytes (decoded_in B64_URL_ALPHA seg junk))) as El by apply lookup_insert_eq.
  rewrite Es. unfold ehem_b64url_decode.
  destruct (b64_decode (Some seg) (Z.of_nat (length junk)) false (Z.of_nat (length junk)) B64_URL_ALPHA)
    as [d|] eqn:Ed; cbn [fmap option_fmap option_map]; [|by apply harvest_nothing].
  apply cwp_bind. eapply cwp_load_bytes; [exact El|].
  rewrite (decoded_in_some _ _ _ d), take_app_length by (by rewrite Es).
  destruct (ehem_json_get_string (ehem_json_parse (string_of_bytes d)) claim) as [v|] eqn:Ev;
    [|by apply harvest_nothing].
  apply harvest_value; [exact S1|exact E|by eapply clean_string].
Qed.

(** A harvest beside a result that is being filled. *)
Lemma harvest_beside {V} q vals (v : V) envelope env_key claim L t (m : cmem (info_obj V)) :
  filled q vals v L m ->
  cwp (harvest_jwt_claim envelope env_key claim) (fun r t' m' => exists o,
    tries (Checkin.harvest_jwt_claim envelope env_key claim) t o t' /\
    step any L m (L ++ option_list (snd r)) m' /\ filled q vals v L m' /\
    match o with
    | Some v => fst r = true /\ text_at (live m') (snd r) v /\ from_option nul_free True v
    | None => r = (false, None)
    end) t m.
Proof.
  intros F. eapply cwp_mono; [apply harvest_spec|]. intros r t' m' (o & T & S1 & R).
  destruct (step_more (good:=any) L m L m (option_list (snd r)) m') as [S2 X2];
    [apply step_refl; by eapply filled_owns|exact S1|].
  exists o. split; [exact T|]. split; [exact S2|]. split; [by eapply filled_frame|exact R].
Qed.

Definition serial_post q vals v L t (m : cmem (info_obj bool)) (ok : bool) t' m' challenge : Prop :=
  exists o, tries (Checkin.harvest_current_serial challenge) t o t' /\ exists L', step any L m L' m' /\
    match o with
    | Some serial => ok = true /\ filled q (<[5%nat := serial]> vals) v L' m'
    | None => ok = false /\ filled q vals v L' m'
    end.

Lemma harvest_serial_spec q vals v challenge L t m :
  filled q vals v L m -> vals !! 5%nat = Some None ->
  cwp (harvest_current_serial challenge (Some q))
    (fun ok t' m' => serial_post q vals v L t m ok t' m' challenge) t m.
Proof.
  intros F H5. unfold harvest_current_serial, serial_post. unfold Checkin.harvest_current_serial.
  apply cwp_bind. eapply cwp_mono; [by apply harvest_beside|].
  intros [ok csn] t1 m1 (o & T & S1 & F1 & R). cbn [fst snd] in *. destruct o as [csn'|].
  2: { injection R as -> ->. apply cwp_ret. exists None. split; [by apply tries_none|].
       exists L. cbn [option_list] in S1. rewrite app_nil_r in S1. auto. }
  destruct R as (-> & Tx & Nf). destruct csn as [x|], csn' as [s|]; try done.
  2: { apply cwp_ret. exists (Some None). split; [eapply tries_bind; [exact T|apply tries_ret]|].
       exists L. cbn [option_list] in S1. rewrite app_nil_r in S1. split; [done|]. split; [done|].
       by rewrite list_insert_id. }
  cbn [option_list] in S1. apply cwp_bind. eapply cwp_string; [exact Tx|exact Nf|].
  assert ([x] ++ L ≡ₚ L ++ [x]) as Hp by solve_Permutation. rewrite <- Hp in S1.
  apply cwp_bind. eapply cwp_mono; [apply (free_part (Some x) L), S1|].
  intros _ t2 m2 (-> & S2 & X2). assert (filled q vals v L m2) as F2 by by eapply filled_frame.
  assert (step any L m L m2) as S3 by by eapply step_trans.
  destruct (ehem_b64_std_decode (Some s) (strlen s) false 64) as [[|x0 serial]|] eqn:Ed.
  1, 3: apply cwp_ret; exists (Some None); split;
    [eapply tries_bind; [exact T|]; cbv beta iota; rewrite Ed; apply tries_ret|];
    exists L; split; [done|]; split; [done|]; by rewrite list_insert_id.
  eapply cwp_mono; [apply (copy_to_spec q vals v 5); [exact F2|exact H5]|].
  intros ok t3 m3 (-> & -> & L3 & S4 & F3). set (hex := Checkin.ehem_serial_hex _ _) in *.
  exists (if p_malloc t1 then Some (Some hex) else None). split.
  - eapply tries_bind; [exact T|]. cbv beta iota. rewrite Ed.
    eapply ticks_tries; [apply ticks_dup|]. destruct (p_malloc t1); [apply tries_ret|apply tries_throw].
  - exists L3. split; [by eapply step_trans|]. by destruct (p_malloc t1).
Qed.

Definition harvested (challenge verified : string) : M (option string * option string) :=
  bind (Checkin.harvest_jwt_claim verified "checked" "newcrt") (fun chain =>
  bind (Checkin.harvest_current_serial challenge) (fun serial => ret (chain, serial))).

Lemma harvest_all_spec q vals v challenge verified L t m :
  filled q vals v L m -> vals !! 4%nat = Some None -> vals !! 5%nat = Some None ->
  cwp (harvest_all challenge verified (Some q)) (fun ok t' m' => exists o,
    tries (harvested challenge verified) t o t' /\ exists L', step any L m L' m' /\
    match o with
    | Some (chain, serial) =>
        ok = true /\ filled q (<[5%nat := serial]> (<[4%nat := chain]> vals)) v L' m'
    | None => ok = false /\ exists vals', filled q vals' v L' m'
    end) t m.
Proof.
  intros F H4 H5. apply cwp_bind. eapply cwp_mono; [by apply harvest_beside|].
  intros [ok chain] t1 m1 (o & T & S1 & F1 & R). cbn [fst snd] in *. destruct o as [chain'|].
  2: { injection R as -> ->. apply cwp_bind, cwp_ret, cwp_ret. exists None.
       split; [by apply tries_none|]. cbn [option_list] in S1. rewrite app_nil_r in S1. eauto 10. }
  destruct R as (-> & Tx & _). apply cwp_bind.
  assert (forall L1 m1, step any L m L1 m1 -> filled q (<[4%nat := chain']> vals) v L1 m1 ->
    cwp (harvest_current_serial challenge (Some q)) (fun ok t' m' => exists o,
      tries (harvested challenge verified) t o t' /\ exists L', step any L m L' m' /\
      match o with
      | Some (chain, serial) =>
          ok = true /\ filled q (<[5%nat := serial]> (<[4%nat := chain]> vals)) v L' m'
      | None => ok = false /\ exists vals', filled q vals' v L' m'
      end) t1 m1) as Hrest.
  { intros L1 m2 S2 F2. eapply cwp_mono; [apply harvest_serial_spec; [exact F2|by rewrite list_lookup_insert_ne]|].
    intros ok t3 m3 (o & T3 & L3 & S3 & R).
    exists (match o with Some serial => Some (chain', serial) | None => None end).
    split; [eapply tries_bind; [exact T|]; destruct o; [eapply tries_bind; [exact T3|apply tries_ret]|by apply tries_none]|].
    exists L3. split; [by eapply step_trans|]. destruct o; [done|]. destruct R; eauto. }
  destruct chain as [x|], chain' as [s|]; try done; cbn [option_list] in S1.
  - eapply cwp_mono; [apply (adopt_spec q vals v 4 x s L); [exact F1|exact H4|exact Tx|apply S1]|].
    intros _ t2 m2 (-> & S2 & F2). apply (Hrest (L ++ [x])); [by eapply step_trans|exact F2].
  - apply cwp_ret. rewrite app_nil_r in S1. apply (Hrest L); [exact S1|by rewrite list_insert_id].
Qed.

(** *** The check-in itself *)

Definition clean (root : json) : Prop :=
  forall key s, ehem_json_get_string (Some root) key = Some s -> nul_free s.

(** What comes out of the request path was parsed. *)
Lemma json_then_refines {V B} mth path body scope ov (f : json -> MemWorld.K (info_obj V) ptr)
    (g : json -> M B) Post w m :
  (forall root w m, clean root -> refines any (f root) (g root) Post [] w m) ->
  refines any (kbind (of_m (ehem_proto_request_json mth path body scope ov)) f)
    (bind (ehem_proto_request_json mth path body scope ov) g) Post [] w m.
Proof.
  intros Hk. set (v := ehem_proto_request_json mth path body scope ov).
  assert (forall w w' root, v w = (Ok root, w') -> clean root) as Hv.
  { intros w1 w2 root E key s Es. unfold v, ehem_proto_request_json, bind in E.
    destruct (ehem_proto_request_raw _ _ _ _ _ w1) as [[text|rc|] w3]; try done.
    destruct (ehem_json_parse text) as [r|] eqn:Ep.
    - destruct (ehem_json_is_object (Some r)); [|by destruct (ctx_fail_alike (A:=json) (B:=json)
        EHEM_ERR_PROTOCOL 0 (Some text) (path +:+ ": response is not a JSON object") w3) as (? & ? & E1 & _);
        rewrite E1 in E].
      injection E as -> ->. rewrite <- Ep in Es. by eapply clean_string.
    - by destruct (ctx_fail_alike (A:=json) (B:=json) EHEM_ERR_PROTOCOL 0 (Some text)
        (path +:+ ": malformed JSON response") w3) as (? & ? & E1 & _); rewrite E1 in E. }
  unfold refines, kbind, of_m, bind. destruct (v w) as [[root|rc|] w1] eqn:E.
  - apply (Hk root w1 m), (Hv _ _ _ E).
  - do 3 eexists. split; [done|]. split; [done|]. split; [done|]. apply step_refl, owns_nil.
  - by do 3 eexists.
Qed.

Lemma nonempty_text_spec {V} p v Post t (m : cmem (info_obj V)) :
  text_at (live m) p v -> from_option nul_free True v ->
  Post (match v with Some s => negb (is_empty s) | None => false end) t m ->
  cwp (nonempty_text p) Post t m.
Proof.
  intros T Nf HP. destruct p as [l|], v as [s|]; try done. cbn [nonempty_text].
  apply cwp_bind, (cwp_load_bytes _ _ _ _ _ T). destruct s as [|c s]; [done|].
  cbn in Nf. apply Forall_cons in Nf as [Nz _]. cbn [c_string bytes_of_string].
  unfold c_string. cbn. apply Z.eqb_neq in Nz. by rewrite Nz.
Qed.

Definition checkin_strs (b : Checkin.ehem_checkin_info) : list (option string) :=
  [Checkin.ci_status b; Checkin.ci_newcrt b; Checkin.ci_newfws b; Checkin.ci_newuis b;
   Checkin.ci_newcrt_chain b; Checkin.ci_current_serial b].

Definition parsed_post (p : ptr) (b : Checkin.ehem_checkin_info) (L : list positive)
    (m : cmem (info_obj bool)) : Prop :=
  exists q, p = Some q /\ filled q (checkin_strs b) (Checkin.ci_cert_updated b) L m /\
    Checkin.ci_newcrt_chain b = None /\ Checkin.ci_current_serial b = None.

Lemma malloc_calloc {A} (k : M A) w :
  bind malloc (fun ok => if negb ok then ehem_ctx_fail EHEM_ERR_NOMEM 0 None "out of memory" else k) w =
  bind calloc_or_fail (fun _ => k) w.
Proof. unfold calloc_or_fail, malloc, ask, bind. by destruct (p_malloc (w_tick w)). Qed.

Lemma parse_checkin_refines root w m :
  clean root -> refines any (parse_checkin root) (Checkin.parse_checkin root) parsed_post [] w m.
Proof.
  intros Hc. unfold Checkin.parse_checkin.
  eapply refines_eq; [apply malloc_calloc|].
  apply with_info_refines. intros q w1 m1 F1. cbn [repeat] in F1.
  do 4 step_optional. chain_done. cbn [negb].
  match goal with H : filled q (_ :: ?a :: _) _ _ _ |- _ => set (newcrt := a) in * end.
  assert (from_option nul_free True newcrt) as Nf.
  { unfold newcrt. destruct a0 as [s|] eqn:Ea; [|done]. cbn. by eapply Hc. }
  apply refines_mem. match goal with H : filled q (_ :: newcrt :: _) _ ?L ?m |- cwp _ _ _ ?m =>
    rename H into F5; pose proof F5 as (s & (Eq & G & A) & _ & _ & Hp & O) end.
  apply cwp_bind, (cwp_load_info _ _ _ _ _ Eq). apply cwp_bind.
  destruct (Forall2_lookup_r _ _ _ 1%nat newcrt G) as (p1 & Ep1 & T); [done|]. 
  assert (default None (is_str s !! 1%nat) = p1) as -> by exact (f_equal (default None) Ep1).
  eapply nonempty_text_spec; [exact T|exact Nf|].
  eapply cwp_mono; [eapply filled_rest, F5|]. intros _ t6 m6 (-> & S6 & F6). split; [done|].
  eexists. split; [exact S6|]. apply refines_ret; [apply S6|]. exists q. split; [done|].
  split; [exact F6|done].
Qed.

Abbreviation checkin_result := (info_result checkin_strs Checkin.ci_cert_updated).

Lemma checkin_details_refines challenge verified root w m :
  clean root ->
  refines any (checkin_details challenge verified root)
    (Checkin.checkin_details challenge verified root)
    (fun p b L m => checkin_result (live m) p b L) [] w m.
Proof.
  intros Hc. eapply refines_bind; [by apply parse_checkin_refines|].
  intros p r L w1 m1 (q & -> & F & E4 & E5) S1. apply refines_work.
  eapply cwp_mono; [apply (harvest_all_spec q _ _ challenge verified _ _ _ F); unfold checkin_strs; cbn; by rewrite ?E4, ?E5|].
  intros ok t2 m2 (o & T & L2 & S2 & R).
  assert (attempt (harvested challenge verified) w1 =
    (Ok (match o with Some h => inl h | None => inr EHEM_ERR_NOMEM end), at_tick t2 w1)) as Et.
  { unfold attempt. rewrite (T w1) by done. by destruct o. }
  fold (harvested challenge verified).
  destruct o as [[chain serial]|].
  - destruct R as [-> F2]. eexists (ret _), L2.
    split; [unfold bind at 1; rewrite Et; reflexivity|]. split; [exact S2|].
    eapply done_refines; [exact F2|done|done].
  - destruct R as [-> [vals' F2]]. exists out_of_memory, L2.
    split; [unfold bind at 1; rewrite Et; reflexivity|]. split; [exact S2|].
    eapply drop_refines; [exact F2|apply ctx_fail_alike].
Qed.

Lemma checkin_legs_refines ov want w m :
  refines any (checkin_legs ov want) (Checkin.checkin_legs ov want)
    (fun p b L m => opt_result checkin_result (live m) p b L) [] w m.
Proof.
  unfold checkin_legs, Checkin.checkin_legs.
  apply then_refines; intros challenge w1 m1. apply then_refines; intros c w2 m2.
  apply then_refines; intros verified w3 m3. apply json_then_refines; intros root w4 m4 Hc.
  destruct want; [|by apply refines_ret; [apply owns_nil|]].
  eapply refines_k_eq; [apply kbind_ret|].
  eapply refines_bind; [by apply checkin_details_refines|].
  intros p b L w5 m5 Hp S5. apply refines_ret; [apply S5|exact Hp].
Qed.

Lemma ehem_checkin_run_refines relax want w m :
  refines any (ehem_checkin_run relax want) (Checkin.ehem_checkin_run relax want)
    (fun p b L m => opt_result checkin_result (live m) p b L) [] w m.
Proof.
  unfold ehem_checkin_run, Checkin.ehem_checkin_run. cbv zeta.
  apply then_refines; intros _ w1 m1.
  eapply refines_bind; [apply refines_attempt; [apply owns_nil|apply checkin_legs_refines]|].
  intros x y L w2 m2 [_ H] S2.
  apply own_then_refines; [apply S2|intros w'; by eexists _, _|]. intros _ w3.
  destruct x as [p|rc], y as [b|rc']; try done.
  - destruct H as (L1 & -> & Hp & O). apply refines_ret; [exact O|exact Hp].
  - destruct H as [-> ->]. apply refines_throw.
Qed.

Lemma ehem_system_checkin_refines out w m :
  refines any (ehem_system_checkin out) (Checkin.ehem_system_checkin out)
    (fun p b L m => opt_result checkin_result (live m) p b L) [] w m.
Proof.
  unfold ehem_system_checkin, Checkin.ehem_system_checkin. destruct out; [|apply refines_throw].
  apply then_refines; intros _ w1 m1. apply ehem_checkin_run_refines.
Qed.

(** ** TLS recovery *)

(** The attestation in memory, its token a C string. *)
Definition attested {V} (v : V) (p : ptr) (b : System.ehem_attestation_info) (L : list positive)
    (m : cmem (info_obj V)) : Prop :=
  exists q, p = Some q /\ filled q (attestation_strs b) v L m /\ nul_free (System.at_genuine b).

Lemma attested_refines {V} (v : V) w m :
  refines any (attestation v true) (System.ehem_system_attestation true) (attested v) [] w m.
Proof.
  unfold attestation, System.ehem_system_attestation. cbn [negb].
  apply then_refines; intros _ w1 m1. apply json_then_refines; intros root w2 m2 Hc.
  eapply refines_mono; [apply parse_attestation_refines|]. intros p b L m3 (q & -> & F & E).
  exists q. split; [done|]. split; [done|by eapply Hc].
Qed.

Definition body_tree (l : list (string * string)) : M (option json) :=
  bind ehem_json_new_object (fun o =>
    match o with Some obj => json_add_strings obj l | None => ret None end).
Definition print_tree (obj : option json) : M (option string) :=
  match obj with Some obj => ehem_json_print obj | None => ret None end.

Lemma body_or_fail_split {B} l (g : string -> M B) w :
  bind (body_or_fail l) g w =
  bind (body_tree l) (fun obj => bind (print_tree obj) (fun b =>
    match b with Some b => g b | None => out_of_memory end)) w.
Proof.
  pose proof (fun w => bind_ctx_fail EHEM_ERR_NOMEM 0 None "out of memory" g w) as Hf.
  unfold body_or_fail, string_body, body_tree. cbv beta delta [bind].
  destruct (ehem_json_new_object w) as [[[obj|]|rc|] w1]; [|exact (Hf w1)|done..].
  cbv beta iota. destruct (json_add_strings obj l w1) as [[[obj'|]|rc|] w2]; [|exact (Hf w2)|done..].
  cbv beta iota delta [print_tree]. destruct (ehem_json_print obj' w2) as [[[s|]|rc|] w3]; [done|exact (Hf w3)|done..].
Qed.

Lemma body_tree_returns key s w : exists o w', body_tree [(key, s)] w = (Ok o, w').
Proof.
  unfold body_tree, json_add_strings, ehem_json_new_object, ehem_json_add_string, alloc, malloc, ask, bind, ret.
  destruct (p_malloc (w_tick w)); cbn; [|eauto].
  destruct (p_malloc (S (w_tick w))); cbn; eauto.
Qed.

Lemma ehem_tls_recover_refines url out w m :
  refines any (ehem_tls_recover url out) (System.ehem_tls_recover url out)
    (fun p b L m => opt_result (info_result (fun _ => []) id) (live m) p b L) [] w m.
Proof.
  unfold ehem_tls_recover, System.ehem_tls_recover. cbv zeta. apply then_refines; intros _ w1 m1.
  eapply refines_bind; [apply attested_refines|]. intros p att L w2 m2 (q & -> & F & Nf) S2.
  pose proof F as (s & (Eq & G & _) & _ & _ & _ & O). apply refines_mem.
  apply cwp_bind, (cwp_load_info _ _ _ _ _ Eq).
  destruct (Forall2_lookup_r _ _ _ 3%nat (Some (System.at_genuine att)) G) as (p3 & E3 & T); [done|].
  assert (default None (is_str s !! 3%nat) = p3) as -> by exact (f_equal (default None) E3).
  destruct p3 as [l3|]; [|done]. eapply cwp_string; [exact T|exact Nf|]. split; [done|].
  exists L. split; [by apply step_refl|]. eapply refines_eq; [apply body_or_fail_split|].
  apply own_then_refines; [exact O|apply body_tree_returns|]. intros obj w3.
  apply refines_release; [by eapply filled_free|]. intros m3.
  apply then_refines; intros [body|] w4 m4; [|apply fail_refines].
  apply then_refines; intros bundle w5 m5.
  destruct (ehem_json_get_string (ehem_json_parse bundle) "crt"); [|apply fail_refines].
  apply then_refines; intros ok w6 m6. destruct (negb ok); [apply fail_refines|].
  apply then_refines; intros root w7 m7. apply install_result_refines.
Qed.

(** ** The results and their release *)

Lemma opt_result_frame {V B} (rep : heap V -> ptr -> B -> list positive -> Prop) (h h' : heap V) p b L :
  (forall b, (forall x, x ∈ L -> h' !! x = h !! x) -> rep h p b L -> rep h' p b L) ->
  (forall x, x ∈ L -> h' !! x = h !! x) -> opt_result rep h p b L -> opt_result rep h' p b L.
Proof. intros H Hx R. destruct b; [by apply H|done]. Qed.

Lemma opt_result_release {V B} (rep : heap V -> ptr -> B -> list positive -> Prop)
    (release : ptr -> Mem.C (info_obj V) unit) p b L t m :
  (forall b, rep (live m) p b L -> owns L m ->
     cwp (release p) (fun _ t' m' => t' = t /\ step any L m [] m') t m) ->
  (forall t m, release None t m = Done tt t m) ->
  opt_result rep (live m) p b L -> owns L m ->
  cwp (release p) (fun _ t' m' => t' = t /\ step any L m [] m') t m.
Proof.
  intros H Hn R O. destruct b as [b|]; [by eapply H|]. destruct R as [-> ->].
  unfold cwp. rewrite Hn. split; [done|by apply step_refl].
Qed.

Lemma info_in_memory {V B} (k : MemWorld.K (info_obj V) ptr) (v : M B) strs rest :
  (forall w m, refines any k v (fun p b L m => info_result strs rest (live m) p b L) [] w m) ->
  result_in_memory any k v (info_result strs rest) free_info.
Proof.
  intros H. apply result_from_refines; [exact H|by intros; eapply info_result_release|].
  intros. by eapply info_result_frame.
Qed.
Lemma plain_in_memory {V B} (k : MemWorld.K (info_obj V) ptr) (v : M B) rest :
  (forall w m, refines any k v (fun p b L m => info_result (fun _ => []) rest (live m) p b L) [] w m) ->
  result_in_memory any k v (info_result (fun _ => []) rest) free.
Proof.
  intros H. apply result_from_refines; [exact H|by intros; eapply plain_release|].
  intros. by eapply info_result_frame.
Qed.
Lemma list_in_memory {V B} (k : MemWorld.K (info_obj V) ptr) (v : M B) strs items rest :
  (forall w m, refines any k v (fun p b L m => list_result strs items rest (live m) p b L) [] w m) ->
  result_in_memory any k v (list_result strs items rest) free_listing.
Proof.
  intros H. apply result_from_refines; [exact H|by intros; eapply list_result_release|].
  intros. by eapply list_result_frame.
Qed.
Lemma opt_in_memory {V B} (k : MemWorld.K (info_obj V) ptr) (v : M (option B)) strs rest release :
  (forall w m, refines any k v (fun p b L m => opt_result (info_result strs rest) (live m) p b L) [] w m) ->
  (forall p b L t m, info_result strs rest (live m) p b L -> owns L m ->
     cwp (release p) (fun _ t' m' => t' = t /\ step any L m [] m') t m) ->
  (forall t m, release None t m = Done tt t m) ->
  result_in_memory any k v (opt_result (info_result strs rest)) release.
Proof.
  intros H Hr Hn. apply result_from_refines; [exact H|..].
  - intros p b L t m R O. eapply opt_result_release; [|exact Hn|exact R|exact O]. intros. by eapply Hr.
  - intros h h' p b L Hx. apply opt_result_frame; [|done]. intros b' _. by apply info_result_frame.
Qed.

(** C18: what the system and logger bindings return, and what device initialisation
    reports, lives in memory as the application expects it.  For every answer of the
    device, every allocation that fails and every world, each operation runs without
    undefined behaviour to the outcome of its description by values; a failure leaves
    the live memory as it was; a success is represented by new blocks only (the struct,
    every string of it, the array of strings), and the release function frees exactly
    these.  The check-in and the TLS recovery read back strings they stored: for them
    the JSON parser is assumed to yield C strings. *)
Theorem system_results_in_memory out crt url offset result instanceid :
  result_in_memory any (ehem_system_status out) (System.ehem_system_status out)
    (list_result status_strs System.si_storage status_of) ehem_system_status_free /\
  result_in_memory any (ehem_system_version out) (System.ehem_system_version out)
    (info_result version_strs (fun _ => tt)) ehem_system_version_free /\
  result_in_memory any (ehem_system_config out) (System.ehem_system_config out)
    (info_result config_strs config_of) ehem_system_config_free /\
  result_in_memory any (ehem_system_attestation out) (System.ehem_system_attestation out)
    (info_result attestation_strs (fun _ => tt)) ehem_attestation_free /\
  result_in_memory any (ehem_cert_inspect crt out) (System.ehem_cert_inspect crt out)
    (info_result cert_strs (fun _ => tt)) ehem_cert_info_free /\
  result_in_memory any (ehem_system_checkin out) (Checkin.ehem_system_checkin out)
    (opt_result checkin_result) ehem_checkin_result_free /\
  result_in_memory any (ehem_system_config_install_cert crt out)
    (System.ehem_system_config_install_cert crt out)
    (opt_result (info_result (fun _ => []) id)) ehem_cert_install_free /\
  result_in_memory any (ehem_tls_recover url out) (System.ehem_tls_recover url out)
    (opt_result (info_result (fun _ => []) id)) ehem_cert_install_free /\
  result_in_memory any (ehem_system_selftest out) (System.ehem_system_selftest out)
    (info_result (fun _ => []) id) ehem_selftest_free /\
  result_in_memory any (ehem_logger_key out) (System.ehem_logger_key out)
    (info_result (fun _ => []) id) ehem_logger_key_free /\
  result_in_memory any (ehem_logger_list offset out) (System.ehem_logger_list offset out)
    (list_result (fun _ => []) System.lp_ids System.lp_total) ehem_logger_page_free /\
  result_in_memory any (init_info result instanceid) (DeviceInit.init_info result instanceid)
    (info_result init_strs DeviceInit.ii_reboot_required) ehem_init_info_free.
Proof.
  split_and!.
  - apply list_in_memory, ehem_system_status_refines.
  - apply info_in_memory, ehem_system_version_refines.
  - apply info_in_memory, ehem_system_config_refines.
  - apply info_in_memory, attestation_refines.
  - apply info_in_memory, ehem_cert_inspect_refines.
  - apply opt_in_memory; [apply ehem_system_checkin_refines|by intros; eapply info_result_release|done].
  - apply opt_in_memory; [apply install_cert_refines|by intros; eapply plain_release|done].
  - apply opt_in_memory; [apply ehem_tls_recover_refines|by intros; eapply plain_release|done].
  - apply plain_in_memory, ehem_system_selftest_refines.
  - apply plain_in_memory, ehem_logger_key_refines.
  - apply list_in_memory, ehem_logger_list_refines.
  - apply info_in_memory, init_info_refines.
Qed.
End Endpoints.

(** ** Runs

    A check-in and a status on the scripted platform. *)

Definition clean_members (j : json) : bool :=
  match j with
  | JObject l => forallb (fun kv => match snd kv with JString s => bool_decide (nul_free s) | _ => true end) l
  | _ => true
  end.
Lemma fake_json_clean table :
  forallb (fun kv => clean_members (snd kv)) table = true -> @CleanJson (fake_json table).
Proof.
  intros H text key s. unfold ehem_json_parse, ehem_json_get_string, ehem_json_get. cbn.
  destruct (List.find _ table) as [[t j]|] eqn:E; [|done]. cbn. apply List.find_some in E as [E _].
  pose proof (proj1 (List.forallb_forall _ _) H _ E) as Hj. cbn in Hj.
  destruct j as [| | | | |l]; try done. unfold object_item.
  destruct (List.find _ l) as [[k v]|] eqn:F; [|done]. cbn. apply List.find_some in F as [F _].
  cbn in Hj. pose proof (proj1 (List.forallb_forall _ _) Hj _ F) as Hv. cbn in Hv.
  destruct v; try done. intros [= ->]. by apply bool_decide_eq_true in Hv.
Qed.

Definition system_answers : list (string * json) :=
  [("challenge", JObject [("check", JString "a.Y3Nu.b")]);
   ("csn", JObject [("csn", JString "AQI=")]);
   ("verified", JObject [("checked", JString "a.bmV3.b")]);
   ("new", JObject [("newcrt", JString "CHAIN")]);
   ("done", JObject [("status", JString "ok"); ("newcrt", JString "CRT")]);
   ("status", JObject [("ctx", JNumber (double_of_int64 1)); ("fls_state", JNumber (double_of_int64 0));
      ("uptime", JNumber (double_of_int64 7)); ("temp", JNumber (double_of_int64 21));
      ("hostname", JString "hem"); ("storage", JArray [JString "disk0"; JNull; JString "disk1"])])].

Definition system_platform (bad : nat) : Platform :=
  platform_with (fake_platform system_answers) (fun n => negb (n =? bad)%nat)
    (@p_kdf_pbkdf2_sha256 (fake_platform [])).
Definition system_world (bad : nat) (bodies : list string) : @world (system_platform bad) :=
  @Build_world (system_platform bad)
    {| script := map (http 200) bodies; fs_expired := false |} 0 true (fake_ctx true None) [].
Definition no_infos {V} : cmem (info_obj V) := {| live := ∅; dead := ∅ |}.
Definition legs : list string := ["challenge"; "verified"; "done"].

Definition run_checkin (bad : nat) :=
  @ehem_system_checkin (system_platform bad) dirty_memory session_request true
    (system_world bad legs) no_infos.
Definition run_status (bad : nat) :=
  @ehem_system_status (system_platform bad) session_request true
    (system_world bad ["status"]) no_infos.

(** A check-in: the struct and four strings.  A status: the struct, one string, the array
    and the two strings in it. *)
Example runs_blocks :
  option_map (fun r => size (live (snd r))) (run_checkin 99) = Some 5%nat /\
  option_map (fun r => size (live (snd r))) (run_status 99) = Some 5%nat.
Proof. split; vm_compute; reflexivity. Qed.

(** Each allocation of the runs refused in turn: the result, or NOMEM and nothing left. *)
Definition refusal_ok {p : Platform} {V} (r : option (outcome ptr * @world p * cmem (info_obj V))) : bool :=
  match r with
  | Some (Ok _, _, m) => (size (live m) =? 5)%nat
  | Some (Err EHEM_ERR_NOMEM, _, m) => (size (live m) =? 0)%nat
  | _ => false
  end.
Example runs_any_refusal :
  forallb (fun bad => refusal_ok (run_checkin bad) && refusal_ok (run_status bad)) (seq 0 16) = true.
Proof. vm_compute. reflexivity. Qed.

Lemma system_results_in_memory_witness :
  @CleanJson (@p_json (system_platform 99)) /\
  exists p w' m', run_checkin 99 = Some (Ok (Some p), w', m') /\
    exists m2, ehem_checkin_result_free (Some p) O m' = Done tt 0%nat m2 /\ live m2 = ∅.
Proof.
  assert (@CleanJson (@p_json (system_platform 99))) as HJ.
  { apply fake_json_clean. vm_compute. reflexivity. }
  split; [exact HJ|].
  destruct (proj1 (proj2 (proj2 (proj2 (proj2 (proj2 (@system_results_in_memory (system_platform 99)
    dirty_memory session_request HJ true None None 0 JNull ""))))))
    (system_world 99 legs) no_infos) as (o & w' & m' & E & _ & R).
  destruct (fst (@Checkin.ehem_system_checkin (system_platform 99) session_request true
    (system_world 99 legs))) as [[b|]|rc|] eqn:V; try (vm_compute in V; discriminate V).
  destruct o as [[p|]|rc|]; try contradiction.
  - destruct R as (_ & L & _ & HL & HO & Hfree). exists p, w', m'. split; [exact E|].
    destruct (Hfree O m' (fun _ _ => eq_refl)) as (m2 & E2 & _ & H2). exists m2. split; [exact E2|].
    apply map_eq. intros x. rewrite H2. case_decide as Hx; [symmetry; apply lookup_empty|].
    exact (HO x Hx).
  - destruct R as (_ & L & (q & s & Hq & _) & _). discriminate Hq.
Defined.
