(* ===== verification/ExtMem.v ===== *)
(** * Pairing, push confirmation and the broker client in memory

    What [src/proto_notify.c] and [src/proto_ext.c] allocate, on the memory of [InfoMem]:
    the structs and strings they return with every early exit, the release functions,
    and the handle of a push confirmation, which lives from [ehem_ext_confirm_begin]
    to [ehem_ext_confirm_cancel] and is read and changed in place by the polls.

    A string argument is read when it is passed; requests, bodies and JSON trees are
    those of [Notify] and [Ext]. *)

From stdpp Require Import gmap.
From S2P Require Import Prelude Base64 Json World Logic Context Ejwt Proto Checkin AuthState Notify Mem MemWorld CodecMem InfoMem.
From S2P Require Ext.

Open Scope cmem_scope.
Open Scope kmem_scope.

(** The members that are not strings: of most structs none, of the two broker replies
    and of the handle their flags. *)
Inductive ext_rest :=
  | NoFlags
  | PairingFlags (pending : bool)
  | EventFlags (pending denied : bool)
  | HandleFlags (terminal : bool).

Section Ext.
Context {P : Platform}.
Abbreviation C := (Mem.C (info_obj ext_rest)).
Abbreviation K := (MemWorld.K (info_obj ext_rest)).

(** [s->member] *)
Definition member (i : nat) (s : info_struct ext_rest) : ptr := default None (is_str s !! i).

(** A [const char *] argument that may be NULL. *)
Definition text_arg (p : ptr) : C (option string) :=
  match p with
  | None => cret None
  | Some _ => let! s := string_at p in cret (Some s)
  end.
(** [p->member], passed as such an argument. *)
Definition member_arg (p : ptr) (i : nat) : C (option string) :=
  let! s := load_info p in text_arg (member i s).

Definition notify_error {A} (what : string) (e : copy_error) : M A :=
  match e with
  | Missing key =>
      ehem_ctx_fail EHEM_ERR_PROTOCOL 200 None
        (what +:+ ": broker response missing '" +:+ key +:+ "'")
  | NoMemory => out_of_memory
  end.
Definition ext_error {A} (what : string) (e : copy_error) : M A :=
  match e with
  | Missing key =>
      ehem_ctx_fail EHEM_ERR_PROTOCOL 200 None
        (what +:+ ": response missing '" +:+ key +:+ "'")
  | NoMemory => out_of_memory
  end.

(** [req_str] into an output argument. *)
Definition req_text (error : copy_error -> M ptr) (root : json) (key : string) : K ptr :=
  match ehem_json_get_string (Some root) key with
  | None => of_m (error (Missing key))
  | Some s =>
      let!! p := of_c (strdup s) in
      match p with None => of_m (error NoMemory) | Some _ => kret p end
  end.

(** A chain of [req_str] into members; a failure is recorded, then the struct freed. *)
Definition req_members (info : ptr) (error : copy_error -> M ptr) (root : json)
    (l : list (nat * string)) : K ptr :=
  let!! e := of_c (copy_required info root l) in
  match e with
  | None => kret info
  | Some e => fail_then_drop free_info info (error e)
  end.

Definition ehem_notify_string_free : ptr -> C unit := free.

(** ** The broker client *)

Definition ehem_notify_session (notify_url eid_b64 : option string) (out : bool) : K ptr :=
  if negb out then of_m (throw EHEM_ERR_ARG)
  else
    of_m ehem_ctx_clear_error ;!!
    let!! body := of_m
      (match eid_b64 with
       | Some eid => let* b := body_or_fail [("eid", eid)] in ret (Some b)
       | None => ret None
       end)%hem in
    let!! root := of_m (notify_send_json
      (match body with Some _ => EHEM_HTTP_POST | None => EHEM_HTTP_GET end)
      notify_url "/session" body) in
    req_text (notify_error "notify/session") root "epk".

Definition ehem_notify_register_info_free : ptr -> C unit := free_info.

(** rid, link *)
Definition ehem_notify_register_init (notify_url epk_b64 eid_b64 request_jwt : option string)
    (out : bool) : K ptr :=
  match epk_b64, eid_b64, request_jwt, out with
  | Some epk, Some eid, Some request, true =>
      of_m ehem_ctx_clear_error ;!!
      let!! body := of_m (body_or_fail [("epk", epk); ("eid", eid); ("request", request)]) in
      let!! root := of_m (notify_send_json EHEM_HTTP_POST notify_url "/register/init" (Some body)) in
      with_info 2 NoFlags (fun info =>
        req_members info (notify_error "notify/register/init") root
          [(0%nat, "rid"); (1%nat, "link")])
  | _, _, _, _ => of_m (throw EHEM_ERR_ARG)
  end.

Definition ehem_notify_pairing_reply_free : ptr -> C unit := free_info.

(** pid, reply *)
Definition ehem_notify_register_check (notify_url rid : option string) (out : bool) : K ptr :=
  match rid, out with
  | Some rid, true =>
      of_m ehem_ctx_clear_error ;!!
      let!! subpath := of_m (subpath_of "/register/check/" rid
        "notify/register/check: rid too long") in
      let!! (status, body) := of_m (notify_send EHEM_HTTP_GET notify_url subpath None) in
      with_info 2 (PairingFlags false) (fun r =>
        if status =? 202 then
          of_c (modify_info r (set_rest (PairingFlags true))) ;!! kret r
        else
          match parse_object body with
          | None =>
              fail_then_drop free r
                (ehem_ctx_fail EHEM_ERR_PROTOCOL status body
                   "notify/register/check: broker response is not a JSON object")
          | Some root =>
              req_members r (notify_error "notify/register/check") root
                [(0%nat, "pid"); (1%nat, "reply")]
          end)
  | _, _ => of_m (throw EHEM_ERR_ARG)
  end.

Definition ehem_notify_event_new (notify_url authreq_jwt epk_b64 : option string)
    (out : bool) : K ptr :=
  match authreq_jwt, epk_b64, out with
  | Some authreq, Some epk, true =>
      of_m ehem_ctx_clear_error ;!!
      let!! body := of_m (body_or_fail [("authreq", authreq); ("epk", epk)]) in
      let!! root := of_m (notify_send_json EHEM_HTTP_POST notify_url "/event/new" (Some body)) in
      req_text (notify_error "notify/event/new") root "eventid"
  | _, _, _ => of_m (throw EHEM_ERR_ARG)
  end.

Definition ehem_notify_event_result_free : ptr -> C unit := free_info.

(** authreply *)
Definition ehem_notify_event_check (notify_url eventid : option string) (out : bool) : K ptr :=
  match eventid, out with
  | Some eventid, true =>
      of_m ehem_ctx_clear_error ;!!
      let!! subpath := of_m (subpath_of "/event/check/" eventid
        "notify/event/check: eventid too long") in
      let!! (status, body) := of_m (notify_send EHEM_HTTP_GET notify_url subpath None) in
      with_info 1 (EventFlags false false) (fun r =>
        if status =? 202 then
          of_c (modify_info r (set_rest (EventFlags true false))) ;!! kret r
        else
          match parse_object body with
          | None =>
              fail_then_drop free r
                (ehem_ctx_fail EHEM_ERR_PROTOCOL status body
                   "notify/event/check: broker response is not a JSON object")
          | Some root =>
              if ehem_json_has (Some root) "deny" then
                of_c (modify_info r (set_rest (EventFlags false true))) ;!! kret r
              else
                match ehem_json_get_string (Some root) "authreply" with
                | None =>
                    fail_then_drop free r
                      (ehem_ctx_fail EHEM_ERR_PROTOCOL status body
                         "notify/event/check: 200 with neither 'authreply' nor 'deny' - unknown broker shape")
                | Some s =>
                    let!! ok := of_c (copy_to r 0 s) in
                    if ok then kret r else drop_then free r out_of_memory
                end
          end)
  | _, _ => of_m (throw EHEM_ERR_ARG)
  end.

(** No context, so no last-error detail. *)
Definition ehem_ext_qr_payload (link request_jwt user email hostname : option string)
    (out : bool) : K ptr :=
  match link, request_jwt, out with
  | Some link, Some request, true =>
      let!! digest := of_m (ask (fun n => p_sha256 n (bytes_of_string request))) in
      let!! digest := of_m (check_rc digest) in
      match ehem_b64_std_encode (Some digest) (Z.of_nat EHEM_SHA256_SIZE) false 48 with
      | None => of_m (throw EHEM_ERR_PROTOCOL)
      | Some hash_b64 =>
          let!! printed := of_m (string_body
            [("link", link); ("hash", hash_b64); ("user", default "" user);
             ("email", default "" email); ("hostname", default "" hostname)]) in
          match printed with
          | None => of_m (throw EHEM_ERR_NOMEM)
          | Some printed =>
              let!! copy := of_c (strdup printed) in
              match copy with None => of_m (throw EHEM_ERR_NOMEM) | Some _ => kret copy end
          end
      end
  | _, _, _ => of_m (throw EHEM_ERR_ARG)
  end.

(** ** Pairing *)

Context `{Q : !Request}.

Definition ehem_ext_init_free : ptr -> C unit := free_info.

(** request, eid *)
Definition ehem_ext_init (epk_b64 : option string) (out : bool) : K ptr :=
  match epk_b64, out with
  | Some epk, true =>
      of_m ehem_ctx_clear_error ;!!
      let!! mob := of_m ehem_auth_is_mobile in
      if mob then of_m (Ext.pairing_needs_passphrase "ext/init")
      else if negb (Ext.is_b64_of_32 epk) then
        of_m (ehem_ctx_fail EHEM_ERR_ARG 0 None
          "ext/init: epk must be standard base64 of exactly 32 bytes")
      else
        let!! body := of_m (Ext.epk_body epk) in
        let!! root := of_m (ehem_proto_request_json EHEM_HTTP_POST "/api/auth/ext/init"
                       (Some body) (Some Ext.EXT_PAIR_SCOPE) EHEM_TLS_REQ_DEFAULT) in
        with_info 2 NoFlags (fun info =>
          req_members info (ext_error "auth/ext/init") root
            [(0%nat, "request"); (1%nat, "eid")])
  | _, _ => of_m (throw EHEM_ERR_ARG)
  end.

Definition ehem_ext_validate_free : ptr -> C unit := free_info.

(** kid, code *)
Definition ehem_ext_validate (pid_b64 reply_jwt : option string) (out : bool) : K ptr :=
  match pid_b64, reply_jwt, out with
  | Some pid, Some reply, true =>
      of_m ehem_ctx_clear_error ;!!
      let!! mob := of_m ehem_auth_is_mobile in
      if mob then of_m (Ext.pairing_needs_passphrase "ext/validate")
      else if negb (Ext.is_b64_of_32 pid) then
        of_m (ehem_ctx_fail EHEM_ERR_ARG 0 None
          "ext/validate: pid must be standard base64 of exactly 32 bytes (the device stores the decoded pid as a fixed 32-byte descriptor suffix)")
      else if is_empty reply then
        of_m (ehem_ctx_fail EHEM_ERR_ARG 0 None "ext/validate: reply JWT is empty")
      else
        let!! body := of_m (body_or_fail [("pid", pid); ("reply", reply)]) in
        let!! r := of_m (attempt
          (ehem_proto_request_json EHEM_HTTP_POST "/api/auth/ext/validate"
             (Some body) (Some Ext.EXT_PAIR_SCOPE) EHEM_TLS_REQ_DEFAULT)) in
        match r with
        | inr rc =>
            let!! e := of_m ehem_last_error in
            if http_status e =? 406 then
              of_m (ehem_ctx_fail EHEM_ERR_DEVICE 406 None
                "auth/ext/validate: import refused (406) - ExtAuth slots full (max 8) or this authenticator key is already paired")
            else of_m (throw rc)
        | inl root =>
            with_info 2 NoFlags (fun info =>
              req_members info (ext_error "auth/ext/validate") root
                [(0%nat, "kid"); (1%nat, "code")])
        end
  | _, _, _ => of_m (throw EHEM_ERR_ARG)
  end.

Definition ehem_ext_mac_free : ptr -> C unit := free_info.

(** nonce, mac, eid *)
Definition ehem_ext_mac (epk_b64 : option string) (out : bool) : K ptr :=
  match epk_b64, out with
  | Some epk, true =>
      of_m ehem_ctx_clear_error ;!!
      let!! mob := of_m ehem_auth_is_mobile in
      if mob then of_m (Ext.pairing_needs_passphrase "ext/mac")
      else if negb (Ext.is_b64_of_32 epk) then
        of_m (ehem_ctx_fail EHEM_ERR_ARG 0 None
          "ext/mac: epk must be standard base64 of exactly 32 bytes")
      else
        let!! body := of_m (Ext.epk_body epk) in
        let!! root := of_m (ehem_proto_request_json EHEM_HTTP_POST "/api/auth/ext/mac"
                       (Some body) (Some Ext.EXT_PAIR_SCOPE) EHEM_TLS_REQ_DEFAULT) in
        with_info 3 NoFlags (fun info =>
          req_members info (ext_error "auth/ext/mac") root
            [(0%nat, "nonce"); (1%nat, "mac"); (2%nat, "eid")])
  | _, _ => of_m (throw EHEM_ERR_ARG)
  end.

(** ** The login pair *)

Definition ehem_ext_request_free : ptr -> C unit := free_info.

(** authreq, epk *)
Definition ehem_ext_request (epk_b64 scope ctx_str note : option string) (out : bool) : K ptr :=
  match epk_b64, scope, out with
  | Some epk, Some scope, true =>
      of_m ehem_ctx_clear_error ;!!
      if negb (Ext.is_b64_of_32 epk) then
        of_m (ehem_ctx_fail EHEM_ERR_ARG 0 None
          "ext/request: epk must be standard base64 of exactly 32 bytes")
      else if 1023 <? strlen scope then
        of_m (ehem_ctx_fail EHEM_ERR_ARG 0 None "ext/request: scope exceeds 1023 bytes")
      else if negb (Ext.opt_len_ok ctx_str 64) then
        of_m (ehem_ctx_fail EHEM_ERR_ARG 0 None
          "ext/request: ctx must be 1..64 chars (the firmware silently drops out-of-range values)")
      else if negb (Ext.opt_len_ok note 128) then
        of_m (ehem_ctx_fail EHEM_ERR_ARG 0 None
          "ext/request: note must be 1..128 chars (the firmware silently drops out-of-range values)")
      else
        let!! body := of_m (body_or_fail ([("epk", epk); ("scope", scope)] ++
                        Ext.opt_member "ctx" ctx_str ++ Ext.opt_member "note" note)) in
        let!! root := of_m (Ext.ext_login_post "/api/auth/ext/request" body) in
        with_info 2 NoFlags (fun info =>
          req_members info (ext_error "auth/ext/request") root
            [(0%nat, "authreq"); (1%nat, "epk")])
  | _, _, _ => of_m (throw EHEM_ERR_ARG)
  end.

Definition ehem_ext_token_free : ptr -> C unit := free.

Definition ehem_ext_token (authreply_jwt : option string) (out : bool) : K ptr :=
  match authreply_jwt, out with
  | Some reply, true =>
      of_m ehem_ctx_clear_error ;!!
      if is_empty reply then
        of_m (ehem_ctx_fail EHEM_ERR_ARG 0 None "ext/token: authreply JWT is empty")
      else
        let!! body := of_m (body_or_fail [("authreply", reply)]) in
        let!! r := of_m (attempt (Ext.ext_login_post "/api/auth/ext/token" body)) in
        match r with
        | inr rc =>
            let!! e := of_m ehem_last_error in
            if http_status e =? 401 then
              of_m (ehem_ctx_fail EHEM_ERR_AUTH_FAILED 401 None
                "auth/ext/token: reply JWT rejected (401 - bad signature, expired, or replayed nonce)")
            else if http_status e =? 406 then
              of_m (ehem_ctx_fail EHEM_ERR_AUTH_FAILED 406 None
                "auth/ext/token: reply not acceptable (406 - unknown authenticator, unsupported scheme, or scope ciphertext failed to authenticate)")
            else of_m (throw rc)
        | inl root => req_text (ext_error "auth/ext/token") root "token"
        end
  | _, _ => of_m (throw EHEM_ERR_ARG)
  end.

(** ** The confirm engine

    The handle: notify_url, scope, eventid. *)

Definition ehem_ext_confirm_cancel : ptr -> C unit := free_info.

(** The code of the leg that failed, [*reqi_out] and [*epk_out]. *)
Definition confirm_fire_push (c : ptr) (scope : string) (ctx_str note : option string)
  : K ((unit + ehem_rc) * ptr * ptr) :=
  of_c (let! s := load_info c in
        ehem_notify_string_free (member 2 s) ;! modify_info c (set_str 2 None)) ;!!
  let!! url := of_c (member_arg c 0) in
  let!! epk := kattempt (ehem_notify_session url None true) in
  match epk with
  | inr rc => kret (inr rc, None, None)
  | inl epk =>
      let!! key := of_c (text_arg epk) in
      let!! reqi := kattempt (ehem_ext_request key (Some scope) ctx_str note true) in
      match reqi with
      | inr rc => kret (inr rc, None, epk)
      | inl reqi =>
          let!! url := of_c (member_arg c 0) in
          let!! authreq := of_c (member_arg reqi 0) in
          let!! key := of_c (member_arg reqi 1) in
          let!! ev := kattempt (ehem_notify_event_new url authreq key true) in
          match ev with
          | inr rc => kret (inr rc, reqi, epk)
          | inl ev => of_c (modify_info c (set_str 2 ev)) ;!! kret (inl tt, reqi, epk)
          end
      end
  end.

(** What both attempts give back. *)
Definition drop_push (reqi epk : ptr) : C unit :=
  ehem_ext_request_free reqi ;! ehem_notify_string_free epk.

Definition push_with_recovery (c : ptr) (scope : string) (ctx_str note : option string)
  : K (unit + ehem_rc) :=
  let fire := confirm_fire_push c scope ctx_str note in
  let!! (r, reqi, epk) := fire in
  let give_back := of_c (drop_push reqi epk) ;!! kret r in
  match r, reqi with
  | inr rc, Some _ =>
      let!! e := of_m ehem_last_error in
      let!! cx := of_m get_ctx in
      if (http_status e =? 401) && negb (no_auto_checkin (cfg cx)) && negb (in_checkin cx)
      then
        let!! authreq := of_c (let! s := load_info reqi in string_at (member 0 s)) in
        let!! drift := of_m (match Ext.peek_jwt_iat authreq with
                             | Some iat => let* now := ask p_time in ret (iat - now)
                             | None => ret 0
                             end)%hem in
        if Ext.drift_out_of_gate drift then
          let!! crc := of_m (attempt (checkin_quietly true)) in
          match crc with
          | inl _ =>
              of_c (drop_push reqi epk) ;!!
              let!! (r, reqi, epk) := fire in
              of_c (drop_push reqi epk) ;!! kret r
          | inr _ => give_back
          end
        else give_back
      else give_back
  | _, _ => give_back
  end.

Definition ehem_ext_confirm_begin (notify_url scope ctx_str note : option string)
    (out : bool) : K ptr :=
  match scope, out with
  | Some scope, true =>
      with_info 3 (HandleFlags false) (fun c =>
        let!! ok := of_c (copy_to c 1 scope) in
        if negb ok then drop_then ehem_ext_confirm_cancel c out_of_memory
        else
          let!! ok := of_c (match notify_url with
                            | Some u => copy_to c 0 u
                            | None => cret true
                            end) in
          if negb ok then drop_then ehem_ext_confirm_cancel c out_of_memory
          else
            let!! r := push_with_recovery c scope ctx_str note in
            match r with
            | inr rc => of_c (ehem_ext_confirm_cancel c) ;!! of_m (throw rc)
            | inl _ =>
                let!! cx := of_m get_ctx in
                (if confirm_notice (cfg cx)
                 then let!! sc := of_c (let! s := load_info c in string_at (member 1 s)) in
                      of_m (emit (EvNotice sc (confirm_timeout_ms (cfg cx))
                                      (confirm_notice_arg (cfg cx))))
                 else kret tt) ;!!
                kret c
            end)
  | _, _ => of_m (throw EHEM_ERR_ARG)
  end.

(** [c->terminal] and [c->terminal = 1] *)
Definition is_terminal (c : ptr) : C bool :=
  let! s := load_info c in
  match is_rest s with HandleFlags t => cret t | _ => undefined end.
Definition finish (c : ptr) : C unit := modify_info c (set_rest (HandleFlags true)).
Definition event_flags (r : ptr) : C (bool * bool) :=
  let! s := load_info r in
  match is_rest s with EventFlags p d => cret (p, d) | _ => undefined end.

(** [ehem_zeroize(token, strlen(token)); ehem_ext_token_free(token)] *)
Definition drop_token (token : ptr) : C unit :=
  let! n := strlen_at token in zeroize token n ;! ehem_ext_token_free token.

Definition ehem_ext_confirm_poll (c : ptr) : K (Ext.ehem_confirm_status + ehem_rc) :=
  let!! t := of_c (is_terminal c) in
  if t then
    kattempt (of_m (ehem_ctx_fail EHEM_ERR_ARG 0 None
      "confirm: handle already finished (single-use)"))
  else
    let!! url := of_c (member_arg c 0) in
    let!! eventid := of_c (member_arg c 2) in
    let!! r := kattempt (ehem_notify_event_check url eventid true) in
    match r with
    | inr rc => kret (inr rc)
    | inl r =>
        let!! (pending, denied) := of_c (event_flags r) in
        if pending then
          of_c (ehem_notify_event_result_free r) ;!! kret (inl Ext.EHEM_CONFIRM_PENDING)
        else if denied then
          of_c (ehem_notify_event_result_free r) ;!!
          of_c (finish c) ;!!
          kattempt (of_m (ehem_ctx_fail EHEM_ERR_USER_REJECTED 0 None
            "confirm: rejected on the authenticator"))
        else
          let!! authreply := of_c (member_arg r 0) in
          let!! token := kattempt (ehem_ext_token authreply true) in
          of_c (ehem_notify_event_result_free r) ;!!
          match token with
          | inr rc => of_c (finish c) ;!! kret (inr rc)
          | inl token =>
              let!! scope := of_c (let! s := load_info c in string_at (member 1 s)) in
              let!! text := of_c (string_at token) in
              let!! s := kattempt (of_m (ehem_auth_cache_seed scope text)) in
              of_c (drop_token token) ;!!
              of_c (finish c) ;!!
              kret (match s with
                    | inl _ => inl Ext.EHEM_CONFIRM_APPROVED
                    | inr rc => inr rc
                    end)
          end
    end.

(** [for (;;)] of the wait, one unit of fuel per poll. *)
Fixpoint confirm_wait_loop (fuel : nat) (c : ptr) (elapsed timeout_ms : Z) : K (unit + ehem_rc) :=
  match fuel with
  | O => of_m diverge
  | S fuel =>
      let!! r := ehem_ext_confirm_poll c in
      match r with
      | inr rc => kret (inr rc)
      | inl Ext.EHEM_CONFIRM_APPROVED => kret (inl tt)
      | inl Ext.EHEM_CONFIRM_PENDING =>
          if timeout_ms <=? elapsed then
            kattempt (of_m (ehem_ctx_fail EHEM_ERR_CONFIRM_TIMEOUT 0 None
              ("confirm: not answered within " +:+ dec timeout_ms +:+ " ms")))
          else
            let step := if timeout_ms - elapsed <? Ext.CONFIRM_POLL_INTERVAL_MS
                        then timeout_ms - elapsed else Ext.CONFIRM_POLL_INTERVAL_MS in
            of_m (ehem_proto_sleep_ms step) ;!!
            confirm_wait_loop fuel c (elapsed + step) timeout_ms
      end
  end.

Definition ehem_ext_confirm_wait (c : ptr) (timeout_ms : Z) : K (unit + ehem_rc) :=
  if timeout_ms <=? 0 then kret (inr EHEM_ERR_ARG)
  else confirm_wait_loop (Ext.wait_fuel timeout_ms) c 0 timeout_ms.
End Ext.
