(* ===== verification/ExtMemProps.v ===== *)
(** * Pairing, confirmation and broker results in memory refine those by values

    The operations of [ExtMem] against those of [Notify] and [Ext]: the same outcome and
    world, the results in blocks of their own, and the handle of a confirmation changed
    in place from its beginning to its cancellation. *)

From stdpp Require Import gmap.
From S2P Require Import Prelude Base64 Json World Logic Context Ejwt Proto Checkin AuthState Notify.
From S2P Require Import Mem MemWorld CodecMem InfoMem InfoMemProps SystemMem SystemMemProps ExtMem Session Fake.
From S2P Require Ext.

Section Endpoints.
Context {P : Platform}.
Context `{CJ : !@CleanJson p_json}.
Abbreviation mem := (cmem (info_obj ext_rest)).
Abbreviation K := (MemWorld.K (info_obj ext_rest)).
Implicit Types m : mem.

Lemma notify_alike {A B} what e : fail_alike (notify_error (A:=A) what e) (notify_error (A:=B) what e).
Proof. destruct e; apply ctx_fail_alike. Qed.
Lemma ext_alike {A B} what e : fail_alike (ext_error (A:=A) what e) (ext_error (A:=B) what e).
Proof. destruct e; apply ctx_fail_alike. Qed.

(** ** Strings and structs *)

Definition text_result (h : gmap positive (cell (info_obj ext_rest))) (p : ptr) (s : string)
    (L : list positive) : Prop :=
  exists l, p = Some l /\ h !! l = Some (CBytes (c_string s)) /\ L = [l].
Definition text_post (p : ptr) (s : string) (L : list positive) m : Prop :=
  text_result (live m) p s L /\ nul_free s.

Definition info_post {B} (strs : B -> list (option string)) (rest : B -> ext_rest)
    (p : ptr) (b : B) (L : list positive) m : Prop :=
  exists q, p = Some q /\ filled q (strs b) (rest b) L m /\ Forall (from_option nul_free True) (strs b).

Lemma strdup_refines {D B} s (f : ptr -> K D) (v : M B) vs vn Post w m :
  (forall w, v w = bind (dup_str s) (fun o => match o with Some _ => vs | None => vn end) w) ->
  (forall l w m, live m !! l = Some (CBytes (c_string s)) -> owns [l] m ->
     refines any (f (Some l)) vs Post [l] w m) ->
  (forall w m, refines any (f None) vn Post [] w m) ->
  refines any (kbind (of_c (strdup s)) f) v Post [] w m.
Proof.
  intros Hv Hs Hn. eapply refines_eq; [apply Hv|]. apply refines_work, cwp_allocate.
  - intros E. exists vn, []. split; [unfold dup_str, malloc, ask, bind, ret; by rewrite E|].
    split; [apply step_refl, owns_nil|apply Hn].
  - intros l E Hl _. exists vs, [l]. split; [unfold dup_str, malloc, ask, bind, ret; by rewrite E|].
    pose proof (step_new (good:=any) l (CBytes (c_string s)) m Hl) as S1.
    split; [exact S1|]. apply Hs; [apply lookup_insert_eq|apply S1].
Qed.

Lemma req_text_refines (e : copy_error -> M ptr) (e' : copy_error -> M string) root key w m :
  (forall x, fail_alike (e x) (e' x)) -> e' NoMemory = out_of_memory -> clean root ->
  refines any (req_text e root key)
    (match ehem_json_get_string (Some root) key with
     | None => e' (Missing key) | Some s => dup_or_fail s end) text_post [] w m.
Proof.
  intros Ha Hn Hc. unfold req_text. destruct (ehem_json_get_string (Some root) key) as [s|] eqn:Es;
    [|by apply alike_refines].
  apply strdup_refines with (vs := ret s) (vn := out_of_memory).
  - intros w1. unfold dup_or_fail, dup_str, malloc, ask, bind, ret. by destruct (p_malloc (w_tick w1)).
  - intros l w1 m1 El O. apply refines_ret; [exact O|]. split; [|by eapply Hc]. by exists l.
  - intros w1 m1. rewrite <- Hn. by apply alike_refines.
Qed.

Ltac step_required err :=
  eapply required_cons with (bad := err);
  [eassumption|reflexivity|reflexivity|intros; apply bind_ctx_fail|reflexivity
  |intros; eapply fail_drop_refines; [eassumption|auto using notify_alike, ext_alike]|];
  let F := fresh "F" in let E := fresh "E" in intros ? ? ? ? E F; cbn [list_insert insert] in F.
Ltac chain_done := apply refines_c_ret; (eapply refines_eq; [reflexivity|]); cbv beta iota.
(** The struct is complete; its strings came from the tree. *)
Ltac info_done :=
  match goal with F : filled _ _ _ _ ?m |- refines _ _ _ _ _ _ ?m =>
    apply refines_ret; [by eapply filled_owns|]; eexists; split; [reflexivity|]; split; [exact F|];
    repeat constructor; cbn; eauto
  end.

(** What the broker and the device answer was parsed. *)
Lemma fails_not_ok {A} rc st p msg w (a : A) w' : ehem_ctx_fail rc st p msg w <> (Ok a, w').
Proof. destruct (ctx_fail_alike (A:=A) (B:=A) rc st p msg w) as (? & ? & -> & _). done. Qed.

Lemma parse_object_clean body root : parse_object body = Some root -> clean root.
Proof.
  unfold parse_object. destruct body as [b|]; [|done]. cbn [mbind option_bind].
  destruct (ehem_json_parse b) as [r|] eqn:Ep; [|done]. cbn [mbind option_bind].
  destruct (ehem_json_is_object (Some r)); [|done].
  intros [= ->] key s Es. rewrite <- Ep in Es. by eapply clean_string.
Qed.

Definition yields_clean (v : M json) : Prop := forall w root w', v w = (Ok root, w') -> clean root.

Lemma clean_refines {D B} (v : M json) (f : json -> K D) (g : json -> M B) Post w m :
  yields_clean v -> (forall root w m, clean root -> refines any (f root) (g root) Post [] w m) ->
  refines any (kbind (of_m v) f) (bind v g) Post [] w m.
Proof.
  intros Hv Hk. unfold refines, kbind, of_m, bind. destruct (v w) as [[root|rc|] w1] eqn:E.
  - apply (Hk root w1 m), (Hv _ _ _ E).
  - do 3 eexists. split; [done|]. split; [done|]. split; [done|]. apply step_refl, owns_nil.
  - by do 3 eexists.
Qed.

Lemma clean_request `{Q : !Request} mth path body scope ov :
  yields_clean (ehem_proto_request_json mth path body scope ov).
Proof.
  intros w1 root w2 E. unfold ehem_proto_request_json, bind in E.
  destruct (ehem_proto_request_raw _ _ _ _ _ w1) as [[text|rc|] w3]; try done.
  destruct (ehem_json_parse text) as [r|] eqn:Ep; [|by apply fails_not_ok in E].
  destruct (ehem_json_is_object (Some r)); [|by apply fails_not_ok in E].
  injection E as -> ->. intros key s Es. rewrite <- Ep in Es. by eapply clean_string.
Qed.
Lemma clean_notify mth url path body : yields_clean (notify_send_json mth url path body).
Proof.
  intros w1 root w2 E. unfold notify_send_json, bind in E.
  destruct (notify_send _ _ _ _ w1) as [[[st [b|]]|rc|] w3]; try done; try by apply fails_not_ok in E.
  destruct (parse_object (Some b)) as [r|] eqn:Ep; [|by apply fails_not_ok in E].
  injection E as -> ->. by eapply parse_object_clean.
Qed.

(** ** The broker client *)

Lemma ehem_notify_session_refines url eid out w m :
  refines any (ehem_notify_session url eid out) (Notify.ehem_notify_session url eid out) text_post [] w m.
Proof.
  unfold ehem_notify_session, Notify.ehem_notify_session. destruct out; [|apply refines_throw].
  apply then_refines; intros _ w1 m1. apply then_refines; intros body w2 m2.
  apply clean_refines; [apply clean_notify|]. intros root w3 m3 Hc.
  apply req_text_refines with (e' := notify_error "notify/session"); [intros; apply notify_alike|done..].
Qed.

Lemma ehem_notify_event_new_refines url authreq epk out w m :
  refines any (ehem_notify_event_new url authreq epk out) (Notify.ehem_notify_event_new url authreq epk out)
    text_post [] w m.
Proof.
  unfold ehem_notify_event_new, Notify.ehem_notify_event_new.
  destruct authreq as [a|], epk as [e|], out; try apply refines_throw.
  apply then_refines; intros _ w1 m1. apply then_refines; intros body w2 m2.
  apply clean_refines; [apply clean_notify|]. intros root w3 m3 Hc.
  apply req_text_refines with (e' := notify_error "notify/event/new"); [intros; apply notify_alike|done..].
Qed.

Definition register_strs (b : ehem_notify_register_info) : list (option string) :=
  [Some (nri_rid b); Some (nri_link b)].

Lemma ehem_notify_register_init_refines url epk eid req out w m :
  refines any (ehem_notify_register_init url epk eid req out)
    (Notify.ehem_notify_register_init url epk eid req out)
    (info_post register_strs (fun _ => NoFlags)) [] w m.
Proof.
  unfold ehem_notify_register_init, Notify.ehem_notify_register_init.
  destruct epk as [a|], eid as [e|], req as [r|], out; try apply refines_throw.
  apply then_refines; intros _ w1 m1. apply then_refines; intros body w2 m2.
  apply clean_refines; [apply clean_notify|]. intros root w3 m3 Hc.
  apply with_info_refines. intros q w4 m4 F4. cbn [repeat] in F4. unfold req_members.
  do 2 step_required (notify_error (A:=ehem_notify_register_info) "notify/register/init").
  chain_done. info_done.
Qed.

Definition pairing_strs (b : ehem_notify_pairing_reply) : list (option string) := [npr_pid b; npr_reply b].
Definition pairing_flags (b : ehem_notify_pairing_reply) : ext_rest := PairingFlags (npr_pending b).

(** [fail; free(r)] while the struct owns nothing. *)
Lemma fail_free_refines {B} q vals v (e : M ptr) (e' : M B) Post w m :
  filled q vals v [q] m -> fail_alike e e' -> refines any (fail_then_drop free (Some q) e) e' Post [q] w m.
Proof.
  intros F H. destruct (H w) as (rc & w' & E & E').
  unfold fail_then_drop, refines, kbind at 1, kattempt, of_m at 1. rewrite E, E'.
  destruct (cwp_done _ _ _ _ (free_ptr (Some q) (w_tick w') m (filled_owns _ _ _ _ _ F)))
    as ([] & t2 & m2 & E2 & -> & S2).
  unfold kbind, of_c. rewrite E2. unfold of_m, throw. do 3 eexists. split; [done|].
  split; [by destruct w'|done].
Qed.

Lemma ehem_notify_register_check_refines url rid out w m :
  refines any (ehem_notify_register_check url rid out) (Notify.ehem_notify_register_check url rid out)
    (info_post pairing_strs pairing_flags) [] w m.
Proof.
  unfold ehem_notify_register_check, Notify.ehem_notify_register_check.
  destruct rid as [rid|], out; try apply refines_throw.
  apply then_refines; intros _ w1 m1. apply then_refines; intros subpath w2 m2.
  apply then_refines; intros [status body] w3 m3.
  apply with_info_refines. intros q w4 m4 F4. cbn [repeat] in F4.
  destruct (status =? 202).
  { eapply rest_refines; [exact F4|]. intros m5 F5. info_done. }
  destruct (parse_object body) as [root|] eqn:Ep; [|by eapply fail_free_refines; [|apply ctx_fail_alike]].
  pose proof (parse_object_clean _ _ Ep) as Hc. unfold req_members.
  do 2 step_required (notify_error (A:=ehem_notify_pairing_reply) "notify/register/check").
  chain_done. info_done.
Qed.

Definition event_strs (b : ehem_notify_event_result) : list (option string) := [ner_authreply b].
Definition event_of (b : ehem_notify_event_result) : ext_rest := EventFlags (ner_pending b) (ner_denied b).

(** A struct without strings is one block. *)
Lemma filled_bare q n v L m : filled q (repeat None n) v L m -> L ≡ₚ [q].
Proof.
  intros (s & (_ & F & _) & En & _ & Hp & _). rewrite Hp. unfold info_locs. rewrite En.
  assert (ptrs (is_str s) = []) as ->; [|done]. clear Hp. revert F. generalize (is_str s).
  induction n as [|n IH]; intros l F; cbn [repeat] in F.
  - by apply Forall2_nil_inv_r in F as ->.
  - apply Forall2_cons_inv_r in F as (p & l' & T & F & ->). destruct p; [done|]. by apply (IH l').
Qed.

Lemma ehem_notify_event_check_refines url eventid out w m :
  refines any (ehem_notify_event_check url eventid out) (Notify.ehem_notify_event_check url eventid out)
    (info_post event_strs event_of) [] w m.
Proof.
  unfold ehem_notify_event_check, Notify.ehem_notify_event_check.
  destruct eventid as [eventid|], out; try apply refines_throw.
  apply then_refines; intros _ w1 m1. apply then_refines; intros subpath w2 m2.
  apply then_refines; intros [status body] w3 m3.
  apply with_info_refines. intros q w4 m4 F4. cbn [repeat] in F4.
  destruct (status =? 202).
  { eapply rest_refines; [exact F4|]. intros m5 F5. info_done. }
  destruct (parse_object body) as [root|] eqn:Ep; [|by eapply fail_free_refines; [|apply ctx_fail_alike]].
  pose proof (parse_object_clean _ _ Ep) as Hc.
  destruct (ehem_json_has (Some root) "deny").
  { eapply rest_refines; [exact F4|]. intros m5 F5. info_done. }
  destruct (ehem_json_get_string (Some root) "authreply") as [s|] eqn:Es;
    [|by eapply fail_free_refines; [|apply ctx_fail_alike]].
  eapply refines_k_eq; [apply of_c_ret_assoc|].
  apply refines_eq with (v' := bind (dup_str s) (fun o => match o with
    | Some s => ret {| ner_pending := false; ner_denied := false; ner_authreply := Some s |}
    | None => out_of_memory end)).
  { unfold dup_or_fail, dup_str, malloc, ask, bind, ret. by destruct (p_malloc (w_tick w4)). }
  eapply copy_refines; [exact F4|reflexivity|..]; intros L1 w5 m5 F5; apply refines_c_ret.
  - cbn [list_insert insert] in F5. info_done.
  - pose proof (filled_bare q 1 _ _ _ F5) as Hp. apply (refines_perm [q]); [exact Hp|].
    eapply drop_plain_refines; [|apply ctx_fail_alike].
    destruct F5 as (s1 & A & En & Er & Hp' & O). exists s1. rewrite Hp in Hp', O. eauto.
Qed.

Lemma ehem_ext_qr_payload_refines link req user email host out w m :
  refines any (ehem_ext_qr_payload link req user email host out)
    (Notify.ehem_ext_qr_payload link req user email host out)
    (fun p s L m => text_result (live m) p s L) [] w m.
Proof.
  unfold ehem_ext_qr_payload, Notify.ehem_ext_qr_payload.
  destruct link as [l|], req as [r|], out; try apply refines_throw.
  apply then_refines; intros x w1 m1. apply then_refines; intros d w2 m2.
  destruct (ehem_b64_std_encode _ _ _ _) as [h|]; [|apply refines_throw].
  apply then_refines; intros [text|] w3 m3; [|apply refines_throw].
  apply strdup_refines with (vs := ret text) (vn := throw EHEM_ERR_NOMEM).
  - intros w4. unfold dup_str, malloc, ask, bind, ret. by destruct (p_malloc (w_tick w4)).
  - intros x4 w4 m4 El O. apply refines_ret; [exact O|]. by exists x4.
  - intros. apply refines_throw.
Qed.

(** ** Pairing and the login pair *)

Context `{Q : !Request}.

Definition init_strs (b : Ext.ehem_ext_init_info) : list (option string) :=
  [Some (Ext.xi_request b); Some (Ext.xi_eid b)].
Definition validate_strs (b : Ext.ehem_ext_validate_info) : list (option string) :=
  [Some (Ext.xv_kid b); Some (Ext.xv_code b)].
Definition mac_strs (b : Ext.ehem_ext_mac_info) : list (option string) :=
  [Some (Ext.xm_nonce b); Some (Ext.xm_mac b); Some (Ext.xm_eid b)].
Definition request_strs (b : Ext.ehem_ext_request_info) : list (option string) :=
  [Some (Ext.xr_authreq b); Some (Ext.xr_epk b)].

Lemma ehem_ext_init_refines epk out w m :
  refines any (ehem_ext_init epk out) (Ext.ehem_ext_init epk out)
    (info_post init_strs (fun _ => NoFlags)) [] w m.
Proof.
  unfold ehem_ext_init, Ext.ehem_ext_init. destruct epk as [epk|], out; try apply refines_throw.
  apply then_refines; intros _ w1 m1. apply then_refines; intros mob w2 m2.
  destruct mob; [apply fail_refines|]. destruct (negb _); [apply fail_refines|].
  apply then_refines; intros body w3 m3. apply clean_refines; [apply clean_request|]. intros root w4 m4 Hc.
  apply with_info_refines. intros q w5 m5 F5. cbn [repeat] in F5. unfold req_members.
  do 2 step_required (ext_error (A:=Ext.ehem_ext_init_info) "auth/ext/init"). chain_done. info_done.
Qed.

Lemma ehem_ext_mac_refines epk out w m :
  refines any (ehem_ext_mac epk out) (Ext.ehem_ext_mac epk out)
    (info_post mac_strs (fun _ => NoFlags)) [] w m.
Proof.
  unfold ehem_ext_mac, Ext.ehem_ext_mac. destruct epk as [epk|], out; try apply refines_throw.
  apply then_refines; intros _ w1 m1. apply then_refines; intros mob w2 m2.
  destruct mob; [apply fail_refines|]. destruct (negb _); [apply fail_refines|].
  apply then_refines; intros body w3 m3. apply clean_refines; [apply clean_request|]. intros root w4 m4 Hc.
  apply with_info_refines. intros q w5 m5 F5. cbn [repeat] in F5. unfold req_members.
  do 3 step_required (ext_error (A:=Ext.ehem_ext_mac_info) "auth/ext/mac"). chain_done. info_done.
Qed.

(** A caught failure, or the tree. *)
Lemma clean_attempt_refines {D B} (v : M json) (f : json + ehem_rc -> K D) (g : json + ehem_rc -> M B) Post w m :
  yields_clean v -> (forall root w m, clean root -> refines any (f (inl root)) (g (inl root)) Post [] w m) ->
  (forall rc w m, refines any (f (inr rc)) (g (inr rc)) Post [] w m) ->
  refines any (kbind (of_m (attempt v)) f) (bind (attempt v) g) Post [] w m.
Proof.
  intros Hv Hk He. unfold refines, kbind, of_m, bind, attempt. destruct (v w) as [[root|rc|] w1] eqn:E.
  - apply (Hk root w1 m), (Hv _ _ _ E).
  - apply He.
  - by do 3 eexists.
Qed.

Lemma ehem_ext_validate_refines pid reply out w m :
  refines any (ehem_ext_validate pid reply out) (Ext.ehem_ext_validate pid reply out)
    (info_post validate_strs (fun _ => NoFlags)) [] w m.
Proof.
  unfold ehem_ext_validate, Ext.ehem_ext_validate.
  destruct pid as [pid|], reply as [reply|], out; try apply refines_throw.
  apply then_refines; intros _ w1 m1. apply then_refines; intros mob w2 m2.
  destruct mob; [apply fail_refines|]. destruct (negb _); [apply fail_refines|].
  destruct (is_empty reply); [apply fail_refines|].
  apply then_refines; intros body w3 m3.
  apply clean_attempt_refines; [apply clean_request|intros root w4 m4 Hc|intros rc w4 m4].
  - apply with_info_refines. intros q w5 m5 F5. cbn [repeat] in F5. unfold req_members.
    do 2 step_required (ext_error (A:=Ext.ehem_ext_validate_info) "auth/ext/validate").
    chain_done. info_done.
  - apply then_refines; intros e w5 m5. destruct (http_status e =? 406); [apply fail_refines|apply refines_throw].
Qed.

Lemma clean_login path body : yields_clean (Ext.ext_login_post path body).
Proof.
  pose proof (clean_request EHEM_HTTP_POST path (Some body) None EHEM_TLS_REQ_DEFAULT) as Hp.
  set (post := ehem_proto_request_json EHEM_HTTP_POST path (Some body) None EHEM_TLS_REQ_DEFAULT) in Hp.
  intros w root w'. unfold Ext.ext_login_post. fold post. cbv zeta. unfold bind at 1, attempt at 1.
  destruct (post w) as [[r|rc|] w1] eqn:E1; [intros [= -> ->]; by eapply Hp| |done].
  unfold bind at 1. destruct (ehem_last_error w1) as [[e|?|] w2]; [|done..].
  unfold bind at 1. destruct (get_ctx w2) as [[c|?|] w3]; [|done..].
  destruct (_ && _ && _); [|done]. unfold bind at 1.
  destruct (attempt (checkin_quietly true) w3) as [[[?|?]|?|] w4]; [by apply Hp| |done..].
  unfold bind at 1. destruct (ehem_last_error w4) as [[e'|?|] w5]; [|done..].
  intros E. by apply fails_not_ok in E.
Qed.

Lemma ehem_ext_request_refines epk scope ctx_str note out w m :
  refines any (ehem_ext_request epk scope ctx_str note out) (Ext.ehem_ext_request epk scope ctx_str note out)
    (info_post request_strs (fun _ => NoFlags)) [] w m.
Proof.
  unfold ehem_ext_request, Ext.ehem_ext_request. destruct epk as [epk|], scope as [sc|], out; try apply refines_throw.
  apply then_refines; intros _ w1 m1. destruct (negb _); [apply fail_refines|].
  destruct (1023 <? _); [apply fail_refines|]. do 2 (destruct (negb _); [apply fail_refines|]).
  apply then_refines; intros body w3 m3. apply clean_refines; [apply clean_login|]. intros root w4 m4 Hc.
  apply with_info_refines. intros q w5 m5 F5. cbn [repeat] in F5. unfold req_members.
  do 2 step_required (ext_error (A:=Ext.ehem_ext_request_info) "auth/ext/request"). chain_done. info_done.
Qed.

Lemma ehem_ext_token_refines reply out w m :
  refines any (ehem_ext_token reply out) (Ext.ehem_ext_token reply out) text_post [] w m.
Proof.
  unfold ehem_ext_token, Ext.ehem_ext_token. destruct reply as [reply|], out; try apply refines_throw.
  apply then_refines; intros _ w1 m1. destruct (is_empty reply); [apply fail_refines|].
  apply then_refines; intros body w3 m3.
  apply clean_attempt_refines; [apply clean_login|intros root w4 m4 Hc|intros rc w4 m4].
  - by apply req_text_refines with (e' := ext_error "auth/ext/token"); [intros; apply ext_alike|..].
  - apply then_refines; intros e w5 m5. destruct (http_status e =? 401); [apply fail_refines|].
    destruct (http_status e =? 406); [apply fail_refines|apply refines_throw].
Qed.

(** ** Steps beside owned memory *)

(** What does not fail. *)
Lemma quiet_refines {D B E} (c : M D) (f : D -> K E) (g : D -> M B) Post L w m :
  owns L m -> (forall w rc w', c w <> (Err rc, w')) ->
  (forall a w, refines any (f a) (g a) Post L w m) ->
  refines any (kbind (of_m c) f) (bind c g) Post L w m.
Proof.
  intros O Hc Hk. destruct (c w) as [[a|rc|] w'] eqn:Ec; [|by apply Hc in Ec|].
  - specialize (Hk a w'). unfold refines, kbind, of_m, bind in *. by rewrite Ec.
  - unfold refines, kbind, of_m, bind. rewrite Ec. by do 3 eexists.
Qed.
Lemma attempt_quiet {A} (v : M A) w rc w' : attempt v w <> (Err rc, w').
Proof. unfold attempt. by destruct (v w) as [[] ?]. Qed.

(** A caught operation of the values on memory it does not touch. *)
Lemma caught_refines {A B E} (v : M A) (f : A + ehem_rc -> K E) (g : A + ehem_rc -> M B) Post L w m :
  owns L m -> (forall a w, refines any (f a) (g a) Post L w m) ->
  refines any (kbind (kattempt (of_m v)) f) (bind (attempt v) g) Post L w m.
Proof.
  intros O H. eapply refines_k_eq; [|by apply quiet_refines; [exact O|apply attempt_quiet|exact H]].
  unfold kbind, kattempt, of_m, attempt. by destruct (v w) as [[] ?].
Qed.
Lemma caught_done {A} (v : M A) (Post : A + ehem_rc -> A + ehem_rc -> list positive -> mem -> Prop) L w m :
  owns L m -> (forall a, Post a a L m) -> refines any (kattempt (of_m v)) (attempt v) Post L w m.
Proof.
  intros O H. unfold refines, kattempt, of_m, attempt. destruct (v w) as [[a|rc|] w'];
    do 3 eexists; (split; [done|]); (split; [done|]); cbn; eauto using step_refl.
Qed.

(** An operation that allocates, its failure caught. *)
Lemma beside_refines {A B D E} (k : K A) (v : M B) (f : A + ehem_rc -> K D) (g : B + ehem_rc -> M E)
    Post1 Post F w m :
  owns F m -> refines any k v Post1 [] w m ->
  (forall a b L1 w1 m1, (forall x, x ∈ F -> live m1 !! x = live m !! x) -> owns (F ++ L1) m1 ->
     Post1 a b L1 m1 -> refines any (f (inl a)) (g (inl b)) Post (F ++ L1) w1 m1) ->
  (forall rc w1 m1, (forall x, x ∈ F -> live m1 !! x = live m !! x) -> owns F m1 ->
     refines any (f (inr rc)) (g (inr rc)) Post F w1 m1) ->
  refines any (kbind (kattempt k) f) (bind (attempt v) g) Post F w m.
Proof.
  intros O Hk Hs He. eapply refines_bind; [by apply refines_attempt|].
  intros a b L1 w1 m1 [Hx H] S1. destruct a as [a|rc], b as [b|rc']; try done.
  - destruct H as (L2 & -> & Hp & _). apply Hs; [done|apply S1|done].
  - destruct H as [-> ->]. apply He; [done|apply S1].
Qed.

(** Memory work on a part of what is owned. *)
Lemma part_refines {A B D} (c : Mem.C (info_obj ext_rest) A) (f : A -> K D) (v : M B) Post
    (R : A -> list positive -> mem -> Prop) F L1 L w m :
  L ≡ₚ F ++ L1 -> owns L m ->
  cwp c (fun a t' m' => t' = w_tick w /\ exists L2, step any L1 m L2 m' /\ R a L2 m') (w_tick w) m ->
  (forall a L2 m', owns (F ++ L2) m' -> (forall x, x ∈ F -> live m' !! x = live m !! x) ->
     R a L2 m' -> refines any (f a) v Post (F ++ L2) w m') ->
  refines any (kbind (of_c c) f) v Post L w m.
Proof.
  intros Hp O Hc Hk. rewrite Hp in O. apply (refines_perm (F ++ L1)); [exact Hp|].
  apply refines_mem. eapply cwp_mono; [exact Hc|]. intros a t' m' (-> & L2 & S1 & HR). split; [done|].
  destruct (step_frame F L1 m L2 m' O S1) as [S2 Hx]. exists (F ++ L2). split; [exact S2|].
  apply Hk; [apply S2|exact Hx|exact HR].
Qed.

(** Reading. *)
Lemma read_refines {A B D} (c : Mem.C (info_obj ext_rest) A) (f : A -> K D) (v : M B) Post a L w m :
  owns L m -> (forall Q t, Q a t m -> cwp c Q t m) -> refines any (f a) v Post L w m ->
  refines any (kbind (of_c c) f) v Post L w m.
Proof.
  intros O Hc Hk. apply refines_mem, Hc. split; [done|]. exists L. split; [by apply step_refl|exact Hk].
Qed.

Abbreviation ok_text := (from_option nul_free True).

Lemma cwp_text_arg p v R t m :
  text_at (live m) p v -> ok_text v -> R v t m -> cwp (text_arg p) R t m.
Proof.
  intros T Hn HR. destruct p as [l|], v as [s|]; try done. cbn [text_arg].
  apply cwp_bind. by eapply cwp_string.
Qed.

Lemma filled_member q vals v L i a m :
  filled q vals v L m -> vals !! i = Some a ->
  exists s, live m !! q = Some (CStruct (OInfo s)) /\ is_rest s = v /\ text_at (live m) (member i s) a.
Proof.
  intros (s & (Eq & F & _) & _ & Er & _) Hi. exists s. split; [done|]. split; [done|].
  destruct (Forall2_lookup_r _ _ _ _ _ F Hi) as (p & Ep & T). by assert (member i s = p) as -> by exact (f_equal (default None) Ep).
Qed.

Lemma cwp_member_arg q vals v L i a R t m :
  filled q vals v L m -> vals !! i = Some a -> ok_text a -> R a t m ->
  cwp (member_arg (Some q) i) R t m.
Proof.
  intros F Hi Hn HR. destruct (filled_member _ _ _ _ _ _ _ F Hi) as (s & Eq & _ & T).
  apply cwp_bind, (cwp_load_info _ _ _ _ _ Eq). by eapply cwp_text_arg.
Qed.

Lemma cwp_member_string q vals v L i a R t m :
  filled q vals v L m -> vals !! i = Some (Some a) -> nul_free a -> R a t m ->
  cwp (cbind (load_info (Some q)) (fun s => string_at (member i s))) R t m.
Proof.
  intros F Hi Hn HR. destruct (filled_member _ _ _ _ _ _ _ F Hi) as (s & Eq & _ & T).
  apply cwp_bind, (cwp_load_info _ _ _ _ _ Eq). destruct (member i s) as [l|]; [|done].
  by eapply cwp_string.
Qed.

(** ** Changing a member in place *)

Lemma ptrs_clear (l : list ptr) i p : l !! i = Some p -> ptrs l ≡ₚ option_list p ++ ptrs (<[i := None]> l).
Proof.
  revert i. induction l as [|r l IH]; intros [|i] H; cbn in *; try done.
  - by injection H as ->.
  - change (option_list r ++ ptrs l ≡ₚ option_list p ++ option_list r ++ ptrs (<[i:=None]> l)).
    rewrite (IH i) by done. solve_Permutation.
Qed.

(** [free(s->member); s->member = NULL] *)
Lemma clear_member_spec q vals v i a L t m :
  filled q vals v L m -> vals !! i = Some a ->
  cwp (cbind (load_info (Some q)) (fun s => cbind (ehem_notify_string_free (member i s))
         (fun _ => modify_info (Some q) (set_str i None))))
    (fun _ t' m' => t' = t /\ exists L', step any L m L' m' /\ filled q (<[i := None]> vals) v L' m') t m.
Proof.
  intros (s & (Eq & F & A) & En & Er & Hp & O) Hi.
  destruct (Forall2_lookup_r _ _ _ _ _ F Hi) as (p & Ep & _).
  apply cwp_bind, (cwp_load_info _ _ _ _ _ Eq).
  assert (member i s = p) as -> by exact (f_equal (default None) Ep).
  set (s' := set_str i None s). set (L' := info_locs q s' []).
  assert (L ≡ₚ option_list p ++ L') as Hp'.
  { rewrite Hp. unfold L', info_locs, s'. cbn [is_str is_array set_str]. rewrite (ptrs_clear _ _ _ Ep).
    solve_Permutation. }
  assert (owns (info_locs q s []) m) as O' by by rewrite <- Hp.
  rewrite Hp' in O. apply cwp_bind. eapply cwp_mono; [by apply free_part|]. intros _ t1 m1 (-> & S1 & X1).
  assert (q ∈ L') as Hq by (unfold L', info_locs; set_solver).
  assert (forall x, x ∈ ptrs (<[i:=None]> (is_str s)) -> x ∈ L' /\ x <> q) as Hin.
  { intros x Hx. split; [unfold L', info_locs, s'; cbn [is_str set_str]; set_solver|].
    apply (owned_not_head _ _ _ _ O'). rewrite (ptrs_clear _ _ _ Ep). set_solver. }
  eapply cwp_mono; [apply (modify_info_spec q s (set_str i None) L'); [by rewrite X1|apply S1|done]|].
  intros _ t2 m2 (-> & S2 & E2 & X2). split; [done|]. exists L'. rewrite Hp'.
  split; [by eapply step_trans|]. exists s'. split; [split; [exact E2|split; [|cbn; rewrite En in A |- *; exact A]]|].
  - eapply (texts_frame (live m)); [|cbn [is_str s' set_str]; by apply Forall2_insert].
    intros x [Hx Hne]%Hin. by rewrite X2, X1.
  - split; [done|]. split; [done|]. split; [done|apply S2].
Qed.

Abbreviation handle q url scope ev t := (filled q [url; Some scope; ev] (HandleFlags t)).

(** ** A push *)

Definition dropped_epk (epk : ptr) (L : list positive) : Prop := L = option_list epk.
Definition kept_request (reqi : ptr) (b : option Ext.ehem_ext_request_info) (L : list positive) m : Prop :=
  match b with
  | Some b => info_post request_strs (fun _ => NoFlags) reqi b L m
  | None => reqi = None /\ L = []
  end.

(** After a push: the handle, with the event id if there is one, the request info and the
    session key. *)
Definition pushed q url scope (x : (unit + ehem_rc) * ptr * ptr)
    (y : option Ext.ehem_ext_request_info * (string + ehem_rc)) (L : list positive) m : Prop :=
  let '(r, reqi, epk) := x in
  exists ev Lh Lr, L ≡ₚ Lh ++ Lr ++ option_list epk /\ owns L m /\
    handle q url scope ev false Lh m /\ kept_request reqi (fst y) Lr m /\ ok_text ev /\
    match r, snd y with
    | inl _, inl e => ev = Some e
    | inr rc, inr rc' => rc = rc'
    | _, _ => False
    end.

Lemma fire_value {B} url scope ctx_str note
    (g : option Ext.ehem_ext_request_info * (string + ehem_rc) -> M B) w :
  bind (Ext.confirm_fire_push url scope ctx_str note) g w =
  bind (attempt (Notify.ehem_notify_session url None true)) (fun epk =>
    match epk with
    | inr rc => g (None, inr rc)
    | inl epk =>
        bind (attempt (Ext.ehem_ext_request (Some epk) (Some scope) ctx_str note true)) (fun r =>
          match r with
          | inr rc => g (None, inr rc)
          | inl reqi =>
              bind (attempt (Notify.ehem_notify_event_new url (Some (Ext.xr_authreq reqi))
                (Some (Ext.xr_epk reqi)) true)) (fun ev => g (Some reqi, ev))
          end)
    end) w.
Proof.
  unfold Ext.confirm_fire_push, bind, attempt, ret.
  destruct (Notify.ehem_notify_session _ _ _ _) as [[epk|rc|] w1]; [|done..].
  destruct (Ext.ehem_ext_request _ _ _ _ _ _) as [[r|rc|] w2]; [|done..].
  by destruct (Notify.ehem_notify_event_new _ _ _ _ _) as [[ev|rc|] w3].
Qed.

Lemma bind_ret_id {A} (v : M A) w : v w = bind v ret w.
Proof. unfold bind, ret. by destruct (v w) as [[] ?]. Qed.

Lemma confirm_fire_push_refines q url scope ctx_str note ev0 L w m :
  handle q url scope ev0 false L m -> ok_text url -> ok_text ev0 ->
  refines any (confirm_fire_push (Some q) scope ctx_str note)
    (Ext.confirm_fire_push url scope ctx_str note) (pushed q url scope) L w m.
Proof.
  intros F0 Hu He. eapply refines_eq; [apply bind_ret_id|]. eapply refines_eq; [apply fire_value|].
  apply refines_mem. eapply cwp_mono; [by eapply (clear_member_spec q _ _ 2 ev0)|].
  intros _ t' m1 (-> & Lh & S1 & F1). split; [done|]. exists Lh. split; [exact S1|].
  cbn [list_insert insert] in F1. clear F0 S1 m L ev0 He.
  eapply read_refines; [by eapply filled_owns|intros; by eapply (cwp_member_arg q _ _ _ 0 url)|].
  eapply beside_refines; [by eapply filled_owns|apply ehem_notify_session_refines|..].
  2: { intros rc w2 m2 X2 O2. apply refines_ret; [exact O2|]. exists None, Lh, [].
       rewrite app_nil_r. split; [done|]. split; [exact O2|].
       split; [by eapply filled_frame|done]. }
  intros epk key L1 w2 m2 X2 O2 ((l & -> & El & ->) & Nk).
  pose proof (filled_frame _ _ _ _ _ _ X2 F1) as F2. clear F1 X2 m1.
  eapply read_refines; [exact O2|intros; by eapply (cwp_text_arg (Some l) (Some key))|].
  eapply beside_refines; [exact O2|apply ehem_ext_request_refines|..].
  2: { intros rc w3 m3 X3 O3. apply refines_ret; [exact O3|]. exists None, Lh, [].
       split; [done|]. split; [exact O3|]. split; [|done].
       eapply filled_frame; [|exact F2]. intros x Hx. apply X3. set_solver. }
  intros p reqi Lr w3 m3 X3 O3 (qr & -> & Fr & Nr).
  assert (handle q url scope None false Lh m3) as F3.
  { eapply filled_frame; [|exact F2]. intros x Hx. apply X3. set_solver. }
  apply Forall_cons in Nr as (Na & Nr). apply Forall_cons in Nr as (Ne & _). clear F2 X3 El O2 m2.
  eapply read_refines; [exact O3|intros; by eapply (cwp_member_arg q _ _ _ 0 url)|].
  eapply read_refines; [exact O3|intros; by eapply (cwp_member_arg qr _ _ _ 0)|].
  eapply read_refines; [exact O3|intros; by eapply (cwp_member_arg qr _ _ _ 1)|].
  eapply beside_refines; [exact O3|apply ehem_notify_event_new_refines|..].
  2: { intros rc w4 m4 X4 O4. apply refines_ret; [exact O4|]. exists None, Lh, Lr.
       split; [solve_Permutation|]. split; [exact O4|].
       split; [eapply filled_frame; [|exact F3]; intros x Hx; apply X4; set_solver|]. split; [|done].
       exists qr. split; [done|]. split; [|by repeat constructor].
       eapply filled_frame; [|exact Fr]. intros x Hx. apply X4. set_solver. }
  intros ev e L4 w4 m4 X4 O4 ((l4 & -> & El4 & ->) & Ne4).
  apply (part_refines _ _ _ _ (fun _ L2 m' => handle q url scope (Some e) false L2 m') (Lr ++ [l]) (Lh ++ [l4]));
    [solve_Permutation|exact O4|..].
  - eapply cwp_mono; [apply (adopt_spec q [url; Some scope; None] (HandleFlags false) 2 l4 e Lh); [|done|exact El4|]|].
    + eapply filled_frame; [|exact F3]. intros x Hx. apply X4. set_solver.
    + assert (((Lh ++ [l]) ++ Lr) ++ [l4] ≡ₚ (Lr ++ [l]) ++ Lh ++ [l4]) as Hp by solve_Permutation.
      rewrite Hp in O4. by apply owns_app in O4 as (_ & ? & _).
    + intros _ t5 m5 (-> & S5 & F5). split; [done|]. eauto.
  - intros _ L2 m5 O5 X5 F5. apply refines_ret; [exact O5|]. exists (Some e), L2, Lr.
    split; [solve_Permutation|]. split; [exact O5|]. split; [exact F5|]. split; [|done].
    exists qr. split; [done|]. split; [|by repeat constructor].
    eapply filled_frame; [|exact Fr]. intros x Hx. rewrite X5 by set_solver. apply X4. set_solver.
Qed.

Definition push_post q url scope (r : unit + ehem_rc) (y : string + ehem_rc) (L : list positive) m : Prop :=
  exists ev, handle q url scope ev false L m /\ ok_text ev /\
    match r, y with
    | inl _, inl e => ev = Some e
    | inr rc, inr rc' => rc = rc'
    | _, _ => False
    end.

Lemma free_request_spec reqi b L t m :
  kept_request reqi b L m ->
  cwp (ehem_ext_request_free reqi) (fun _ t' m' => t' = t /\ step any L m [] m') t m.
Proof.
  destruct b as [b|]; cbn.
  - intros (q & -> & F & _). by eapply filled_free.
  - intros [-> ->]. apply cwp_ret. split; [done|]. apply step_refl, owns_nil.
Qed.

Lemma drop_push_refines {B D} q url scope r reqi epk y (k : K D) (v : M B) Post L w m :
  pushed q url scope (r, reqi, epk) y L m ->
  (forall Lh m, push_post q url scope r (snd y) Lh m -> refines any k v Post Lh w m) ->
  refines any (kbind (of_c (drop_push reqi epk)) (fun _ => k)) v Post L w m.
Proof.
  intros (ev & Lh & Lr & Hp & O & F & Hr & He & Hm) Hk. apply refines_mem, cwp_bind.
  eapply cwp_mono; [by eapply free_request_spec|]. intros _ t1 m1 [-> S1].
  assert (L ≡ₚ (Lh ++ option_list epk) ++ Lr) as Hp' by (rewrite Hp; solve_Permutation).
  destruct (step_part (good:=any) (Lh ++ option_list epk) Lr [] L m (Lh ++ option_list epk) m1) as [S2 X2];
    [exact O|exact Hp'|by rewrite app_nil_r|exact S1|].
  assert (owns (option_list epk ++ Lh) m1) as O1.
  { rewrite (Permutation_app_comm _ Lh). apply S2. }
  eapply cwp_mono; [apply free_part, O1|]. intros _ t2 m2 (-> & S3 & X3). split; [done|]. exists Lh.
  rewrite (Permutation_app_comm _ Lh) in S3. split; [by eapply step_trans|]. apply Hk. exists ev.
  split; [|done]. eapply filled_frame; [|exact F]. intros x Hx. rewrite X3 by done. apply X2. set_solver.
Qed.

Lemma give_up_push q url scope r reqi epk y L w m :
  pushed q url scope (r, reqi, epk) y L m ->
  refines any (kbind (of_c (drop_push reqi epk)) (fun _ => kret r)) (ret (snd y)) (push_post q url scope) L w m.
Proof.
  intros Hp. eapply drop_push_refines; [exact Hp|]. intros Lh m' H'. apply refines_ret; [|exact H'].
  destruct H' as (ev & F & _). by eapply filled_owns.
Qed.

Lemma drift_quiet o w rc w' :
  (match o with Some iat => bind (ask p_time) (fun now => ret (iat - now)) | None => ret 0 end : M Z) w
    <> (Err rc, w').
Proof. by destruct o. Qed.

Lemma push_with_recovery_refines q url scope ctx_str note ev0 L w m :
  handle q url scope ev0 false L m -> ok_text url -> ok_text ev0 ->
  refines any (push_with_recovery (Some q) scope ctx_str note)
    (Ext.push_with_recovery url scope ctx_str note) (push_post q url scope) L w m.
Proof.
  intros F0 Hu He. unfold push_with_recovery, Ext.push_with_recovery. cbv zeta.
  eapply refines_bind; [by eapply confirm_fire_push_refines|].
  intros [[r reqi] epk] [b ev] L1 w1 m1 Hp _. cbv beta iota.
  pose proof Hp as (ev1 & Lh & Lr & Ep & O & F & Hr & He1 & Hm). cbn [fst snd] in Hr, Hm.
  destruct r as [[]|rc], ev as [e|rc']; try done.
  { by apply (give_up_push _ _ _ (inl ()) _ _ (b, inl e)). }
  subst rc'. destruct b as [b|]; cbn in Hr.
  2: { destruct Hr as [-> ->]. by apply (give_up_push _ _ _ (inr rc) None _ (None, inr rc)). }
  pose proof (fun w => give_up_push q url scope (inr rc) reqi epk (Some b, inr rc) L1 w m1 Hp) as Hgive.
  destruct Hr as (qr & -> & Fr & Nr).
  apply quiet_refines; [exact O|by intros|]. intros e w2. apply quiet_refines; [exact O|by intros|].
  intros cx w3. destruct (_ && _ && _); [|apply Hgive].
  apply Forall_cons in Nr as [Na _].
  eapply read_refines; [exact O|intros; by eapply (cwp_member_string qr _ _ _ 0)|].
  apply quiet_refines; [exact O|apply drift_quiet|]. intros drift w4.
  destruct (Ext.drift_out_of_gate drift); [|apply Hgive].
  apply quiet_refines; [exact O|apply attempt_quiet|]. intros [[]|crc] w5; [|apply Hgive].
  eapply drop_push_refines; [exact Hp|]. intros Lh2 m2 (ev2 & F2 & He2 & _).
  eapply refines_bind; [by eapply confirm_fire_push_refines|].
  intros [[r reqi] epk2] [b2 ev3] L3 w6 m6 Hp3 _. by apply (give_up_push _ _ _ r _ _ (b2, ev3)).
Qed.

(** ** The beginning of a confirmation *)

Definition handle_strs (c : Ext.ehem_ext_confirm) : list (option string) :=
  [Ext.xc_notify_url c; Some (Ext.xc_scope c); Ext.xc_eventid c].
Definition handle_flags (c : Ext.ehem_ext_confirm) : ext_rest := HandleFlags (Ext.xc_terminal c).
Abbreviation handle_post := (info_post handle_strs handle_flags).

Lemma emit_quiet e w rc w' : emit e w <> (Err rc, w').
Proof. done. Qed.

(** The push, the notice, the handle. *)
Lemma begin_push_refines q url scope ctx_str note L w m :
  handle q url scope None false L m -> ok_text url -> nul_free scope ->
  refines any
    (kbind (push_with_recovery (Some q) scope ctx_str note) (fun r =>
       match r with
       | inr rc => kbind (of_c (ehem_ext_confirm_cancel (Some q))) (fun _ => of_m (throw rc))
       | inl _ =>
           kbind (of_m get_ctx) (fun cx =>
             kbind (if confirm_notice (cfg cx)
                    then kbind (of_c (cbind (load_info (Some q)) (fun s => string_at (member 1 s))))
                           (fun sc => of_m (emit (EvNotice sc (confirm_timeout_ms (cfg cx)) (confirm_notice_arg (cfg cx)))))
                    else kret tt) (fun _ => kret (Some q)))
       end))
    (bind (Ext.push_with_recovery url scope ctx_str note) (fun ev =>
       match ev with
       | inr rc => throw rc
       | inl eventid =>
           bind get_ctx (fun c =>
             bind (if confirm_notice (cfg c)
                   then emit (EvNotice scope (confirm_timeout_ms (cfg c)) (confirm_notice_arg (cfg c))) else ret tt)
               (fun _ => ret {| Ext.xc_notify_url := url; Ext.xc_scope := scope;
                                Ext.xc_eventid := Some eventid; Ext.xc_terminal := false |}))
       end)) handle_post L w m.
Proof.
  intros F Hu Hs. eapply refines_bind; [by eapply push_with_recovery_refines|].
  intros r ev L1 w1 m1 (ev1 & F1 & He & Hm) _. pose proof (filled_owns _ _ _ _ _ F1) as O.
  destruct r as [[]|rc], ev as [e|rc']; try done; subst.
  - apply quiet_refines; [exact O|by intros|]. intros cx w2.
    assert (forall w, refines any (kret (Some q))
      (ret {| Ext.xc_notify_url := url; Ext.xc_scope := scope;
              Ext.xc_eventid := Some e; Ext.xc_terminal := false |}) handle_post L1 w m1) as Hret.
    { intros w'. apply refines_ret; [exact O|]. exists q. split; [done|]. split; [exact F1|].
      by repeat constructor. }
    destruct (confirm_notice (cfg cx)).
    + eapply refines_k_eq with (k' := kbind (of_c (cbind (load_info (Some q)) (fun s => string_at (member 1 s))))
        (fun sc => kbind (of_m (emit (EvNotice sc (confirm_timeout_ms (cfg cx)) (confirm_notice_arg (cfg cx))))) (fun _ => kret (Some q)))).
      { unfold kbind, of_c. by destruct (cbind _ _ _ _). }
      eapply read_refines; [exact O|intros; by eapply (cwp_member_string q _ _ _ 1)|].
      apply quiet_refines; [exact O|apply emit_quiet|]. intros _ w3. apply Hret.
    + eapply refines_eq; [reflexivity|]. apply Hret.
  - apply refines_release; [by eapply filled_free|]. intros m2. apply refines_throw.
Qed.

(** A member copied, or the handle given up. *)
Lemma copy_or_drop {B} q vals v i str (k : K ptr) (g : string -> M B) Post L w m :
  filled q vals v L m -> vals !! i = Some None ->
  (forall L w m, filled q (<[i := Some str]> vals) v L m -> refines any k (g str) Post L w m) ->
  refines any
    (kbind (of_c (copy_to (Some q) i str)) (fun ok =>
       if negb ok then drop_then ehem_ext_confirm_cancel (Some q) out_of_memory else k))
    (bind (dup_or_fail str) g) Post L w m.
Proof.
  intros F Hi Hk. eapply refines_k_eq; [apply of_c_ret_assoc|].
  apply refines_eq with (v' := bind (dup_str str) (fun o =>
    match o with Some d => g d | None => out_of_memory end)).
  { unfold dup_or_fail, dup_str, malloc, ask, bind, ret. by destruct (p_malloc (w_tick w)). }
  eapply copy_refines; [exact F|exact Hi|..]; intros L1 w1 m1 F1; apply refines_c_ret; cbn [negb].
  - by apply Hk.
  - eapply drop_refines; [exact F1|apply ctx_fail_alike].
Qed.
Lemma dup_some {B} u (g : option string -> M B) w :
  bind (bind (dup_or_fail u) (fun u => ret (Some u))) g w = bind (dup_or_fail u) (fun u => g (Some u)) w.
Proof. unfold bind, ret. by destruct (dup_or_fail u w) as [[] ?]. Qed.

Lemma ehem_ext_confirm_begin_refines url scope ctx_str note out w m :
  ok_text url -> ok_text scope ->
  refines any (ehem_ext_confirm_begin url scope ctx_str note out)
    (Ext.ehem_ext_confirm_begin url scope ctx_str note out) handle_post [] w m.
Proof.
  intros Hu Hs. unfold ehem_ext_confirm_begin, Ext.ehem_ext_confirm_begin.
  destruct scope as [scope|], out; try apply refines_throw. apply with_info_refines. intros q w1 m1 F1.
  cbn [repeat] in F1.
  eapply copy_or_drop; [exact F1|reflexivity|]. intros L2 w2 m2 F2. cbn [list_insert insert] in F2.
  destruct url as [u|].
  - eapply refines_eq; [by rewrite dup_some|]. eapply copy_or_drop; [exact F2|reflexivity|].
    intros L3 w3 m3 F3. by apply begin_push_refines.
  - apply refines_c_ret. eapply refines_eq; [reflexivity|]. by apply begin_push_refines.
Qed.

(** ** Polling *)

Definition handle_at (q : positive) (c : Ext.ehem_ext_confirm) (L : list positive) m : Prop :=
  filled q (handle_strs c) (handle_flags c) L m /\ Forall ok_text (handle_strs c).

Definition poll_post {A} (q : positive) (a : A) (b : Ext.ehem_ext_confirm * A) (L : list positive) m : Prop :=
  a = snd b /\ handle_at q (fst b) L m.

Lemma handle_owns q c L m : handle_at q c L m -> owns L m.
Proof. intros [F _]. by eapply filled_owns. Qed.
Lemma handle_frame q c L m m' :
  (forall x, x ∈ L -> live m' !! x = live m !! x) -> handle_at q c L m -> handle_at q c L m'.
Proof. intros H [F N]. split; [by eapply filled_frame|done]. Qed.

Lemma poll_ret {A} q c (a : A) L w m :
  handle_at q c L m -> refines any (kret a) (ret (c, a)) (poll_post q) L w m.
Proof. intros H. apply refines_ret; [by eapply handle_owns|done]. Qed.

(** Caught and done. *)
Lemma caught_poll {A} q c (v : M A) L w m :
  handle_at q c L m ->
  refines any (kattempt (of_m v)) (bind (attempt v) (fun r => ret (c, r))) (poll_post q) L w m.
Proof.
  intros H. eapply refines_k_eq; [apply kbind_ret|].
  apply caught_refines; [by eapply handle_owns|]. intros a w1. by apply poll_ret.
Qed.

Lemma cwp_is_terminal q c L R t m :
  handle_at q c L m -> R (Ext.xc_terminal c) t m -> cwp (is_terminal (Some q)) R t m.
Proof.
  intros [F _] HR. destruct (filled_member _ _ _ _ 1 _ _ F eq_refl) as (s & Eq & Er & _).
  apply cwp_bind, (cwp_load_info _ _ _ _ _ Eq). by rewrite Er.
Qed.
Lemma cwp_event_flags q b L R t m :
  filled q (event_strs b) (event_of b) L m -> R (ner_pending b, ner_denied b) t m ->
  cwp (event_flags (Some q)) R t m.
Proof.
  intros F HR. destruct (filled_member _ _ _ _ 0 _ _ F eq_refl) as (s & Eq & Er & _).
  apply cwp_bind, (cwp_load_info _ _ _ _ _ Eq). by rewrite Er.
Qed.

Lemma finish_refines {B D} q c (k : K D) (v : M B) Post L w m :
  handle_at q c L m ->
  (forall m, handle_at q (Ext.confirm_finish c) L m -> refines any k v Post L w m) ->
  refines any (kbind (of_c (finish (Some q))) (fun _ => k)) v Post L w m.
Proof.
  intros [F N] Hk. apply refines_mem. eapply cwp_mono; [eapply filled_rest, F|].
  intros _ t' m' (-> & S1 & F1). split; [done|]. exists L. split; [exact S1|]. by apply Hk.
Qed.

(** A struct given back beside what is kept. *)
Lemma free_beside {B D} F q vals v L1 (k : K D) (val : M B) Post L w m :
  L ≡ₚ F ++ L1 -> owns L m -> filled q vals v L1 m ->
  (forall m', owns F m' -> (forall x, x ∈ F -> live m' !! x = live m !! x) ->
     refines any k val Post F w m') ->
  refines any (kbind (of_c (free_info (Some q))) (fun _ => k)) val Post L w m.
Proof.
  intros Hp O Hf Hk.
  apply (part_refines _ _ _ _ (fun _ L2 _ => L2 = []) F L1); [exact Hp|exact O|..].
  - eapply cwp_mono; [by eapply filled_free|]. intros _ t' m' [-> S1]. split; [done|]. by exists [].
  - intros _ L2 m' O2 X2 ->. rewrite app_nil_r in *. by apply Hk.
Qed.

(** The token is wiped, then freed. *)
Lemma drop_token_refines {B D} F l s (k : K D) (val : M B) Post L w m :
  L ≡ₚ F ++ [l] -> owns L m -> live m !! l = Some (CBytes (c_string s)) -> nul_free s ->
  (forall m', owns F m' -> (forall x, x ∈ F -> live m' !! x = live m !! x) ->
     refines any k val Post F w m') ->
  refines any (kbind (of_c (drop_token (Some l))) (fun _ => k)) val Post L w m.
Proof.
  intros Hp O El Hn Hk.
  apply (part_refines _ _ _ _ (fun _ L2 _ => L2 = []) F [l]); [exact Hp|exact O|..].
  - apply cwp_bind. eapply cwp_strlen; [exact El|exact Hn|]. apply cwp_bind.
    eapply cwp_zeroize; [exact El|]. eapply cwp_free; [apply lookup_insert_eq|]. split; [done|].
    exists []. split; [|done]. cbn. assert (owns [l] m) as O1 by (rewrite Hp in O; by apply owns_app in O as (_ & ? & _)).
    eapply (step_trans [l] m [l]); [by apply (step_store l), list_elem_of_singleton|].
    by apply (step_free l _ (with_live _ m)).
  - intros _ L2 m' O2 X2 ->. rewrite app_nil_r in *. by apply Hk.
Qed.

Lemma redeem_value c (reply : option string) w :
  bind (attempt (bind (Ext.ehem_ext_token reply true) (fun token =>
           ehem_auth_cache_seed (Ext.xc_scope c) token)))
    (fun s => ret (Ext.confirm_finish c,
       match s with inl _ => inl Ext.EHEM_CONFIRM_APPROVED | inr rc => inr rc end)) w =
  bind (attempt (Ext.ehem_ext_token reply true)) (fun t =>
    match t with
    | inr rc => ret (Ext.confirm_finish c, inr rc)
    | inl token =>
        bind (attempt (ehem_auth_cache_seed (Ext.xc_scope c) token)) (fun s =>
          ret (Ext.confirm_finish c,
            match s with inl _ => inl Ext.EHEM_CONFIRM_APPROVED | inr rc => inr rc end))
    end) w.
Proof.
  unfold bind, attempt, ret. destruct (Ext.ehem_ext_token reply true w) as [[t|rc|] w1]; [|done..].
  by destruct (ehem_auth_cache_seed (Ext.xc_scope c) t w1) as [[]].
Qed.

(** Redeeming the authenticator's reply. *)
Lemma redeem_refines q c qr (b : ehem_notify_event_result) Lh Lr L w m :
  L ≡ₚ Lh ++ Lr -> owns L m -> handle_at q c Lh m ->
  filled qr (event_strs b) (event_of b) Lr m -> ok_text (ner_authreply b) ->
  refines any
    (kbind (of_c (member_arg (Some qr) 0)) (fun authreply =>
     kbind (kattempt (ehem_ext_token authreply true)) (fun token =>
     kbind (of_c (ehem_notify_event_result_free (Some qr))) (fun _ =>
       match token with
       | inr rc => kbind (of_c (finish (Some q))) (fun _ => kret (inr rc))
       | inl token =>
           kbind (of_c (cbind (load_info (Some q)) (fun s => string_at (member 1 s)))) (fun scope =>
           kbind (of_c (string_at token)) (fun text =>
           kbind (kattempt (of_m (ehem_auth_cache_seed scope text))) (fun s =>
           kbind (of_c (drop_token token)) (fun _ =>
           kbind (of_c (finish (Some q))) (fun _ =>
             kret (match s with inl _ => inl Ext.EHEM_CONFIRM_APPROVED | inr rc => inr rc end))))))
       end))))
    (bind (attempt (bind (Ext.ehem_ext_token (ner_authreply b) true) (fun token =>
             ehem_auth_cache_seed (Ext.xc_scope c) token)))
      (fun s => ret (Ext.confirm_finish c,
         match s with inl _ => inl Ext.EHEM_CONFIRM_APPROVED | inr rc => inr rc end)))
    (poll_post q) L w m.
Proof.
  intros Hp O H Fr Nr. eapply refines_eq; [apply redeem_value|].
  eapply read_refines; [exact O|intros; by eapply (cwp_member_arg qr _ _ _ 0)|].
  eapply beside_refines; [exact O|apply ehem_ext_token_refines|..].
  - intros p text L1 w1 m1 X1 O1 ((l & -> & El & ->) & Nt).
    eapply (free_beside (Lh ++ [l]) qr _ _ Lr); [rewrite Hp; solve_Permutation|exact O1|..].
    { eapply filled_frame; [|exact Fr]. intros x Hx. apply X1. rewrite Hp. set_solver. }
    intros m2 O2 X2. assert (handle_at q c Lh m2) as H2.
    { eapply handle_frame; [|exact H]. intros x Hx. rewrite X2 by set_solver. apply X1. rewrite Hp. set_solver. }
    assert (live m2 !! l = Some (CBytes (c_string text))) as El2 by (rewrite X2; [done|set_solver]).
    pose proof H2 as [F2 N2]. unfold handle_strs in N2. rewrite !Forall_cons in N2. destruct N2 as (_ & Ns & _).
    eapply read_refines; [exact O2|intros; by eapply (cwp_member_string q _ _ _ 1)|].
    eapply read_refines; [exact O2|intros; by eapply cwp_string|].
    apply caught_refines; [exact O2|]. intros s w3.
    eapply (drop_token_refines Lh l text); [done|exact O2|exact El2|exact Nt|]. intros m3 O3 X3.
    eapply finish_refines; [by eapply handle_frame|]. intros m4 H4. by apply poll_ret.
  - intros rc w1 m1 X1 O1. eapply (free_beside Lh qr _ _ Lr); [exact Hp|exact O1|..].
    { eapply filled_frame; [|exact Fr]. intros x Hx. apply X1. rewrite Hp. set_solver. }
    intros m2 O2 X2. eapply (finish_refines q c).
    { eapply handle_frame; [|exact H]. intros x Hx. rewrite X2 by done. apply X1. rewrite Hp. set_solver. }
    intros m3 H3. by apply poll_ret.
Qed.

Lemma confirm_poll_refines q c L w m :
  handle_at q c L m ->
  refines any (ehem_ext_confirm_poll (Some q)) (Ext.ehem_ext_confirm_poll c) (poll_post q) L w m.
Proof.
  intros H. pose proof (handle_owns _ _ _ _ H) as O. pose proof H as [F N].
  unfold handle_strs in N. rewrite !Forall_cons in N. destruct N as (Nu & Ns & Ne & _).
  unfold ehem_ext_confirm_poll, Ext.ehem_ext_confirm_poll.
  eapply read_refines; [exact O|intros; by eapply cwp_is_terminal|].
  destruct (Ext.xc_terminal c); [by apply caught_poll|].
  eapply read_refines; [exact O|intros; by eapply (cwp_member_arg q _ _ _ 0 (Ext.xc_notify_url c))|].
  eapply read_refines; [exact O|intros; by eapply (cwp_member_arg q _ _ _ 2 (Ext.xc_eventid c))|].
  eapply beside_refines; [exact O|apply ehem_notify_event_check_refines|..].
  2: { intros rc w1 m1 X1 O1. apply poll_ret. by eapply handle_frame. }
  intros p b Lr w1 m1 X1 O1 (qr & -> & Fr & Nr). apply Forall_cons in Nr as [Nr _].
  assert (handle_at q c L m1) as H1 by by eapply handle_frame.
  eapply read_refines; [exact O1|intros; by eapply cwp_event_flags|].
  destruct (ner_pending b) eqn:Ep; [|destruct (ner_denied b) eqn:Ed].
  - eapply (free_beside L qr _ _ Lr); [done|exact O1|exact Fr|]. intros m2 O2 X2.
    apply poll_ret. by eapply handle_frame.
  - eapply (free_beside L qr _ _ Lr); [done|exact O1|exact Fr|]. intros m2 O2 X2.
    eapply finish_refines; [by eapply handle_frame|]. intros m3 H3. by apply caught_poll.
  - by eapply redeem_refines.
Qed.

(** ** Waiting *)

Lemma sleep_quiet ms w rc w' : ehem_proto_sleep_ms ms w <> (Err rc, w').
Proof. unfold ehem_proto_sleep_ms. by destruct (ms <=? 0). Qed.

Lemma confirm_wait_loop_refines q fuel c elapsed timeout L w m :
  handle_at q c L m ->
  refines any (confirm_wait_loop fuel (Some q) elapsed timeout)
    (Ext.confirm_wait_loop fuel c elapsed timeout) (poll_post q) L w m.
Proof.
  revert c elapsed L w m. induction fuel as [|fuel IH]; intros c elapsed L w m H;
    cbn [confirm_wait_loop Ext.confirm_wait_loop].
  { by do 3 eexists. }
  eapply refines_bind; [by apply confirm_poll_refines|].
  intros a [c1 r] L1 w1 m1 [-> H1] _. cbn [fst snd] in *.
  destruct r as [[]|rc]; [|by apply poll_ret..].
  destruct (timeout <=? elapsed); [by apply caught_poll|].
  apply quiet_refines; [by eapply handle_owns|apply sleep_quiet|]. intros _ w2. by apply IH.
Qed.

Lemma confirm_wait_refines q c timeout L w m :
  handle_at q c L m ->
  refines any (ehem_ext_confirm_wait (Some q) timeout) (Ext.ehem_ext_confirm_wait c timeout)
    (poll_post q) L w m.
Proof.
  intros H. unfold ehem_ext_confirm_wait, Ext.ehem_ext_confirm_wait.
  destruct (timeout <=? 0); [by apply poll_ret|by apply confirm_wait_loop_refines].
Qed.

(** ** The results and their release *)

Lemma text_in_memory (k : K ptr) (v : M string) release :
  release = free -> (forall w m, refines any k v (fun p s L m => text_result (live m) p s L) [] w m) ->
  result_in_memory any k v text_result release.
Proof.
  intros -> H. apply result_from_refines; [exact H|..].
  - intros p b L t m (l & -> & _ & ->) O. by apply (free_ptr (Some l)).
  - intros h h' p b L Hx (l & -> & El & ->). exists l. split; [done|]. split; [|done].
    by rewrite Hx by by apply list_elem_of_singleton.
Qed.
Lemma clean_text_in_memory (k : K ptr) (v : M string) release :
  release = free -> (forall w m, refines any k v text_post [] w m) ->
  result_in_memory any k v text_result release.
Proof.
  intros Hr H. apply text_in_memory; [exact Hr|]. intros w m. eapply refines_mono; [apply H|].
  by intros p s L m' [R _].
Qed.
Lemma struct_in_memory {B} (k : K ptr) (v : M B) strs rest :
  (forall w m, refines any k v (info_post strs rest) [] w m) ->
  result_in_memory any k v (info_result strs rest) free_info.
Proof.
  intros H. apply info_in_memory. intros w m. eapply refines_mono; [apply H|].
  intros p b L m' (q & -> & F & _). by eapply filled_info.
Qed.

(** What the broker client, the pairing calls, the external login pair and the
    beginning of a push confirmation return lives in memory as the application expects
    it.  For every answer of broker and device, every allocation that fails and every
    world, each operation runs without undefined behaviour to the outcome of its
    description by values; a failure leaves the live memory as it was; a success is
    represented by new blocks only (the string, or the struct and its strings), and the
    release function frees exactly these.  Arguments and what the JSON parser yields
    are C strings. *)
Theorem ext_results_in_memory url a b c d e out (Ha : ok_text a) (Hu : ok_text url) :
  result_in_memory any (ehem_notify_session url a out) (Notify.ehem_notify_session url a out)
    text_result ehem_notify_string_free /\
  result_in_memory any (ehem_notify_register_init url a b c out) (Notify.ehem_notify_register_init url a b c out)
    (info_result register_strs (fun _ => NoFlags)) ehem_notify_register_info_free /\
  result_in_memory any (ehem_notify_register_check url a out) (Notify.ehem_notify_register_check url a out)
    (info_result pairing_strs pairing_flags) ehem_notify_pairing_reply_free /\
  result_in_memory any (ehem_notify_event_new url a b out) (Notify.ehem_notify_event_new url a b out)
    text_result ehem_notify_string_free /\
  result_in_memory any (ehem_notify_event_check url a out) (Notify.ehem_notify_event_check url a out)
    (info_result event_strs event_of) ehem_notify_event_result_free /\
  result_in_memory any (ehem_ext_qr_payload a b c d e out) (Notify.ehem_ext_qr_payload a b c d e out)
    text_result ehem_notify_string_free /\
  result_in_memory any (ehem_ext_init a out) (Ext.ehem_ext_init a out)
    (info_result init_strs (fun _ => NoFlags)) ehem_ext_init_free /\
  result_in_memory any (ehem_ext_validate a b out) (Ext.ehem_ext_validate a b out)
    (info_result validate_strs (fun _ => NoFlags)) ehem_ext_validate_free /\
  result_in_memory any (ehem_ext_mac a out) (Ext.ehem_ext_mac a out)
    (info_result mac_strs (fun _ => NoFlags)) ehem_ext_mac_free /\
  result_in_memory any (ehem_ext_request a b c d out) (Ext.ehem_ext_request a b c d out)
    (info_result request_strs (fun _ => NoFlags)) ehem_ext_request_free /\
  result_in_memory any (ehem_ext_token a out) (Ext.ehem_ext_token a out)
    text_result ehem_ext_token_free /\
  result_in_memory any (ehem_ext_confirm_begin url a b c out) (Ext.ehem_ext_confirm_begin url a b c out)
    (info_result handle_strs handle_flags) ehem_ext_confirm_cancel.
Proof.
  split_and!.
  - apply clean_text_in_memory, ehem_notify_session_refines. done.
  - apply struct_in_memory, ehem_notify_register_init_refines.
  - apply struct_in_memory, ehem_notify_register_check_refines.
  - apply clean_text_in_memory, ehem_notify_event_new_refines. done.
  - apply struct_in_memory, ehem_notify_event_check_refines.
  - apply text_in_memory, ehem_ext_qr_payload_refines. done.
  - apply struct_in_memory, ehem_ext_init_refines.
  - apply struct_in_memory, ehem_ext_validate_refines.
  - apply struct_in_memory, ehem_ext_mac_refines.
  - apply struct_in_memory, ehem_ext_request_refines.
  - apply clean_text_in_memory, ehem_ext_token_refines. done.
  - apply struct_in_memory. intros. by apply ehem_ext_confirm_begin_refines.
Qed.

(** ** A confirmation from beginning to end *)

Inductive confirm_op := Poll | Wait (timeout_ms : Z).

(** The status and the code an operation returns. *)
Definition seen (r : Ext.ehem_confirm_status + ehem_rc) : option Ext.ehem_confirm_status * ehem_rc :=
  match r with inl s => (Some s, EHEM_OK) | inr rc => (None, rc) end.
Definition waited (r : unit + ehem_rc) : option Ext.ehem_confirm_status * ehem_rc :=
  match r with inl _ => (None, EHEM_OK) | inr rc => (None, rc) end.

Fixpoint use_memory (ops : list confirm_op) (c : ptr)
  : K (list (option Ext.ehem_confirm_status * ehem_rc)) :=
  match ops with
  | [] => kret []
  | op :: ops =>
      kbind (match op with
             | Poll => kbind (ehem_ext_confirm_poll c) (fun r => kret (seen r))
             | Wait t => kbind (ehem_ext_confirm_wait c t) (fun r => kret (waited r))
             end) (fun r =>
      kbind (use_memory ops c) (fun rs => kret (r :: rs)))
  end.
Fixpoint use_value (ops : list confirm_op) (c : Ext.ehem_ext_confirm)
  : M (Ext.ehem_ext_confirm * list (option Ext.ehem_confirm_status * ehem_rc)) :=
  match ops with
  | [] => ret (c, [])
  | op :: ops =>
      bind (match op with
            | Poll => bind (Ext.ehem_ext_confirm_poll c) (fun x => ret (fst x, seen (snd x)))
            | Wait t => bind (Ext.ehem_ext_confirm_wait c t) (fun x => ret (fst x, waited (snd x)))
            end) (fun x =>
      bind (use_value ops (fst x)) (fun y => ret (fst y, snd x :: snd y)))
  end.

Lemma map_poll {A B} q (f : A -> B) (k : K A) (v : M (Ext.ehem_ext_confirm * A)) L w m :
  refines any k v (poll_post q) L w m ->
  refines any (kbind k (fun r => kret (f r))) (bind v (fun x => ret (fst x, f (snd x)))) (poll_post q) L w m.
Proof.
  intros H. eapply refines_bind; [exact H|]. intros a [c r] L1 w1 m1 [-> H1] _. by apply poll_ret.
Qed.

Lemma use_refines q ops c L w m :
  handle_at q c L m -> refines any (use_memory ops (Some q)) (use_value ops c) (poll_post q) L w m.
Proof.
  revert c L w m. induction ops as [|op ops IH]; intros c L w m H; cbn [use_memory use_value].
  { by apply poll_ret. }
  eapply (refines_bind _ _ _ _ (poll_post q)).
  - destruct op; apply map_poll; [by apply confirm_poll_refines|by apply confirm_wait_refines].
  - intros a [c1 r] L1 w1 m1 [-> H1] _. cbn [fst snd] in *. eapply refines_bind; [by apply IH|].
    intros rs [c2 rs'] L2 w2 m2 [-> H2] _. by apply poll_ret.
Qed.

Definition session_memory url scope ctx_str note ops
  : K (list (option Ext.ehem_confirm_status * ehem_rc)) :=
  kbind (ehem_ext_confirm_begin url scope ctx_str note true) (fun c =>
  kbind (use_memory ops c) (fun rs =>
  kbind (of_c (ehem_ext_confirm_cancel c)) (fun _ => kret rs))).
Definition session_value url scope ctx_str note ops
  : M (list (option Ext.ehem_confirm_status * ehem_rc)) :=
  bind (Ext.ehem_ext_confirm_begin url scope ctx_str note true) (fun c =>
  bind (use_value ops c) (fun x => ret (snd x))).

Lemma session_refines url scope ctx_str note ops w m :
  ok_text url -> ok_text scope ->
  refines any (session_memory url scope ctx_str note ops) (session_value url scope ctx_str note ops)
    (fun a b L _ => a = b /\ L = []) [] w m.
Proof.
  intros Hu Hs. eapply refines_bind; [by apply ehem_ext_confirm_begin_refines|].
  intros p c L1 w1 m1 (q & -> & F1 & N1) _.
  eapply refines_bind; [by apply (use_refines q _ c)|]. intros rs [c2 rs'] L2 w2 m2 [-> [F2 _]] _.
  apply refines_mem. eapply cwp_mono; [by eapply filled_free|]. intros _ t3 m3 [-> S3].
  split; [done|]. exists []. split; [exact S3|]. apply refines_ret; [apply owns_nil|done].
Qed.

Section Returns.
Context `{!RequestTotal true (eq None) Q, !RequestTotal false (eq None) Q}.

Lemma total_use_value ops c : total false (use_value ops c).
Proof.
  revert c. induction ops as [|op ops IH]; intros c; cbn [use_value]; [apply total_ret|].
  apply total_bind; [|intros x; apply total_bind; [apply IH|intros; apply total_ret]].
  destruct op; (apply total_bind; [|intros; apply total_ret]).
  - apply Ext.total_confirm_poll.
  - apply Ext.total_confirm_wait.
Qed.

Lemma total_session url scope ctx_str note ops : total false (session_value url scope ctx_str note ops).
Proof.
  unfold session_value. apply total_bind; [apply Ext.total_confirm_begin|]. intros c.
  apply total_bind; [apply total_use_value|]. intros. apply total_ret.
Qed.

(** C19: a push confirmation in memory, from its beginning over any polls and waits to
    its cancellation, returns and runs without undefined behaviour whatever broker and
    device answer and the allocator refuses: it gives the codes and statuses of the
    handle described by values, leaves the same world, and gives back every block it
    took - the handle, the session keys, request infos, event results and tokens of
    every push, retry and poll - and no other.  Scope, broker URL and what the JSON
    parser yields are C strings; the context is not inside a check-in. *)
Theorem confirm_session_in_memory url scope ctx_str note ops w m
    (Hu : ok_text url) (Hs : ok_text scope) (Hi : in_checkin (w_ctx w) = false) :
  exists o w' m', session_memory url scope ctx_str note ops w m = Some (o, w', m') /\
    session_value url scope ctx_str note ops w = (o, w') /\
    returns o /\ live m' = live m.
Proof.
  destruct (session_refines url scope ctx_str note ops w m Hu Hs) as (o & w' & m' & E & Ew & H).
  pose proof (proj1 (total_session url scope ctx_str note ops w Hi)) as Hr.
  assert (forall L', L' = [] -> step any [] m L' m' -> live m' = live m) as Hl.
  { intros L' -> (_ & F & _). apply map_eq. intros x. rewrite (footprint_nil _ _ _ F).
    by rewrite decide_False by apply not_elem_of_nil. }
  exists o, w', m'. split; [exact E|].
  destruct (session_value _ _ _ _ _ w) as [ob wb]. cbn [fst snd] in *. subst wb.
  destruct o as [rs|rc|], ob as [rs'|rc'|]; try done.
  - destruct H as (L' & [-> HL] & S1). split; [done|]. split; [done|]. by eapply Hl.
  - destruct H as [-> S1]. split; [done|]. split; [done|]. by eapply Hl.
Qed.
End Returns.
End Endpoints.

(** ** Runs

    A confirmation on the scripted platform: the broker refuses the first push, the
    device's clock is a minute ahead, a check-in and a second push follow; one answer is
    still pending, the next one approves, and the handle is used once more. *)

Definition SESSION_KEY : string := "AQEBAQEBAQEBAQEBAQEBAQEBAQEBAQEBAQEBAQEBAQE=".
Definition confirm_answers : list (string * json) :=
  [("session", JObject [("epk", JString SESSION_KEY)]);
   ("request", JObject [("authreq", JString "a.aWF0.b"); ("epk", JString SESSION_KEY)]);
   ("iat", JObject [("iat", JNumber (double_of_int64 (FAKE_NOW + 60)))]);
   ("event", JObject [("eventid", JString "E1")]);
   ("approved", JObject [("authreply", JString "R")]);
   ("token", JObject [("token", JString "T")]);
   ("checkin", JObject [("status", JString "ok")])].
Definition confirm_script : list reply :=
  [http 200 "session"; http 200 "request"; http_empty 401;
   http 200 "checkin"; http 200 "checkin"; http 200 "checkin";
   http 200 "session"; http 200 "request"; http 200 "event";
   http_empty 202; http 200 "approved"; http 200 "token"].

Definition confirm_platform (bad : nat) : Platform :=
  platform_with (fake_platform confirm_answers) (fun n => negb (n =? bad)%nat)
    (@p_kdf_pbkdf2_sha256 (fake_platform [])).
Definition confirm_world (bad : nat) : @world (confirm_platform bad) :=
  @Build_world (confirm_platform bad) {| script := confirm_script; fs_expired := false |} 0 true
    (fake_ctx false None) [].

Definition confirm_ops : list confirm_op := [Wait 7000; Poll].
Definition run_confirm (bad : nat) :=
  @session_memory (confirm_platform bad) session_request (Some "https://broker") (Some "keymgmt:list")
    None None confirm_ops (confirm_world bad) no_infos.

Example confirm_codes :
  option_map (fun r => (fst (fst r), size (dead (snd r)))) (run_confirm 99) =
    Some (Ok [(None, EHEM_OK); (None, EHEM_ERR_ARG)], 16%nat).
Proof. vm_compute. reflexivity. Qed.

(** Each allocation refused in turn: the run ends and nothing stays. *)
Example confirm_any_refusal :
  forallb (fun bad => match run_confirm bad with
                      | Some (Ok _, _, m) | Some (Err _, _, m) => (size (live m) =? 0)%nat
                      | _ => false
                      end) (seq 0 80) = true.
Proof. vm_compute. reflexivity. Qed.

Lemma confirm_clean bad : @CleanJson (@p_json (confirm_platform bad)).
Proof. apply fake_json_clean. vm_compute. reflexivity. Qed.

Lemma ext_results_in_memory_witness :
  exists p w' m', @ehem_ext_confirm_begin (confirm_platform 99) session_request (Some "https://broker")
      (Some "keymgmt:list") None None true (confirm_world 99) no_infos = Some (Ok (Some p), w', m') /\
    size (live m') = 4%nat /\
    exists m2, ehem_ext_confirm_cancel (Some p) O m' = Done tt 0%nat m2 /\ live m2 = ∅.
Proof.
  destruct (proj2 (proj2 (proj2 (proj2 (proj2 (proj2 (proj2 (proj2 (proj2 (proj2 (proj2
    (@ext_results_in_memory (confirm_platform 99) (confirm_clean 99) session_request
      (Some "https://broker") (Some "keymgmt:list") None None None None true
      ltac:(apply (bool_decide_unpack _); vm_compute; exact I)
      ltac:(apply (bool_decide_unpack _); vm_compute; exact I))))))))))))
    (confirm_world 99) no_infos) as (o & w' & m' & E & _ & R).
  assert (option_map (fun r => size (live (snd r))) (@ehem_ext_confirm_begin (confirm_platform 99)
    session_request (Some "https://broker") (Some "keymgmt:list") None None true (confirm_world 99) no_infos)
    = Some 4%nat) as Hs by (vm_compute; reflexivity).
  rewrite E in Hs. injection Hs as Hs.
  destruct (fst (@Ext.ehem_ext_confirm_begin (confirm_platform 99) session_request (Some "https://broker")
    (Some "keymgmt:list") None None true (confirm_world 99))) as [b|rc|] eqn:V;
    try (vm_compute in V; discriminate V).
  destruct o as [p|rc|]; try contradiction.
  destruct R as (_ & L & (q & s & -> & _) & HL & HO & Hfree). exists q, w', m'. split; [exact E|].
  split; [exact Hs|]. destruct (Hfree O m' (fun _ _ => eq_refl)) as (m2 & E2 & _ & H2). exists m2.
  split; [exact E2|]. apply map_eq. intros x. rewrite H2. case_decide as Hx; [symmetry; apply lookup_empty|].
  exact (HO x Hx).
Defined.

Lemma confirm_session_in_memory_witness :
  exists w' m', run_confirm 99 = Some (Ok [(None, EHEM_OK); (None, EHEM_ERR_ARG)], w', m') /\ live m' = ∅.
Proof.
  destruct (@confirm_session_in_memory (confirm_platform 99) (confirm_clean 99) session_request
    (session_total_busy) (session_total_open) (Some "https://broker") (Some "keymgmt:list") None None confirm_ops
    (confirm_world 99) no_infos
    ltac:(apply (bool_decide_unpack _); vm_compute; exact I)
    ltac:(apply (bool_decide_unpack _); vm_compute; exact I) eq_refl)
    as (o & w' & m' & E & _ & _ & L).
  exists w', m'. split; [|exact L].
  pose proof (f_equal (option_map (fun r => fst (fst r))) E) as Eo. vm_compute in Eo. injection Eo as <-.
  exact E.
Defined.
