(* ===== verification/Api.v ===== *)
(** * The whole API, as a transition system

    Every public operation on a context as one constructor of [api_call], and
    sequences of calls in which a failure does not stop the caller.  The
    theorem is the invariant of the context over every such sequence. *)

From S2P Require Import Prelude Base64 Json World Logic Context Ejwt Proto Checkin.
From S2P Require Import AuthState Notify Ext Auth Session Fake Bindings Keymgmt.
From S2P Require Import KeymgmtProps Crypto System Bip39 Bip39Props DeviceInit.

Open Scope hem_scope.

Inductive api_call :=
  (* auth.h *)
  | CallLogin (pass : option string) | CallLoginMobile | CallLogout
  | CallMnemonicGenerate (out : bool)
  | CallMasterSecret (words : option string) (secret : bool)
  | CallDeviceInit (params : option ehem_init_params) (out : bool)
  (* system.h, storage.h, logger.h *)
  | CallCheckin (out : bool) | CallStatus (out : bool) | CallVersion (out : bool)
  | CallConfig (out : bool) | CallCertInspect (crt : option string) (out : bool)
  | CallInstallCert (crt : option string) (out : bool) | CallReboot | CallShutdown
  | CallWipeout | CallSelftest (out : bool) | CallAttestation (out : bool)
  | CallTlsRecover (register_url : option string) (out : bool)
  | CallStorageUnlock (disk writable : Z) | CallStorageLock (disk : Z)
  | CallLoggerKey (out : bool) | CallLoggerList (offset : Z) (out : bool)
  | CallLoggerGet (id : option string) (out : bool)
  (* keymgmt.h *)
  | CallKeyList (offset limit : Z) (out : bool) | CallKeyListAll (out : bool)
  | CallKeyCreate (p : option ehem_key_create_params) (out : bool)
  | CallKeyDelete (kid : option string)
  | CallKeyUpdate (kid label : option string) (descr : buf)
  | CallKeyImport (p : option ehem_key_import_params) (out : bool)
  | CallKeyDerive (kid label type ext_kid : option string) (pubkey : buf)
      (mode : option string) (descr : buf) (out : bool)
  | CallKeySearch (pattern : buf) (mode offset limit : Z) (out : bool)
  | CallKeySearchAll (pattern : buf) (mode : Z) (out : bool)
  | CallKeyGet (kid : option string) (out : bool)
  (* crypto.h *)
  | CallSign (kid alg : option string) (msg sig_ctx : buf) (out : bool)
  | CallVerify (kid alg : option string) (msg sig_ctx sig : buf)
  | CallEcdh (kid ext_kid : option string) (pubkey : buf) (alg : option string) (out : bool)
  | CallHmac (kid alg : option string) (msg : buf) (ext_kid : option string) (pubkey : buf)
      (out : bool)
  | CallHmacVerify (kid alg : option string) (msg mac : buf) (ext_kid : option string)
      (pubkey : buf)
  | CallEncrypt (kid alg : option string) (msg aad : buf) (ext_kid : option string)
      (pubkey hkdf : buf) (out : bool)
  | CallDecrypt (kid alg : option string) (msg iv tag aad : buf) (ext_kid : option string)
      (pubkey hkdf : buf) (out : bool)
  | CallWrap (kid alg : option string) (msg : buf) (ext_kid : option string)
      (pubkey hkdf iv : buf) (out : bool)
  | CallUnwrap (kid alg : option string) (msg : buf) (ext_kid : option string)
      (pubkey hkdf iv : buf) (out : bool)
  | CallMlkemEncaps (kid : option string) (out : bool)
  | CallMlkemDecaps (kid : option string) (ct : buf) (out : bool)
  | CallMldsaSign (kid : option string) (msg sig_ctx : buf) (out : bool)
  | CallMldsaVerify (kid : option string) (msg sig_ctx sig : buf)
  | CallRandom (kid : option string) (b : buf)
  (* notify.h, ext.h *)
  | CallNotifySession (url eid : option string) (out : bool)
  | CallRegisterInit (url epk eid request : option string) (out : bool)
  | CallRegisterCheck (url rid : option string) (out : bool)
  | CallRegisterFinalise (url rid kid code : option string)
  | CallEventNew (url authreq epk : option string) (out : bool)
  | CallEventCheck (url eventid : option string) (out : bool)
  | CallQrPayload (link request user email hostname : option string) (out : bool)
  | CallExtInit (epk : option string) (out : bool)
  | CallExtValidate (pid reply : option string) (out : bool)
  | CallExtMac (epk : option string) (out : bool)
  | CallExtRequest (epk scope c note : option string) (out : bool)
  | CallExtToken (reply : option string) (out : bool)
  | CallConfirmBegin (url scope c note : option string) (out : bool)
  | CallConfirmPoll (h : ehem_ext_confirm)
  | CallConfirmWait (h : ehem_ext_confirm) (timeout_ms : Z).

Section Api.
Context {P : Platform}.

Definition done_with {A} (m : M A) : M unit := let* _ := m in ret tt.

(** The calls that report their code beside what they leave in their caller's
    memory: a filled or zeroed buffer, an advanced confirmation handle. *)
Definition code_of {A} (m : M (ehem_rc * A)) : M unit :=
  let* (rc, _) := m in check_rc (rc, tt).
Definition outcome_of {A B} (m : M (A * (B + ehem_rc))) : M unit :=
  let* (_, r) := m in match r with inl _ => ret tt | inr rc => throw rc end.

(** [walk] is the fuel of the two full-repository walks. *)
Definition run_call (walk : nat) (c : api_call) : M unit :=
  match c with
  | CallLogin p => ehem_login p
  | CallLoginMobile => ehem_login_mobile
  | CallLogout => ehem_logout
  | CallMnemonicGenerate o => done_with (ehem_mnemonic_generate true o)
  | CallMasterSecret w o => done_with (ehem_master_secret_from_mnemonic true w o)
  | CallDeviceInit p o => done_with (ehem_device_init p o)
  | CallCheckin o => done_with (ehem_system_checkin o)
  | CallStatus o => done_with (ehem_system_status o)
  | CallVersion o => done_with (ehem_system_version o)
  | CallConfig o => done_with (ehem_system_config o)
  | CallCertInspect c o => done_with (ehem_cert_inspect c o)
  | CallInstallCert c o => done_with (ehem_system_config_install_cert c o)
  | CallReboot => ehem_system_reboot
  | CallShutdown => ehem_system_shutdown
  | CallWipeout => ehem_system_wipeout
  | CallSelftest o => done_with (ehem_system_selftest o)
  | CallAttestation o => done_with (ehem_system_attestation o)
  | CallTlsRecover u o => done_with (ehem_tls_recover u o)
  | CallStorageUnlock d w => ehem_storage_unlock d w
  | CallStorageLock d => ehem_storage_lock d
  | CallLoggerKey o => done_with (ehem_logger_key o)
  | CallLoggerList n o => done_with (ehem_logger_list n o)
  | CallLoggerGet i o => done_with (ehem_logger_get i o)
  | CallKeyList n l o => done_with (ehem_key_list n l o)
  | CallKeyListAll o => done_with (ehem_key_list_all walk o)
  | CallKeyCreate p o => done_with (ehem_key_create p o)
  | CallKeyDelete k => ehem_key_delete k
  | CallKeyUpdate k l d => ehem_key_update k l d
  | CallKeyImport p o => done_with (ehem_key_import p o)
  | CallKeyDerive k l t x p m d o => done_with (ehem_key_derive k l t x p m d o)
  | CallKeySearch p m n l o => done_with (ehem_key_search p m n l o)
  | CallKeySearchAll p m o => done_with (ehem_key_search_all walk p m o)
  | CallKeyGet k o => done_with (ehem_key_get k o)
  | CallSign k a m c o => done_with (ehem_sign k a m c o)
  | CallVerify k a m c s => ehem_verify k a m c s
  | CallEcdh k e p a o => done_with (ehem_ecdh k e p a o)
  | CallHmac k a m e p o => done_with (ehem_hmac k a m e p o)
  | CallHmacVerify k a m c e p => ehem_hmac_verify k a m c e p
  | CallEncrypt k a m d e p h o => done_with (ehem_encrypt k a m d e p h o)
  | CallDecrypt k a m i t d e p h o => done_with (ehem_decrypt k a m i t d e p h o)
  | CallWrap k a m e p h i o => done_with (ehem_wrap k a m e p h i o)
  | CallUnwrap k a m e p h i o => done_with (ehem_unwrap k a m e p h i o)
  | CallMlkemEncaps k o => done_with (ehem_mlkem_encaps k o)
  | CallMlkemDecaps k c o => done_with (ehem_mlkem_decaps k c o)
  | CallMldsaSign k m c o => done_with (ehem_mldsa_sign k m c o)
  | CallMldsaVerify k m c s => ehem_mldsa_verify k m c s
  | CallRandom k b => code_of (ehem_random k b)
  | CallNotifySession u e o => done_with (ehem_notify_session u e o)
  | CallRegisterInit u k e r o => done_with (ehem_notify_register_init u k e r o)
  | CallRegisterCheck u r o => done_with (ehem_notify_register_check u r o)
  | CallRegisterFinalise u r k c => done_with (ehem_notify_register_finalise u r k c)
  | CallEventNew u a e o => done_with (ehem_notify_event_new u a e o)
  | CallEventCheck u e o => done_with (ehem_notify_event_check u e o)
  | CallQrPayload l r u e h o => done_with (ehem_ext_qr_payload l r u e h o)
  | CallExtInit e o => done_with (ehem_ext_init e o)
  | CallExtValidate p r o => done_with (ehem_ext_validate p r o)
  | CallExtMac e o => done_with (ehem_ext_mac e o)
  | CallExtRequest e s c n o => done_with (ehem_ext_request e s c n o)
  | CallExtToken r o => done_with (ehem_ext_token r o)
  | CallConfirmBegin u s c n o => done_with (ehem_ext_confirm_begin u s c n o)
  | CallConfirmPoll h => outcome_of (ehem_ext_confirm_poll h)
  | CallConfirmWait h t => outcome_of (ehem_ext_confirm_wait h t)
  end.

(** A caller that looks at each return code and goes on. *)
Fixpoint run_calls (walk : nat) (l : list api_call) : M unit :=
  match l with
  | [] => ret tt
  | c :: l => let* _ := attempt (run_call walk c) in run_calls walk l
  end.

(** ** Frames *)

Lemma keeps_done {A} R (m : M A) : keeps R m -> keeps R (done_with m).
Proof.
  intros Hm w. specialize (Hm w). unfold done_with, bind.
  destruct (m w) as [[a|rc|] w']; cbn in *; intros; [by apply Hm|by apply Hm|done].
Qed.
Lemma keeps_code {A} (m : M (ehem_rc * A)) : keeps evolves m -> keeps evolves (code_of m).
Proof. intros. unfold code_of. solve_keeps. Qed.
Lemma keeps_outcome {A B} (m : M (A * (B + ehem_rc))) :
  keeps evolves m -> keeps evolves (outcome_of m).
Proof. intros. unfold outcome_of. solve_keeps. Qed.
Lemma total_code {A} b (m : M (ehem_rc * A)) : total b m -> total b (code_of m).
Proof. intros. unfold code_of. solve_total. Qed.
Lemma total_outcome {A B} b (m : M (A * (B + ehem_rc))) : total b m -> total b (outcome_of m).
Proof. intros. unfold outcome_of. solve_total. Qed.
Lemma total_done {A} b (m : M A) : total b m -> total b (done_with m).
Proof. intros Hm. apply total_bind; [done|]. by eauto with total. Qed.

Lemma keeps_login p : keeps evolves (ehem_login p).
Proof.
  unfold ehem_login. pose proof (keeps_upd_auth_some evolves (fun _ _ => True)).
  solve_keeps.
Qed.
Lemma keeps_init p o : keeps evolves (ehem_device_init p o).
Proof. apply (keeps_device_init evolves (fun _ _ => True)), keeps_login. Qed.
Lemma keeps_login_mobile : keeps evolves ehem_login_mobile.
Proof.
  unfold ehem_login_mobile. pose proof (keeps_upd_auth_some evolves (fun _ _ => True)).
  solve_keeps.
Qed.
Lemma keeps_logout : keeps evolves ehem_logout.
Proof.
  unfold ehem_logout. refine (keeps_bind _ _ _ _ _ _); [by eauto with keeps typeclass_instances|].
  intros _ w _. apply (frame_auth (R:=evolves) (A:=fun _ _ => True)). done.
Qed.
Lemma keeps_wipeout : keeps evolves ehem_system_wipeout.
Proof.
  unfold ehem_system_wipeout. pose proof keeps_logout.
  pose proof (fun m p b s o => request_keeps (R:=evolves) (Q:=session_request) m p b s o).
  solve_keeps.
Qed.
#[local] Hint Resolve keeps_system_checkin keeps_status keeps_version keeps_config
  keeps_cert_inspect keeps_install_cert keeps_power_call keeps_selftest
  keeps_attestation keeps_tls_recover keeps_storage_unlock keeps_storage_lock
  keeps_logger_key keeps_logger_list keeps_logger_get keeps_key_list
  keeps_key_list_all keeps_key_create keeps_key_delete keeps_key_update
  keeps_key_import keeps_key_derive keeps_key_search keeps_key_search_all
  keeps_key_get keeps_sign keeps_verify keeps_ecdh keeps_hmac keeps_hmac_verify
  keeps_encrypt keeps_decrypt keeps_wrap keeps_unwrap keeps_mlkem_encaps
  keeps_mlkem_decaps keeps_mldsa_sign keeps_mldsa_verify keeps_random
  keeps_notify_session keeps_register_init keeps_register_check
  keeps_register_finalise keeps_event_new keeps_event_check keeps_qr_payload
  keeps_ext_init keeps_ext_validate keeps_ext_mac keeps_ext_request keeps_ext_token
  keeps_confirm_begin keeps_confirm_poll keeps_confirm_wait keeps_login
  keeps_login_mobile keeps_logout keeps_wipeout keeps_init : keeps.

Lemma keeps_call walk c : keeps evolves (run_call walk c).
Proof.
  destruct c; cbn [run_call]; try apply keeps_done; try apply keeps_code; try apply keeps_outcome;
    unfold ehem_system_reboot, ehem_system_shutdown;
    eauto with keeps typeclass_instances.
Qed.

Lemma keeps_calls walk l : keeps evolves (run_calls walk l).
Proof.
  induction l as [|c l IH]; [by eauto with keeps typeclass_instances|].
  cbn [run_calls]. pose proof (keeps_call walk c). solve_keeps.
Qed.

(** ** Totality *)

Lemma total_login p : total false (ehem_login p).
Proof. unfold ehem_login. solve_total. Qed.
Lemma total_login_mobile : total false ehem_login_mobile.
Proof. unfold ehem_login_mobile. solve_total. Qed.
Lemma total_qr_payload l r u e h o : total false (ehem_ext_qr_payload l r u e h o).
Proof. unfold ehem_ext_qr_payload. solve_total. Qed.
Lemma total_json_closed m p b s o : total false (ehem_proto_request_json m p b s o).
Proof. apply (total_any_json false). Qed.
#[local] Hint Resolve total_json_closed total_ext_req_str : total.
Lemma total_pairing {B} w : total false (pairing_needs_passphrase (A:=B) w).
Proof. unfold pairing_needs_passphrase. solve_total. Qed.
#[local] Hint Resolve total_pairing : total.
Lemma total_ext_init e o : total false (ehem_ext_init e o).
Proof. unfold ehem_ext_init, epk_body. solve_total. Qed.
Lemma total_ext_validate p r o : total false (ehem_ext_validate p r o).
Proof. unfold ehem_ext_validate. solve_total. Qed.
Lemma total_ext_mac e o : total false (ehem_ext_mac e o).
Proof. unfold ehem_ext_mac, epk_body. solve_total. Qed.
#[local] Hint Resolve total_system_checkin total_status total_version total_config
  total_cert_inspect total_install_cert total_power_call total_selftest
  total_attestation total_tls_recover total_storage_unlock total_storage_lock
  total_logger_key total_logger_list total_logger_get total_key_list total_key_create
  total_key_delete total_key_update total_key_import total_key_derive total_key_search
  total_key_get total_sign total_verify total_ecdh total_hmac total_hmac_verify
  total_encrypt total_decrypt total_wrap total_unwrap total_mlkem_encaps
  total_mlkem_decaps total_mldsa_sign total_mldsa_verify total_random
  total_notify_session total_register_init total_register_check
  total_register_finalise total_event_new total_event_check total_qr_payload
  total_ext_init total_ext_validate total_ext_mac total_ext_request total_ext_token
  total_confirm_begin total_confirm_poll total_confirm_wait total_login
  total_login_mobile total_logout total_wipeout : total.

(** Everything but the two walks returns. *)
Definition is_walk (c : api_call) : bool :=
  match c with CallKeyListAll _ | CallKeySearchAll _ _ _ => true | _ => false end.

Lemma total_call walk c : is_walk c = false -> total false (run_call walk c).
Proof.
  destruct c; try done; intros _; cbn [run_call]; try apply total_done; try apply total_code;
    try apply total_outcome;
    unfold ehem_system_reboot, ehem_system_shutdown; eauto with total typeclass_instances.
Qed.

(** ** Whether or not a walk ends *)

(** From an idle world: a step of the frame, idle again, even where the fuel of
    a walk runs out in the middle. *)
Definition steady {A} (m : M A) : Prop :=
  forall w, in_checkin (w_ctx w) = false ->
    evolves w (snd (m w)) /\ in_checkin (w_ctx (snd (m w))) = false.

Lemma steady_total {A} (m : M A) : total false m -> keeps evolves m -> steady m.
Proof. intros Ht Hk w Hw. destruct (Ht w Hw) as [Hd Hi]. split; [by apply Hk|done]. Qed.

Lemma steady_bind {A B} (m : M A) (f : A -> M B) :
  steady m -> (forall a, steady (f a)) -> steady (bind m f).
Proof.
  intros Hm Hf w Hw. destruct (Hm w Hw) as [He Hi]. unfold bind.
  destruct (m w) as [[a|rc|] w']; cbn in *; [|done..].
  destruct (Hf a w' Hi) as [He2 Hi2]. split; [by etrans|done].
Qed.

Lemma steady_ret {A} (a : A) : steady (ret a).
Proof. intros w Hw. by split. Qed.

Lemma steady_attempt {A} (m : M A) : steady m -> steady (attempt m).
Proof.
  intros Hm w Hw. specialize (Hm w Hw). unfold attempt. by destruct (m w) as [[] ?].
Qed.

Lemma steady_walk fetch :
  (forall o, steady (fetch o)) -> forall fuel o acc, steady (page_walk fuel fetch o acc).
Proof.
  intros Hf. induction fuel as [|fuel IH]; intros o acc.
  - intros w Hw. by split.
  - cbn [page_walk]. apply steady_bind; [apply Hf|intros page].
    apply steady_bind; [|intros [acc'|]; [case_match; [|apply IH]|]].
    + apply steady_total; [by eauto using total_page_append|].
      by apply (keeps_page_append evolves (fun _ _ => True)).
    + apply steady_ret.
    + apply steady_total; [apply total_oom|].
      by apply (keeps_oom evolves (fun _ _ => True)).
Qed.

Lemma steady_key_list_all fuel out : steady (ehem_key_list_all fuel out).
Proof.
  unfold ehem_key_list_all.
  destruct out; cbn [negb]; [|apply steady_total; [by eauto with total|solve_keeps]].
  apply steady_bind; [apply steady_total; [by eauto with total|solve_keeps]|intros _].
  apply steady_bind; [apply steady_total; [by eauto with total|solve_keeps]|intros _].
  apply steady_walk. intros o. apply steady_total; [apply (total_key_list false)|].
  apply (keeps_key_list evolves (fun _ _ => True)).
Qed.

Lemma steady_key_search_all fuel pattern mode out :
  steady (ehem_key_search_all fuel pattern mode out).
Proof.
  unfold ehem_key_search_all.
  destruct (negb _); [apply steady_total; [by eauto with total|solve_keeps]|].
  apply steady_bind; [apply steady_total; [by eauto with total|solve_keeps]|intros _].
  apply steady_bind; [apply steady_total; [apply total_search_descr|
    apply (keeps_search_descr evolves (fun _ _ => True))]|intros descr].
  apply steady_bind; [apply steady_total; [by eauto with total|solve_keeps]|intros _].
  apply steady_walk. intros o. apply steady_total; [apply (total_search_one_page false)|].
  apply (keeps_search_one_page evolves (fun _ _ => True)).
Qed.

Lemma steady_call walk c : steady (run_call walk c).
Proof.
  destruct (is_walk c) eqn:E; [|apply steady_total; [by apply total_call|apply keeps_call]].
  destruct c; try done; cbn [run_call]; unfold done_with;
    (apply steady_bind; [|intros _; apply steady_ret]);
    [apply steady_key_list_all|apply steady_key_search_all].
Qed.

Lemma steady_calls walk l : steady (run_calls walk l).
Proof.
  induction l as [|c l IH]; [apply steady_ret|]. cbn [run_calls].
  apply steady_bind; [apply steady_attempt, steady_call|intros _; apply IH].
Qed.

(** ** Against a device with bounded totals *)

Section Returns.
Context (T : Z) (t : option (ehem_transport net)) (HT : reports_at_most T t)
        (H0 : 0 <= T < 2 ^ 62) (walk : nat) (Hfuel : T < Z.of_nat walk).

Lemma settles_done {A} (m : M A) w : settles false m w -> settles false (done_with m) w.
Proof.
  unfold settles, done_with, bind. destruct (m w) as [[a|rc|] w']; cbn; intros [Hd Hi]; by split.
Qed.

Lemma call_settles c w :
  device_at t w -> in_checkin (w_ctx w) = false -> settles false (run_call walk c) w.
Proof.
  intros Hat Hw. destruct (is_walk c) eqn:E.
  - destruct c; try done; cbn [run_call]; apply settles_done.
    + by apply (key_list_all_settles T t HT H0 walk Hfuel).
    + by apply (key_search_all_settles T t HT H0 walk Hfuel).
  - apply settles_total; [by apply total_call|done].
Qed.

Lemma calls_settle l : forall w,
  device_at t w -> in_checkin (w_ctx w) = false -> settles false (run_calls walk l) w.
Proof.
  induction l as [|c l IH]; intros w Hat Hw; [by split|]. cbn [run_calls].
  destruct (call_settles c w Hat Hw) as [Hd Hi].
  destruct (steady_call walk c w Hw) as [He _].
  unfold settles, bind, attempt. destruct (run_call walk c w) as [[a|rc|] w']; cbn in *;
    [| |done]; apply IH; try done; by eapply device_at_evolves.
Qed.
End Returns.
End Api.


(** Login, a signature over a fresh token, a walk, a wipeout, logout. *)
Definition api_run : list api_call :=
  [CallLogin (Some "correct horse"); CallKeyListAll true; CallKeyDelete (Some KID_A);
   CallSign (Some KID_A) (Some "Ed25519") (buf_of [1; 2; 3]) no_buf true;
   CallCheckin true; CallWipeout; CallStatus true; CallLogout].

