(* ===== verification/Codes.v ===== *)
(** * Failures carry error codes

    The error path of a call never carries [EHEM_OK]: a judgement on the
    computations of the monad, and its proof for every public call.  Proofs
    about the loops that compare codes with [EHEM_OK] build on it. *)

From S2P Require Import Prelude Base64 Json World Logic Context Ejwt Proto Checkin.
From S2P Require Import AuthState Notify Ext Auth Session Fake Bindings Keymgmt.
From S2P Require Import KeymgmtProps Crypto System Api.

Open Scope hem_scope.

(** What a value says about codes: a stored outcome [inr rc] is a failure. *)
Class Good (A : Type) := good : A -> Prop.
#[export] Instance good_any A : Good A | 100 := fun _ => True.
#[export] Instance good_outcome A `{Good A} : Good (A + ehem_rc) | 1 := fun r =>
  match r with inl a => good a | inr rc => rc <> EHEM_OK end.
#[export] Instance good_prod A B `{Good A, Good B} : Good (A * B) | 1 := fun p =>
  good (fst p) /\ good (snd p).

Section Coded.
Context {P : Platform}.

Definition coded `{Good A} (m : M A) : Prop :=
  forall w, match fst (m w) with Ok a => good a | Err rc => rc <> EHEM_OK | Diverge => True end.

Lemma coded_ret `{Good A} (a : A) : good a -> coded (ret a).
Proof. by intros ? w. Qed.
Lemma coded_diverge `{Good A} : coded (diverge (A:=A)).
Proof. done. Qed.
Lemma coded_throw `{Good A} rc : rc <> EHEM_OK -> coded (throw (A:=A) rc).
Proof. by intros ? w. Qed.
Lemma coded_bind `{Good A, Good B} (m : M A) (f : A -> M B) :
  coded m -> (forall a, good a -> coded (f a)) -> coded (bind m f).
Proof.
  intros Hm Hf w. unfold bind. specialize (Hm w).
  destruct (m w) as [[a|rc|] w']; cbn in *; [by apply Hf|done|done].
Qed.
Lemma coded_attempt `{Good A} (m : M A) : coded m -> coded (attempt m).
Proof.
  intros Hm w. unfold attempt. specialize (Hm w).
  by destruct (m w) as [[] ?].
Qed.
Lemma coded_check_rc `{Good A} (p : ehem_rc * A) : good (snd p) -> coded (check_rc p).
Proof. intros Hp w. unfold check_rc. by destruct p as [[] ?]. Qed.
Lemma coded_ask `{Good A} (f : nat -> A) : (forall n, good (f n)) -> coded (ask f).
Proof. intros Hf w. apply Hf. Qed.
Lemma coded_malloc : coded malloc.
Proof. done. Qed.
Lemma coded_dup_str s : coded (dup_str s).
Proof. done. Qed.
Lemma coded_emit e : coded (emit e).
Proof. done. Qed.
Lemma coded_upd_ctx f : coded (upd_ctx f).
Proof. done. Qed.
Lemma coded_set_net n : coded (set_net n).
Proof. done. Qed.
Lemma coded_set_ready n : coded (set_global_ready n).
Proof. done. Qed.
Lemma coded_get_ctx : coded get_ctx.
Proof. done. Qed.
Lemma coded_get_net : coded get_net.
Proof. done. Qed.
Lemma coded_get_ready : coded get_global_ready.
Proof. done. Qed.
Lemma coded_fail `{Good A} rc st p msg :
  rc <> EHEM_OK -> coded (ehem_ctx_fail (A:=A) rc st p msg).
Proof. intros Hrc w. by rewrite fail_run. Qed.

Lemma ok_rc_ne rc : ok_rc rc = false -> rc <> EHEM_OK.
Proof. by intros H%bool_decide_eq_false. Qed.
Lemma negb_ok_rc_ne rc : negb (ok_rc rc) = true -> rc <> EHEM_OK.
Proof. intros H%negb_true_iff. by apply ok_rc_ne. Qed.
Lemma map_status_ne s : ehem_proto_map_http_status s <> EHEM_OK.
Proof. unfold ehem_proto_map_http_status. by repeat case_match. Qed.
End Coded.

Create HintDb coded.
#[export] Hint Resolve coded_diverge coded_malloc coded_dup_str coded_emit coded_upd_ctx
  coded_set_net coded_set_ready coded_get_ctx coded_get_net coded_get_ready : coded.

(** A code that is known not to be [EHEM_OK]. *)
Ltac code_ne :=
  first
    [ assumption | discriminate | apply map_status_ne
    | apply ok_rc_ne; assumption | apply negb_ok_rc_ne; assumption
    | match goal with H : _ && _ = true |- _ => apply andb_prop in H as [? ?]; code_ne end
    | match goal with
      | H : good _ |- _ => unfold good, good_prod, good_outcome, good_any in H; cbn in H; destruct_and? H; code_ne
      end
    | match goal with |- (match ?x with _ => _ end) <> _ => destruct x; code_ne end ].
Ltac good_val :=
  unfold good, good_prod, good_outcome, good_any; cbn; repeat split;
  repeat match goal with
         | |- context [match ?a with inl _ => _ | inr _ => _ end] => is_var a; destruct a; cbn
         end;
  (exact I || code_ne).

Ltac head_of t := match t with ?f _ => head_of f | _ => t end.
Ltac coded_step :=
  match goal with
  | |- coded (ret _) => apply coded_ret; solve [good_val]
  | |- coded (throw _) => apply coded_throw; code_ne
  | |- coded (ehem_ctx_fail _ _ _ _) => apply coded_fail; code_ne
  | |- coded (check_rc _) => apply coded_check_rc; good_val
  | |- coded (ask _) => apply coded_ask; intros ?; good_val
  | |- coded (attempt _) => apply coded_attempt
  | |- coded (bind _ _) => apply coded_bind; [|intros ? ?]
  | |- coded (let '(_, _) := ?x in _) => destruct x
  | |- coded (match ?x with _ => _ end) => let E := fresh "E" in destruct x eqn:E
  | |- coded _ => solve [eauto 3 with coded]
  | |- coded ?m => let h := head_of m in unfold h
  end.
Ltac solve_coded := intros; repeat (coded_step; cbn beta iota zeta).

Section Stack.
Context {P : Platform} `{Q : !Request}.
Context (HQ : forall m p b s o, coded (@ehem_proto_request_raw P Q m p b s o)).
#[local] Hint Resolve HQ : coded.

Lemma coded_add_strings obj l : coded (json_add_strings obj l).
Proof.
  revert obj; induction l as [|[k v] l IH]; intros obj; [by eauto with coded|].
  cbn [json_add_strings]. solve_coded.
Qed.
#[local] Hint Resolve coded_add_strings : coded.
Lemma coded_json m p b s o : coded (ehem_proto_request_json m p b s o).
Proof. unfold ehem_proto_request_json. solve_coded. Qed.
#[local] Hint Resolve coded_json : coded.
Lemma coded_checkin r w : coded (ehem_checkin_run r w).
Proof. unfold ehem_checkin_run. solve_coded. Qed.
#[local] Hint Resolve coded_checkin : coded.
Lemma coded_ext_request e s c n o : coded (ehem_ext_request e s c n o).
Proof. solve_coded. Qed.
Lemma coded_ext_token r o : coded (ehem_ext_token r o).
Proof. solve_coded. Qed.
#[local] Hint Resolve coded_ext_request coded_ext_token : coded.
Lemma coded_exchange s n c : coded (exchange_token s n c).
Proof. solve_coded. Qed.
#[local] Hint Resolve coded_exchange : coded.
Lemma coded_acquire s n r d : coded (acquire_token s n r d).
Proof. solve_coded. Qed.
Lemma coded_confirm_begin u s c n o : coded (ehem_ext_confirm_begin u s c n o).
Proof. solve_coded. Qed.
Lemma coded_confirm_poll c : coded (ehem_ext_confirm_poll c).
Proof. solve_coded. Qed.
#[local] Hint Resolve coded_confirm_poll : coded.
Lemma coded_wait_loop fuel c e t : coded (confirm_wait_loop fuel c e t).
Proof.
  revert c e; induction fuel as [|fuel IH]; intros c e; cbn [confirm_wait_loop];
    solve_coded.
Qed.
#[local] Hint Resolve coded_acquire coded_confirm_begin coded_wait_loop : coded.
Lemma coded_confirm_wait c t : coded (ehem_ext_confirm_wait c t).
Proof. solve_coded. Qed.
#[local] Hint Resolve coded_confirm_wait : coded.
Lemma coded_ensure s : coded (ehem_auth_ensure_token s).
Proof. solve_coded. Qed.
End Stack.

Section Closed.
Context {P : Platform}.

Lemma coded_recovery checkin t m p b br ov rc :
  (forall r, coded (checkin r)) -> rc <> EHEM_OK -> coded (cert_recovery checkin t m p b br ov rc).
Proof. unfold cert_recovery. solve_coded. Qed.

Lemma coded_body checkin ensure inval :
  (forall r, coded (checkin r)) -> (forall s, coded (ensure s)) ->
  (forall s, coded (inval s)) ->
  forall m p b s o, coded (request_raw_body checkin ensure inval m p b s o).
Proof.
  intros Hc He Hi m p b s o. unfold request_raw_body.
  pose proof coded_recovery as Hr. unfold auth_retry, acquire_bearer, send_failed, finish.
  solve_coded.
Qed.

Lemma coded_request_n n m p b s o : coded (request_n n m p b s o).
Proof.
  revert m p b s o; induction n as [|n IH]; intros; [done|].
  cbn [request_n]. apply coded_body.
  - intros r. unfold checkin_quietly. apply coded_bind; [|by eauto with coded].
    intros ?. by apply coded_checkin.
  - intros s'. by apply coded_ensure.
  - intros s'. solve_coded.
Qed.
End Closed.

Section Calls.
Context {P : Platform}.

Lemma coded_session m p b s o : coded (@ehem_proto_request_raw P session_request m p b s o).
Proof. apply coded_request_n. Qed.
#[local] Hint Resolve coded_session : coded.
Lemma coded_session_json m p b s o :
  coded (@ehem_proto_request_json P session_request m p b s o).
Proof. apply coded_json, coded_session. Qed.
Lemma coded_string_list obj l : coded (json_add_strings obj l).
Proof.
  revert obj; induction l as [|[k v] l IH]; intros obj; [by eauto with coded|].
  cbn [json_add_strings]. solve_coded.
Qed.
#[local] Hint Resolve coded_session_json coded_string_list : coded.
Lemma coded_body_fields obj l : coded (add_body_fields obj l).
Proof.
  revert obj; induction l as [|f l IH]; intros obj; [by eauto with coded|].
  cbn [add_body_fields]. solve_coded.
Qed.
Lemma coded_parse_entries l i k : coded (parse_entries l i k).
Proof.
  revert i; induction k as [|k IH]; intros i; [by eauto with coded|].
  cbn [parse_entries]. solve_coded.
Qed.
Lemma coded_copy_strings l i k : coded (copy_strings l i k).
Proof.
  revert i; induction k as [|k IH]; intros i; [by eauto with coded|].
  cbn [copy_strings]. solve_coded.
Qed.
Lemma coded_logger_ids l i k : coded (logger_ids l i k).
Proof.
  revert i; induction k as [|k IH]; intros i; [by eauto with coded|].
  cbn [logger_ids]. solve_coded.
Qed.
Lemma coded_walk fuel fetch o acc :
  (forall o, coded (fetch o)) -> coded (page_walk fuel fetch o acc).
Proof.
  intros Hf. revert o acc; induction fuel as [|fuel IH]; intros; [by eauto with coded|].
  cbn [page_walk]. solve_coded.
Qed.
#[local] Hint Resolve coded_body_fields coded_parse_entries coded_copy_strings
  coded_logger_ids : coded.
Lemma coded_key_list o l out : coded (ehem_key_list o l out).
Proof. solve_coded. Qed.
Lemma coded_search_page d o l : coded (search_one_page d o l).
Proof. solve_coded. Qed.
Lemma coded_encrypt k a m d e p h o : coded (ehem_encrypt k a m d e p h o).
Proof. solve_coded. Qed.
#[local] Hint Resolve coded_key_list coded_search_page coded_encrypt : coded.
Lemma coded_random_loop fuel k len f b : coded (random_loop fuel k len f b).
Proof.
  revert f b; induction fuel as [|fuel IH]; intros f b; cbn [random_loop]; solve_coded.
Qed.
Lemma coded_checkin_call o : coded (ehem_system_checkin o).
Proof.
  unfold ehem_system_checkin. pose proof (fun r w => coded_checkin coded_session r w).
  solve_coded.
Qed.
Lemma coded_ext_call e s c n o : coded (ehem_ext_request e s c n o).
Proof. apply coded_ext_request, coded_session. Qed.
Lemma coded_token_call r o : coded (ehem_ext_token r o).
Proof. apply coded_ext_token, coded_session. Qed.
Lemma coded_begin_call u s c n o : coded (ehem_ext_confirm_begin u s c n o).
Proof. apply coded_confirm_begin, coded_session. Qed.
Lemma coded_poll_call c : coded (ehem_ext_confirm_poll c).
Proof. apply coded_confirm_poll, coded_session. Qed.
Lemma coded_wait_call c t : coded (ehem_ext_confirm_wait c t).
Proof. apply coded_confirm_wait, coded_session. Qed.
#[local] Hint Resolve coded_random_loop coded_walk coded_checkin_call coded_ext_call
  coded_token_call coded_begin_call coded_poll_call coded_wait_call : coded.

(** A code stored when it is not [EHEM_OK]. *)
Lemma coded_stored {A} (t : string) (a : A) rc :
  coded (ret (t, if bool_decide (rc = EHEM_OK) then inl a else inr rc)).
Proof. apply coded_ret. split; [exact I|]. cbn. by case_bool_decide. Qed.
#[local] Hint Resolve coded_stored : coded.

Lemma coded_call walk c : coded (run_call walk c).
Proof. unfold run_call, done_with. destruct c; solve_coded. Qed.
End Calls.
