(* ===== verification/Secrecy.v ===== *)
(** * The passphrase is used through the key derivation only

    Two runs of the SDK that differ in the passphrases alone -- the one a session
    retains and those of the calls -- are told apart by nothing but PBKDF2.  The
    second run is the first with every passphrase renamed by [rho]; where the
    derivation gives the same keys for both, every call returns the same, sends the
    same requests and leaves the same context, up to that renaming. *)

From S2P Require Import Prelude Base64 Json World Logic Context Ejwt Proto Checkin.
From S2P Require Import AuthState Notify Ext Auth Session Fake Bindings Keymgmt.
From S2P Require Import KeymgmtProps Crypto System Bip39 DeviceInit Api Codes.
From S2P Require Import SessionProps.

Open Scope hem_scope.

Section Secrecy.
Context {P : Platform} (rho : string -> string).

Definition rename_auth (a : ehem_auth) : ehem_auth :=
  {| passphrase := rho <$> passphrase a; retain := retain a; username := username a;
     mobile := mobile a; cache := cache a |}.
Definition rename_ctx (c : ehem_ctx net) : ehem_ctx net :=
  ctx_set_auth (rename_auth <$> auth c) c.
Definition rename_world (w : world) : world := with_ctx w (rename_ctx (w_ctx w)).

(** [m'] does in the renamed world what [m] does in the original one. *)
Definition renames {A} (m m' : M A) : Prop :=
  forall w, m' (rename_world w) = (fst (m w), rename_world (snd (m w))).
Definition blind {A} (m : M A) : Prop := renames m m.

(** ** Composition *)

Lemma renames_bind {A B} (m m' : M A) (f f' : A -> M B) :
  renames m m' -> (forall a, renames (f a) (f' a)) -> renames (bind m f) (bind m' f').
Proof.
  intros Hm Hf w. unfold bind. rewrite Hm. destruct (m w) as [[a|rc|] w']; cbn; [apply Hf|done|done].
Qed.
Lemma blind_bind {A B} (m : M A) (f : A -> M B) :
  blind m -> (forall a, blind (f a)) -> blind (bind m f).
Proof. apply renames_bind. Qed.
Lemma blind_attempt {A} (m : M A) : blind m -> blind (attempt m).
Proof. intros Hm w. unfold attempt. rewrite Hm. by destruct (m w) as [[] ?]. Qed.

(** Who reads the context does not look at the passphrase. *)
Lemma blind_get_ctx {B} (f : ehem_ctx net -> M B) :
  (forall c w, f (rename_ctx c) w = f c w) -> (forall c, blind (f c)) ->
  blind (bind get_ctx f).
Proof. intros Hr Hf w. unfold bind, get_ctx. cbn. rewrite Hr. apply Hf. Qed.
Lemma blind_get_auth {B} (f : option ehem_auth -> M B) :
  (forall a w, f (rename_auth <$> a) w = f a w) -> (forall a, blind (f a)) ->
  blind (bind get_auth f).
Proof. intros Hr Hf w. unfold bind, get_auth, get_ctx. cbn. rewrite Hr. apply Hf. Qed.

Lemma blind_ret {A} (a : A) : blind (ret a).
Proof. done. Qed.
Lemma blind_diverge {A} : blind (diverge (A:=A)).
Proof. done. Qed.
Lemma blind_throw {A} rc : blind (throw (A:=A) rc).
Proof. done. Qed.
Lemma blind_check_rc {A} (p : ehem_rc * A) : blind (check_rc p).
Proof. intros w. unfold check_rc. by destruct p as [[] ?]. Qed.
Lemma blind_ask {A} (f : nat -> A) : blind (ask f).
Proof. done. Qed.
Lemma blind_malloc : blind malloc.
Proof. done. Qed.
Lemma blind_dup_str s : blind (dup_str s).
Proof. done. Qed.
Lemma blind_emit e : blind (emit e).
Proof. done. Qed.
Lemma blind_set_net n : blind (set_net n).
Proof. done. Qed.
Lemma blind_set_ready n : blind (set_global_ready n).
Proof. done. Qed.
Lemma blind_get_net : blind get_net.
Proof. done. Qed.
Lemma blind_get_ready : blind get_global_ready.
Proof. done. Qed.

(** An update leaves the passphrase, or drops it. *)
Lemma blind_upd_ctx f :
  (forall c, f (rename_ctx c) = rename_ctx (f c)) -> blind (upd_ctx f).
Proof. intros Hf w. unfold upd_ctx. cbn. by rewrite Hf. Qed.
Lemma blind_upd_auth f :
  (forall a, f (rename_auth a) = rename_auth (f a)) -> blind (upd_auth f).
Proof.
  intros Hf. apply blind_upd_ctx. intros c. unfold rename_ctx, ctx_set_auth. cbn.
  destruct (auth c); cbn; by rewrite ?Hf.
Qed.
Lemma blind_last_error : blind ehem_last_error.
Proof. done. Qed.
Lemma blind_is_mobile : blind ehem_auth_is_mobile.
Proof.
  intros w. unfold ehem_auth_is_mobile, is_mobile, bind, get_ctx, ret. cbn.
  by destruct (auth (w_ctx w)).
Qed.
End Secrecy.

Create HintDb blind.
#[export] Hint Resolve blind_ret blind_diverge blind_throw blind_check_rc blind_ask blind_malloc
  blind_dup_str blind_emit blind_set_net blind_set_ready blind_get_net blind_get_ready
  blind_last_error blind_is_mobile : blind.

Ltac same_view :=
  intros ? ?;
  first [ reflexivity
        | match goal with a : option ehem_auth |- _ => destruct a as [[[] ? ? ? ?]|]; reflexivity end
        | match goal with c : ehem_ctx _ |- _ => destruct c as [? ? ? ? [[[] ? ? ? ?]|] ?]; reflexivity end ].
Ltac same_update :=
  intros []; try reflexivity; cbn;
  repeat match goal with |- context [if ?b then _ else _] => destruct b end; reflexivity.
Ltac blind_step :=
  match goal with
  | |- renames ?rho ?m ?m => change (blind rho m)
  | |- blind _ (bind get_ctx _) => apply blind_get_ctx; [same_view|intros ?]
  | |- blind _ (bind get_auth _) => apply blind_get_auth; [same_view|intros ?]
  | |- blind _ (upd_ctx _) => apply blind_upd_ctx; same_update
  | |- blind _ (upd_auth _) => apply blind_upd_auth; same_update
  | |- blind _ (attempt _) => apply blind_attempt
  | |- blind _ (bind _ _) => apply blind_bind; [|intros ?]
  | |- blind _ (let '(_, _) := ?x in _) => destruct x
  | |- blind _ (match ?x with _ => _ end) => destruct x
  | |- blind _ _ => solve [eauto 3 with blind]
  | |- blind _ ?m => let h := head_of m in unfold h
  end.
Ltac solve_blind := intros; repeat (blind_step; cbn beta iota zeta).

(** The derivation gives the renamed passphrases the same keys. *)
Definition kdf_blind {P : Platform} (rho : string -> string) : Prop :=
  forall n pass salt iters,
    p_kdf_pbkdf2_sha256 n (bytes_of_string (rho pass)) salt iters =
    p_kdf_pbkdf2_sha256 n (bytes_of_string pass) salt iters.

Section Stack.
Context {P : Platform} (rho : string -> string) (Hkdf : kdf_blind rho) `{Q : !Request}.
Context (HQ : forall m p b s o, blind rho (@ehem_proto_request_raw P Q m p b s o)).
Abbreviation blind := (blind rho).
#[local] Hint Resolve HQ : blind.

Lemma blind_add_strings obj l : blind (json_add_strings obj l).
Proof.
  revert obj; induction l as [|[k v] l IH]; intros obj; [by eauto with blind|].
  cbn [json_add_strings]. solve_blind.
Qed.
#[local] Hint Resolve blind_add_strings : blind.
Lemma blind_json m p b s o : blind (ehem_proto_request_json m p b s o).
Proof. unfold ehem_proto_request_json. solve_blind. Qed.
#[local] Hint Resolve blind_json : blind.
Lemma blind_checkin r w : blind (ehem_checkin_run r w).
Proof. unfold ehem_checkin_run. solve_blind. Qed.
#[local] Hint Resolve blind_checkin : blind.
Lemma blind_cache_put s t e : blind (cache_put s t e).
Proof. solve_blind. Qed.
Lemma blind_ensure_auth : blind ensure_auth.
Proof. solve_blind. Qed.
#[local] Hint Resolve blind_cache_put blind_ensure_auth : blind.
Lemma blind_ext_request e s c n o : blind (ehem_ext_request e s c n o).
Proof. solve_blind. Qed.
Lemma blind_ext_token r o : blind (ehem_ext_token r o).
Proof. solve_blind. Qed.
#[local] Hint Resolve blind_ext_request blind_ext_token : blind.
Lemma blind_derive jti spk eid scope peer now : blind (derive_ejwt jti spk eid scope peer now).
Proof.
  unfold derive_ejwt. apply blind_get_auth.
  - intros a w. unfold bind, ask. destruct a as [[[p|] ? ? ? ?]|]; [|reflexivity..].
    cbn [mbind option_bind fmap option_fmap option_map rename_auth passphrase default
         from_option id]. by rewrite Hkdf.
  - intros a. solve_blind.
Qed.
#[local] Hint Resolve blind_derive : blind.
Lemma blind_exchange s n c : blind (exchange_token s n c).
Proof. solve_blind. Qed.
#[local] Hint Resolve blind_exchange : blind.
Lemma blind_acquire s n r d : blind (acquire_token s n r d).
Proof. solve_blind. Qed.
Lemma blind_confirm_begin u s c n o : blind (ehem_ext_confirm_begin u s c n o).
Proof. solve_blind. Qed.
Lemma blind_confirm_poll c : blind (ehem_ext_confirm_poll c).
Proof. solve_blind. Qed.
#[local] Hint Resolve blind_confirm_poll : blind.
Lemma blind_wait_loop fuel c e t : blind (confirm_wait_loop fuel c e t).
Proof.
  revert c e; induction fuel as [|fuel IH]; intros c e; cbn [confirm_wait_loop]; solve_blind.
Qed.
#[local] Hint Resolve blind_acquire blind_confirm_begin blind_wait_loop : blind.
Lemma blind_confirm_wait c t : blind (ehem_ext_confirm_wait c t).
Proof. solve_blind. Qed.
#[local] Hint Resolve blind_confirm_wait : blind.
Lemma blind_acquire_passphrase s n : blind (acquire_passphrase s n).
Proof. solve_blind. Qed.
Lemma blind_acquire_mobile s : blind (acquire_mobile s).
Proof. solve_blind. Qed.
#[local] Hint Resolve blind_acquire_passphrase blind_acquire_mobile : blind.
Lemma blind_ensure s : blind (ehem_auth_ensure_token s).
Proof. solve_blind. Qed.
End Stack.

Section Closed.
Context {P : Platform} (rho : string -> string) (Hkdf : kdf_blind rho).
Abbreviation blind := (blind rho).

Lemma blind_recovery checkin t m p b br ov rc :
  (forall r, blind (checkin r)) -> blind (cert_recovery checkin t m p b br ov rc).
Proof. unfold cert_recovery. solve_blind. Qed.

Lemma blind_body checkin ensure inval :
  (forall r, blind (checkin r)) -> (forall s, blind (ensure s)) -> (forall s, blind (inval s)) ->
  forall m p b s o, blind (request_raw_body checkin ensure inval m p b s o).
Proof.
  intros Hc He Hi m p b s o. unfold request_raw_body.
  pose proof blind_recovery as Hr. unfold auth_retry, acquire_bearer, send_failed, finish.
  solve_blind.
Qed.

Lemma blind_request_n n m p b s o : blind (request_n n m p b s o).
Proof.
  revert m p b s o; induction n as [|n IH]; intros; [done|].
  cbn [request_n]. apply blind_body.
  - intros r. unfold checkin_quietly. apply blind_bind; [|by eauto with blind].
    by apply blind_checkin.
  - intros s'. by apply blind_ensure.
  - intros s'. solve_blind.
Qed.
End Closed.

Section Calls.
Context {P : Platform} (rho : string -> string) (Hkdf : kdf_blind rho).
Abbreviation blind := (blind rho).

Lemma blind_session m p b s o : blind (@ehem_proto_request_raw P session_request m p b s o).
Proof. by apply blind_request_n. Qed.
#[local] Hint Resolve blind_session : blind.
Lemma blind_session_json m p b s o :
  blind (@ehem_proto_request_json P session_request m p b s o).
Proof. by apply blind_json, blind_session. Qed.
Lemma blind_string_list obj l : blind (json_add_strings obj l).
Proof.
  revert obj; induction l as [|[k v] l IH]; intros obj; [by eauto with blind|].
  cbn [json_add_strings]. solve_blind.
Qed.
#[local] Hint Resolve blind_session_json blind_string_list : blind.
Lemma blind_body_fields obj l : blind (add_body_fields obj l).
Proof.
  revert obj; induction l as [|f l IH]; intros obj; [by eauto with blind|].
  cbn [add_body_fields]. solve_blind.
Qed.
Lemma blind_parse_entries l i k : blind (parse_entries l i k).
Proof.
  revert i; induction k as [|k IH]; intros i; [by eauto with blind|].
  cbn [parse_entries]. solve_blind.
Qed.
Lemma blind_copy_strings l i k : blind (copy_strings l i k).
Proof.
  revert i; induction k as [|k IH]; intros i; [by eauto with blind|].
  cbn [copy_strings]. solve_blind.
Qed.
Lemma blind_logger_ids l i k : blind (logger_ids l i k).
Proof.
  revert i; induction k as [|k IH]; intros i; [by eauto with blind|].
  cbn [logger_ids]. solve_blind.
Qed.
Lemma blind_walk fuel fetch o acc :
  (forall o, blind (fetch o)) -> blind (page_walk fuel fetch o acc).
Proof.
  intros Hf. revert o acc; induction fuel as [|fuel IH]; intros; [by eauto with blind|].
  cbn [page_walk]. solve_blind.
Qed.
#[local] Hint Resolve blind_body_fields blind_parse_entries blind_copy_strings
  blind_logger_ids : blind.
Lemma blind_key_list o l out : blind (ehem_key_list o l out).
Proof. solve_blind. Qed.
Lemma blind_search_page d o l : blind (search_one_page d o l).
Proof. solve_blind. Qed.
Lemma blind_encrypt k a m d e p h o : blind (ehem_encrypt k a m d e p h o).
Proof. solve_blind. Qed.
#[local] Hint Resolve blind_key_list blind_search_page blind_encrypt : blind.
Lemma blind_random_loop fuel k len f b : blind (random_loop fuel k len f b).
Proof.
  revert f b; induction fuel as [|fuel IH]; intros f b; cbn [random_loop]; solve_blind.
Qed.
Lemma blind_checkin_call o : blind (ehem_system_checkin o).
Proof.
  unfold ehem_system_checkin. pose proof (fun r w => blind_checkin rho blind_session r w).
  solve_blind.
Qed.
Lemma blind_ext_call e s c n o : blind (ehem_ext_request e s c n o).
Proof. by apply blind_ext_request, blind_session. Qed.
Lemma blind_token_call r o : blind (ehem_ext_token r o).
Proof. by apply blind_ext_token, blind_session. Qed.
Lemma blind_begin_call u s c n o : blind (ehem_ext_confirm_begin u s c n o).
Proof. by apply blind_confirm_begin, blind_session. Qed.
Lemma blind_poll_call c : blind (ehem_ext_confirm_poll c).
Proof. by apply blind_confirm_poll, blind_session. Qed.
Lemma blind_wait_call c t : blind (ehem_ext_confirm_wait c t).
Proof. by apply blind_confirm_wait, blind_session. Qed.
#[local] Hint Resolve blind_random_loop blind_walk blind_checkin_call blind_ext_call
  blind_token_call blind_begin_call blind_poll_call blind_wait_call : blind.

(** ** The calls that are given a passphrase *)

Lemma blind_clear_error : blind ehem_ctx_clear_error.
Proof. solve_blind. Qed.
Lemma blind_cache_seed scope token : blind (ehem_auth_cache_seed scope token).
Proof. pose proof (blind_cache_put rho). pose proof (blind_ensure_auth rho). solve_blind. Qed.
#[local] Hint Resolve blind_clear_error blind_cache_seed : blind.

Lemma renames_login pass : renames rho (ehem_login pass) (ehem_login (rho <$> pass)).
Proof.
  destruct pass as [pass|]; [|done]. cbn [ehem_login fmap option_fmap option_map].
  apply renames_bind; [apply blind_clear_error|intros _].
  intros w. unfold dup_str, malloc, ask, ret. unfold bind at 1 2 4 5. cbn.
  destruct (p_malloc (w_tick w)); [|reflexivity].
  match goal with |- ?l = (fst (?m ?w'), _) =>
    match l with ?m' _ => enough (renames rho m m') as H by exact (H w') end end.
  apply renames_bind; [apply blind_ensure_auth|intros [|]; cbn; [|solve_blind]].
  clear w. intros w. unfold bind, get_ctx, upd_auth, upd_ctx. cbn.
  by destruct (auth (w_ctx w)).
Qed.

Definition rename_params (p : ehem_init_params) : ehem_init_params :=
  {| ip_abi_size := ip_abi_size p; ip_passphrase := rho <$> ip_passphrase p;
     ip_master_secret := ip_master_secret p; ip_user := ip_user p; ip_email := ip_email p;
     ip_hostname := ip_hostname p; ip_ip := ip_ip p; ip_storage_mode := ip_storage_mode p;
     ip_storage_disk0size := ip_storage_disk0size p; ip_origin := ip_origin p;
     ip_dnsd := ip_dnsd p; ip_no_trusted_ts := ip_no_trusted_ts p;
     ip_no_trusted_backend := ip_no_trusted_backend p;
     ip_no_allow_keysearch := ip_no_allow_keysearch p; ip_gen_csr := ip_gen_csr p;
     ip_ctx_id := ip_ctx_id p |}.
Definition rename_required (r : init_required) : init_required :=
  {| ir_passphrase := rho (ir_passphrase r); ir_master_secret := ir_master_secret r;
     ir_user := ir_user r; ir_email := ir_email r; ir_hostname := ir_hostname r;
     ir_ip := ir_ip r |}.

Lemma read_rename p : init_params_read (rename_params p) = rename_params (init_params_read p).
Proof. unfold init_params_read, rename_params. cbn. by destruct (16 <=? _). Qed.
Lemma required_rename p :
  init_required_fields (rename_params p) = rename_required <$> init_required_fields p.
Proof. unfold init_required_fields, rename_params. cbn. by repeat case_match; simplify_eq/=. Qed.

Lemma renames_eq {A} (m m' : M A) : blind m -> (forall w, m' w = m w) -> renames rho m m'.
Proof. intros Hm E w. rewrite E. apply Hm. Qed.

Lemma renames_init_jwt p r eid jti spk exp peer :
  renames rho (init_jwt p r eid jti spk exp peer)
    (init_jwt (rename_params p) (rename_required r) eid jti spk exp peer).
Proof.
  apply renames_eq; [solve_blind|]. intros w. unfold init_jwt.
  assert (forall w, init_derive (rename_required r) eid peer w = init_derive r eid peer w) as E.
  { intros w'. unfold init_derive, bind, ask. cbn [ir_passphrase rename_required]. by rewrite Hkdf. }
  unfold bind at 1, attempt at 1. rewrite E. reflexivity.
Qed.

Lemma renames_init_commit r jwt out :
  renames rho (init_commit r jwt out) (init_commit (rename_required r) jwt out).
Proof.
  unfold init_commit. apply renames_bind; [solve_blind|intros [body|]; [|solve_blind]].
  apply renames_bind; [solve_blind|intros [result|rc]; [|solve_blind]].
  destruct (ehem_json_get_string (Some result) "token") as [token|]; [|solve_blind].
  destruct (ehem_json_get_string (Some result) "instanceid") as [id|]; [|solve_blind].
  apply renames_bind; [|intros _; solve_blind].
  apply renames_bind; [apply (renames_login (Some _))|intros _; apply blind_cache_seed].
Qed.

Lemma renames_init_exchange p r out :
  renames rho (init_exchange p r out) (init_exchange (rename_params p) (rename_required r) out).
Proof.
  unfold init_exchange. apply renames_bind; [solve_blind|intros [challenge|rc]; [|solve_blind]].
  repeat match goal with
  | |- renames _ (match ?x with Some _ => _ | None => _ end) _ => destruct x; [|solve_blind]
  end.
  destruct (negb _); [solve_blind|]. apply renames_bind.
  - pose proof renames_init_jwt as H. intros w. unfold attempt.
    rewrite (H _ _ _ _ _ _ _ w). by destruct (init_jwt _ _ _ _ _ _ _ w) as [[] ?].
  - intros [jwt|rc]; [apply renames_init_commit|solve_blind].
Qed.

Lemma renames_device_init params out :
  renames rho (ehem_device_init params out) (ehem_device_init (rename_params <$> params) out).
Proof.
  unfold ehem_device_init. apply renames_bind; [apply blind_clear_error|intros _].
  destruct params as [p|]; cbn; [|solve_blind].
  destruct (ip_abi_size p <? _); [solve_blind|]. rewrite read_rename, required_rename.
  destruct (init_required_fields (init_params_read p)) as [r|]; cbn; [|solve_blind].
  destruct (_ || _); [solve_blind|].
  apply renames_bind; [solve_blind|intros [_|rc]; [apply renames_init_exchange|solve_blind]].
Qed.

Definition rename_call (c : api_call) : api_call :=
  match c with
  | CallLogin pass => CallLogin (rho <$> pass)
  | CallDeviceInit params out => CallDeviceInit (rename_params <$> params) out
  | c => c
  end.

Lemma renames_call walk c : renames rho (run_call walk c) (run_call walk (rename_call c)).
Proof.
  destruct c; cbn [run_call rename_call].
  1: apply renames_login.
  5: apply renames_bind; [apply renames_device_init|intros; solve_blind].
  all: unfold done_with; solve_blind.
Qed.

(** Every return code, in order. *)
Fixpoint call_codes (walk : nat) (l : list api_call) : M (list (unit + ehem_rc)) :=
  match l with
  | [] => ret []
  | c :: l =>
      let* o := attempt (run_call walk c) in
      let* os := call_codes walk l in
      ret (o :: os)
  end.

Lemma renames_calls walk l :
  renames rho (call_codes walk l) (call_codes walk (rename_call <$> l)).
Proof.
  induction l as [|c l IH]; [done|]. cbn [call_codes fmap list_fmap map].
  apply renames_bind.
  - pose proof (renames_call walk c) as H. intros w. unfold attempt. rewrite (H w).
    by destruct (run_call walk c w) as [[] ?].
  - intros o. apply renames_bind; [exact IH|intros; solve_blind].
Qed.
End Calls.

(** C5: nothing the SDK does depends on a passphrase but through PBKDF2.  Rename every
    passphrase -- the one the session retains and those the calls are given -- in any
    way the key derivation cannot tell apart: any sequence of public calls returns the
    same codes, sends the same requests with the same headers and bodies, sleeps and
    notifies alike, consults the platform equally often and leaves the same context
    with the passphrase renamed.  No passphrase, nor its length, goes into a request,
    an error text, the user name or a cached token. *)
Theorem passphrase_only_through_kdf {P : Platform} (rho : string -> string) walk l w :
  kdf_blind rho ->
  let '(codes, w1) := call_codes walk l w in
  let '(codes', w2) := call_codes walk (rename_call rho <$> l) (rename_world rho w) in
  codes' = codes /\ w_trace w2 = w_trace w1 /\ w_tick w2 = w_tick w1 /\
  w_net w2 = w_net w1 /\ w_ctx w2 = rename_ctx rho (w_ctx w1).
Proof.
  intros Hkdf. pose proof (renames_calls rho Hkdf walk l w) as H.
  destruct (call_codes walk l w) as [codes w1].
  destruct (call_codes walk (rename_call rho <$> l) (rename_world rho w)) as [codes' w2].
  by injection H as -> ->.
Qed.

(** A derivation that looks at the first letter only. *)
Definition letter_kdf (_ : nat) (pass salt : bytes) (_ : Z) : ehem_rc * bytes :=
  (EHEM_OK, repeat (hd 0 pass) 32).
Definition letter_platform : Platform :=
  platform_with (fake_platform login_table) (fun _ => true) letter_kdf.
Definition keep_letter (s : string) : string :=
  match s with EmptyString => EmptyString | String c _ => String c "orrect battery staple" end.

Definition secrecy_world : @world letter_platform :=
  @Build_world letter_platform
    {| script := [http 200 "CHALLENGE"; http 200 "TOKEN"; http 200 "{}"]; fs_expired := false |}
    0 true (fake_ctx true None) [].

Definition secrecy_calls : list api_call :=
  [CallLogin (Some "correct horse"); CallKeyList 0 5 true].

(** Both runs log in and send three requests; the second under the other passphrase. *)
Lemma passphrase_only_through_kdf_witness :
  let '(codes, w1) := @call_codes letter_platform 1 secrecy_calls secrecy_world in
  let '(codes', w2) := @call_codes letter_platform 1
    [CallLogin (Some "correct battery staple"); CallKeyList 0 5 true] secrecy_world in
  codes' = codes /\ w_trace w2 = w_trace w1 /\ length (w_trace w2) = 3%nat /\
  (auth (w_ctx w2) ≫= passphrase) = Some "correct battery staple".
Proof.
  assert (@kdf_blind letter_platform keep_letter) as Hk by (intros n [|c s] salt iters; reflexivity).
  pose proof (@passphrase_only_through_kdf letter_platform keep_letter 1 secrecy_calls
    secrecy_world Hk) as H.
  change (rename_call keep_letter <$> secrecy_calls) with
    [CallLogin (Some "correct battery staple"); CallKeyList 0 5 true] in H.
  change (@rename_world letter_platform keep_letter secrecy_world) with secrecy_world in H.
  destruct (@call_codes letter_platform 1 secrecy_calls secrecy_world) as [codes w1].
  destruct (@call_codes letter_platform 1 _ secrecy_world) as [codes' w2] eqn:E.
  destruct H as (H1 & H2 & _). split; [exact H1|]. split; [exact H2|].
  assert (w2 = snd (@call_codes letter_platform 1 [CallLogin (Some "correct battery staple");
    CallKeyList 0 5 true] secrecy_world)) as -> by (rewrite E; reflexivity).
  split; vm_compute; reflexivity.
Defined.
