(* ===== verification/RandomProps.v ===== *)
(** * The RNG harvest

    [ehem_random] of [src/proto_crypto.c] fills the caller's buffer with
    device IVs, sixteen bytes a round.  Here is what the buffer holds
    afterwards: everything from the device's answers, in their order, or nothing
    of it. *)

From S2P Require Import Prelude Base64 Json World Logic Context Ejwt Proto Notify Session Fake.
From S2P Require Import SessionProps Wire Bindings Keymgmt KeymgmtProps Crypto CryptoProps.
From S2P Require Import Codes.

Open Scope hem_scope.

(** The buffer after [filled] bytes taken from the harvested [ivs]. *)
Definition harvested (filled : Z) (ivs : list bytes) (mem b : bytes) : Prop :=
  Forall (fun iv => length iv = 16%nat) ivs /\
  b = take (Z.to_nat filled) (concat ivs) ++ drop (Z.to_nat filled) mem.

Lemma concat_length_16 ivs :
  Forall (fun iv : bytes => length iv = 16%nat) ivs ->
  length (concat ivs) = (16 * length ivs)%nat.
Proof. induction 1 as [|iv ivs H _ IH]; cbn; [done|]. rewrite length_app, H, IH. lia. Qed.

(** One more round. *)
Lemma harvested_step filled n ivs iv mem b :
  0 <= filled -> filled = 16 * Z.of_nat (length ivs) -> 0 <= n <= 16 ->
  length iv = 16%nat -> filled + n <= Z.of_nat (length mem) ->
  harvested filled ivs mem b ->
  harvested (filled + n) (ivs ++ [iv]) mem (buf_write filled (take (Z.to_nat n) iv) b).
Proof.
  intros Hf0 Hf Hn Hiv Hmem [Hall ->]. pose proof (concat_length_16 ivs Hall) as Hlen.
  split; [apply Forall_app; split; [done|by constructor]|].
  unfold buf_write. rewrite concat_app. cbn [concat]. rewrite app_nil_r.
  rewrite !(take_ge (concat ivs)) by lia.
  replace (Z.to_nat (filled + n)) with (length (concat ivs) + Z.to_nat n)%nat by lia.
  rewrite take_app_add, length_take, Hiv, Nat.min_l by lia.
  assert (Z.to_nat filled = length (concat ivs)) as -> by lia.
  rewrite take_app_length, drop_app_add, drop_drop, <- app_assoc. done.
Qed.

Section Loop.
Context {P : Platform}.

(** *** The device's answers *)

(** The IV of an answer: sixteen bytes in base64. *)
Definition iv_of (root : json) (iv : bytes) : Prop :=
  exists text, ehem_json_get_string (Some root) "iv" = Some text /\
    std_decode text 32 = Some iv /\ length iv = 16%nat.

(** One round's request: encrypt one zero byte under the key. *)
Definition rng_body (kid body : string) : Prop :=
  exists ms,
    mapM field_member [FieldStr "kid" kid; FieldB64 "msg" (buf_of [0]);
                       FieldStr "alg" EHEM_CIPHER_ALG_AES128_CBC] = Some ms /\
    body = cJSON_Print (JObject ms).

(** What one round leaves after the device's answer. *)
Definition one_answer (kid : string) (w : world) (root : json) (w' : world) : Prop :=
  exists body w1, rng_body kid body /\
    answered_json w EHEM_HTTP_POST "/api/crypto/cipher/encrypt" (Some body)
      (Some ("keymgmt:use:" +:+ kid)%string) EHEM_TLS_REQ_DEFAULT root w1 /\
    silent_since w1 w'.

(** The IVs of the answers since [w0], oldest first: each the answer to a request
    of its own, sent after the answer before it. *)
Inductive drawn (w0 : world) (kid : string) : list bytes -> world -> Prop :=
  | drawn_none w : silent_since w0 w -> drawn w0 kid [] w
  | drawn_more ivs iv root w w' :
      drawn w0 kid ivs w -> one_answer kid w root w' -> iv_of root iv ->
      drawn w0 kid (ivs ++ [iv]) w'.

Lemma quiet_calloc : quiet calloc_or_fail.
Proof. unfold calloc_or_fail, out_of_memory. repeat quiet_step. Qed.

Lemma quiet_decode_required root f m bad : quiet (decode_required root f m bad).
Proof.
  unfold decode_required, decode_into, out_of_memory.
  repeat first [apply quiet_calloc | quiet_step].
Qed.

Lemma quiet_rng_build kid :
  quiet (cipher_build "crypto/cipher/encrypt" kid EHEM_CIPHER_ALG_AES128_CBC (buf_of [0])
           EHEM_CIPHER_MSG_MAX no_buf no_buf no_buf None no_buf no_buf).
Proof. unfold cipher_build, check_peer_args. solve_quiet. Qed.

Lemma rng_built kid :
  hoare (fun _ => True)
    (cipher_build "crypto/cipher/encrypt" kid EHEM_CIPHER_ALG_AES128_CBC (buf_of [0])
       EHEM_CIPHER_MSG_MAX no_buf no_buf no_buf None no_buf no_buf)
    (built kid [FieldStr "kid" kid; FieldB64 "msg" (buf_of [0]);
                FieldStr "alg" EHEM_CIPHER_ALG_AES128_CBC]).
Proof. unfold cipher_build. solve_built. Qed.

Lemma decode_fixed_iv root iv :
  decode_fixed_field root "iv" EHEM_CIPHER_IV_LEN = Some (Some iv) -> iv_of root iv.
Proof.
  unfold decode_fixed_field, nonempty_string, iv_of, EHEM_CIPHER_IV_LEN. intros H.
  destruct (ehem_json_get_string (Some root) "iv") as [text|]; [|done].
  destruct (is_empty text); [done|].
  destruct (std_decode text 32) as [b|] eqn:E; [|done].
  destruct (Z.eqb_spec (Z.of_nat (length b)) 16); [|done]. injection H as <-.
  exists text. split_and!; [done..|lia].
Qed.

Abbreviation rng_encrypt kid :=
  (ehem_encrypt (Some kid) (Some EHEM_CIPHER_ALG_AES128_CBC) (buf_of [0]) no_buf None no_buf
     no_buf true).

(** A round that gives a ciphertext gives the IV of its answer. *)
Lemma encrypt_answered kid w ct w' :
  rng_encrypt kid w = (Ok ct, w') ->
  exists root, one_answer kid w root w' /\ forall iv, ct_iv ct = Some iv -> iv_of root iv.
Proof.
  unfold ehem_encrypt. change (b_null (buf_of [0]) || negb true) with false. cbv iota.
  intros (u & wc & Ec & E)%bind_inv.
  pose proof (quiet_silent _ _ _ _ quiet_clear Ec ltac:(done)) as Hc.
  apply bind_inv in E as (body & wb & Eb & E).
  pose proof (quiet_silent _ _ _ _ (quiet_rng_build kid) Eb ltac:(done)) as Hb.
  pose proof (rng_built kid wc I) as Hbuilt. rewrite Eb in Hbuilt.
  destruct Hbuilt as (Hk & ms & Hms & Hbody).
  apply bind_inv in E as (root & w1 & Er & E).
  unfold post_json in Er. rewrite use_scope_fits in Er by (done || lia).
  pose proof (request_json_answered wb EHEM_HTTP_POST "/api/crypto/cipher/encrypt" (Some body)
    (Some ("keymgmt:use:" +:+ kid)%string) EHEM_TLS_REQ_DEFAULT (ok_args_device "/api/crypto/cipher/encrypt" _ eq_refl)
    wb eq_refl) as Ha.
  rewrite Er in Ha. cbv zeta in E. apply bind_inv in E as (bytes & w2 & Ed & E).
  pose proof (quiet_silent _ _ _ _ (quiet_decode_required _ _ _ _) Ed ltac:(done)) as Hd.
  destruct (decode_fixed_field root "iv" EHEM_CIPHER_IV_LEN) as [oiv|] eqn:Ei;
    [|by apply ehem_ctx_fail_ok in E].
  destruct (decode_fixed_field root "tag" EHEM_CIPHER_TAG_LEN);
    [|by apply ehem_ctx_fail_ok in E]. injection E as <- <-.
  exists root. split.
  - exists body, w1. split; [by exists ms|]. split; [|done].
    eapply answered_json_from; [|exact Ha]. etrans; [apply Hc|apply Hb].
  - cbn. intros iv ->. by apply decode_fixed_iv.
Qed.

(** What a harvest leaves: the device's bytes and a code of success, or the
    prefix zeroed and an error. *)
Definition harvest_result (w0 : world) (kid : string) (len : Z) (mem : bytes) (rc : ehem_rc)
    (b : bytes) (w : world) : Prop :=
  (rc = EHEM_OK /\ exists ivs, drawn w0 kid ivs w /\ harvested len ivs mem b /\
     len <= 16 * Z.of_nat (length ivs) < len + 16) \/
  (rc <> EHEM_OK /\ exists filled, 0 <= filled < len /\
     b = replicate (Z.to_nat filled) 0 ++ drop (Z.to_nat filled) mem).

Lemma buf_zero_harvested filled ivs mem b :
  0 <= filled <= Z.of_nat (length mem) -> filled <= 16 * Z.of_nat (length ivs) ->
  harvested filled ivs mem b ->
  buf_zero filled b = replicate (Z.to_nat filled) 0 ++ drop (Z.to_nat filled) mem.
Proof.
  intros Hf Hiv [Hall ->]. pose proof (concat_length_16 ivs Hall).
  unfold buf_zero. f_equal. rewrite drop_app_ge by (rewrite length_take; lia).
  rewrite length_take, Nat.min_l by lia. by rewrite Nat.sub_diag.
Qed.

Lemma random_loop_spec w0 fuel kid len mem :
  1 <= len <= Z.of_nat (length mem) ->
  forall filled ivs b w, 0 <= filled <= len -> drawn w0 kid ivs w ->
    harvested filled ivs mem b ->
    (filled < len -> filled = 16 * Z.of_nat (length ivs)) ->
    filled <= 16 * Z.of_nat (length ivs) < filled + 16 ->
    match random_loop fuel kid len filled b w with
    | (Ok (rc, b'), w') => harvest_result w0 kid len mem rc b' w'
    | (Err _, _) => False
    | (Diverge, _) => True
    end.
Proof.
  intros Hlen. induction fuel as [|fuel IH]; intros filled ivs b w Hf Hdr Hb Hne Hcnt;
    cbn [random_loop]; destruct (len <=? filled) eqn:E0.
  1, 3: assert (filled = len) as -> by lia; left; split; [done|]; by exists ivs.
  - done.
  - unfold bind at 1. unfold attempt at 1.
    pose proof (encrypt_answered kid w) as Hans.
    pose proof (coded_encrypt (Some kid) (Some EHEM_CIPHER_ALG_AES128_CBC) (buf_of [0])
      no_buf None no_buf no_buf true w) as Hrc.
    destruct (rng_encrypt kid w) as [[ct|rc|] w']; cbn [fst snd] in *; [| |done].
    + destruct (Hans ct w' eq_refl) as (root & Hone & Hiv). destruct (ct_iv ct) as [iv|].
      * specialize (Hiv iv eq_refl). pose proof Hiv as (_ & _ & _ & Hl).
        unfold EHEM_CIPHER_IV_LEN in *. specialize (Hne ltac:(lia)).
        apply (IH (filled + Z.min (len - filled) 16) (ivs ++ [iv])); try lia.
        -- by eapply drawn_more.
        -- apply harvested_step; try lia. exact Hb.
        -- intros. rewrite length_app. cbn. lia.
        -- rewrite length_app. cbn. lia.
      * unfold bind, attempt, ret.
        pose proof (fail_run (A:=unit) EHEM_ERR_PROTOCOL 200 None
          "crypto/random: encrypt response carried no iv" w') as Hfail.
        destruct (ehem_ctx_fail _ _ _ _ w') as [o w2]. cbn in Hfail. subst o. cbn.
        right. split; [done|]. exists filled. split; [lia|].
        apply (buf_zero_harvested filled ivs); [lia|lia|done].
    + cbn. right. split; [done|]. exists filled. split; [lia|].
      apply (buf_zero_harvested filled ivs); [lia|lia|done].
Qed.
End Loop.

(** C28: the RNG is all or nothing.  On an idle context [ehem_random] returns;
    with [EHEM_OK] the first [len] bytes of the caller's buffer are, in order,
    the IVs of exactly as many answers of the device as needed - each the base64
    [iv] member of its 2xx to the POST of one zero byte under the key, each
    request sent after the answer before -, and the rest is untouched; with any
    error no byte of partial entropy is left, the harvested prefix being zero and
    the rest what it was; and arguments are refused before the buffer is
    touched. *)
Theorem random_all_or_nothing {P : Platform} (kid : string) (mem : bytes) (len : Z)
    (w : world) (Hidle : in_checkin (w_ctx w) = false) (Hmem : len <= Z.of_nat (length mem)) :
  match ehem_random (Some kid) {| b_ptr := Some mem; b_len := len |} w with
  | (Ok (rc, b), w') => harvest_result w kid len mem rc b w'
  | (Err rc, _) => rc = EHEM_ERR_ARG /\ (ehem_proto_is_kid_hex kid = false \/ len < 1)
  | (Diverge, _) => False
  end.
Proof.
  pose proof (total_random false (Some kid) {| b_ptr := Some mem; b_len := len |} w Hidle)
    as [Hd _].
  set (w1 := snd (ehem_ctx_clear_error w)).
  destruct (ehem_proto_is_kid_hex kid) eqn:Ek.
  2:{ unfold ehem_random, require. cbn [b_ptr b_len]. rewrite Ek. cbn. auto. }
  destruct (1 <=? len) eqn:E.
  2:{ unfold ehem_random, require. cbn [b_ptr b_len]. rewrite Ek, E. cbn.
      split; [done|right; lia]. }
  assert (ehem_random (Some kid) {| b_ptr := Some mem; b_len := len |} w =
          random_loop (Z.to_nat len) kid len 0 mem w1) as Er.
  { unfold ehem_random, require. cbn [b_ptr b_len]. by rewrite Ek, E. }
  rewrite Er in *.
  pose proof (random_loop_spec w (Z.to_nat len) kid len mem ltac:(lia) 0 [] mem w1 ltac:(lia)
    (drawn_none w kid w1 (quiet_silent _ _ _ _ quiet_clear eq_refl ltac:(done)))) as H.
  destruct (random_loop _ _ _ _ _ w1) as [[[rc b]|rc|] w']; [..|done].
  - apply H; [split; [constructor|done]|cbn; lia|cbn; lia].
  - destruct H; [split; [constructor|done]|cbn; lia|cbn; lia].
Qed.

(** An encrypt answer with an IV of sixteen sevens, then a refusal. *)
Definition iv_text : string := default "" (std_encode (repeat 7 16)).
Definition rng_table : list (string * json) :=
  [("enc", JObject [("ciphertext", JString "AAAA"); ("iv", JString iv_text)])].
Definition rng_world (replies : list reply) : @world (fake_platform rng_table) :=
  fake_world replies true (Some (fake_session ("keymgmt:use:" +:+ KID_A) "tok")).

Lemma random_all_or_nothing_witness :
  (exists w', harvest_result (rng_world [http 200 "enc"; http 200 "enc"]) KID_A 20 (repeat 1 24)
                EHEM_OK (repeat 7 20 ++ repeat 1 4) w') /\
  (exists w', harvest_result (rng_world [http 200 "enc"; http 500 "{}"]) KID_A 20 (repeat 1 20)
                EHEM_ERR_DEVICE (repeat 0 16 ++ repeat 1 4) w').
Proof.
  pose proof (@random_all_or_nothing (fake_platform rng_table) KID_A (repeat 1 24) 20
    (rng_world [http 200 "enc"; http 200 "enc"]) eq_refl ltac:(done)) as H1.
  pose proof (@random_all_or_nothing (fake_platform rng_table) KID_A (repeat 1 20) 20
    (rng_world [http 200 "enc"; http 500 "{}"]) eq_refl ltac:(done)) as H2.
  split.
  - destruct (ehem_random _ _ (rng_world [http 200 "enc"; http 200 "enc"])) as [o w'] eqn:E.
    assert (o = Ok (EHEM_OK, repeat 7 20 ++ repeat 1 4)) as ->
      by (vm_compute in E; injection E as <- _; vm_compute; reflexivity).
    exists w'. exact H1.
  - destruct (ehem_random _ _ (rng_world [http 200 "enc"; http 500 "{}"])) as [o w'] eqn:E.
    assert (o = Ok (EHEM_ERR_DEVICE, repeat 0 16 ++ repeat 1 4)) as ->
      by (vm_compute in E; injection E as <- _; vm_compute; reflexivity).
    exists w'. exact H2.
Defined.
