(* ===== verification/CurlProps.v ===== *)
(** * What the default transport guarantees

    The TLS posture in force at every transfer, the URL it goes to, the body it
    collects, and - composed with the request path - the trust under which every
    request of the library travels. *)

From S2P Require Import Prelude Base64 Json World Logic Context KeymgmtProps Fake Api Curl.

Open Scope hem_scope.

(** ** The response body *)

(** [0 < cap] once anything is stored, and the NUL always fits. *)
Definition buf_ok (b : body_buf) : Prop :=
  (bb_data b = [] /\ bb_cap b = 0 \/ bb_len b + 1 <= bb_cap b) /\ 0 <= bb_cap b <= 2 ^ 62.

Lemma grow_cap_spec fuel c need :
  0 < c <= 2 ^ 62 -> 0 <= need <= 2 ^ 61 -> need <= c * 2 ^ Z.of_nat fuel ->
  exists c', grow_cap fuel c need = Some c' /\ need <= c' /\ c' <= Z.max c (2 * need).
Proof.
  revert c; induction fuel as [|fuel IH]; intros c Hc Hn Hf; cbn [grow_cap].
  - change (2 ^ Z.of_nat 0) with 1 in Hf. rewrite (proj2 (Z.ltb_ge c need)) by lia.
    exists c. split_and!; [done|lia..].
  - destruct (Z.ltb_spec c need); [|exists c; split_and!; [done|lia..]].
    rewrite Nat2Z.inj_succ, Z.pow_succ_r in Hf by lia.
    unfold wrap_size. rewrite Z.mod_small by lia.
    destruct (IH (c * 2)) as (c' & -> & H1 & H2); [lia|lia|lia|].
    exists c'. split_and!; [done|lia..].
Qed.

Section Buffer.
Context `{LibCurl}.

Lemma write_cb_spec t chunk b :
  buf_ok b -> bb_len b + Z.of_nat (length chunk) + 1 <= 2 ^ 61 ->
  exists n b' t', write_cb t chunk 1 (Z.of_nat (length chunk)) b = Some (n, b', t') /\
    buf_ok b' /\
    (n = Z.of_nat (length chunk) /\ bb_data b' = bb_data b ++ chunk /\ bb_oom b' = bb_oom b \/
     n = 0 /\ bb_data b' = bb_data b /\ bb_oom b' = true).
Proof.
  intros [Hb Hcap] Hlen. unfold write_cb, bb_len, wrap_size in *.
  rewrite Z.mul_1_l, !(Z.mod_small (Z.of_nat (length chunk))) by lia.
  rewrite (Z.mod_small (_ + _ + 1)), Nat2Z.id, take_ge by lia.
  set (need := Z.of_nat (length (bb_data b)) + Z.of_nat (length chunk) + 1) in *.
  assert (Hnew : forall cap, need <= cap <= 2 ^ 62 ->
    buf_ok {| bb_data := bb_data b ++ chunk; bb_cap := cap; bb_oom := bb_oom b |}).
  { intros cap Hc. unfold buf_ok, bb_len. cbn. rewrite length_app. split; [right|]; lia. }
  destruct (Z.ltb_spec (bb_cap b) need).
  - set (c0 := if bb_cap b =? 0 then 1024 else (bb_cap b * 2) mod 2 ^ 64).
    assert (0 < c0 <= Z.max 1024 (2 * need)) as Hc0.
    { unfold c0. destruct (Z.eqb_spec (bb_cap b) 0); [lia|]. rewrite Z.mod_small by lia. lia. }
    destruct (grow_cap_spec 64 c0 need) as (c' & -> & H1 & H2); [lia|lia| |].
    { change (Z.of_nat 64) with 64. lia. }
    destruct (c_alloc t); eexists _, _, _; (split; [reflexivity|]).
    + split; [apply Hnew; lia|]. by left.
    + split; [by split|]. by right.
  - eexists _, _, _. split; [reflexivity|]. split; [apply Hnew; lia|]. by left.
Qed.

Lemma deliver_spec t l b :
  buf_ok b -> bb_len b + Z.of_nat (length (concat l)) + 1 <= 2 ^ 61 ->
  exists ok b' t', deliver t l b = Some (ok, b', t') /\ buf_ok b' /\
    (if ok then bb_data b' = bb_data b ++ concat l else bb_oom b' = true).
Proof.
  revert t b; induction l as [|c l IH]; intros t b Hb Hlen; cbn [deliver concat] in *.
  - exists true, b, t. split_and!; [done..|]. by rewrite app_nil_r.
  - rewrite length_app in Hlen.
    destruct (write_cb_spec t c b Hb) as (n & b' & t' & -> & Hb' & Hx); [lia|].
    destruct (Z.eqb_spec n (Z.of_nat (length c))) as [E|E].
    + assert (bb_data b' = bb_data b ++ c) as Hd.
      { destruct Hx as [(_ & -> & _)|(-> & -> & _)]; [done|].
        destruct c; [by rewrite app_nil_r|cbn in E; lia]. }
      destruct (IH t' b' Hb') as (ok & b2 & t2 & -> & Hb2 & Hr).
      { unfold bb_len in *. rewrite Hd, length_app. lia. }
      exists ok, b2, t2. split_and!; [done..|]. destruct ok; [|done].
      by rewrite Hr, Hd, app_assoc.
    + destruct Hx as [(-> & _)|(_ & _ & Ho)]; [done|]. by exists false, b', t'.
Qed.
End Buffer.

(** ** Options in force *)

(** The last value set of the option [sel] selects. *)
Definition in_force {A} (sel : setopt -> option A) (l : list setopt) : option A :=
  last (omap sel l).

Lemma in_force_app {A} (sel : setopt -> option A) a b :
  in_force sel (a ++ b) = match in_force sel b with Some x => Some x | None => in_force sel a end.
Proof.
  unfold in_force. rewrite omap_app, last_app. by destruct (last (omap sel b)).
Qed.

Definition sel_peer o := match o with CURLOPT_SSL_VERIFYPEER v => Some v | _ => None end.
Definition sel_host o := match o with CURLOPT_SSL_VERIFYHOST v => Some v | _ => None end.
Definition sel_cainfo o := match o with CURLOPT_CAINFO v => Some v | _ => None end.
Definition sel_fresh o := match o with CURLOPT_FRESH_CONNECT v => Some v | _ => None end.
Definition sel_follow o := match o with CURLOPT_FOLLOWLOCATION v => Some v | _ => None end.
Definition sel_reuse o := match o with CURLOPT_FORBID_REUSE v => Some v | _ => None end.
Definition sel_url o := match o with CURLOPT_URL v => Some v | _ => None end.
Definition sel_headers o := match o with CURLOPT_HTTPHEADER v => Some v | _ => None end.
Definition sel_custom o := match o with CURLOPT_CUSTOMREQUEST v => Some v | _ => None end.
Definition sel_post o := match o with CURLOPT_POST v => Some v | _ => None end.
Definition sel_nobody o := match o with CURLOPT_NOBODY v => Some v | _ => None end.
Definition sel_fields o := match o with CURLOPT_POSTFIELDS v => Some v | _ => None end.
Definition sel_fieldsize o := match o with CURLOPT_POSTFIELDSIZE v => Some v | _ => None end.

Definition sel_connect o := match o with CURLOPT_CONNECTTIMEOUT_MS v => Some v | _ => None end.
Definition sel_total o := match o with CURLOPT_TIMEOUT_MS v => Some v | _ => None end.

(** Whether the transfer sends a body, as libcurl documents it: [HTTPGET] turns
    it off, [POST] sets it, and [POSTFIELDS] implies [POST]. *)
Definition sel_sends o :=
  match o with
  | CURLOPT_HTTPGET 1 => Some false
  | CURLOPT_POST v => Some (negb (v =? 0))
  | CURLOPT_POSTFIELDS _ => Some true
  | _ => None
  end.

(** The bytes and the length libcurl would send, [None] for no body at all. *)
Definition payload (opts : list setopt) : option (option string * option Z) :=
  match in_force sel_sends opts with
  | Some true => Some (in_force sel_fields opts, in_force sel_fieldsize opts)
  | _ => None
  end.

(** The body a request asks for: never one on a GET, always one on a POST - the
    empty one where none is given - and the given one, if any, elsewhere. *)
Definition asked_payload (r : ehem_request) : option (option string * option Z) :=
  let carrying b := Some (Some b, Some (strlen b)) in
  match req_method r with
  | EHEM_HTTP_GET => None
  | EHEM_HTTP_POST => carrying (default ""%string (req_body r))
  | _ => match req_body r with Some b => carrying b | None => None end
  end.

(** The verb [CURLOPT_CUSTOMREQUEST] has to carry. *)
Definition custom_verb (m : ehem_http_method) : option string :=
  match m with
  | EHEM_HTTP_GET | EHEM_HTTP_POST => None
  | EHEM_HTTP_PUT => Some "PUT"%string
  | EHEM_HTTP_DELETE => Some "DELETE"%string
  | EHEM_HTTP_PATCH => Some "PATCH"%string
  end.

(** The requests that ask for no verification. *)
Definition unverified (mode : ehem_tls_mode) (ov : ehem_tls_req_override) : Prop :=
  ov = EHEM_TLS_REQ_RELAX \/ ov = EHEM_TLS_REQ_DEFAULT /\ mode = EHEM_TLS_INSECURE.

#[export] Instance unverified_dec mode ov : Decision (unverified mode ov).
Proof. unfold unverified. apply _. Defined.

Lemma tls_off_spec mode ov : tls_off mode ov = true <-> unverified mode ov.
Proof.
  unfold tls_off, unverified. by rewrite orb_true_iff, andb_true_iff, !bool_decide_eq_true.
Qed.

(** Verification is on at that transfer. *)
Definition verified (opts : list setopt) : Prop :=
  in_force sel_peer opts = Some 1 /\ in_force sel_host opts = Some 2.

(** The trust the transfer of request [r] is made under. *)
Record tls_right (mode : ehem_tls_mode) (ca : option string) (r : ehem_request)
    (opts : list setopt) : Prop := {
  right_on : ~ unverified mode (req_tls_override r) -> verified opts;
  right_off : unverified mode (req_tls_override r) ->
    in_force sel_peer opts = Some 0 /\ in_force sel_host opts = Some 0;
  right_cainfo : in_force sel_cainfo opts
    = if bool_decide (mode = EHEM_TLS_CA_FILE)
      then Some (if bool_decide (req_tls_override r = EHEM_TLS_REQ_DEFAULT) then ca else None)
      else None;
  right_fresh : in_force sel_fresh opts
    = Some (if req_fresh_connection r ||
               negb (bool_decide (req_tls_override r = EHEM_TLS_REQ_DEFAULT)) then 1 else 0);
  right_follow : in_force sel_follow opts = Some 0;
  right_reuse : in_force sel_reuse opts = Some 1
}.

(** The HTTP request the transfer makes. *)
Record wire_right (base : string) (r : ehem_request) (opts : list setopt) : Prop := {
  right_url : in_force sel_url opts = Some (join_url_text base (req_path r));
  right_headers : in_force sel_headers opts = Some (map header_line (req_headers r));
  right_custom : in_force sel_custom opts = Some (custom_verb (req_method r));
  right_post : in_force sel_post opts
    = Some (if bool_decide (req_method r = EHEM_HTTP_POST) then 1 else 0);
  right_nobody : in_force sel_nobody opts = Some 0;
  right_payload : payload opts = asked_payload r;
  right_connect : 0 < req_connect_timeout_ms r ->
    in_force sel_connect opts = Some (req_connect_timeout_ms r);
  right_total : 0 < req_total_timeout_ms r ->
    in_force sel_total opts = Some (req_total_timeout_ms r)
}.

(** What of the handle must survive from one request to the next. *)
Definition handle_ok (mode : ehem_tls_mode) (opts : list setopt) : Prop :=
  in_force sel_follow opts = Some 0 /\ in_force sel_reuse opts = Some 1 /\
  (mode <> EHEM_TLS_CA_FILE -> in_force sel_cainfo opts = None).

Ltac send_cases st r :=
  destruct r as [m p h body ct tt ov fresh]; destruct st as [b md ca ex eb dt o pf tk];
  unfold send_options, apply_method, apply_tls_verify, reset_method in *;
  cbn [req_method req_path req_headers req_body req_connect_timeout_ms req_total_timeout_ms
       req_tls_override req_fresh_connection cs_base_url cs_tls_mode cs_ca_file cs_opts] in *;
  destruct (0 <? ct), (0 <? tt).

Section Posture.
Context `{LibCurl}.

Lemma send_options_verify st r url hdrs :
  let off := tls_off (cs_tls_mode st) (req_tls_override r) in
  let opts := cs_opts st ++ send_options st r url hdrs in
  in_force sel_peer opts = Some (if off then 0 else 1) /\
  in_force sel_host opts = Some (if off then 0 else 2).
Proof.
  cbv zeta. rewrite !in_force_app. split; send_cases st r; by destruct m, body, md.
Qed.

Lemma send_options_tls st r url hdrs :
  handle_ok (cs_tls_mode st) (cs_opts st) ->
  tls_right (cs_tls_mode st) (cs_ca_file st) r (cs_opts st ++ send_options st r url hdrs).
Proof.
  intros (Hf & Hr & Hc). destruct (send_options_verify st r url hdrs) as [Hp Hh].
  pose proof (tls_off_spec (cs_tls_mode st) (req_tls_override r)) as Hoff.
  split.
  - intros Hu. destruct (tls_off _ _); [by destruct Hu; apply Hoff|by split].
  - intros Hu%Hoff. rewrite Hu in Hp, Hh. by split.
  - rewrite in_force_app. send_cases st r; destruct m, body, md; cbn; try done; by rewrite Hc.
  - rewrite in_force_app. send_cases st r; by destruct m, body, md.
  - rewrite in_force_app.
    assert (in_force sel_follow (send_options st r url hdrs) = None) as ->; [|done].
    send_cases st r; by destruct m, body, md.
  - rewrite in_force_app.
    assert (in_force sel_reuse (send_options st r url hdrs) = None) as ->; [|done].
    send_cases st r; by destruct m, body, md.
Qed.

Lemma send_options_wire st r hdrs :
  hdrs = map header_line (req_headers r) ->
  wire_right (cs_base_url st) r
    (cs_opts st ++ send_options st r (join_url_text (cs_base_url st) (req_path r)) hdrs).
Proof.
  intros ->. split; [rewrite in_force_app; send_cases st r; by destruct m, body, md..| | |].
  - unfold payload, asked_payload. rewrite !in_force_app. send_cases st r; by destruct m, body, md.
  - intros Ht. rewrite in_force_app. unfold send_options. rewrite !in_force_app.
    rewrite (proj2 (Z.ltb_lt _ _) Ht). by destruct (0 <? req_total_timeout_ms r).
  - intros Ht. rewrite in_force_app. unfold send_options. rewrite !in_force_app.
    by rewrite (proj2 (Z.ltb_lt _ _) Ht).
Qed.

Lemma send_options_handle st r url hdrs :
  handle_ok (cs_tls_mode st) (cs_opts st) ->
  handle_ok (cs_tls_mode st) (cs_opts st ++ send_options st r url hdrs).
Proof.
  intros Hh. destruct (send_options_tls st r url hdrs Hh) as [_ _ Hc _ Hf Hr].
  split_and!; [done..|]. intros Hm. rewrite Hc. by case_bool_decide.
Qed.
End Posture.

(** ** Reachable transports

    What [ehem_transport_default_new] makes, and what any sequence of requests
    turns it into - whatever libcurl answers and whichever allocation fails. *)

Section Reachable.
Context `{LibCurl}.

Inductive reachable (base : string) (mode : ehem_tls_mode) (ca : option string)
  : curl_state -> Prop :=
  | reach_new init t st :
      ehem_transport_default_new init t (Some base) mode ca = Some st ->
      reachable base mode ca st
  | reach_send st r rc resp st' :
      reachable base mode ca st -> curl_send st r = Some (rc, resp, st') ->
      reachable base mode ca st'.

(** The CA file a context of this mode pins. *)
Definition pinned (mode : ehem_tls_mode) (ca : option string) : option string :=
  if bool_decide (mode = EHEM_TLS_CA_FILE) then ca else None.

(** What holds of a request and the options its transfer ran with. *)
Definition transfer_right base mode ca (p : ehem_request * list setopt) : Prop :=
  tls_right mode (pinned mode ca) (fst p) (snd p) /\ wire_right base (fst p) (snd p).

Record curl_inv (base : string) (mode : ehem_tls_mode) (ca : option string)
    (st : curl_state) : Prop := {
  inv_base : cs_base_url st = base;
  inv_mode : cs_tls_mode st = mode;
  inv_ca : cs_ca_file st = pinned mode ca;
  inv_handle : handle_ok mode (cs_opts st);
  inv_performed : Forall (transfer_right base mode ca) (cs_performed st)
}.

Lemma build_headers_lines t l acc hdrs t' :
  build_headers t l acc = (Some hdrs, t') -> hdrs = acc ++ map header_line l.
Proof.
  revert t acc; induction l as [|h l IH]; intros t acc; cbn [build_headers map].
  { intros [= <- _]. by rewrite app_nil_r. }
  destruct (c_alloc t); [|done]. destruct (c_alloc (S t)); [|done]. cbn [negb].
  intros ->%IH. by rewrite <- app_assoc.
Qed.

Lemma default_new_inv base mode ca init t st :
  ehem_transport_default_new init t (Some base) mode ca = Some st -> curl_inv base mode ca st.
Proof.
  unfold ehem_transport_default_new. repeat (case_match; try done); intros [= <-]; split; try done.
Qed.

(** Only [opts] and [performed] count; the rest of a state is the outcome. *)
Lemma curl_inv_result base mode ca st expired e d t :
  curl_inv base mode ca st -> curl_inv base mode ca (set_result st expired e d t).
Proof. intros []. by split. Qed.

Lemma curl_inv_finish base mode ca st x cc body t :
  curl_inv base mode ca st -> curl_inv base mode ca (snd (curl_finish st x cc body t)).
Proof. intros Hi. unfold curl_finish. repeat case_match; by apply curl_inv_result. Qed.

Lemma curl_send_inv base mode ca st r rc resp st' :
  curl_inv base mode ca st -> curl_send st r = Some (rc, resp, st') ->
  curl_inv base mode ca st'.
Proof.
  intros Hi. unfold curl_send, join_url.
  destruct (c_alloc (cs_tick st)); [|intros [= <- <- <-]; by apply curl_inv_result].
  destruct (build_headers _ _ _) as [[hdrs|] t] eqn:Eh;
    [|intros [= <- <- <-]; by apply curl_inv_result].
  apply build_headers_lines in Eh. cbn [app] in Eh.
  set (url := join_url_text _ _). set (st1 := record_perform _ _).
  assert (curl_inv base mode ca st1) as H1.
  { destruct Hi as [<- <- Hca Hh Hp]. split; cbn; [done|done|done| |].
    - by apply send_options_handle.
    - apply Forall_app. split; [exact Hp|]. constructor; [|done]. split; cbn [fst snd].
      + rewrite <- Hca. by apply send_options_tls.
      + by apply send_options_wire. }
  destruct (deliver _ _ _) as [[[ok body] t']|]; [|done].
  intros [= E]. change st' with (snd (rc, resp, st')). rewrite <- E. by apply curl_inv_finish.
Qed.

Lemma reachable_inv base mode ca st : reachable base mode ca st -> curl_inv base mode ca st.
Proof.
  induction 1 as [init t st Hn|st r rc resp st' _ IH Hs].
  - by eapply default_new_inv.
  - by eapply curl_send_inv.
Qed.
End Reachable.

(** ** URLs *)

Lemma ends_in_slash_snoc s : ends_in_slash (s +:+ "/") = true.
Proof.
  unfold ends_in_slash. rewrite list_ascii_app. cbn [String.list_ascii_of_string].
  by rewrite last_snoc.
Qed.

Lemma ends_in_slash_split s : ends_in_slash s = true -> exists b, s = b +:+ "/".
Proof.
  unfold ends_in_slash. induction s as [|c s IH]; [done|]. intros H.
  destruct s as [|d s].
  - cbn in H. destruct (Ascii.eqb_spec c "/") as [->|]; [by exists ""%string|done].
  - destruct (IH H) as [b ->]. exists (String c b). by rewrite append_cons.
Qed.

Lemma prefix_slash s : String.prefix "/" s = true -> exists p, s = String "/" p.
Proof.
  destruct s as [|c s]; [done|]. unfold String.prefix.
  destruct (Ascii.ascii_dec "/" c) as [<-|]; [|done]. intros _. by exists s.
Qed.

Lemma append_slash_assoc b p : (b +:+ "/") +:+ p = b +:+ String "/" p.
Proof. induction b as [|c b IH]; [done|]. by rewrite !append_cons, IH. Qed.

Lemma substring_drop_first c s :
  String.substring 1 (String.length (String c s)) (String c s) = s.
Proof. cbn [String.substring String.length]. apply substring_0_all. lia. Qed.

(** A device path replaces the trailing slash of the base, if it has one. *)
Lemma join_url_device base p :
  String.prefix "/" p = true ->
  exists b, (base = b \/ base = b +:+ "/") /\ join_url_text base p = b +:+ p.
Proof.
  intros Hp. destruct (prefix_slash p Hp) as [q ->].
  unfold join_url_text. change (is_absolute (String "/" q)) with false. cbn iota.
  rewrite Hp. destruct (ends_in_slash base) eqn:Eb; cbn [negb andb is_empty].
  - destruct (ends_in_slash_split base Eb) as [b ->]. exists b. split; [by right|].
    by rewrite substring_drop_first, append_slash_assoc.
  - exists base. split; [by left|done].
Qed.

(** Base and path are joined with exactly one slash whichever side brings it
    along - all four spellings of the same address give one URL - an empty path
    is the base itself, an absolute URL is used verbatim, and the buffer the code
    allocates is exactly the text and its NUL: the three copies never overrun
    it, for any lengths whose sum fits a [size_t]. *)
Theorem join_url_one_slash (base path : string)
    (Hlen : strlen base + strlen path + 2 < 2 ^ 64) :
  join_url_size base path = strlen (join_url_text base path) + 1 /\
  join_url_text base "" = base /\
  (is_absolute path = true -> join_url_text base path = path) /\
  (ends_in_slash base = false -> String.prefix "/" path = false ->
   let url := (base +:+ "/" +:+ path)%string in
   join_url_text base ("/" +:+ path) = url /\
   join_url_text (base +:+ "/") ("/" +:+ path) = url /\
   (path <> ""%string -> is_absolute path = false ->
    join_url_text base path = url /\ join_url_text (base +:+ "/") path = url)).
Proof.
  assert (forall x, "/" +:+ x = String "/" x) as Hs by done. split_and!.
  - unfold join_url_size, join_url_text, wrap_size, strlen in *.
    destruct (is_absolute path); [apply Z.mod_small; lia|].
    destruct (String.prefix "/" path) eqn:Ep, (ends_in_slash base), path as [|c path];
      cbn [is_empty negb andb]; rewrite ?Hs, ?substring_drop_first, ?string_length_app;
      cbn [String.length] in *; rewrite ?Z.mod_small; lia || done.
  - unfold join_url_text. cbn [is_absolute is_empty negb andb String.prefix orb].
    rewrite andb_false_r. apply append_empty_r.
  - unfold join_url_text. by intros ->.
  - intros Hb Hp url. subst url. unfold join_url_text. rewrite !Hs.
    change (is_absolute (String "/" path)) with false.
    assert (String.prefix "/" (String "/" path) = true) as -> by (by destruct path).
    rewrite ends_in_slash_snoc, Hb, Hp, substring_drop_first. cbn.
    split_and!; [done|apply append_slash_assoc|]. intros Hne ->. destruct path; [done|]. cbn.
    split; [done|]. apply append_slash_assoc.
Qed.

Lemma join_url_one_slash_witness :
  join_url_text "https://hem.local/" "/api/system/status"
  = "https://hem.local/api/system/status"%string.
Proof.
  exact (proj1 (proj2 (proj2 (proj2 (proj2 (join_url_one_slash "https://hem.local"
    "api/system/status" eq_refl))) eq_refl eq_refl))).
Defined.

(** ** The transport on its own *)

(** A libcurl that answers every transfer with a 200 and one chunk. *)
Definition fake_curl (body : string) : LibCurl :=
  {| c_alloc _ := true;
     curl_easy_transfer _ _ :=
       {| x_chunks := [bytes_of_string body]; x_code := CURLE_OK; x_errbuf := "";
          x_connect_time := S754_zero false; x_verify_result := 0; x_status := 200 |};
     curl_easy_strerror _ := "error"; curl_global_init _ := 0;
     CURLE_WEIRD_is_macro := false; EHEM_VERSION_STRING := "0.0.0-dev" |}.

Definition device_get : ehem_request :=
  {| req_method := EHEM_HTTP_GET; req_path := "/api/system/status"; req_headers := [];
     req_body := None; req_connect_timeout_ms := 10000; req_total_timeout_ms := 30000;
     req_tls_override := EHEM_TLS_REQ_DEFAULT; req_fresh_connection := false |}.

(** C10: every transfer the default transport ever starts runs under the options
    its own request asks for.  Whatever was sent before on the same handle,
    whatever libcurl answered and whichever allocation failed: the verify pair is
    (1, 2) except under a relaxing override or an INSECURE context, the pinned
    CA is in force exactly for the context-default requests of a CA_FILE context
    and the system bundle otherwise, an override or a forced retry dials a new
    connection, redirects are never followed, connections never reused; and the
    URL, the headers, the verb and a positive timeout are those of this request.
    So is the body: none on a GET, the empty one on a POST without a body, and
    never the bytes or the length of an earlier request. *)
Theorem curl_transfers_right `{LibCurl} (base : string) (mode : ehem_tls_mode)
    (ca : option string) (st : curl_state) (r : ehem_request) (opts : list setopt)
    (Hst : reachable base mode ca st) (Hr : (r, opts) ∈ cs_performed st) :
  tls_right mode (pinned mode ca) r opts /\ wire_right base r opts.
Proof.
  destruct (reachable_inv _ _ _ _ Hst) as [_ _ _ _ Hp].
  rewrite Forall_forall in Hp. exact (Hp _ Hr).
Qed.

(** A fresh transport, and the same after one request. *)
Definition fresh_curl (mode : ehem_tls_mode) (ca : option string) : curl_state :=
  {| cs_base_url := "https://hem.local"; cs_tls_mode := mode; cs_ca_file := pinned mode ca;
     cs_tls_expired := false; cs_errbuf := ""; cs_detail := "";
     cs_opts := @default_options (fake_curl "{}"); cs_performed := [];
     cs_tick := if bool_decide (pinned mode ca = None) then 4 else 5 |}.
Lemma fresh_curl_reachable :
  @reachable (fake_curl "{}") "https://hem.local" EHEM_TLS_CA_FILE (Some "/ca.pem"%string)
    (fresh_curl EHEM_TLS_CA_FILE (Some "/ca.pem"%string)).
Proof. eapply (@reach_new (fake_curl "{}") _ _ _ EHEM_OK 0). reflexivity. Qed.

Lemma curl_transfers_right_witness :
  exists st opts,
    (device_get, opts) ∈ cs_performed st /\
    in_force sel_cainfo opts = Some (Some "/ca.pem"%string) /\ in_force sel_peer opts = Some 1.
Proof.
  destruct (@curl_send (fake_curl "{}") (fresh_curl EHEM_TLS_CA_FILE (Some "/ca.pem"%string))
              device_get) as [[[rc resp] st]|] eqn:E; [|vm_compute in E; discriminate].
  assert (exists opts, (device_get, opts) ∈ cs_performed st) as [opts Hin].
  { vm_compute in E. injection E as _ _ <-. eexists. by left. }
  destruct (@curl_transfers_right (fake_curl "{}") "https://hem.local" EHEM_TLS_CA_FILE
    (Some "/ca.pem"%string) st device_get opts
    (reach_send _ _ _ _ _ _ _ _ fresh_curl_reachable E) Hin) as [[Hon _ Hc _ _ _] _].
  exists st, opts. split; [exact Hin|]. split; [exact Hc|].
  apply Hon. intros [[=]|[_ [=]]].
Defined.

(** The bodies libcurl delivers fit in memory. *)
Definition bodies_fit `{LibCurl} : Prop :=
  forall t opts, Z.of_nat (length (concat (x_chunks (curl_easy_transfer t opts)))) + 1 <= 2 ^ 61.

(** What libcurl reports as an expired peer certificate: the handshake failed,
    and the verify result says so - or says nothing, and the text does. *)
Definition expiry_reported (x : transfer) (msg : string) : Prop :=
  (x_code x = CURLE_PEER_FAILED_VERIFICATION \/ x_code x = CURLE_SSL_CONNECT_ERROR) /\
  (x_verify_result x = 10 \/ x_verify_result x = -151 \/
   x_verify_result x <> 9 /\ x_verify_result x <> -150 /\
   exists d, d ∈ ["expired"; "date error, current date after"; "ASN_AFTER_DATE"]%string /\
             strstr msg d = true).

Lemma tls_expired_spec x msg :
  ehem_curl_tls_expired (x_code x) (x_verify_result x) (Some msg) = true <->
  expiry_reported x msg.
Proof.
  unfold ehem_curl_tls_expired, expiry_reported. generalize (x_code x) (x_verify_result x).
  intros cc vr. setoid_rewrite elem_of_cons. setoid_rewrite elem_of_cons.
  setoid_rewrite list_elem_of_singleton.
  destruct (Z.eqb_spec cc CURLE_PEER_FAILED_VERIFICATION),
    (Z.eqb_spec cc CURLE_SSL_CONNECT_ERROR); cbn [negb andb]; [| | |by intuition].
  all: destruct (Z.eqb_spec vr 10), (Z.eqb_spec vr (-151)); cbn [orb]; [by intuition..|].
  all: destruct (Z.eqb_spec vr 9), (Z.eqb_spec vr (-150)); cbn [orb]; [by intuition..|].
  all: rewrite !orb_true_iff.
  all: split; [intros [[?|?]|?]; (split; [by auto|]); right; right; (split; [done|]);
                 (split; [done|]); eexists; by eauto
              |intros [_ [?|[?|(_ & _ & d & [-> | [-> | ->]] & ?)]]]; by auto].
Qed.

(** A failing send leaves neither a response nor, where libcurl had nothing to
    say, a detail. *)
Definition out_of_memory_outcome (st' : curl_state) (rc : ehem_rc) (resp : ehem_response) : Prop :=
  rc = EHEM_ERR_NOMEM /\ resp = response_zero /\ cs_tls_expired st' = false /\
  cs_detail st' = ""%string.

(** The outcome of the transfer [x], the first answer of the platform after it
    being number [t]. *)
Definition transfer_outcome `{LibCurl} (x : transfer) (t : nat) (st' : curl_state)
    (rc : ehem_rc) (resp : ehem_response) : Prop :=
  let msg := if bool_decide (x_errbuf x = ""%string)
             then curl_easy_strerror (x_code x) else x_errbuf x in
  (x_code x = CURLE_OK /\ rc = EHEM_OK /\ resp_status resp = x_status x /\
   default ""%string (resp_body resp) = string_of_bytes (concat (x_chunks x)) /\
   cs_tls_expired st' = false /\ cs_detail st' = ""%string) \/
  (x_code x <> CURLE_OK /\ rc = ehem_curl_map_error (x_code x) (x_connect_time x) /\
   rc <> EHEM_OK /\ resp = response_zero /\
   cs_detail st' = snprintf_trunc CURL_ERROR_SIZE msg /\
   (cs_tls_expired st' = true <-> expiry_reported x msg)) \/
  ((exists k, (t <= k)%nat /\ c_alloc k = false) /\ out_of_memory_outcome st' rc resp).

Lemma build_headers_tick `{LibCurl} l : forall t acc,
  (exists hdrs, build_headers t l acc = (Some hdrs, t + 2 * length l)%nat) \/
  (exists t' k, build_headers t l acc = (None, t') /\
     (t <= k < t + 2 * length l)%nat /\ c_alloc k = false).
Proof.
  induction l as [|h l IH]; intros t acc; cbn [build_headers length].
  { left. exists acc. by rewrite Nat.add_0_r. }
  destruct (c_alloc t) eqn:E1; cbn [negb];
    [|right; eexists _, t; split_and!; [reflexivity|lia|lia|done]].
  destruct (c_alloc (S t)) eqn:E2; cbn [negb];
    [|right; eexists _, (S t); split_and!; [reflexivity|lia|lia|done]].
  destruct (IH (S (S t)) (acc ++ [header_line h])) as [[hdrs ->]|(t' & k & -> & Hk & ?)].
  - left. exists hdrs. f_equal. lia.
  - right. exists t', k. split_and!; [done|lia|lia|done].
Qed.

Lemma write_cb_oom `{LibCurl} t chunk b n b' t' :
  write_cb t chunk 1 (Z.of_nat (length chunk)) b = Some (n, b', t') ->
  (t <= t')%nat /\ (bb_oom b = false -> bb_oom b' = true -> exists k, (t <= k)%nat /\ c_alloc k = false).
Proof.
  unfold write_cb. case_match; [|intros [= <- <- <-]; split; [done|by cbn; congruence]].
  case_match; [|done]. destruct (c_alloc t) eqn:E; intros [= <- <- <-]; (split; [lia|]); cbn.
  - congruence.
  - eauto.
Qed.

Lemma deliver_oom `{LibCurl} l : forall t b ok b' t',
  deliver t l b = Some (ok, b', t') -> bb_oom b = false -> bb_oom b' = true ->
  exists k, (t <= k)%nat /\ c_alloc k = false.
Proof.
  induction l as [|c l IH]; intros t b ok b' t'; cbn [deliver]; [intros [= _ <- _]; congruence|].
  destruct (write_cb _ _ _ _ _) as [[[n b1] t1]|] eqn:E; [|done].
  destruct (write_cb_oom _ _ _ _ _ _ E) as [Ht Ho].
  destruct (bb_oom b1) eqn:E1; [by intros; eauto|].
  case_match; [|intros [= _ <- _]; congruence].
  intros Hd _ Hb'. destruct (IH _ _ _ _ _ Hd E1 Hb') as (k & ? & ?). exists k. split; [lia|done].
Qed.

Lemma curl_map_error_fails `{LibCurl} cc t :
  cc <> CURLE_OK -> ehem_curl_map_error cc t <> EHEM_OK.
Proof.
  intros H1. unfold ehem_curl_map_error. rewrite (proj2 (Z.eqb_neq _ _) H1).
  by repeat case_match.
Qed.

(** [curl_finish] after [deliver]: the outcome of the transfer. *)
Lemma curl_finish_outcome `{LibCurl} st x t ok body t' :
  deliver t (x_chunks x) body_empty = Some (ok, body, t') -> buf_ok body ->
  (if ok then bb_data body = concat (x_chunks x) else bb_oom body = true) ->
  let '(rc, resp, st') := curl_finish st x (if ok then x_code x else CURLE_WRITE_ERROR) body t' in
  transfer_outcome x t st' rc resp /\ cs_opts st' = cs_opts st /\
  cs_performed st' = cs_performed st.
Proof.
  intros Ed Hb Hd. unfold curl_finish.
  pose proof (fun Ho => deliver_oom _ _ _ _ _ _ Ed eq_refl Ho) as Hoom.
  destruct ok.
  2:{ change (negb (CURLE_WRITE_ERROR =? CURLE_OK)) with true. rewrite Hd.
      split; [|by split]. right. right. split; [by apply Hoom|by split]. }
  destruct (Z.eqb_spec (x_code x) CURLE_OK) as [Hcc|Hcc]; cbn [negb].
  - split; [|by split]. left. split_and!; try done. cbn [resp_body].
    destruct (Z.eqb_spec (bb_cap body) 0) as [Hc|]; cbn [default from_option id].
    + destruct Hb as [[[Hnil _]|Hl] _]; [|unfold bb_len in Hl; lia]. by rewrite <- Hd, Hnil.
    + by rewrite Hd.
  - destruct (bb_oom body) eqn:Eo; (split; [|by split]).
    { right. right. split; [by apply Hoom|by split]. }
    right. left. assert (forall s, is_empty s = bool_decide (s = ""%string)) as He by (by intros []).
    rewrite He. split_and!; [done|done|by apply curl_map_error_fails|done|done|].
    cbn [cs_tls_expired set_result]. rewrite <- tls_expired_spec, andb_true_iff.
    split; [by intros []|]. intros Hx. split; [|done].
    revert Hx. unfold ehem_curl_tls_expired.
    by destruct (_ =? CURLE_PEER_FAILED_VERIFICATION), (_ =? CURLE_SSL_CONNECT_ERROR).
Qed.

(** C11: the outcome of a send.  It always returns - the doubling of the body
    buffer cannot wrap around for a body that fits in memory.  Either building
    the request ran out of memory, and nothing was sent; or exactly one transfer
    was made, for this request, and its result decides: on libcurl's success the
    response carries the status and exactly the concatenation of the delivered
    chunks; on its failure the code is the mapped one, the response is zeroed,
    the detail is libcurl's own text (the one of the error buffer, or that of the
    code where the buffer is empty) and the expiry flag is up exactly when
    verification failed in the handshake for an expired certificate; and only a
    failed allocation turns either into an out-of-memory.  Nothing of an earlier
    send survives in the flag or in the detail. *)
Theorem curl_send_outcome `{LibCurl} (st : curl_state) (r : ehem_request)
    (Hfit : bodies_fit) :
  exists rc resp st', curl_send st r = Some (rc, resp, st') /\
    let t := (S (cs_tick st) + 2 * length (req_headers r))%nat in
    ((exists k, (cs_tick st <= k < t)%nat /\ c_alloc k = false) /\
     cs_opts st' = cs_opts st /\ cs_performed st' = cs_performed st /\
     out_of_memory_outcome st' rc resp \/
     cs_performed st' = cs_performed st ++ [(r, cs_opts st')] /\
     transfer_outcome (curl_easy_transfer t (cs_opts st')) (S t) st' rc resp).
Proof.
  unfold curl_send, join_url. cbv zeta. destruct (c_alloc (cs_tick st)) eqn:E0.
  2:{ eexists _, _, _. split; [done|]. left. split; [|by split].
      exists (cs_tick st). split; [lia|done]. }
  destruct (build_headers_tick (req_headers r) (S (cs_tick st)) [])
    as [[hdrs Eh]|(t' & k & Eh & Hk & Hka)]; rewrite Eh.
  2:{ eexists _, _, _. split; [done|]. left. split; [|by split].
      exists k. split; [lia|done]. }
  set (t := (S (cs_tick st) + _)%nat).
  set (st1 := record_perform _ _). set (x := curl_easy_transfer t (cs_opts st1)).
  destruct (deliver_spec (S t) (x_chunks x) body_empty) as (ok & body & t' & Ed & Hb & Hd).
  { split; [by left|done]. }
  { cbn. apply Hfit. }
  rewrite Ed. pose proof (curl_finish_outcome st1 x (S t) ok body t' Ed Hb Hd) as Ho.
  destruct (curl_finish st1 x _ body t') as [[rc resp] st']. destruct Ho as (Ho & Eo & Ep).
  exists rc, resp, st'. split; [done|]. right. rewrite Eo, Ep. by split.
Qed.

Lemma curl_send_outcome_witness :
  exists resp st',
    @curl_send (fake_curl "{}") (fresh_curl EHEM_TLS_SYSTEM None) device_get
      = Some (EHEM_OK, resp, st') /\ resp_body resp = Some "{}"%string.
Proof.
  destruct (@curl_send_outcome (fake_curl "{}") (fresh_curl EHEM_TLS_SYSTEM None) device_get)
    as (rc & resp & st' & E & _).
  - intros t opts. vm_compute. discriminate.
  - exists resp, st'. split; [|vm_compute in E; injection E as _ <- _; reflexivity].
    rewrite E. vm_compute in E. injection E as <- _ _. reflexivity.
Defined.

(** ** Under the request path *)

(** What the posture of a request and the options of its transfer say together. *)
Lemma posture_transfer base mode ca r opts :
  posture r -> tls_right mode (pinned mode ca) r opts -> wire_right base r opts ->
  (verified opts \/
   device_path (req_path r) = true /\ (mode = EHEM_TLS_INSECURE \/ req_path r = CHECKIN_PATH)) /\
  (has_bearer r = true ->
     (verified opts \/ mode = EHEM_TLS_INSECURE) /\
     (mode = EHEM_TLS_CA_FILE -> in_force sel_cainfo opts = Some ca) /\
     exists b, (base = b \/ base = (b +:+ "/")%string) /\
               in_force sel_url opts = Some (b +:+ req_path r)%string) /\
  in_force sel_follow opts = Some 0.
Proof.
  intros [Hcloud Hbearer Hrelax] [Hon _ Hc _ Hf _] [Hu _ _ _ _ _ _ _]. unfold unverified in Hon.
  split; [|split; [|exact Hf]].
  - destruct (decide (unverified mode (req_tls_override r))) as [[Eo|[Eo Hm]]|Hn]; [..|by left; auto].
    + right. split; [|right; by apply Hrelax]. by rewrite (Hrelax Eo).
    + right. destruct Hcloud as [Hd|Hd]; [auto|congruence].
  - intros Hb. destruct (Hbearer Hb) as [Hd Eo]. rewrite Eo in Hon, Hc. split; [|split].
    + destruct (decide (mode = EHEM_TLS_INSECURE)); [by right|left]. apply Hon. intros [?|[_ ?]]; congruence.
    + intros ->. exact Hc.
    + destruct (join_url_device base (req_path r) Hd) as (b & Hbase & Hj).
      exists b. split; [done|]. by rewrite Hu, Hj.
Qed.

(** C2: transport security from the API to the wire.  Run any sequence of public
    calls on an idle context, whatever its peers answer, and hand any request they made to the default
    transport of that context, in whatever state earlier transfers left it.  The
    transfer verifies the peer and its host name unless the request is for the
    device and the application chose INSECURE or it is the check-in; a bearer is
    only ever sent to the device's own base URL, verified (or INSECURE), under
    the pinned CA when there is one; and no redirect is followed. *)
Theorem api_transport_security {P : Platform} `{LibCurl} (walk : nat)
    (calls : list api_call) (w : world) (base : string) (st : curl_state)
    (Hidle : in_checkin (w_ctx w) = false)
    (Hst : reachable base (tls_mode (cfg (w_ctx w))) (ca_file (cfg (w_ctx w))) st) :
  let c := cfg (w_ctx w) in
  exists l, w_trace (snd (run_calls walk calls w)) = w_trace w ++ l /\
  forall r opts, r ∈ sends l -> (r, opts) ∈ cs_performed st ->
    (verified opts \/
     device_path (req_path r) = true /\
     (tls_mode c = EHEM_TLS_INSECURE \/ req_path r = CHECKIN_PATH)) /\
    (has_bearer r = true ->
       (verified opts \/ tls_mode c = EHEM_TLS_INSECURE) /\
       (tls_mode c = EHEM_TLS_CA_FILE -> in_force sel_cainfo opts = Some (ca_file c)) /\
       exists b, (base = b \/ base = (b +:+ "/")%string) /\
                 in_force sel_url opts = Some (b +:+ req_path r)%string) /\
    in_force sel_follow opts = Some 0.
Proof.
  intros c. destruct (steady_calls walk calls w Hidle) as [[_ _ _ _ _ (l & El & Hl)] _].
  exists l. split; [exact El|]. intros r opts Hr Hin.
  assert (posture r) as Hpost.
  { unfold sends in Hr. apply list_elem_of_omap in Hr as ([r'| |] & He & [= ->]).
    rewrite Forall_forall in Hl. exact (Hl _ He). }
  destruct (reachable_inv _ _ _ _ Hst) as [_ _ _ _ Hp].
  rewrite Forall_forall in Hp. destruct (Hp _ Hin) as [Ht Hw]. by apply posture_transfer.
Qed.

Lemma fresh_system_reachable :
  @reachable (fake_curl "{}") "https://hem.local" EHEM_TLS_SYSTEM None
    (fresh_curl EHEM_TLS_SYSTEM None).
Proof. eapply (@reach_new (fake_curl "{}") _ _ _ EHEM_OK 0). reflexivity. Qed.

Lemma api_transport_security_witness :
  exists l r st opts b,
    w_trace (snd (run_calls 3 [CallKeyListAll true] steady_world)) = [] ++ l /\
    r ∈ sends l /\ (r, opts) ∈ cs_performed st /\ has_bearer r = true /\
    in_force sel_url opts = Some (b +:+ req_path r)%string.
Proof.
  destruct (sends (w_trace (snd (run_calls 3 [CallKeyListAll true] steady_world))))
    as [|r rs] eqn:Es; [vm_compute in Es; discriminate|].
  assert (has_bearer r = true) as Hb by (vm_compute in Es; injection Es as <- _; reflexivity).
  destruct (@curl_send (fake_curl "{}") (fresh_curl EHEM_TLS_SYSTEM None) r)
    as [[[rc resp] st]|] eqn:E;
    [|vm_compute in Es; injection Es as <- _; vm_compute in E; discriminate].
  destruct (@api_transport_security (fake_platform list_table) (fake_curl "{}") 3
    [CallKeyListAll true] steady_world "https://hem.local" st eq_refl (reach_send _ _ _ _ _ _ _ _ fresh_system_reachable E))
    as (l & El & Hl).
  assert (r ∈ sends l) as Hr.
  { rewrite El in Es. change (sends l = r :: rs) in Es. rewrite Es. by left. }
  assert (exists opts, (r, opts) ∈ cs_performed st) as [opts Hin].
  { vm_compute in Es. injection Es as <- _. vm_compute in E. injection E as _ _ <-.
    eexists. by left. }
  destruct (Hl r opts Hr Hin) as (_ & Hbear & _).
  destruct (Hbear Hb) as (_ & _ & b & _ & Hu).
  exists l, r, st, opts, b. split_and!; [exact El|exact Hr|exact Hin|exact Hb|exact Hu].
Defined.

(** ** Two places where the text says otherwise *)

(** [CURLE_WEIRD_SERVER_REPLY] is an enumerator of [CURLcode], not a macro, so
    the [#ifdef] around its case drops it: the reply is reported as a network
    failure, not as an unreachable device. *)
Lemma weird_reply_is_network `{LibCurl} (t : spec_float) :
  CURLE_WEIRD_is_macro = false ->
  ehem_curl_map_error CURLE_WEIRD_SERVER_REPLY t = EHEM_ERR_NETWORK.
Proof. unfold ehem_curl_map_error. by intros ->. Qed.

(** A request without a timeout keeps the one of an earlier request on the same
    handle: the option is skipped, not reset to libcurl's default. *)
Lemma timeout_sticks `{LibCurl} st r url hdrs :
  req_total_timeout_ms r <= 0 ->
  in_force sel_total (cs_opts st ++ send_options st r url hdrs) = in_force sel_total (cs_opts st).
Proof.
  intros Ht. rewrite in_force_app.
  assert (in_force sel_total (send_options st r url hdrs) = None) as ->; [|done].
  unfold send_options. rewrite (proj2 (Z.ltb_ge 0 (req_total_timeout_ms r)) Ht).
  unfold apply_method, apply_tls_verify, reset_method.
  destruct (0 <? req_connect_timeout_ms r), (req_method r), (req_body r), (cs_tls_mode st);
    reflexivity.
Qed.
