(* ===== verification/Version.v ===== *)
(** * Version and build information

    [src/ehem.c] and the describe functions of the two crypto shims and of the
    libcurl transport.  What the libraries' headers and the libraries themselves
    report, and what the build defines, are fields of [BuildReports]; a string
    pointer is an [option]. *)

From S2P Require Import Prelude.

Record ehem_build_info := {
  crypto_backend : option string;
  crypto_version_compiled : option string;
  crypto_version_loaded : option string;
  crypto_link : option string;
  transport_backend : option string;
  transport_version_compiled : option string;
  transport_version_loaded : option string;
  transport_link : option string;
  reserved : list (option string)
}.

(** The macros of the build and of the headers, and the run-time reports. *)
Class BuildReports := {
  EHEM_VERSION_STRING_injected : option string;
  EHEM_CRYPTO_LINK_STATIC : bool;
  EHEM_TRANSPORT_LINK_STATIC : bool;
  LIBWOLFSSL_VERSION_STRING : string;
  wolfSSL_lib_version : option string;
  OPENSSL_VERSION_STR : string;
  OpenSSL_version : option string;
  LIBCURL_VERSION : string;
  (* the version data, and the version in it *)
  curl_version_info : option (option string)
}.

(** The shim that was compiled in. *)
Inductive crypto_shim := SHIM_WOLFSSL | SHIM_OPENSSL.

Section Version.
Context {R : BuildReports}.

Definition version_string : string := default "0.0.0-dev" EHEM_VERSION_STRING_injected.
Definition ehem_version : string := version_string.

Definition link (is_static : bool) : string := if is_static then "static" else "dynamic".

Definition build_info_empty : ehem_build_info :=
  {| crypto_backend := None; crypto_version_compiled := None; crypto_version_loaded := None;
     crypto_link := None; transport_backend := None; transport_version_compiled := None;
     transport_version_loaded := None; transport_link := None; reserved := repeat None 8 |}.

Definition set_crypto (backend compiled loaded lnk : string) (i : ehem_build_info)
  : ehem_build_info :=
  {| crypto_backend := Some backend; crypto_version_compiled := Some compiled;
     crypto_version_loaded := Some loaded; crypto_link := Some lnk;
     transport_backend := transport_backend i;
     transport_version_compiled := transport_version_compiled i;
     transport_version_loaded := transport_version_loaded i;
     transport_link := transport_link i; reserved := reserved i |}.

Definition wolf_backend_describe (out : ehem_build_info) : ehem_build_info :=
  set_crypto "wolfSSL" LIBWOLFSSL_VERSION_STRING (default "unknown" wolfSSL_lib_version)
    (link EHEM_CRYPTO_LINK_STATIC) out.
Definition ossl_backend_describe (out : ehem_build_info) : ehem_build_info :=
  set_crypto "OpenSSL" OPENSSL_VERSION_STR (default "unknown" OpenSSL_version)
    (link EHEM_CRYPTO_LINK_STATIC) out.
Definition ehem_crypto_backend_describe (s : crypto_shim) : ehem_build_info -> ehem_build_info :=
  match s with SHIM_WOLFSSL => wolf_backend_describe | SHIM_OPENSSL => ossl_backend_describe end.

Definition ehem_transport_backend_describe (out : ehem_build_info) : ehem_build_info :=
  {| crypto_backend := crypto_backend out;
     crypto_version_compiled := crypto_version_compiled out;
     crypto_version_loaded := crypto_version_loaded out; crypto_link := crypto_link out;
     transport_backend := Some "libcurl"; transport_version_compiled := Some LIBCURL_VERSION;
     transport_version_loaded :=
       Some (match curl_version_info with Some (Some v) => v | _ => "unknown" end);
     transport_link := Some (link EHEM_TRANSPORT_LINK_STATIC); reserved := reserved out |}.

(** [out]: what the pointer points to, if it is not NULL. *)
Definition ehem_build_info_get (s : crypto_shim) (out : option ehem_build_info)
  : option ehem_build_info :=
  match out with
  | None => None
  | Some _ =>
      let out := build_info_empty in
      let out := ehem_crypto_backend_describe s out in
      let out := ehem_transport_backend_describe out in
      Some out
  end.

Definition texts (i : ehem_build_info) : list (option string) :=
  [crypto_backend i; crypto_version_compiled i; crypto_version_loaded i; crypto_link i;
   transport_backend i; transport_version_compiled i; transport_version_loaded i;
   transport_link i].

(** Whatever was in the caller's struct and whatever the libraries report: every
    documented text is there, the reserved slots are NULL, and the answer does not
    depend on what was there before. *)
Lemma build_info_complete s before :
  exists i, ehem_build_info_get s (Some before) = Some i /\
    Forall (fun t => is_Some t) (texts i) /\ reserved i = repeat None 8 /\
    (crypto_link i = Some "static" \/ crypto_link i = Some "dynamic") /\
    forall before', ehem_build_info_get s (Some before') = Some i.
Proof.
  eexists. split; [reflexivity|]. split; [|split; [|split; [|reflexivity]]].
  - destruct s; repeat constructor; eauto.
  - by destruct s.
  - destruct s; cbn; destruct EHEM_CRYPTO_LINK_STATIC; auto.
Qed.
End Version.
