(* ===== verification/Wolf.v ===== *)
(** * The wolfCrypt adapter: [src/crypto_shim_wolfssl.c]

    The shim behind the crypto fields of [Platform], with the part of
    [src/crypto_shim_common.c] it uses, over the class [WolfCrypt] of what
    wolfSSL itself does.  wolfCrypt lets its caller allocate the structs; a
    library operation on a struct is a function on the memory [mem] around it,
    given the offset of the struct, and may write anywhere in that memory. *)

From S2P Require Import Prelude World Ejwt Checkin Context.

Abbreviation mem := (list Z).

(** ** What wolfSSL does *)

Inductive wc_hash := WC_SHA256 | WC_SHA384 | WC_SHA512.
Inductive ecc_curve_id := ECC_SECP256R1 | ECC_SECP384R1 | ECC_SECP521R1 | ECC_SECP256K1.

Record tm := { tm_sec : Z; tm_min : Z; tm_hour : Z; tm_mday : Z; tm_mon : Z; tm_year : Z }.

(** The fields of a [DecodedCert] the shim reads, through its own layout of the
    struct; [None] is a NULL pointer. *)
Record decoded_cert := {
  dc_serial : bytes;
  dc_subjectCN : option bytes;
  dc_beforeDate : option bytes;
  dc_afterDate : option bytes
}.

(** Each function that allocates, or asks the system for entropy, is given the
    tick of its call.  [stack_mem] is the indeterminate content of a local. *)
Class WolfCrypt := {
  LIBWOLFSSL_VERSION_HEX : Z;
  wolfSSL_lib_version_hex : Z;
  wolfCrypt_Init : nat -> Z;
  wc_malloc : nat -> bool;
  stack_mem : nat -> mem;
  NOT_COMPILED_IN : Z;
  SIG_VERIFY_E : Z;
  ASN_PARSE_E : Z;
  ASN_ECC_KEY_E : Z;
  sizeof_Hmac : nat;
  sizeof_WC_RNG : nat;
  sizeof_DecodedCert : nat;
  sizeof_Aes : nat;
  sizeof_ed25519_key : nat;
  sizeof_ed448_key : nat;
  wc_PBKDF2 : bytes -> bytes -> Z -> Z -> wc_hash -> Z * bytes;
  wc_Sha256Hash : bytes -> Z * bytes;
  wc_curve25519_generic : bytes -> bytes -> Z * bytes;
  wc_HmacInit : nat -> mem -> Z * mem;
  wc_HmacSetKey : nat -> bytes -> mem -> Z * mem;
  wc_HmacUpdate : nat -> option bytes -> mem -> Z * mem;
  wc_HmacFinal : nat -> mem -> Z * (bytes * mem);
  wc_HmacFree : nat -> mem -> mem;
  wc_InitRng : nat -> nat -> mem -> Z * mem;
  wc_RNG_GenerateBlock : nat -> nat -> Z -> mem -> Z * (bytes * mem);
  wc_FreeRng : nat -> mem -> mem;
  wc_InitDecodedCert : nat -> bytes -> mem -> mem;
  wc_ParseCert : nat -> mem -> Z * mem;
  cert_view : nat -> mem -> decoded_cert;
  wc_FreeDecodedCert : nat -> mem -> mem;
  wc_GetDateInfo : bytes -> Z * (bytes * Z);
  wc_GetDateAsCalendarTime : bytes -> Z -> Z * tm;
  wc_AesInit : nat -> mem -> Z * mem;
  wc_AesSetKey : nat -> bytes -> bytes -> bool -> mem -> Z * mem;
  wc_AesCbc : nat -> bool -> bytes -> mem -> Z * (bytes * mem);
  wc_AesFree : nat -> mem -> mem;
  wc_ed25519_init : nat -> mem -> Z * mem;
  wc_ed25519_import_public : nat -> bytes -> mem -> Z * mem;
  wc_ed25519_verify_msg : nat -> bytes -> bytes -> mem -> Z * (Z * mem);
  wc_ed25519_free : nat -> mem -> mem;
  wc_ed448_init : nat -> mem -> Z * mem;
  wc_ed448_import_public : nat -> bytes -> mem -> Z * mem;
  wc_ed448_verify_msg : nat -> bytes -> bytes -> mem -> Z * (Z * mem);
  wc_ed448_free : nat -> mem -> mem;
  ecc_key : Type;
  wc_ecc_import_x963_ex : bytes -> ecc_curve_id -> Z * ecc_key;
  wc_SignatureVerify : wc_hash -> option bytes -> bytes -> ecc_key -> Z
}.

(** ** [src/crypto_shim_common.c]: dates *)

(** ["%0wu"] *)
Definition dec_pad (w : nat) (v : Z) : string :=
  let d := dec v in
  String.string_of_list_ascii (repeat "0"%char (w - String.length d)) +:+ d.

(** Two's-complement conversion, then a remainder by the digit width. *)
Definition clamp_digits (v : Z) (m : Z) : Z := wrap_u32 v mod m.

Definition EHEM_CERT_DATE_CAP : nat := 21.
Definition EHEM_CERT_CN_CAP : nat := 128.

Definition ehem_crypto_iso_date (t : option tm) (cap : nat) : string :=
  match t with
  | None => ""
  | Some t =>
      snprintf_trunc cap
        (dec_pad 4 (clamp_digits (tm_year t + 1900) 10000) +:+ "-" +:+
         dec_pad 2 (clamp_digits (tm_mon t + 1) 100) +:+ "-" +:+
         dec_pad 2 (clamp_digits (tm_mday t) 100) +:+ "T" +:+
         dec_pad 2 (clamp_digits (tm_hour t) 100) +:+ ":" +:+
         dec_pad 2 (clamp_digits (tm_min t) 100) +:+ ":" +:+
         dec_pad 2 (clamp_digits (tm_sec t) 100) +:+ "Z")
  end.

(** ** Known answers *)

Definition probe_hmac_key : bytes := [
  11; 11; 11; 11; 11; 11; 11; 11; 11; 11; 11; 11; 11; 11; 11; 11; 11; 11; 11; 11].

Definition probe_hmac_expect : bytes := [
  176; 52; 76; 97; 216; 219; 56; 83; 92; 168; 175; 206; 175; 11; 241; 43; 136; 29; 194; 0;
  201; 131; 61; 167; 38; 233; 55; 108; 46; 50; 207; 247].

Definition probe_cert_der : bytes := [
  48; 130; 1; 115; 48; 130; 1; 24; 160; 3; 2; 1; 2; 2; 5; 1; 2; 3; 4; 5; 48; 10; 6; 8; 42;
  134; 72; 206; 61; 4; 3; 2; 48; 21; 49; 19; 48; 17; 6; 3; 85; 4; 3; 12; 10; 101; 104; 101;
  109; 45; 112; 114; 111; 98; 101; 48; 32; 23; 13; 50; 54; 49; 48; 49; 50; 49; 57; 53; 51;
  51; 50; 90; 24; 15; 50; 49; 50; 54; 48; 57; 49; 56; 49; 57; 53; 51; 51; 50; 90; 48; 21;
  49; 19; 48; 17; 6; 3; 85; 4; 3; 12; 10; 101; 104; 101; 109; 45; 112; 114; 111; 98; 101;
  48; 89; 48; 19; 6; 7; 42; 134; 72; 206; 61; 2; 1; 6; 8; 42; 134; 72; 206; 61; 3; 1; 7; 3;
  66; 0; 4; 255; 100; 117; 65; 164; 114; 23; 99; 102; 251; 230; 152; 31; 1; 77; 133; 226;
  169; 57; 253; 233; 121; 175; 54; 182; 225; 251; 79; 127; 15; 68; 108; 34; 242; 114; 189;
  184; 96; 125; 87; 53; 30; 110; 66; 120; 227; 188; 134; 26; 218; 173; 154; 161; 88; 197;
  33; 63; 236; 157; 207; 201; 67; 230; 133; 163; 83; 48; 81; 48; 29; 6; 3; 85; 29; 14; 4;
  22; 4; 20; 168; 213; 40; 33; 20; 164; 219; 107; 157; 112; 29; 11; 68; 158; 253; 153; 116;
  114; 2; 58; 48; 31; 6; 3; 85; 29; 35; 4; 24; 48; 22; 128; 20; 168; 213; 40; 33; 20; 164;
  219; 107; 157; 112; 29; 11; 68; 158; 253; 153; 116; 114; 2; 58; 48; 15; 6; 3; 85; 29; 19;
  1; 1; 255; 4; 5; 48; 3; 1; 1; 255; 48; 10; 6; 8; 42; 134; 72; 206; 61; 4; 3; 2; 3; 73; 0;
  48; 70; 2; 33; 0; 180; 86; 172; 212; 22; 89; 161; 161; 97; 215; 147; 158; 90; 25; 27;
  121; 13; 22; 248; 205; 190; 253; 28; 47; 50; 43; 146; 13; 210; 160; 57; 165; 2; 33; 0;
  213; 209; 6; 29; 99; 60; 250; 91; 202; 165; 237; 115; 64; 165; 63; 179; 88; 51; 142; 138;
  107; 245; 47; 223; 176; 190; 120; 47; 238; 26; 119; 165].

Definition probe_aes_key : bytes := [
  0; 1; 2; 3; 4; 5; 6; 7; 8; 9; 10; 11; 12; 13; 14; 15].

Definition probe_aes_plain : bytes := [
  0; 17; 34; 51; 68; 85; 102; 119; 136; 153; 170; 187; 204; 221; 238; 255].

Definition probe_aes_expect : bytes := [
  105; 196; 224; 216; 106; 123; 4; 48; 216; 205; 183; 128; 112; 180; 197; 90].

Definition probe_ed25519_pub : bytes := [
  139; 249; 72; 96; 154; 245; 109; 215; 223; 156; 174; 224; 19; 139; 90; 191; 209; 150; 7;
  179; 241; 43; 209; 20; 89; 98; 57; 228; 104; 176; 31; 147].

Definition probe_ed25519_sig : bytes := [
  46; 220; 25; 71; 126; 176; 163; 109; 220; 243; 31; 174; 10; 50; 250; 209; 76; 180; 40;
  197; 164; 76; 18; 124; 57; 170; 247; 150; 96; 145; 246; 210; 176; 169; 180; 8; 32; 72; 4;
  58; 13; 37; 114; 184; 44; 52; 78; 172; 155; 45; 27; 206; 102; 82; 191; 174; 71; 235; 109;
  179; 184; 103; 169; 3].

Definition probe_ed448_pub : bytes := [
  21; 247; 241; 17; 252; 172; 174; 100; 42; 11; 54; 57; 156; 211; 155; 136; 127; 19; 66;
  253; 23; 52; 32; 149; 91; 101; 64; 238; 1; 126; 29; 5; 35; 151; 17; 207; 58; 251; 72;
  105; 71; 128; 5; 145; 82; 57; 143; 57; 52; 241; 139; 43; 153; 156; 88; 33; 128].

Definition probe_ed448_sig : bytes := [
  145; 83; 31; 80; 189; 28; 253; 202; 112; 170; 45; 59; 93; 77; 96; 203; 49; 216; 96; 51;
  87; 174; 236; 234; 27; 88; 67; 246; 217; 186; 93; 17; 46; 214; 222; 70; 179; 21; 21; 134;
  145; 54; 110; 36; 149; 238; 23; 95; 6; 42; 117; 145; 92; 179; 0; 186; 128; 175; 180; 40;
  161; 217; 207; 149; 11; 250; 66; 108; 44; 90; 124; 238; 228; 173; 152; 165; 212; 240;
  193; 230; 111; 79; 57; 188; 95; 141; 229; 216; 173; 187; 46; 236; 41; 32; 210; 246; 21;
  86; 103; 126; 116; 242; 23; 116; 108; 224; 213; 25; 184; 132; 150; 147; 42; 0].

Definition probe_ed_msg : bytes := bytes_of_string "encedo-hem crypto backend probe".

Definition EHEM_ED25519_PUB_SIZE : nat := 32.
Definition EHEM_ED25519_SIG_SIZE : nat := 64.
Definition EHEM_ED448_PUB_SIZE : nat := 57.
Definition EHEM_ED448_SIG_SIZE : nat := 114.
Definition EHEM_AES128_KEY_SIZE : nat := 16.
Definition EHEM_AES_BLOCK_SIZE : nat := 16.

(** The test seam's modes. *)
Definition EHEM_CRYPTO_FORCE_NONE : Z := 0.
Definition EHEM_CRYPTO_FORCE_VERSION : Z := 1.
Definition EHEM_CRYPTO_FORCE_PROBE : Z := 2.

Inductive ehem_ecdsa_curve :=
  EHEM_ECDSA_SECP256R1 | EHEM_ECDSA_SECP384R1 | EHEM_ECDSA_SECP521R1 | EHEM_ECDSA_SECP256K1.

Definition ecdsa_curve_params (c : ehem_ecdsa_curve) : ecc_curve_id * wc_hash :=
  match c with
  | EHEM_ECDSA_SECP256R1 => (ECC_SECP256R1, WC_SHA256)
  | EHEM_ECDSA_SECP384R1 => (ECC_SECP384R1, WC_SHA384)
  | EHEM_ECDSA_SECP521R1 => (ECC_SECP521R1, WC_SHA512)
  | EHEM_ECDSA_SECP256K1 => (ECC_SECP256K1, WC_SHA256)
  end.

Section Wolf.
Context {WC : WolfCrypt}.

(** [rc == 0 ? EHEM_OK : EHEM_ERR_PROTOCOL] *)
Definition ok_or_protocol (rc : Z) : ehem_rc := if rc =? 0 then EHEM_OK else EHEM_ERR_PROTOCOL.
Definition arg {A} (a : A) : ehem_rc * A := (EHEM_ERR_ARG, a).

(** ** Hashes, key derivation, entropy

    Pointers are options; a buffer carries its length, below 2^31 (the [int] and
    [word32] casts of lengths are the identity then). *)

Definition kdf_pbkdf2 (hash : wc_hash) (passwd salt : option bytes) (iterations : Z)
    (out : bool) (out_len : Z) : ehem_rc * bytes :=
  match passwd, salt with
  | Some passwd, Some salt =>
      if negb out || (out_len =? 0) || (iterations =? 0) then arg []
      else
        let (rc, key) := wc_PBKDF2 passwd salt (wrap_i32 iterations) (wrap_i32 out_len) hash in
        (ok_or_protocol rc, key)
  | _, _ => arg []
  end.
Definition ehem_kdf_pbkdf2_sha256 := kdf_pbkdf2 WC_SHA256.
Definition ehem_kdf_pbkdf2_sha512 := kdf_pbkdf2 WC_SHA512.

(** [in_len] counts for a NULL [inp] only: it must then be 0. *)
Definition ehem_sha256 (inp : option bytes) (in_len : Z) (out : bool) : ehem_rc * bytes :=
  if negb out || (bool_decide (inp = None) && negb (in_len =? 0)) then arg []
  else
    let (rc, hash) := wc_Sha256Hash (default [] inp) in
    (ok_or_protocol rc, hash).

Definition ehem_random_bytes (t : nat) (out : bool) (n : Z) : ehem_rc * bytes :=
  if negb out || (n =? 0) then arg []
  else
    let (rc, m) := wc_InitRng t 0 (stack_mem t) in
    if negb (rc =? 0) then (EHEM_ERR_PROTOCOL, [])
    else
      let '(rc, (block, _)) := wc_RNG_GenerateBlock t 0 (wrap_u32 n) m in
      (ok_or_protocol rc, block).

(** Key, message and result with the struct at offset [o]: whether all three
    calls succeeded, the MAC and the memory. *)
Definition hmac_run (o : nat) (key : bytes) (msg : option bytes) (m : mem) : bool * bytes * mem :=
  let (rc, m) := wc_HmacSetKey o key m in
  if negb (rc =? 0) then (false, [], m)
  else
    let (rc, m) := wc_HmacUpdate o msg m in
    if negb (rc =? 0) then (false, [], m)
    else
      let '(rc, (out, m)) := wc_HmacFinal o m in
      (rc =? 0, out, m).

Definition ehem_hmac_sha256 (t : nat) (key msg : option bytes) (msg_len : Z) (out : bool)
  : ehem_rc * bytes :=
  match key with
  | Some key =>
      if negb out || (bool_decide (msg = None) && negb (msg_len =? 0)) then arg []
      else
        let (rc, m) := wc_HmacInit 0 (stack_mem t) in
        if negb (rc =? 0) then (EHEM_ERR_PROTOCOL, [])
        else
          let '(ok, mac, _) := hmac_run 0 key msg m in
          (if ok then EHEM_OK else EHEM_ERR_PROTOCOL, mac)
  | None => arg []
  end.

(** ** X25519 *)

(** [k[0] &= 248; k[31] &= 127; k[31] |= 64;] *)
Definition clamp (k : bytes) : bytes :=
  alter (fun x => Z.lor (Z.land x 127) 64) 31%nat (alter (fun x => Z.land x 248) 0%nat k).

Definition x25519_scalarmult (scalar u : bytes) : ehem_rc * bytes :=
  let (rc, out) := wc_curve25519_generic (clamp (take EHEM_X25519_KEYSIZE scalar)) u in
  (ok_or_protocol rc, out).

Definition basepoint : bytes := 9 :: repeat 0 (EHEM_X25519_KEYSIZE - 1).

(** The private and the public key; the public one may be declined. *)
Definition ehem_x25519_keypair_from_seed (seed : option bytes) (pub_out : bool)
  : ehem_rc * (bytes * bytes) :=
  match seed with
  | None => arg ([], [])
  | Some seed =>
      let priv := clamp (take EHEM_X25519_KEYSIZE seed) in
      let (rc, pub) := if pub_out then x25519_scalarmult priv basepoint else (EHEM_OK, []) in
      (rc, (if bool_decide (rc = EHEM_OK) then priv else [], pub))
  end.

Definition ehem_x25519_shared (priv peer_pub : option bytes) (out : bool) : ehem_rc * bytes :=
  match priv, peer_pub with
  | Some priv, Some peer => if out then x25519_scalarmult priv peer else arg []
  | _, _ => arg []
  end.

(** ** Certificates *)

Definition date_to_iso (cert_date : option bytes) (cap : nat) : string :=
  match cert_date with
  | None | Some [] => ""
  | Some d =>
      let '(rc, (date, format)) := wc_GetDateInfo d in
      if negb (rc =? 0) then ""
      else
        let (rc, t) := wc_GetDateAsCalendarTime date format in
        if negb (rc =? 0) then "" else ehem_crypto_iso_date (Some t) cap
  end.

(** [memcpy] of at most [cap - 1] bytes and a NUL. *)
Definition cert_cn (cn : option bytes) : string :=
  c_str (string_of_bytes (take (EHEM_CERT_CN_CAP - 1) (default [] cn))).

Definition cert_fields (c : decoded_cert) : ehem_cert_fields :=
  {| cf_serial_hex := ehem_serial_hex (dc_serial c) EHEM_CERT_SERIAL_HEX_CAP;
     cf_subject_cn := cert_cn (dc_subjectCN c);
     cf_not_before := date_to_iso (dc_beforeDate c) EHEM_CERT_DATE_CAP;
     cf_not_after := date_to_iso (dc_afterDate c) EHEM_CERT_DATE_CAP |}.

Definition fields_zero : ehem_cert_fields :=
  {| cf_serial_hex := ""; cf_subject_cn := ""; cf_not_before := ""; cf_not_after := "" |}.

Definition ehem_cert_parse_leaf (t : nat) (der : option bytes) (out : bool)
  : ehem_rc * ehem_cert_fields :=
  match der with
  | None | Some [] => arg fields_zero
  | Some der =>
      if negb out then arg fields_zero
      else
        let (rc, m) := wc_ParseCert 0 (wc_InitDecodedCert 0 der (stack_mem t)) in
        if negb (rc =? 0) then (EHEM_ERR_PROTOCOL, fields_zero)
        else (EHEM_OK, cert_fields (cert_view 0 m))
  end.

(** ** Local verification

    The code and what is left in [*valid_out]: nothing after an argument
    error. *)

Definition ehem_ecdsa_verify (t : nat) (curve : ehem_ecdsa_curve) (pub msg : option bytes)
    (msg_len : Z) (sig : option bytes) (valid_out : bool) : ehem_rc * option Z :=
  match pub, sig with
  | Some ((_ :: _) as pub), Some ((_ :: _) as sig) =>
      if negb valid_out || (bool_decide (msg = None) && negb (msg_len =? 0)) then arg None
      else
        let (curve_id, hash) := ecdsa_curve_params curve in
        if negb (wc_malloc t) then (EHEM_ERR_NOMEM, Some 0)
        else
          let (rc, key) := wc_ecc_import_x963_ex pub curve_id in
          if rc =? NOT_COMPILED_IN then (EHEM_ERR_UNSUPPORTED, Some 0)
          else if rc =? 0 then
            let rc := wc_SignatureVerify hash msg sig key in
            if rc =? 0 then (EHEM_OK, Some 1)
            else if (rc =? SIG_VERIFY_E) || (rc =? ASN_PARSE_E) || (rc =? ASN_ECC_KEY_E)
            then (EHEM_OK, Some 0)
            else (EHEM_ERR_PROTOCOL, Some 0)
          else (EHEM_ERR_PROTOCOL, Some 0)
  | _, _ => arg None
  end.

Definition ed_args (pub msg : option bytes) (msg_len : Z) (sig : option bytes)
    (sig_size : nat) (valid_out : bool) : option (bytes * bytes * bytes) :=
  match pub, sig with
  | Some pub, Some sig =>
      if negb valid_out || negb (length sig =? sig_size)%nat ||
         (bool_decide (msg = None) && negb (msg_len =? 0)) then None
      else Some (pub, default [] msg, sig)
  | _, _ => None
  end.

Definition ehem_ed25519_verify (t : nat) (pub msg : option bytes) (msg_len : Z)
    (sig : option bytes) (valid_out : bool) : ehem_rc * option Z :=
  match ed_args pub msg msg_len sig EHEM_ED25519_SIG_SIZE valid_out with
  | None => arg None
  | Some (pub, msg, sig) =>
      let (rc, m) := wc_ed25519_init 0 (stack_mem t) in
      if negb (rc =? 0) then (EHEM_ERR_PROTOCOL, Some 0)
      else
        let (rc, m) := wc_ed25519_import_public 0 (take EHEM_ED25519_PUB_SIZE pub) m in
        if negb (rc =? 0) then (EHEM_ERR_PROTOCOL, Some 0)
        else
          let '(rc, (res, _)) := wc_ed25519_verify_msg 0 sig msg m in
          if rc =? 0 then (EHEM_OK, Some (if res =? 1 then 1 else 0))
          else if rc =? SIG_VERIFY_E then (EHEM_OK, Some 0)
          else (EHEM_ERR_PROTOCOL, Some 0)
  end.

Definition ehem_ed448_verify (t : nat) (pub msg : option bytes) (msg_len : Z)
    (sig : option bytes) (valid_out : bool) : ehem_rc * option Z :=
  match ed_args pub msg msg_len sig EHEM_ED448_SIG_SIZE valid_out with
  | None => arg None
  | Some (pub, msg, sig) =>
      let (rc, m) := wc_ed448_init 0 (stack_mem t) in
      if rc =? NOT_COMPILED_IN then (EHEM_ERR_UNSUPPORTED, Some 0)
      else if negb (rc =? 0) then (EHEM_ERR_PROTOCOL, Some 0)
      else
        let (rc, m) := wc_ed448_import_public 0 (take EHEM_ED448_PUB_SIZE pub) m in
        if negb (rc =? 0) then (EHEM_ERR_PROTOCOL, Some 0)
        else
          let '(rc, (res, _)) := wc_ed448_verify_msg 0 sig msg m in
          if rc =? 0 then (EHEM_OK, Some (if res =? 1 then 1 else 0))
          else if rc =? SIG_VERIFY_E then (EHEM_OK, Some 0)
          else if rc =? NOT_COMPILED_IN then (EHEM_ERR_UNSUPPORTED, Some 0)
          else (EHEM_ERR_PROTOCOL, Some 0)
  end.

(** ** AES-128-CBC; [enc] is the direction *)

Definition aes128_cbc_run (t : nat) (enc : bool) (key iv inp : option bytes) (out : bool)
  : ehem_rc * bytes :=
  match key, iv, inp with
  | Some key, Some iv, Some inp =>
      if negb out || (length inp =? 0)%nat ||
         negb (length inp mod EHEM_AES_BLOCK_SIZE =? 0)%nat then arg []
      else
        let (rc, m) := wc_AesInit 0 (stack_mem t) in
        if negb (rc =? 0) then (EHEM_ERR_PROTOCOL, [])
        else
          let (rc, m) := wc_AesSetKey 0 (take EHEM_AES128_KEY_SIZE key)
                           (take EHEM_AES_BLOCK_SIZE iv) enc m in
          if negb (rc =? 0) then (EHEM_ERR_PROTOCOL, [])
          else
            let '(rc, (res, _)) := wc_AesCbc 0 enc inp m in
            (ok_or_protocol rc, res)
  | _, _, _ => arg []
  end.
Definition ehem_aes128_cbc_encrypt (t : nat) := aes128_cbc_run t true.
Definition ehem_aes128_cbc_decrypt (t : nat) := aes128_cbc_run t false.

(** ** The backend compatibility check *)

Definition PROBE_LEAD : nat := 64.
Definition PROBE_TRAIL : nat := 4096.
Definition PROBE_CANARY : Z := 165.

Inductive verdict := PROBE_PASS | PROBE_MISMATCH | PROBE_NOMEM.

(** The memory [probe_open] hands out: the struct starts at [PROBE_LEAD]. *)
Definition probe_open (size : nat) : mem :=
  repeat PROBE_CANARY (PROBE_LEAD + size + PROBE_TRAIL).

(** [ok &= (p[i] == PROBE_CANARY)] over [n] bytes of the box from [o] on. *)
Definition canaries (m : mem) (o n : nat) : bool :=
  bool_decide (take n (drop o m) = repeat PROBE_CANARY n).
Definition probe_close (size : nat) (m : mem) : bool :=
  canaries m 0 PROBE_LEAD && canaries m (PROBE_LEAD + size) PROBE_TRAIL.

Definition answer (ok : bool) : verdict := if ok then PROBE_PASS else PROBE_MISMATCH.

(** [out[0] ^= 0x01] *)
Definition flip_first (b : bytes) : bytes := alter (fun x => Z.lxor x 1) 0%nat b.

(** Each probe's work on its struct at [PROBE_LEAD]: what it would answer with
    intact canaries, and the memory it leaves. *)
Definition hmac_work (forced : Z) (m : mem) : verdict * mem :=
  let (rc, m) := wc_HmacInit PROBE_LEAD m in
  if negb (rc =? 0) then (PROBE_MISMATCH, m)
  else
    let '(ok, out, m) := hmac_run PROBE_LEAD probe_hmac_key (Some (bytes_of_string "Hi There")) m in
    let out := if forced =? EHEM_CRYPTO_FORCE_PROBE then flip_first out else out in
    (answer (ok && bool_decide (out = probe_hmac_expect)), wc_HmacFree PROBE_LEAD m).

Definition rng_work (t : nat) (m : mem) : verdict * mem :=
  let (rc, m) := wc_InitRng t PROBE_LEAD m in
  if negb (rc =? 0) then (PROBE_NOMEM, m)
  else
    let '(rc, (_, m)) := wc_RNG_GenerateBlock t PROBE_LEAD 16 m in
    (answer (rc =? 0), wc_FreeRng PROBE_LEAD m).

Definition cert_work (m : mem) : verdict * mem :=
  let (rc, m) := wc_ParseCert PROBE_LEAD (wc_InitDecodedCert PROBE_LEAD probe_cert_der m) in
  let ok :=
    (rc =? 0) &&
    (let f := cert_fields (cert_view PROBE_LEAD m) in
     String.eqb (cf_serial_hex f) "0102030405" && String.eqb (cf_subject_cn f) "ehem-probe" &&
     String.eqb (cf_not_before f) "2026-10-12T19:53:32Z" &&
     String.eqb (cf_not_after f) "2126-09-18T19:53:32Z") in
  (answer ok, wc_FreeDecodedCert PROBE_LEAD m).

Definition aes_work (m : mem) : verdict * mem :=
  let (rc, m) := wc_AesInit PROBE_LEAD m in
  if negb (rc =? 0) then (PROBE_MISMATCH, m)
  else
    let (rc, m) := wc_AesSetKey PROBE_LEAD probe_aes_key (repeat 0 EHEM_AES_BLOCK_SIZE) true m in
    if negb (rc =? 0) then (PROBE_MISMATCH, wc_AesFree PROBE_LEAD m)
    else
      let '(rc, (out, m)) := wc_AesCbc PROBE_LEAD true probe_aes_plain m in
      (answer ((rc =? 0) && bool_decide (out = probe_aes_expect)), wc_AesFree PROBE_LEAD m).

Definition ed25519_work (m : mem) : verdict * mem :=
  let (rc, m) := wc_ed25519_init PROBE_LEAD m in
  if negb (rc =? 0) then (PROBE_MISMATCH, m)
  else
    let (rc, m) := wc_ed25519_import_public PROBE_LEAD probe_ed25519_pub m in
    if negb (rc =? 0) then (PROBE_MISMATCH, wc_ed25519_free PROBE_LEAD m)
    else
      let '(rc, (res, m)) := wc_ed25519_verify_msg PROBE_LEAD probe_ed25519_sig probe_ed_msg m in
      (answer ((rc =? 0) && (res =? 1)), wc_ed25519_free PROBE_LEAD m).

Definition ed448_work (m : mem) : verdict * mem :=
  let (rc, m) := wc_ed448_init PROBE_LEAD m in
  if rc =? NOT_COMPILED_IN then (PROBE_PASS, m)
  else if negb (rc =? 0) then (PROBE_MISMATCH, m)
  else
    let (rc, m) := wc_ed448_import_public PROBE_LEAD probe_ed448_pub m in
    if negb (rc =? 0) then (PROBE_MISMATCH, wc_ed448_free PROBE_LEAD m)
    else
      let '(rc, (res, m)) := wc_ed448_verify_msg PROBE_LEAD probe_ed448_sig probe_ed_msg m in
      (answer ((rc =? 0) && (res =? 1)), wc_ed448_free PROBE_LEAD m).

Record probe := { pb_size : nat; pb_work : nat -> mem -> verdict * mem }.

(** In the order the SDK first touches the structs. *)
Definition probes (forced : Z) : list probe :=
  [{| pb_size := sizeof_Hmac; pb_work _ := hmac_work forced |};
   {| pb_size := sizeof_WC_RNG; pb_work := rng_work |};
   {| pb_size := sizeof_DecodedCert; pb_work _ := cert_work |};
   {| pb_size := sizeof_Aes; pb_work _ := aes_work |};
   {| pb_size := sizeof_ed25519_key; pb_work _ := ed25519_work |};
   {| pb_size := sizeof_ed448_key; pb_work _ := ed448_work |}].

(** Open the box, work, close it. *)
Definition run_probe (t : nat) (p : probe) : verdict :=
  if negb (wc_malloc t) then PROBE_NOMEM
  else
    let (v, m) := pb_work p t (probe_open (pb_size p)) in
    if probe_close (pb_size p) m then v else PROBE_MISMATCH.

(** The loop of [run_struct_probes]: one tick per probe. *)
Fixpoint run_probes (t : nat) (l : list probe) : ehem_rc :=
  match l with
  | [] => EHEM_OK
  | p :: l =>
      match run_probe t p with
      | PROBE_MISMATCH => EHEM_ERR_BACKEND_MISMATCH
      | PROBE_NOMEM => EHEM_ERR_NOMEM
      | PROBE_PASS => run_probes (S t) l
      end
  end.
Definition run_struct_probes (forced : Z) (t : nat) : ehem_rc := run_probes t (probes forced).

(** The calls that touch wolfCrypt's process-global state. *)
Inductive wc_global := GlobalInit (rc : Z) | GlobalCleanup.

(** What the library reports, through the test seam. *)
Definition loaded_version (forced : Z) : Z :=
  if forced =? EHEM_CRYPTO_FORCE_VERSION
  then Z.lxor wolfSSL_lib_version_hex 1 else wolfSSL_lib_version_hex.

Definition ehem_crypto_backend_global_init (forced : Z) (t : nat) : ehem_rc * list wc_global :=
  if negb (loaded_version forced =? LIBWOLFSSL_VERSION_HEX) then (EHEM_ERR_BACKEND_MISMATCH, [])
  else
    let rc := wolfCrypt_Init t in
    if negb (rc =? 0) then (EHEM_ERR_PROTOCOL, [GlobalInit rc])
    else
      match run_struct_probes forced (S t) with
      | EHEM_OK => (EHEM_OK, [GlobalInit rc])
      | e => (e, [GlobalInit rc; GlobalCleanup])
      end.

Definition ehem_crypto_backend_global_cleanup : list wc_global := [GlobalCleanup].

(** ** The platform built with [EHEM_CRYPTO_BACKEND=wolfssl]

    [P] with every crypto field replaced by the adapter above, called the way
    the rest of the library calls it (no NULL buffers, 32 and 64 byte keys). *)

Definition wolf_platform (P : Platform) (forced : Z) : Platform :=
  {| net := @net P;
     p_json := @p_json P;
     p_malloc := @p_malloc P;
     p_time := @p_time P;
     p_crypto_global_init t := fst (ehem_crypto_backend_global_init forced t);
     p_transport_global_init := @p_transport_global_init P;
     p_transport_default := @p_transport_default P;
     p_kdf_pbkdf2_sha256 _ passwd salt n :=
       ehem_kdf_pbkdf2_sha256 (Some passwd) (Some salt) n true 32;
     p_x25519_keypair_from_seed _ seed := ehem_x25519_keypair_from_seed (Some seed) true;
     p_x25519_shared _ priv pub := ehem_x25519_shared (Some priv) (Some pub) true;
     p_hmac_sha256 t key msg := ehem_hmac_sha256 t (Some key) (Some msg) (Z.of_nat (length msg)) true;
     p_sha256 _ inp := ehem_sha256 (Some inp) (Z.of_nat (length inp)) true;
     p_kdf_pbkdf2_sha512 _ passwd salt n :=
       ehem_kdf_pbkdf2_sha512 (Some passwd) (Some salt) n true 64;
     p_random_bytes t n := ehem_random_bytes t true n;
     p_cert_parse_leaf t der := ehem_cert_parse_leaf t (Some der) true;
     p_vsnprintf_overlap := @p_vsnprintf_overlap P |}.
End Wolf.
