(* ===== verification/WolfProps.v ===== *)
(** * The wolfCrypt adapter does what its header promises

    The backend compatibility check against a declarative reading of it, the
    agreement of the two sides of an X25519 exchange, and the meaning of the
    local signature verdicts. *)

From S2P Require Import Prelude World Ejwt Checkin Context Wolf.

(** ** The canary bands *)

(** A box with both bands as [probe_open] wrote them, around [size] bytes. *)
Definition intact_bands (c : Z) (lead size trail : nat) (m : mem) : Prop :=
  exists body rest,
    m = repeat c lead ++ body ++ repeat c trail ++ rest /\ length body = size.

Lemma canaries_bands (c : Z) (lead size trail : nat) (m : mem) :
  (0 < trail)%nat ->
  take lead (drop 0 m) = repeat c lead /\
  take trail (drop (lead + size) m) = repeat c trail <->
  intact_bands c lead size trail m.
Proof.
  intros Ht. split.
  - intros [E1 E2]. rewrite drop_0 in E1.
    assert (length m >= lead + size + trail)%nat as Hm.
    { apply (f_equal length) in E2. rewrite length_take, length_drop, repeat_length in E2. lia. }
    exists (take size (drop lead m)), (drop trail (drop (lead + size) m)).
    split; [|rewrite length_take, length_drop; lia].
    rewrite <- E1, <- E2 at 1. rewrite (take_drop trail), <- drop_drop.
    by rewrite (take_drop size), take_drop.
  - intros (body & rest & -> & <-). rewrite drop_0.
    rewrite take_app_length' by (symmetry; apply repeat_length). split; [done|].
    rewrite (assoc_L (++)), drop_app_length'
      by (rewrite length_app, repeat_length; lia).
    by rewrite take_app_length' by (symmetry; apply repeat_length).
Qed.

Section Check.
Context {WC : WolfCrypt}.

Definition intact (size : nat) (m : mem) : Prop :=
  intact_bands PROBE_CANARY PROBE_LEAD size PROBE_TRAIL m.

Lemma probe_close_intact size m : probe_close size m = true <-> intact size m.
Proof.
  unfold probe_close, canaries, intact.
  rewrite andb_true_iff, !bool_decide_eq_true. apply canaries_bands.
  unfold PROBE_TRAIL. lia.
Qed.

(** *** The loop over the probes *)
Definition probe_passes (t : nat) (p : probe) : Prop :=
  wc_malloc t = true /\
  let (v, m) := pb_work p t (probe_open (pb_size p)) in
  v = PROBE_PASS /\ intact (pb_size p) m.

Definition probe_differs (t : nat) (p : probe) : Prop :=
  wc_malloc t = true /\
  let (v, m) := pb_work p t (probe_open (pb_size p)) in
  v = PROBE_MISMATCH \/ ~ intact (pb_size p) m.

Lemma run_probe_passes t p : run_probe t p = PROBE_PASS <-> probe_passes t p.
Proof.
  unfold run_probe, probe_passes. destruct (wc_malloc t); cbn [negb]; [|split; [done|by intros [? _]]].
  destruct (pb_work p t _) as [v m]. rewrite <- probe_close_intact.
  destruct (probe_close _ m), v; intuition congruence.
Qed.

Lemma run_probe_differs t p : run_probe t p = PROBE_MISMATCH <-> probe_differs t p.
Proof.
  unfold run_probe, probe_differs. destruct (wc_malloc t); cbn [negb]; [|split; [done|by intros [? _]]].
  destruct (pb_work p t _) as [v m]. rewrite <- probe_close_intact.
  destruct (probe_close _ m), v; intuition congruence.
Qed.

Lemma run_probes_ok l t :
  run_probes t l = EHEM_OK <-> forall i p, l !! i = Some p -> probe_passes (t + i) p.
Proof.
  revert t. induction l as [|p l IH]; intros t; [split; [done|by intros]|].
  cbn [run_probes]. split.
  - destruct (run_probe t p) eqn:E; try done. intros Hl [|i] q; cbn.
    + intros [= <-]. rewrite Nat.add_0_r. by apply run_probe_passes.
    + rewrite Nat.add_succ_r. apply (proj1 (IH (S t)) Hl).
  - intros Hl. pose proof (Hl 0%nat p eq_refl) as Hp. rewrite Nat.add_0_r in Hp.
    apply run_probe_passes in Hp as ->. apply IH. intros i q Hq.
    pose proof (Hl (S i) q Hq) as Hi. by rewrite Nat.add_succ_r in Hi.
Qed.

Lemma run_probes_mismatch l t :
  run_probes t l = EHEM_ERR_BACKEND_MISMATCH <->
  exists i p, l !! i = Some p /\ probe_differs (t + i) p /\
    forall j q, (j < i)%nat -> l !! j = Some q -> probe_passes (t + j) q.
Proof.
  revert t. induction l as [|p l IH]; intros t;
    [split; [done|by intros (i & p & E & _)]|].
  cbn [run_probes]. split.
  - destruct (run_probe t p) eqn:E; try done.
    + intros (i & q & Hq & Hf & Hs)%IH. exists (S i), q. rewrite Nat.add_succ_r.
      split; [done|]. split; [done|]. intros [|j] r Hj; cbn.
      * intros [= <-]. rewrite Nat.add_0_r. by apply run_probe_passes.
      * rewrite Nat.add_succ_r. apply Hs. lia.
    + intros _. exists 0%nat, p. rewrite Nat.add_0_r. split; [done|].
      split; [by apply run_probe_differs|lia].
  - intros ([|i] & q & Hq & Hf & Hs).
    + injection Hq as <-. rewrite Nat.add_0_r in Hf. by apply run_probe_differs in Hf as ->.
    + pose proof (Hs 0%nat p ltac:(lia) eq_refl) as Hp. rewrite Nat.add_0_r in Hp.
      apply run_probe_passes in Hp as ->. apply IH. exists i, q.
      rewrite Nat.add_succ_r in Hf. split; [done|]. split; [done|]. intros j r Hj Hr.
      pose proof (Hs (S j) r ltac:(lia) Hr) as Hx. by rewrite Nat.add_succ_r in Hx.
Qed.

(** *** The known answers *)

(** Probe [i] against the library, call by call: every call of the chain succeeds
    and the last one gives the known answer, the struct's memory going from [m]
    to [m'].  0: the RFC 4231 HMAC (the test seam flips its first byte); 1: any
    16 bytes; 2: the fields of the probe certificate; 3: the FIPS 197 block;
    4 and 5: both EdDSA signatures verify, the second only where Ed448 is
    compiled in. *)
Inductive right_answer (forced : Z) (t : nat) (m m' : mem) : nat -> Prop :=
  | right_hmac m1 m2 m3 m4 mac :
      wc_HmacInit PROBE_LEAD m = (0, m1) ->
      wc_HmacSetKey PROBE_LEAD probe_hmac_key m1 = (0, m2) ->
      wc_HmacUpdate PROBE_LEAD (Some (bytes_of_string "Hi There")) m2 = (0, m3) ->
      wc_HmacFinal PROBE_LEAD m3 = (0, (mac, m4)) ->
      mac = (if forced =? EHEM_CRYPTO_FORCE_PROBE then flip_first probe_hmac_expect
             else probe_hmac_expect) ->
      m' = wc_HmacFree PROBE_LEAD m4 -> right_answer forced t m m' 0
  | right_rng m1 m2 block :
      wc_InitRng t PROBE_LEAD m = (0, m1) ->
      wc_RNG_GenerateBlock t PROBE_LEAD 16 m1 = (0, (block, m2)) ->
      m' = wc_FreeRng PROBE_LEAD m2 -> right_answer forced t m m' 1
  | right_cert m1 :
      wc_ParseCert PROBE_LEAD (wc_InitDecodedCert PROBE_LEAD probe_cert_der m) = (0, m1) ->
      cert_fields (cert_view PROBE_LEAD m1) =
        {| cf_serial_hex := "0102030405"; cf_subject_cn := "ehem-probe";
           cf_not_before := "2026-10-12T19:53:32Z"; cf_not_after := "2126-09-18T19:53:32Z" |} ->
      m' = wc_FreeDecodedCert PROBE_LEAD m1 -> right_answer forced t m m' 2
  | right_aes m1 m2 m3 :
      wc_AesInit PROBE_LEAD m = (0, m1) ->
      wc_AesSetKey PROBE_LEAD probe_aes_key (repeat 0 16) true m1 = (0, m2) ->
      wc_AesCbc PROBE_LEAD true probe_aes_plain m2 = (0, (probe_aes_expect, m3)) ->
      m' = wc_AesFree PROBE_LEAD m3 -> right_answer forced t m m' 3
  | right_ed25519 m1 m2 m3 :
      wc_ed25519_init PROBE_LEAD m = (0, m1) ->
      wc_ed25519_import_public PROBE_LEAD probe_ed25519_pub m1 = (0, m2) ->
      wc_ed25519_verify_msg PROBE_LEAD probe_ed25519_sig probe_ed_msg m2 = (0, (1, m3)) ->
      m' = wc_ed25519_free PROBE_LEAD m3 -> right_answer forced t m m' 4
  | right_ed448 m1 m2 m3 :
      wc_ed448_init PROBE_LEAD m = (0, m1) -> NOT_COMPILED_IN <> 0 ->
      wc_ed448_import_public PROBE_LEAD probe_ed448_pub m1 = (0, m2) ->
      wc_ed448_verify_msg PROBE_LEAD probe_ed448_sig probe_ed_msg m2 = (0, (1, m3)) ->
      m' = wc_ed448_free PROBE_LEAD m3 -> right_answer forced t m m' 5
  | right_no_ed448 :
      wc_ed448_init PROBE_LEAD m = (NOT_COMPILED_IN, m') -> right_answer forced t m m' 5.

(** The structs, in the order of the probes. *)
Definition probe_sizes : list nat :=
  [sizeof_Hmac; sizeof_WC_RNG; sizeof_DecodedCert; sizeof_Aes; sizeof_ed25519_key;
   sizeof_ed448_key].

(** The generator found no entropy. *)
Definition starved (t : nat) (m : mem) (i : nat) : Prop :=
  i = 1%nat /\ fst (wc_InitRng t PROBE_LEAD m) <> 0.

(** The struct fits the bytes the SDK was compiled to give it, and the answer
    is the known one. *)
Definition probe_sound (forced : Z) (t i : nat) : Prop :=
  exists size m, probe_sizes !! i = Some size /\ wc_malloc t = true /\
    right_answer forced t (probe_open size) m i /\ intact size m.

(** The calls of the probe wrote outside the struct, or did not give the answer -
    for another reason than a lack of entropy. *)
Definition probe_foreign (forced : Z) (t i : nat) : Prop :=
  exists p, probes forced !! i = Some p /\ wc_malloc t = true /\
    (~ intact (pb_size p) (snd (pb_work p t (probe_open (pb_size p)))) \/
     ~ starved t (probe_open (pb_size p)) i /\
     forall m, ~ right_answer forced t (probe_open (pb_size p)) m i).

Lemma flip_first_involutive b : flip_first (flip_first b) = b.
Proof.
  unfold flip_first. destruct b as [|x b]; [done|]. cbn. f_equal.
  by rewrite Z.lxor_assoc, Z.lxor_nilpotent, Z.lxor_0_r.
Qed.

Lemma answer_pass b : answer b = PROBE_PASS <-> b = true.
Proof. by destruct b. Qed.
Lemma answer_has_memory b : answer b <> PROBE_NOMEM.
Proof. by destruct b. Qed.

(** A verdict with the memory it leaves, against the relation. *)
Definition judges (forced : Z) (t i : nat) (m : mem) (r : verdict * mem) : Prop :=
  (forall m', right_answer forced t m m' i <-> r = (PROBE_PASS, m')) /\
  (fst r = PROBE_NOMEM <-> starved t m i).

Lemma not_starved (v : verdict) t m i :
  i <> 1%nat -> v <> PROBE_NOMEM -> (v = PROBE_NOMEM <-> starved t m i).
Proof. intros Hi Hv. unfold starved. tauto. Qed.

(** One call has one result. *)
Ltac same_calls :=
  repeat match goal with
         | E : ?x = (_, _), F : ?x = (_, _) |- _ => rewrite E in F; simplify_eq
         end.

(** What is right of a work that stopped early: nothing. *)
Ltac refuted :=
  split; [intros m'; split; [inversion 1; by same_calls|done]|].

Lemma hmac_judged forced t m : judges forced t 0 m (hmac_work forced m).
Proof.
  unfold hmac_work, hmac_run, judges.
  destruct (wc_HmacInit _ m) as [rc m1] eqn:E1.
  destruct (Z.eqb_spec rc 0) as [->|]; cbn [negb]; [|refuted; by apply not_starved].
  destruct (wc_HmacSetKey _ _ m1) as [rc m2] eqn:E2.
  destruct (Z.eqb_spec rc 0) as [->|]; cbn [negb andb answer]; [|refuted; by apply not_starved].
  destruct (wc_HmacUpdate _ _ m2) as [rc m3] eqn:E3.
  destruct (Z.eqb_spec rc 0) as [->|]; cbn [negb andb answer]; [|refuted; by apply not_starved].
  destruct (wc_HmacFinal _ m3) as [rc [mac m4]] eqn:E4.
  destruct (Z.eqb_spec rc 0) as [->|]; cbn [negb andb answer]; [|refuted; by apply not_starved].
  split; [|by apply not_starved, answer_has_memory].
  intros m'. rewrite pair_equal_spec, answer_pass, bool_decide_eq_true. split.
  - inversion 1 as [? ? ? ? mac' F1 F2 F3 F4 Hmac Hm| | | | | |]. same_calls. split; [|done].
    destruct (forced =? _); [by rewrite flip_first_involutive|done].
  - intros [Hmac Hm]. eapply right_hmac; try done.
    destruct (forced =? _); [by rewrite <- Hmac, flip_first_involutive|done].
Qed.

Lemma rng_judged forced t m : judges forced t 1 m (rng_work t m).
Proof.
  unfold rng_work, judges. destruct (wc_InitRng t _ m) as [rc m1] eqn:E1.
  destruct (Z.eqb_spec rc 0) as [->|]; cbn [negb].
  2:{ refuted. split; [|done]. intros _. split; [done|]. by rewrite E1. }
  destruct (wc_RNG_GenerateBlock _ _ _ m1) as [rc [block m2]] eqn:E2.
  split; [|cbn [fst]; split; [by intros ?%answer_has_memory|intros [_ H]; by rewrite E1 in H]].
  intros m'. rewrite pair_equal_spec, answer_pass, Z.eqb_eq. split.
  - inversion 1; by same_calls.
  - intros [-> Hm]. by eapply right_rng.
Qed.

Lemma cert_judged forced t m : judges forced t 2 m (cert_work m).
Proof.
  unfold cert_work, judges. destruct (wc_ParseCert _ _) as [rc m1] eqn:E1.
  split; [|by apply not_starved, answer_has_memory].
  intros m'. rewrite pair_equal_spec, answer_pass, !andb_true_iff, Z.eqb_eq, !String.eqb_eq. split.
  - inversion 1 as [| |? F1 F2 F3| | | |]. same_calls. by rewrite F2.
  - intros [(-> & ((H1 & H2) & H3) & H4) Hm]. eapply right_cert; [done| |done].
    destruct (cert_fields _). cbn in *. by subst.
Qed.

Lemma aes_judged forced t m : judges forced t 3 m (aes_work m).
Proof.
  unfold aes_work, judges. destruct (wc_AesInit _ m) as [rc m1] eqn:E1.
  destruct (Z.eqb_spec rc 0) as [->|]; cbn [negb]; [|refuted; by apply not_starved].
  change (repeat 0 EHEM_AES_BLOCK_SIZE) with (repeat 0 16).
  destruct (wc_AesSetKey _ _ _ _ m1) as [rc m2] eqn:E2.
  destruct (Z.eqb_spec rc 0) as [->|]; cbn [negb]; [|refuted; by apply not_starved].
  destruct (wc_AesCbc _ _ _ m2) as [rc [out m3]] eqn:E3.
  split; [|by apply not_starved, answer_has_memory].
  intros m'. rewrite pair_equal_spec, answer_pass, andb_true_iff, Z.eqb_eq, bool_decide_eq_true. split.
  - inversion 1; by same_calls.
  - intros [[-> ->] Hm]. by eapply right_aes.
Qed.

Lemma ed25519_judged forced t m : judges forced t 4 m (ed25519_work m).
Proof.
  unfold ed25519_work, judges. destruct (wc_ed25519_init _ m) as [rc m1] eqn:E1.
  destruct (Z.eqb_spec rc 0) as [->|]; cbn [negb]; [|refuted; by apply not_starved].
  destruct (wc_ed25519_import_public _ _ m1) as [rc m2] eqn:E2.
  destruct (Z.eqb_spec rc 0) as [->|]; cbn [negb]; [|refuted; by apply not_starved].
  destruct (wc_ed25519_verify_msg _ _ _ m2) as [rc [res m3]] eqn:E3.
  split; [|by apply not_starved, answer_has_memory].
  intros m'. rewrite pair_equal_spec, answer_pass, andb_true_iff, !Z.eqb_eq. split.
  - inversion 1; by same_calls.
  - intros [[-> ->] Hm]. by eapply right_ed25519.
Qed.

Lemma ed448_judged forced t m : judges forced t 5 m (ed448_work m).
Proof.
  unfold ed448_work, judges. destruct (wc_ed448_init _ m) as [rc m1] eqn:E1.
  destruct (Z.eqb_spec rc NOT_COMPILED_IN) as [->|Hn].
  { split; [|by apply not_starved]. intros m'. split.
    - inversion 1; by same_calls.
    - intros [= <-]. by apply right_no_ed448. }
  destruct (Z.eqb_spec rc 0) as [->|]; cbn [negb]; [|refuted; by apply not_starved].
  destruct (wc_ed448_import_public _ _ m1) as [rc m2] eqn:E2.
  destruct (Z.eqb_spec rc 0) as [->|]; cbn [negb]; [|refuted; by apply not_starved].
  destruct (wc_ed448_verify_msg _ _ _ m2) as [rc [res m3]] eqn:E3.
  split; [|by apply not_starved, answer_has_memory].
  intros m'. rewrite pair_equal_spec, answer_pass, andb_true_iff, !Z.eqb_eq. split.
  - inversion 1; by same_calls.
  - intros [[-> ->] Hm]. by eapply right_ed448.
Qed.

(** Every probe of the list is judged by the relation. *)
Lemma probe_judged forced t i p m :
  probes forced !! i = Some p -> judges forced t i m (pb_work p t m).
Proof.
  destruct i as [|[|[|[|[|[|]]]]]]; cbn; [intros [= <-]..|done]; cbn [pb_work].
  - apply hmac_judged.
  - apply rng_judged.
  - apply cert_judged.
  - apply aes_judged.
  - apply ed25519_judged.
  - apply ed448_judged.
Qed.

Lemma probe_sizes_of forced : probe_sizes = pb_size <$> probes forced.
Proof. reflexivity. Qed.

Lemma probe_passes_sound forced t i p :
  probes forced !! i = Some p -> (probe_passes t p <-> probe_sound forced t i).
Proof.
  intros Hp. unfold probe_passes, probe_sound.
  assert (probe_sizes !! i = Some (pb_size p)) as Hs
    by (by rewrite (probe_sizes_of forced), list_lookup_fmap, Hp).
  destruct (probe_judged forced t i p (probe_open (pb_size p)) Hp) as [Hj _].
  destruct (pb_work p t _) as [v m]. split.
  - intros (Hm & -> & Hi). exists (pb_size p), m. split_and!; try done. by apply Hj.
  - intros (size & m' & Hs' & Hm & Hr & Hi). rewrite Hs in Hs'. injection Hs' as <-.
    apply Hj in Hr as [= -> ->]. done.
Qed.

Lemma probe_differs_foreign forced t i p :
  probes forced !! i = Some p -> (probe_differs t p <-> probe_foreign forced t i).
Proof.
  intros Hp. unfold probe_differs, probe_foreign.
  destruct (probe_judged forced t i p (probe_open (pb_size p)) Hp) as [Hj Hn].
  destruct (pb_work p t _) as [v m] eqn:E. cbn [fst] in Hn. split.
  - intros (Hm & Hv). exists p. rewrite E. split_and!; [done..|].
    destruct Hv as [->|Hv]; [|by left]. right. split; [by intros ?%Hn|].
    by intros m' ?%Hj.
  - intros (q & Hq & Hm & Hv). rewrite Hp in Hq. injection Hq as <-. rewrite E in Hv.
    split; [done|]. destruct Hv as [Hv|[Hs Hr]]; [by right|left].
    destruct v; [destruct (Hr m); by apply Hj|done|destruct Hs; by apply Hn].
Qed.

Lemma probes_below forced i : (exists p, probes forced !! i = Some p) <-> (i < 6)%nat.
Proof. rewrite <- (lookup_lt_is_Some (probes forced)). reflexivity. Qed.

Lemma probes_pass forced t :
  run_probes t (probes forced) = EHEM_OK <->
  forall i, (i < 6)%nat -> probe_sound forced (t + i) i.
Proof.
  rewrite run_probes_ok. split.
  - intros H i [p Hp]%(probes_below forced). by apply (probe_passes_sound _ _ _ _ Hp), H.
  - intros H i p Hp. apply (probe_passes_sound _ _ _ _ Hp), H, (probes_below forced). by exists p.
Qed.

Lemma probes_differ forced t :
  run_probes t (probes forced) = EHEM_ERR_BACKEND_MISMATCH <->
  exists i, probe_foreign forced (t + i) i /\
    forall j, (j < i)%nat -> probe_sound forced (t + j) j.
Proof.
  rewrite run_probes_mismatch. split.
  - intros (i & p & Hp & Hf & Hs). exists i. split; [by apply (probe_differs_foreign _ _ _ _ Hp)|].
    intros j Hj. destruct (proj2 (probes_below forced j)) as [q Hq].
    { enough (i < 6)%nat by lia. apply (probes_below forced). by exists p. }
    by apply (probe_passes_sound _ _ _ _ Hq), (Hs j q).
  - intros (i & Hf & Hs). pose proof Hf as (p & Hp & _). exists i, p.
    split; [done|]. split; [by apply (probe_differs_foreign _ _ _ _ Hp)|].
    intros j q Hj Hq. by apply (probe_passes_sound _ _ _ _ Hq), Hs.
Qed.

(** The library's own reference count: initialisations that succeeded, less
    the clean-ups. *)
Fixpoint references (ev : list wc_global) : Z :=
  match ev with
  | [] => 0
  | GlobalInit rc :: ev => (if rc =? 0 then 1 else 0) + references ev
  | GlobalCleanup :: ev => references ev - 1
  end.

(** C22: the compatibility check accepts exactly a library that reports the very
    version the SDK was compiled against, initialises, and passes the six probes:
    the RFC 4231 HMAC, 16 random bytes, the fields of the probe certificate, the
    FIPS 197 AES block, an Ed25519 and - where compiled in - an Ed448 signature,
    each by its own chain of successful library calls, none of which writes
    outside the bytes the SDK allots to the struct.  It reports a mismatch
    exactly for another version or when, all earlier probes being sound, one
    writes outside its struct or answers otherwise (a lack of entropy apart).
    After success the SDK holds one reference to the library, after any failure
    none, and a library of another version has not been touched.
    [ehem_global_init] on this backend succeeds only if it did. *)
Theorem backend_check (forced : Z) (t : nat) :
  let '(rc, ev) := ehem_crypto_backend_global_init forced t in
  (rc = EHEM_OK <->
     loaded_version forced = LIBWOLFSSL_VERSION_HEX /\ wolfCrypt_Init t = 0 /\
     forall i, (i < 6)%nat -> probe_sound forced (S t + i) i) /\
  (rc = EHEM_ERR_BACKEND_MISMATCH <->
     loaded_version forced <> LIBWOLFSSL_VERSION_HEX \/
     (wolfCrypt_Init t = 0 /\
      exists i, probe_foreign forced (S t + i) i /\
        forall j, (j < i)%nat -> probe_sound forced (S t + j) j)) /\
  references ev = (if decide (rc = EHEM_OK) then 1 else 0) /\
  (loaded_version forced <> LIBWOLFSSL_VERSION_HEX -> ev = []) /\
  (forall P (w : @world (wolf_platform P forced)),
     w_tick w = t -> w_global_ready w = false ->
     fst (ehem_global_init w) = Ok tt -> rc = EHEM_OK).
Proof.
  destruct (ehem_crypto_backend_global_init forced t) as [rc ev] eqn:E.
  assert (forall P (w : @world (wolf_platform P forced)),
     w_tick w = t -> w_global_ready w = false ->
     fst (ehem_global_init w) = Ok tt -> rc = EHEM_OK) as HW.
  { intros P w Ht Hr. unfold ehem_global_init, bind, get_global_ready, ask, check_rc.
    rewrite Hr. cbn. rewrite Ht, E. cbn. by destruct rc. }
  unfold ehem_crypto_backend_global_init in E.
  destruct (Z.eqb_spec (loaded_version forced) LIBWOLFSSL_VERSION_HEX) as [Ev|Ev];
    cbn [negb] in E; [|injection E as <- <-; cbn; intuition congruence].
  destruct (Z.eqb_spec (wolfCrypt_Init t) 0) as [Ei|Ei]; cbn [negb] in E.
  2:{ injection E as <- <-. cbn. destruct (Z.eqb_spec (wolfCrypt_Init t) 0); intuition congruence. }
  pose proof (probes_pass forced (S t)) as Hok. pose proof (probes_differ forced (S t)) as Hmis.
  unfold run_struct_probes in E. rewrite Ei in E.
  destruct (run_probes (S t) (probes forced)); injection E as <- <-; cbn; intuition congruence.
Qed.

(** A generator that finds no entropy is reported as "no memory", although
    nothing failed to be allocated. *)
Lemma entropy_failure_is_nomem forced t rc m :
  loaded_version forced = LIBWOLFSSL_VERSION_HEX -> wolfCrypt_Init t = 0 ->
  probe_sound forced (S t) 0 ->
  wc_malloc (S (S t)) = true ->
  wc_InitRng (S (S t)) PROBE_LEAD (probe_open sizeof_WC_RNG) = (rc, m) -> rc <> 0 ->
  intact sizeof_WC_RNG m ->
  fst (ehem_crypto_backend_global_init forced t) = EHEM_ERR_NOMEM.
Proof.
  intros Hv Hi Hp Hm Hr Hrc Hb%probe_close_intact.
  pose proof (proj2 (probe_passes_sound forced (S t) 0 _ eq_refl) Hp) as Hq%run_probe_passes.
  assert (run_struct_probes forced (S t) = EHEM_ERR_NOMEM) as Hrun.
  { unfold run_struct_probes, probes. cbn [run_probes]. rewrite Hq.
    unfold run_probe at 1. rewrite Hm. cbn [negb pb_work pb_size]. unfold rng_work. rewrite Hr.
    apply Z.eqb_neq in Hrc as ->. cbn [negb]. by rewrite Hb. }
  unfold ehem_crypto_backend_global_init. rewrite Hv, Z.eqb_refl, Hi. cbn [negb Z.eqb].
  by rewrite Hrun.
Qed.
End Check.

(** ** X25519 *)

Section X25519.
Context {WC : WolfCrypt}.

Lemma clamp_low_idem x : Z.land (Z.land x 248) 248 = Z.land x 248.
Proof. by rewrite <- Z.land_assoc. Qed.

Lemma clamp_high_idem x :
  Z.lor (Z.land (Z.lor (Z.land x 127) 64) 127) 64 = Z.lor (Z.land x 127) 64.
Proof. by rewrite Z.land_lor_distr_l, <- Z.land_assoc, <- Z.lor_assoc. Qed.

Lemma clamp_idem k : clamp (clamp k) = clamp k.
Proof.
  unfold clamp. rewrite (list_alter_alter_ne _ _ _ 0%nat 31%nat) by lia.
  rewrite !list_alter_alter_eq.
  apply list_alter_ext; [intros x _; apply clamp_high_idem|].
  apply list_alter_ext; [intros x _; apply clamp_low_idem|done].
Qed.

Lemma length_clamp k : length (clamp k) = length k.
Proof. unfold clamp. by rewrite !length_alter. Qed.

(** The clamped copy [x25519_scalarmult] makes is the one its caller made. *)
Lemma x25519_clamped s u :
  x25519_scalarmult (clamp (take EHEM_X25519_KEYSIZE s)) u = x25519_scalarmult s u.
Proof.
  unfold x25519_scalarmult. rewrite (take_ge (clamp _)), clamp_idem; [done|].
  rewrite length_clamp, length_take. lia.
Qed.

Lemma ok_or_protocol_ok rc : ok_or_protocol rc = EHEM_OK <-> rc = 0.
Proof. unfold ok_or_protocol. by destruct (Z.eqb_spec rc 0). Qed.

Lemma keypair_ok s a pa :
  ehem_x25519_keypair_from_seed (Some s) true = (EHEM_OK, (a, pa)) ->
  a = clamp (take EHEM_X25519_KEYSIZE s) /\ wc_curve25519_generic a basepoint = (0, pa).
Proof.
  unfold ehem_x25519_keypair_from_seed. rewrite x25519_clamped. unfold x25519_scalarmult.
  destruct (wc_curve25519_generic _ basepoint) as [rc pub] eqn:E. cbn.
  intros [= Hrc Ha <-]. rewrite bool_decide_true in Ha by done. subst a.
  apply ok_or_protocol_ok in Hrc as ->. done.
Qed.

(** the two sides of a key exchange derive the same secret, for any two
    seeds from which the SDK makes key pairs: the private key it hands out is
    the scalar the public key was computed with, so that using it as a scalar
    again, or the raw seed in its place, changes nothing, and a private key
    regenerates its own pair.  The hypothesis is RFC 7748: on clamped scalars
    the library's scalar multiplication satisfies Diffie-Hellman. *)
Theorem x25519_agreement (sa sb a pa b pb : bytes) :
  (forall x y px py, length x = EHEM_X25519_KEYSIZE -> length y = EHEM_X25519_KEYSIZE ->
     wc_curve25519_generic (clamp x) basepoint = (0, px) ->
     wc_curve25519_generic (clamp y) basepoint = (0, py) ->
     wc_curve25519_generic (clamp x) py = wc_curve25519_generic (clamp y) px) ->
  length sa = EHEM_X25519_KEYSIZE -> length sb = EHEM_X25519_KEYSIZE ->
  ehem_x25519_keypair_from_seed (Some sa) true = (EHEM_OK, (a, pa)) ->
  ehem_x25519_keypair_from_seed (Some sb) true = (EHEM_OK, (b, pb)) ->
  ehem_x25519_shared (Some a) (Some pb) true = ehem_x25519_shared (Some b) (Some pa) true /\
  ehem_x25519_shared (Some sa) (Some pb) true = ehem_x25519_shared (Some a) (Some pb) true /\
  ehem_x25519_keypair_from_seed (Some a) true = (EHEM_OK, (a, pa)).
Proof.
  intros Hdh La Lb Ka Kb.
  pose proof (keypair_ok _ _ _ Ka) as [-> Pa]. pose proof (keypair_ok _ _ _ Kb) as [-> Pb].
  cbn [ehem_x25519_shared]. rewrite !x25519_clamped. split; [|split; [done|]].
  - unfold x25519_scalarmult. rewrite !take_ge in * by lia.
    by rewrite (Hdh sa sb pa pb La Lb Pa Pb).
  - rewrite <- Ka. cbn [ehem_x25519_keypair_from_seed].
    rewrite (take_ge (clamp _)), clamp_idem; [done|].
    rewrite length_clamp, length_take. lia.
Qed.
End X25519.

(** ** Local verification *)

Section Verdicts.
Context {WC : WolfCrypt}.

(** The library's answer to the verification of exactly these arguments. *)
Definition ecdsa_answer (t : nat) (curve : ehem_ecdsa_curve) (pub msg sig : option bytes)
    (msg_len : Z) (out : bool) (res : Z) : Prop :=
  exists p s key,
    pub = Some p /\ p <> [] /\ sig = Some s /\ s <> [] /\ out = true /\
    (msg = None -> msg_len = 0) /\ wc_malloc t = true /\
    wc_ecc_import_x963_ex p (fst (ecdsa_curve_params curve)) = (0, key) /\
    wc_SignatureVerify (snd (ecdsa_curve_params curve)) msg s key = res.

(** The goal of a branch whose condition contradicts [ecdsa_answer]. *)
Ltac no_answer :=
  right; split; [by intros res (?&?&?&?&?&?&?&?&?&?&_); simplify_eq | by eauto].

Lemma ecdsa_runs t curve pub msg sig msg_len out :
  NOT_COMPILED_IN <> 0 ->
  (exists res, ecdsa_answer t curve pub msg sig msg_len out res /\
     ehem_ecdsa_verify t curve pub msg msg_len sig out =
       if res =? 0 then (EHEM_OK, Some 1)
       else if (res =? SIG_VERIFY_E) || (res =? ASN_PARSE_E) || (res =? ASN_ECC_KEY_E)
       then (EHEM_OK, Some 0)
       else (EHEM_ERR_PROTOCOL, Some 0)) \/
  ((forall res, ~ ecdsa_answer t curve pub msg sig msg_len out res) /\
   exists rc v, ehem_ecdsa_verify t curve pub msg msg_len sig out = (rc, v) /\
     rc <> EHEM_OK /\ v <> Some 1).
Proof.
  intros Hn. unfold ehem_ecdsa_verify, arg, ecdsa_answer.
  destruct pub as [[|p0 p]|], sig as [[|s0 s]|];
    try no_answer.
  destruct out; cbn [negb orb]; [|no_answer].
  destruct (bool_decide (msg = None) && negb (msg_len =? 0)) eqn:Em.
  { apply andb_true_iff in Em as [->%bool_decide_eq_true Em].
    right; split; [|by eauto].
    intros res (?&?&?&_&_&_&_&_&Hm&_). specialize (Hm eq_refl). subst. done. }
  destruct (ecdsa_curve_params curve) as [curve_id hash]. cbn [fst snd].
  destruct (wc_malloc t); cbn [negb]; [|no_answer].
  destruct (wc_ecc_import_x963_ex _ curve_id) as [rc key] eqn:Ei.
  destruct (Z.eqb_spec rc NOT_COMPILED_IN) as [->|_].
  { right; split; [|by eauto]. intros res (?&?&?&[= <-]&_&_&_&_&_&_&Hi&_). rewrite Ei in Hi. congruence. }
  destruct (Z.eqb_spec rc 0) as [->|Hrc].
  2:{ right; split; [|by eauto]. intros res (?&?&?&[= <-]&_&_&_&_&_&_&Hi&_). rewrite Ei in Hi. congruence. }
  left. eexists. split; [|reflexivity].
  exists (p0 :: p), (s0 :: s), key. repeat split; try done.
  intros ->. cbn in Em. by destruct (Z.eqb_spec msg_len 0).
Qed.

Lemma ecdsa_answer_unique t curve pub msg sig msg_len out r1 r2 :
  ecdsa_answer t curve pub msg sig msg_len out r1 ->
  ecdsa_answer t curve pub msg sig msg_len out r2 -> r1 = r2.
Proof.
  intros (?&?&?&->&_&->&_&_&_&_&E1&<-) (?&?&?&[= <-]&_&[= <-]&_&_&_&_&E2&<-). congruence.
Qed.

(** C23: a local verification answers "valid" exactly when the library imported
    the public key on the requested curve and accepted the very signature and
    message under the curve's paired digest.  [EHEM_OK] always comes with a
    verdict, and every failure (no memory, a missing feature, a failing
    library, a bad argument) leaves the verdict anything but "valid".  A
    signature that is not DER at all is answered "invalid" with [EHEM_OK]. *)
Theorem ecdsa_verify_verdict (t : nat) (curve : ehem_ecdsa_curve) (pub msg sig : option bytes)
    (msg_len : Z) (out : bool) :
  Forall (fun e => e <> 0) [NOT_COMPILED_IN; SIG_VERIFY_E; ASN_PARSE_E; ASN_ECC_KEY_E] ->
  let '(rc, v) := ehem_ecdsa_verify t curve pub msg msg_len sig out in
  let answer := ecdsa_answer t curve pub msg sig msg_len out in
  (v = Some 1 <-> answer 0) /\
  (rc = EHEM_OK -> v = Some 1 \/ v = Some 0) /\
  (rc <> EHEM_OK -> v <> Some 1) /\
  (rc = EHEM_OK /\ v = Some 0 <->
     answer SIG_VERIFY_E \/ answer ASN_PARSE_E \/ answer ASN_ECC_KEY_E).
Proof.
  rewrite !Forall_cons. intros (Hn & Hs & Hp & Hk & _).
  destruct (ecdsa_runs t curve pub msg sig msg_len out Hn)
    as [(res & Ha & ->)|(Hno & rc & v & -> & Hrc & Hv)];
    [|split_and!; try done; [split; [done|by intros ?%Hno]|split; [by intros [? _]|]];
      by intros [?%Hno|[?%Hno|?%Hno]]].
  assert (forall r, ecdsa_answer t curve pub msg sig msg_len out r <-> res = r) as Hr.
  { intros r. split; [|by intros <-]. by apply ecdsa_answer_unique. }
  destruct (Z.eqb_spec res 0) as [->|H0]; [|
    destruct (Z.eqb_spec res SIG_VERIFY_E), (Z.eqb_spec res ASN_PARSE_E),
      (Z.eqb_spec res ASN_ECC_KEY_E)]; cbn [orb]; cbv zeta;
    rewrite !Hr; split_and!; first [done | intuition (congruence || auto)].
Qed.
End Verdicts.

(** ** Dates *)

Lemma dec_pad_below (w : nat) (n : nat) :
  forallb (fun v => String.length (dec_pad w (Z.of_nat v)) =? w)%nat (seq 0 n) = true ->
  forall v, 0 <= v < Z.of_nat n -> String.length (dec_pad w v) = w.
Proof.
  intros Hall v Hv. rewrite forallb_forall in Hall.
  specialize (Hall (Z.to_nat v)). rewrite Z2Nat.id in Hall by lia.
  apply Nat.eqb_eq, Hall, in_seq. lia.
Qed.

Lemma dec_pad2 v : String.length (dec_pad 2 (clamp_digits v 100)) = 2%nat.
Proof.
  apply (dec_pad_below 2 100); [vm_compute; reflexivity|]. unfold clamp_digits.
  apply Z.mod_pos_bound. lia.
Qed.

Lemma dec_pad4 v : String.length (dec_pad 4 (clamp_digits v 10000)) = 4%nat.
Proof.
  apply (dec_pad_below 4 (Z.to_nat 10000)); [vm_compute; reflexivity|]. unfold clamp_digits.
  rewrite Z2Nat.id by lia. apply Z.mod_pos_bound. lia.
Qed.

(** Every calendar time, in range or not, is written in full into the field of
    the certificate record: 20 characters and a NUL. *)
Lemma iso_date_fits (t : tm) :
  String.length (ehem_crypto_iso_date (Some t) EHEM_CERT_DATE_CAP) = 20%nat /\
  ehem_crypto_iso_date (Some t) EHEM_CERT_DATE_CAP = ehem_crypto_iso_date (Some t) 1000.
Proof.
  unfold ehem_crypto_iso_date.
  match goal with |- context [snprintf_trunc EHEM_CERT_DATE_CAP ?s] => set (d := s) end.
  assert (String.length d = 20%nat) as Hd.
  { unfold d. rewrite !string_length_app, dec_pad4, !dec_pad2. reflexivity. }
  clearbody d. split; rewrite !snprintf_trunc_fits; rewrite ?Hd; unfold EHEM_CERT_DATE_CAP; lia || done.
Qed.

(** ** A library that passes the check *)

Definition sample_time (d : bytes) : tm :=
  if hd 0 d =? 0
  then {| tm_sec := 32; tm_min := 53; tm_hour := 19; tm_mday := 12; tm_mon := 9; tm_year := 126 |}
  else {| tm_sec := 32; tm_min := 53; tm_hour := 19; tm_mday := 18; tm_mon := 8; tm_year := 226 |}.

Definition sample_wolf : WolfCrypt := {|
  LIBWOLFSSL_VERSION_HEX := 84377602;
  wolfSSL_lib_version_hex := 84377602;
  wolfCrypt_Init _ := 0;
  wc_malloc _ := true;
  stack_mem _ := [];
  NOT_COMPILED_IN := -174;
  SIG_VERIFY_E := -229;
  ASN_PARSE_E := -140;
  ASN_ECC_KEY_E := -171;
  sizeof_Hmac := 784;
  sizeof_WC_RNG := 32;
  sizeof_DecodedCert := 1048;
  sizeof_Aes := 816;
  sizeof_ed25519_key := 112;
  sizeof_ed448_key := 192;
  wc_PBKDF2 _ _ _ n _ := (0, repeat 7 (Z.to_nat n));
  wc_Sha256Hash _ := (0, repeat 12 32);
  wc_curve25519_generic k u := (0, hd 0 k * hd 0 u :: repeat 0 31);
  wc_HmacInit _ m := (0, m);
  wc_HmacSetKey _ _ m := (0, m);
  wc_HmacUpdate _ _ m := (0, m);
  wc_HmacFinal _ m := (0, (probe_hmac_expect, m));
  wc_HmacFree _ m := m;
  wc_InitRng _ _ m := (0, m);
  wc_RNG_GenerateBlock _ _ n m := (0, (repeat 4 (Z.to_nat n), m));
  wc_FreeRng _ m := m;
  wc_InitDecodedCert _ _ m := m;
  wc_ParseCert _ m := (0, m);
  cert_view _ _ := {| dc_serial := [1; 2; 3; 4; 5]; dc_subjectCN := Some (bytes_of_string "ehem-probe");
                      dc_beforeDate := Some [0]; dc_afterDate := Some [1] |};
  wc_FreeDecodedCert _ m := m;
  wc_GetDateInfo d := (0, (d, 0));
  wc_GetDateAsCalendarTime d _ := (0, sample_time d);
  wc_AesInit _ m := (0, m);
  wc_AesSetKey _ _ _ _ m := (0, m);
  wc_AesCbc _ _ _ m := (0, (probe_aes_expect, m));
  wc_AesFree _ m := m;
  wc_ed25519_init _ m := (0, m);
  wc_ed25519_import_public _ _ m := (0, m);
  wc_ed25519_verify_msg _ _ _ m := (0, (1, m));
  wc_ed25519_free _ m := m;
  wc_ed448_init _ m := (0, m);
  wc_ed448_import_public _ _ m := (0, m);
  wc_ed448_verify_msg _ _ _ m := (0, (1, m));
  wc_ed448_free _ m := m;
  ecc_key := unit;
  wc_ecc_import_x963_ex _ _ := (0, tt);
  wc_SignatureVerify _ _ s _ := if hd 0 s =? 48 then 0 else -140
|}.

(** The sample library is accepted, and each of its probes is sound. *)
Lemma backend_check_witness :
  fst (@ehem_crypto_backend_global_init sample_wolf 0 0) = EHEM_OK /\
  (forall i, (i < 6)%nat -> @probe_sound sample_wolf 0 (1 + i) i).
Proof.
  pose proof (@backend_check sample_wolf 0 0) as B.
  assert (@ehem_crypto_backend_global_init sample_wolf 0 0 = (EHEM_OK, [GlobalInit 0])) as E
    by (vm_compute; reflexivity).
  rewrite E in B. destruct B as [[B _] _]. rewrite E. split; [reflexivity|].
  apply B. reflexivity.
Defined.

Lemma x25519_agreement_witness :
  @ehem_x25519_shared sample_wolf (Some (clamp (repeat 255 32))) (Some (8 * 9 :: repeat 0 31)) true =
  @ehem_x25519_shared sample_wolf (Some (clamp (repeat 15 32))) (Some (248 * 9 :: repeat 0 31)) true.
Proof.
  apply (@x25519_agreement sample_wolf (repeat 255 32) (repeat 15 32)); try reflexivity.
  intros x y px py _ _. cbn [wc_curve25519_generic sample_wolf].
  generalize (clamp x) (clamp y). intros k l Ek%(f_equal snd) El%(f_equal snd).
  cbn [snd] in Ek, El. subst px py. cbn [hd basepoint]. do 2 f_equal. ring.
Defined.

Lemma ecdsa_verify_verdict_witness :
  @ehem_ecdsa_verify sample_wolf 0 EHEM_ECDSA_SECP256R1 (Some [2]) None 0 (Some [1]) true =
    (EHEM_OK, Some 0) /\
  @ecdsa_answer sample_wolf 0 EHEM_ECDSA_SECP256R1 (Some [2]) None (Some [48]) 0 true 0.
Proof.
  assert (Forall (fun e => e <> 0) [@NOT_COMPILED_IN sample_wolf; @SIG_VERIFY_E sample_wolf;
    @ASN_PARSE_E sample_wolf; @ASN_ECC_KEY_E sample_wolf]) as Hc
    by (cbn; repeat constructor; lia).
  split; [vm_compute; reflexivity|].
  apply (@ecdsa_verify_verdict sample_wolf 0 EHEM_ECDSA_SECP256R1 (Some [2]) None (Some [48]) 0
           true Hc). vm_compute. reflexivity.
Defined.
