(* ===== verification/Ossl.v ===== *)
(** * The OpenSSL 3 adapter: [src/crypto_shim_openssl.c]

    The alternative backend of the shim ([EHEM_CRYPTO_BACKEND=openssl]) over the
    class [OpenSSL] of what libcrypto does.  Its objects are opaque and the
    library's own; what the shim shares with the rest of the process is the
    thread's error queue, which libcurl reads too.  The operations therefore run
    in the monad [E]: the state is whether the queue holds an entry.  As the
    source says, a failing call may leave one and [ERR_clear_error] empties it. *)

From S2P Require Import Prelude World Ejwt Checkin Context Wolf.

(** ** The error queue *)

Definition E (A : Type) : Type := bool -> A * bool.
#[export] Instance E_ret : MRet E := fun A a q => (a, q).
#[export] Instance E_bind : MBind E := fun A B f m q => let (a, q) := m q in f a q.

#[export] Instance E_fmap : FMap E := fun A B f m q => let (a, q) := m q in (f a, q).

Definition ERR_clear_error : E unit := fun _ => (tt, false).

(** A library call with result [r]: a failing one leaves an entry. *)
Definition call {A} (ok : A -> bool) (r : A) : E A := fun q => (r, q || negb (ok r)).
Definition is_one {A} (r : Z * A) : bool := fst r =? 1.
Definition not_null {A} (r : option A) : bool := bool_decide (is_Some r).

Inductive evp_md := EVP_sha256 | EVP_sha384 | EVP_sha512.
Inductive pkey_type := EVP_PKEY_X25519 | EVP_PKEY_ED25519 | EVP_PKEY_ED448.

(** The functions that allocate or draw entropy are given the tick of the call.
    Output lengths are the lengths of the outputs. *)
Class OpenSSL := {
  OPENSSL_VERSION_MAJOR : Z;
  OPENSSL_version_major : Z;
  OPENSSL_init_crypto : nat -> Z;
  PKCS5_PBKDF2_HMAC : bytes -> bytes -> Z -> evp_md -> Z -> Z * bytes;
  EVP_Digest : bytes -> Z * bytes;
  RAND_bytes : nat -> Z -> Z * bytes;
  EVP_Q_mac : bytes -> bytes -> option bytes;
  EVP_PKEY : Type;
  EVP_PKEY_new_raw_private_key : nat -> pkey_type -> bytes -> option EVP_PKEY;
  EVP_PKEY_new_raw_public_key : nat -> pkey_type -> bytes -> option EVP_PKEY;
  EVP_PKEY_get_raw_public_key : EVP_PKEY -> Z * bytes;
  EVP_PKEY_CTX : Type;
  EVP_PKEY_CTX_new : nat -> EVP_PKEY -> option EVP_PKEY_CTX;
  EVP_PKEY_derive_init : EVP_PKEY_CTX -> Z * EVP_PKEY_CTX;
  EVP_PKEY_derive_set_peer : EVP_PKEY -> EVP_PKEY_CTX -> Z * EVP_PKEY_CTX;
  EVP_PKEY_derive : EVP_PKEY_CTX -> Z * bytes;
  EVP_PKEY_CTX_new_from_name : nat -> option EVP_PKEY_CTX;
  EVP_PKEY_fromdata_init : EVP_PKEY_CTX -> Z * EVP_PKEY_CTX;
  EVP_PKEY_fromdata : string -> bytes -> EVP_PKEY_CTX -> Z * EVP_PKEY;
  EVP_MD_CTX : Type;
  EVP_MD_CTX_new : nat -> option EVP_MD_CTX;
  EVP_DigestVerifyInit : option evp_md -> EVP_PKEY -> EVP_MD_CTX -> Z * EVP_MD_CTX;
  EVP_DigestVerify : bytes -> bytes -> EVP_MD_CTX -> Z;
  ECDSA_SIG : Type;
  d2i_ECDSA_SIG : bytes -> option ECDSA_SIG;
  i2d_ECDSA_SIG : ECDSA_SIG -> Z * bytes;
  X509 : Type;
  ASN1_TIME : Type;
  d2i_X509 : bytes -> option X509;
  X509_get0_serialNumber : X509 -> option bytes;
  X509_common_name : X509 -> Z -> Z * bytes;
  X509_get0_notBefore : X509 -> option ASN1_TIME;
  X509_get0_notAfter : X509 -> option ASN1_TIME;
  ASN1_TIME_to_tm : ASN1_TIME -> Z * tm;
  EVP_CIPHER_CTX : Type;
  EVP_CIPHER_CTX_new : nat -> option EVP_CIPHER_CTX;
  EVP_CipherInit_aes128cbc : bytes -> bytes -> bool -> EVP_CIPHER_CTX -> Z * EVP_CIPHER_CTX;
  EVP_CIPHER_CTX_set_padding : Z -> EVP_CIPHER_CTX -> Z * EVP_CIPHER_CTX;
  EVP_CipherUpdate : bytes -> EVP_CIPHER_CTX -> Z * (bytes * EVP_CIPHER_CTX);
  EVP_CipherFinal_ex : EVP_CIPHER_CTX -> Z * bytes
}.

Definition blen (b : bytes) : Z := Z.of_nat (length b).

Definition hmac_expect : bytes := [
  176; 52; 76; 97; 216; 219; 56; 83; 92; 168; 175; 206; 175; 11; 241; 43; 136; 29; 194; 0;
  201; 131; 61; 167; 38; 233; 55; 108; 46; 50; 207; 247].
Definition hmac_key : bytes := repeat 11 20.
Definition sha_expect : bytes := [
  186; 120; 22; 191; 143; 1; 207; 234; 65; 65; 64; 222; 93; 174; 34; 35; 176; 3; 97; 163;
  150; 23; 122; 156; 180; 16; 255; 97; 242; 0; 21; 173].

Definition ecdsa_group (c : ehem_ecdsa_curve) : string * evp_md :=
  match c with
  | EHEM_ECDSA_SECP256R1 => ("prime256v1", EVP_sha256)
  | EHEM_ECDSA_SECP384R1 => ("secp384r1", EVP_sha384)
  | EHEM_ECDSA_SECP521R1 => ("secp521r1", EVP_sha512)
  | EHEM_ECDSA_SECP256K1 => ("secp256k1", EVP_sha256)
  end.

Section Ossl.
Context {OS : OpenSSL}.

Definition engine_failure : E ehem_rc :=
  _ ← ERR_clear_error; mret EHEM_ERR_PROTOCOL.

Definition fails_with {A} (rc : ehem_rc) (a : A) : E (ehem_rc * A) := mret (rc, a).
Definition engine_fails {A} (a : A) : E (ehem_rc * A) :=
  rc ← engine_failure; mret (rc, a).

(** ** Hashes, key derivation, entropy *)

Definition pbkdf2 (md : evp_md) (passwd salt : option bytes) (iterations : Z)
    (out : bool) (out_len : Z) : E (ehem_rc * bytes) :=
  match passwd, salt with
  | Some passwd, Some salt =>
      if negb out || (out_len =? 0) || (iterations =? 0) then fails_with EHEM_ERR_ARG []
      else if (INT_MAX <? blen passwd) || (INT_MAX <? blen salt) || (INT_MAX <? out_len) ||
              (INT_MAX <? iterations)
      then fails_with EHEM_ERR_PROTOCOL []
      else
        r ← call is_one (PKCS5_PBKDF2_HMAC passwd salt iterations md out_len);
        if is_one r then mret (EHEM_OK, snd r) else engine_fails (snd r)
  | _, _ => fails_with EHEM_ERR_ARG []
  end.
Definition ehem_kdf_pbkdf2_sha256 := pbkdf2 EVP_sha256.
Definition ehem_kdf_pbkdf2_sha512 := pbkdf2 EVP_sha512.

Definition ehem_sha256 (inp : option bytes) (in_len : Z) (out : bool) : E (ehem_rc * bytes) :=
  if negb out || (bool_decide (inp = None) && negb (in_len =? 0)) then fails_with EHEM_ERR_ARG []
  else
    r ← call is_one (EVP_Digest (default [] inp));
    if negb (is_one r) || negb (length (snd r) =? EHEM_SHA256_SIZE)%nat
    then engine_fails (snd r)
    else mret (EHEM_OK, snd r).

(** [while (n > 0)]; [None] is fuel that did not suffice. *)
Fixpoint random_chunks (fuel : nat) (t : nat) (n : Z) (out : bytes)
  : E (option (ehem_rc * bytes)) :=
  if 0 <? n then
    match fuel with
    | O => mret None
    | S fuel =>
        let chunk := if INT_MAX <? n then INT_MAX else n in
        r ← call is_one (RAND_bytes t chunk);
        if is_one r then random_chunks fuel (S t) (n - chunk) (out ++ snd r)
        else Some <$> engine_fails (out ++ snd r)
    end
  else mret (Some (EHEM_OK, out)).

Definition ehem_random_bytes (t : nat) (out : bool) (n : Z) : E (option (ehem_rc * bytes)) :=
  if negb out || (n =? 0) then Some <$> fails_with EHEM_ERR_ARG []
  else random_chunks (S (Z.to_nat (n / INT_MAX))) t n [].

Definition ehem_hmac_sha256 (key msg : option bytes) (msg_len : Z) (out : bool)
  : E (ehem_rc * bytes) :=
  match key with
  | Some key =>
      if negb out || (bool_decide (msg = None) && negb (msg_len =? 0))
      then fails_with EHEM_ERR_ARG []
      else
        r ← call not_null (EVP_Q_mac key (default [] msg));
        match r with
        | Some mac =>
            if (length mac =? EHEM_SHA256_SIZE)%nat then mret (EHEM_OK, mac)
            else engine_fails mac
        | None => engine_fails []
        end
  | None => fails_with EHEM_ERR_ARG []
  end.

(** ** X25519 *)

Definition ehem_x25519_keypair_from_seed (t : nat) (seed : option bytes) (pub_out : bool)
  : E (ehem_rc * (bytes * bytes)) :=
  match seed with
  | None => fails_with EHEM_ERR_ARG ([], [])
  | Some seed =>
      let priv := clamp (take EHEM_X25519_KEYSIZE seed) in
      if negb pub_out then mret (EHEM_OK, (priv, []))
      else
        pk ← call not_null (EVP_PKEY_new_raw_private_key t EVP_PKEY_X25519 priv);
        match pk with
        | None => engine_fails ([], [])
        | Some pk =>
            r ← call is_one (EVP_PKEY_get_raw_public_key pk);
            if is_one r && (length (snd r) =? EHEM_X25519_KEYSIZE)%nat
            then mret (EHEM_OK, (priv, snd r))
            else engine_fails ([], snd r)
        end
  end.

(** The chain of conditions after the two imports. *)
Definition x25519_derive (t : nat) (mine peer : EVP_PKEY) : E (option bytes) :=
  ctx ← call not_null (EVP_PKEY_CTX_new t mine);
  match ctx with
  | None => mret None
  | Some ctx =>
      r ← call is_one (EVP_PKEY_derive_init ctx);
      if negb (is_one r) then mret None
      else
        r ← call is_one (EVP_PKEY_derive_set_peer peer (snd r));
        if negb (is_one r) then mret None
        else
          r ← call is_one (EVP_PKEY_derive (snd r));
          mret (if is_one r && (length (snd r) =? EHEM_X25519_KEYSIZE)%nat
                then Some (snd r) else None)
  end.

Definition ehem_x25519_shared (t : nat) (priv peer_pub : option bytes) (out : bool)
  : E (ehem_rc * bytes) :=
  match priv, peer_pub with
  | Some priv, Some peer_pub =>
      if negb out then fails_with EHEM_ERR_ARG []
      else
        mine ← call not_null (EVP_PKEY_new_raw_private_key t EVP_PKEY_X25519
                                (take EHEM_X25519_KEYSIZE priv));
        peer ← call not_null (EVP_PKEY_new_raw_public_key t EVP_PKEY_X25519
                                (take EHEM_X25519_KEYSIZE peer_pub));
        r ← match mine, peer with
            | Some mine, Some peer => x25519_derive t mine peer
            | _, _ => mret None
            end;
        match r with
        | Some secret => mret (EHEM_OK, secret)
        | None => engine_fails []
        end
  | _, _ => fails_with EHEM_ERR_ARG []
  end.

(** ** Certificates *)

Definition asn1_time_to_iso (tm' : option ASN1_TIME) (cap : nat) : E string :=
  match tm' with
  | None => _ ← ERR_clear_error; mret ""
  | Some tm' =>
      r ← call is_one (ASN1_TIME_to_tm tm');
      if is_one r then mret (ehem_crypto_iso_date (Some (snd r)) cap)
      else _ ← ERR_clear_error; mret ""
  end.

Definition ehem_cert_parse_leaf (der : option bytes) (out : bool)
  : E (ehem_rc * ehem_cert_fields) :=
  match der with
  | None | Some [] => fails_with EHEM_ERR_ARG fields_zero
  | Some der =>
      if negb out then fails_with EHEM_ERR_ARG fields_zero
      else if 2 ^ 63 - 1 <? blen der then fails_with EHEM_ERR_PROTOCOL fields_zero
      else
        cert ← call not_null (d2i_X509 der);
        match cert with
        | None => engine_fails fields_zero
        | Some cert =>
            let serial :=
              match X509_get0_serialNumber cert with
              | Some s => ehem_serial_hex s EHEM_CERT_SERIAL_HEX_CAP
              | None => ""
              end in
            cn ← call (fun r => negb (fst r <? 0))
                      (X509_common_name cert (Z.of_nat EHEM_CERT_CN_CAP));
            nb ← asn1_time_to_iso (X509_get0_notBefore cert) EHEM_CERT_DATE_CAP;
            na ← asn1_time_to_iso (X509_get0_notAfter cert) EHEM_CERT_DATE_CAP;
            _ ← ERR_clear_error;
            mret (EHEM_OK,
              {| cf_serial_hex := serial;
                 cf_subject_cn := if fst cn <? 0 then ""
                                  else c_str (string_of_bytes (snd cn));
                 cf_not_before := nb;
                 cf_not_after := na |})
        end
  end.

(** ** Local verification *)

(** The code and whether [*valid_out] was raised. *)
Definition digest_verify (t : nat) (key : EVP_PKEY) (md : option evp_md)
    (sig : bytes) (msg : option bytes) : E (ehem_rc * Z) :=
  mctx ← call not_null (EVP_MD_CTX_new t);
  r ← match mctx with
      | None => mret (EHEM_ERR_PROTOCOL, 0)
      | Some mctx =>
          i ← call is_one (EVP_DigestVerifyInit md key mctx);
          if negb (is_one i) then mret (EHEM_ERR_PROTOCOL, 0)
          else
            rc ← call (fun rc => rc =? 1) (EVP_DigestVerify sig (default [] msg) (snd i));
            mret (if rc =? 1 then (EHEM_OK, 1)
                  else if rc =? 0 then (EHEM_OK, 0)
                  else (EHEM_ERR_PROTOCOL, 0))
      end;
  _ ← ERR_clear_error;
  mret r.

Definition ec_public_key (t : nat) (group : string) (point : bytes) : E (option EVP_PKEY) :=
  ctx ← call not_null (EVP_PKEY_CTX_new_from_name t);
  match ctx with
  | None => mret None
  | Some ctx =>
      r ← call is_one (EVP_PKEY_fromdata_init ctx);
      if negb (is_one r) then mret None
      else
        r ← call is_one (EVP_PKEY_fromdata group point (snd r));
        mret (if is_one r then Some (snd r) else None)
  end.

Definition is_der_ecdsa_sig (sig : bytes) : E bool :=
  if 2 ^ 63 - 1 <? blen sig then mret false
  else
    s ← call not_null (d2i_ECDSA_SIG sig);
    ok ← match s with
         | None => mret false
         | Some s =>
             r ← call (fun r => 0 <? fst r) (i2d_ECDSA_SIG s);
             mret ((0 <? fst r) && (fst r =? blen sig) && bool_decide (snd r = sig))
         end;
    _ ← ERR_clear_error;
    mret ok.

Definition ehem_ecdsa_verify (t : nat) (curve : ehem_ecdsa_curve) (pub msg : option bytes)
    (msg_len : Z) (sig : option bytes) (valid_out : bool) : E (ehem_rc * option Z) :=
  match pub, sig with
  | Some ((_ :: _) as pub), Some ((_ :: _) as sig) =>
      if negb valid_out || (bool_decide (msg = None) && negb (msg_len =? 0))
      then fails_with EHEM_ERR_ARG None
      else
        let (group, md) := ecdsa_group curve in
        key ← ec_public_key t group pub;
        match key with
        | None => engine_fails (Some 0)
        | Some key =>
            der ← is_der_ecdsa_sig sig;
            if negb der then mret (EHEM_OK, Some 0)
            else
              r ← digest_verify t key (Some md) sig msg;
              mret (fst r, Some (snd r))
        end
  | _, _ => fails_with EHEM_ERR_ARG None
  end.

Definition eddsa_verify (t : nat) (type : pkey_type) (pub : bytes) (msg : option bytes)
    (sig : bytes) : E (ehem_rc * option Z) :=
  key ← call not_null (EVP_PKEY_new_raw_public_key t type pub);
  match key with
  | None => engine_fails (Some 0)
  | Some key =>
      r ← digest_verify t key None sig msg;
      mret (fst r, Some (snd r))
  end.

Definition ehem_ed25519_verify (t : nat) (pub msg : option bytes) (msg_len : Z)
    (sig : option bytes) (valid_out : bool) : E (ehem_rc * option Z) :=
  match ed_args pub msg msg_len sig EHEM_ED25519_SIG_SIZE valid_out with
  | None => fails_with EHEM_ERR_ARG None
  | Some (pub, msg, sig) =>
      eddsa_verify t EVP_PKEY_ED25519 (take EHEM_ED25519_PUB_SIZE pub) (Some msg) sig
  end.

Definition ehem_ed448_verify (t : nat) (pub msg : option bytes) (msg_len : Z)
    (sig : option bytes) (valid_out : bool) : E (ehem_rc * option Z) :=
  match ed_args pub msg msg_len sig EHEM_ED448_SIG_SIZE valid_out with
  | None => fails_with EHEM_ERR_ARG None
  | Some (pub, msg, sig) =>
      eddsa_verify t EVP_PKEY_ED448 (take EHEM_ED448_PUB_SIZE pub) (Some msg) sig
  end.

(** ** AES-128-CBC *)

Definition aes_blocks (key iv inp : bytes) (enc : bool) (ctx : EVP_CIPHER_CTX)
  : E (option bytes) :=
  r ← call is_one (EVP_CipherInit_aes128cbc key iv enc ctx);
  if negb (is_one r) then mret None
  else
    r ← call is_one (EVP_CIPHER_CTX_set_padding 0 (snd r));
    if negb (is_one r) then mret None
    else
      u ← call is_one (EVP_CipherUpdate inp (snd r));
      if negb (is_one u) then mret None
      else
        f ← call is_one (EVP_CipherFinal_ex (snd (snd u)));
        let res := fst (snd u) ++ snd f in
        mret (if is_one f && (length res =? length inp)%nat then Some res else None).

Definition aes128_cbc_run (t : nat) (enc : bool) (key iv inp : option bytes) (out : bool)
  : E (ehem_rc * bytes) :=
  match key, iv, inp with
  | Some key, Some iv, Some inp =>
      if negb out || (length inp =? 0)%nat ||
         negb (length inp mod EHEM_AES_BLOCK_SIZE =? 0)%nat || (INT_MAX <? blen inp)
      then fails_with EHEM_ERR_ARG []
      else
        ctx ← call not_null (EVP_CIPHER_CTX_new t);
        r ← match ctx with
            | None => mret None
            | Some ctx => aes_blocks (take EHEM_AES128_KEY_SIZE key)
                            (take EHEM_AES_BLOCK_SIZE iv) inp enc ctx
            end;
        match r with
        | Some res => mret (EHEM_OK, res)
        | None => engine_fails []
        end
  | _, _, _ => fails_with EHEM_ERR_ARG []
  end.
Definition ehem_aes128_cbc_encrypt (t : nat) := aes128_cbc_run t true.
Definition ehem_aes128_cbc_decrypt (t : nat) := aes128_cbc_run t false.

(** ** The backend compatibility check *)

Definition known_answers (forced : Z) : E ehem_rc :=
  h ← ehem_hmac_sha256 (Some hmac_key) (Some (bytes_of_string "Hi There")) 8 true;
  if negb (bool_decide (fst h = EHEM_OK)) then mret EHEM_ERR_BACKEND_MISMATCH
  else
    let out := if forced =? EHEM_CRYPTO_FORCE_PROBE then flip_first (snd h) else snd h in
    if negb (bool_decide (out = hmac_expect)) then mret EHEM_ERR_BACKEND_MISMATCH
    else
      s ← ehem_sha256 (Some (bytes_of_string "abc")) 3 true;
      mret (if bool_decide (fst s = EHEM_OK) && bool_decide (snd s = sha_expect)
            then EHEM_OK else EHEM_ERR_BACKEND_MISMATCH).

Definition loaded_major (forced : Z) : Z :=
  if forced =? EHEM_CRYPTO_FORCE_VERSION
  then Z.lxor OPENSSL_version_major 1 else OPENSSL_version_major.

Definition ehem_crypto_backend_global_init (forced : Z) (t : nat) : E ehem_rc :=
  if negb (loaded_major forced =? OPENSSL_VERSION_MAJOR) then mret EHEM_ERR_BACKEND_MISMATCH
  else
    r ← call (fun r => r =? 1) (OPENSSL_init_crypto t);
    if negb (r =? 1) then engine_failure else known_answers forced.

Definition ehem_crypto_backend_global_cleanup : E unit := mret tt.

(** ** The platform built with [EHEM_CRYPTO_BACKEND=openssl]

    Each shim call starts with the empty queue the previous one left
    ([errors_cleared]); fuel never runs out ([random_bytes_returns]). *)

Definition ossl_platform (P : Platform) (forced : Z) : Platform :=
  {| net := @net P;
     p_json := @p_json P;
     p_malloc := @p_malloc P;
     p_time := @p_time P;
     p_crypto_global_init t := fst (ehem_crypto_backend_global_init forced t false);
     p_transport_global_init := @p_transport_global_init P;
     p_transport_default := @p_transport_default P;
     p_kdf_pbkdf2_sha256 _ passwd salt n :=
       fst (ehem_kdf_pbkdf2_sha256 (Some passwd) (Some salt) n true 32 false);
     p_x25519_keypair_from_seed t seed :=
       fst (ehem_x25519_keypair_from_seed t (Some seed) true false);
     p_x25519_shared t priv pub := fst (ehem_x25519_shared t (Some priv) (Some pub) true false);
     p_hmac_sha256 _ key msg := fst (ehem_hmac_sha256 (Some key) (Some msg) (blen msg) true false);
     p_sha256 _ inp := fst (ehem_sha256 (Some inp) (blen inp) true false);
     p_kdf_pbkdf2_sha512 _ passwd salt n :=
       fst (ehem_kdf_pbkdf2_sha512 (Some passwd) (Some salt) n true 64 false);
     p_random_bytes t n :=
       default (EHEM_ERR_PROTOCOL, []) (fst (ehem_random_bytes t true n false));
     p_cert_parse_leaf _ der := fst (ehem_cert_parse_leaf (Some der) true false);
     p_vsnprintf_overlap := @p_vsnprintf_overlap P |}.
End Ossl.
