(* ===== verification/OsslProps.v ===== *)
(** * The OpenSSL adapter keeps its header's promises

    Nothing of the shim's stays on the error queue, the entropy loop returns,
    and the two backends are interchangeable. *)

From S2P Require Import Prelude World Ejwt Checkin Context Fake Wolf WolfProps Ossl.

(** ** The error queue *)

(** From an empty queue to an empty queue. *)
Definition clean {A} (m : E A) : Prop := snd (m false) = false.

(** Walks the branches of an operation: every library call may fail, every
    pointer may be NULL. *)
Ltac queue_step :=
  match goal with
  | |- context [is_one ?r] => destruct (is_one r)
  | |- context [not_null ?r] => destruct r
  | |- context [match ?b with _ => _ end] =>
      lazymatch type of b with prod _ _ => fail | _ => destruct b end
  end; cbn.

Ltac solve_clean :=
  unfold clean, engine_fails, engine_failure, fails_with, ERR_clear_error, call, mret, mbind,
    fmap, E_ret, E_bind, E_fmap in *; cbn;
  repeat first [reflexivity | queue_step].

Section Queue.
Context {OS : OpenSSL}.

Lemma clean_pbkdf2 md passwd salt n out l : clean (pbkdf2 md passwd salt n out l).
Proof. unfold pbkdf2. solve_clean. Qed.

Lemma clean_sha256 inp n out : clean (ehem_sha256 inp n out).
Proof. unfold ehem_sha256. solve_clean. Qed.

Lemma clean_hmac key msg n out : clean (ehem_hmac_sha256 key msg n out).
Proof. unfold ehem_hmac_sha256. solve_clean. Qed.

Lemma clean_random_chunks fuel t n out : clean (random_chunks fuel t n out).
Proof.
  revert t n out. induction fuel as [|fuel IH]; intros t n out; cbn [random_chunks];
    destruct (0 <? n); try done.
  specialize (IH (S t) (n - (if INT_MAX <? n then INT_MAX else n))).
  unfold clean, call, mbind, E_bind in *.
  destruct (is_one (RAND_bytes t _)); [apply IH|reflexivity].
Qed.

Lemma clean_keypair t seed out : clean (ehem_x25519_keypair_from_seed t seed out).
Proof. unfold ehem_x25519_keypair_from_seed. solve_clean. Qed.

Lemma clean_shared t priv peer out : clean (ehem_x25519_shared t priv peer out).
Proof. unfold ehem_x25519_shared, x25519_derive. solve_clean. Qed.

Lemma clean_cert der out : clean (ehem_cert_parse_leaf der out).
Proof. unfold ehem_cert_parse_leaf, asn1_time_to_iso. solve_clean. Qed.

Lemma clean_digest_verify t key md sig msg q : snd (digest_verify t key md sig msg q) = false.
Proof. unfold digest_verify. solve_clean. Qed.

Lemma clean_eddsa t ty pub msg sig : clean (eddsa_verify t ty pub msg sig).
Proof. unfold eddsa_verify, digest_verify. solve_clean. Qed.

Lemma clean_ecdsa t curve pub msg n sig out : clean (ehem_ecdsa_verify t curve pub msg n sig out).
Proof.
  unfold ehem_ecdsa_verify, ec_public_key, is_der_ecdsa_sig, digest_verify.
  destruct (ecdsa_group curve). solve_clean.
Qed.

Lemma clean_aes t enc key iv inp out : clean (aes128_cbc_run t enc key iv inp out).
Proof. unfold aes128_cbc_run, aes_blocks. solve_clean. Qed.

Lemma clean_global_init forced t : clean (ehem_crypto_backend_global_init forced t).
Proof.
  unfold ehem_crypto_backend_global_init, known_answers, ehem_hmac_sha256, ehem_sha256.
  solve_clean.
Qed.

(** C25: nothing the shim does is left for somebody else to read on the thread's
    OpenSSL error queue: whichever operation is called, with whatever arguments
    and whatever library call fails inside it, a queue that was empty is empty
    when it returns. *)
Theorem errors_cleared (t : nat) (a b c : option bytes) (n l : Z) (out : bool) :
  clean (ehem_kdf_pbkdf2_sha256 a b n out l) /\ clean (ehem_kdf_pbkdf2_sha512 a b n out l) /\
  clean (ehem_sha256 a n out) /\ clean (ehem_random_bytes t out n) /\
  clean (ehem_hmac_sha256 a b n out) /\
  clean (ehem_x25519_keypair_from_seed t a out) /\ clean (ehem_x25519_shared t a b out) /\
  clean (ehem_cert_parse_leaf a out) /\
  (forall curve, clean (ehem_ecdsa_verify t curve a b n c out)) /\
  clean (ehem_ed25519_verify t a b n c out) /\ clean (ehem_ed448_verify t a b n c out) /\
  clean (ehem_aes128_cbc_encrypt t a b c out) /\ clean (ehem_aes128_cbc_decrypt t a b c out) /\
  (forall forced, clean (ehem_crypto_backend_global_init forced t)).
Proof.
  split_and!; intros; eauto using clean_pbkdf2, clean_sha256, clean_hmac, clean_keypair,
    clean_shared, clean_cert, clean_ecdsa, clean_aes, clean_global_init.
  - unfold ehem_random_bytes. destruct (negb out || (n =? 0)); [done|apply clean_random_chunks].
  - unfold ehem_ed25519_verify. destruct (ed_args _ _ _ _ _ _) as [[[? ?] ?]|];
      [apply clean_eddsa|done].
  - unfold ehem_ed448_verify. destruct (ed_args _ _ _ _ _ _) as [[[? ?] ?]|];
      [apply clean_eddsa|done].
Qed.

(** ** The entropy loop *)

Lemma random_chunks_returns fuel t n out q :
  (0 < n -> n / INT_MAX < Z.of_nat fuel) ->
  (forall t n, is_one (RAND_bytes t n) = true -> blen (snd (RAND_bytes t n)) = n) ->
  match fst (random_chunks fuel t n out q) with
  | Some (EHEM_OK, r) => blen r = blen out + Z.max 0 n
  | Some (rc, _) => rc = EHEM_ERR_PROTOCOL
  | None => False
  end.
Proof.
  intros Hf Hlen. revert t n out q Hf. induction fuel as [|fuel IH]; intros t n out q Hf;
    cbn [random_chunks]; destruct (Z.ltb_spec 0 n) as [Hn|Hn]; cbn.
  - pose proof (Z.div_pos n INT_MAX ltac:(lia) ltac:(done)). lia.
  - lia.
  - unfold mbind, E_bind, call. destruct (is_one _) eqn:E1; [|done].
    specialize (IH (S t) (n - (if INT_MAX <? n then INT_MAX else n))
      (out ++ snd (RAND_bytes t (if INT_MAX <? n then INT_MAX else n))) (q || negb true)).
    destruct (random_chunks _ _ _ _ _) as [[[rc r]|] q']; cbn in IH |- *.
    all: assert (0 < n - (if INT_MAX <? n then INT_MAX else n) ->
                 (n - (if INT_MAX <? n then INT_MAX else n)) / INT_MAX < Z.of_nat fuel) as Hk
      by (destruct (Z.ltb_spec INT_MAX n); [intros _|lia]; specialize (Hf Hn);
          replace (n - INT_MAX) with (n + (-1) * INT_MAX) by lia;
          rewrite Z.div_add by done; lia).
    all: specialize (IH Hk); try done.
    destruct rc; try done. rewrite IH. unfold blen in *. rewrite length_app, Nat2Z.inj_add.
    rewrite (Hlen _ _ E1). destruct (Z.ltb_spec INT_MAX n); lia.
  - lia.
Qed.

(** For every length the loop returns, with exactly that many bytes or an
    engine failure. *)
Lemma random_bytes_returns t n :
  0 <= n ->
  (forall t n, is_one (RAND_bytes t n) = true -> blen (snd (RAND_bytes t n)) = n) ->
  match fst (ehem_random_bytes t true n false) with
  | Some (EHEM_OK, r) => blen r = n /\ 0 < n
  | Some (EHEM_ERR_ARG, _) => n = 0
  | Some (rc, _) => rc = EHEM_ERR_PROTOCOL
  | None => False
  end.
Proof.
  intros Hn Hlen. unfold ehem_random_bytes. cbn [negb orb].
  destruct (Z.eqb_spec n 0) as [->|H0]; [done|].
  pose proof (random_chunks_returns (S (Z.to_nat (n / INT_MAX))) t n [] false) as R.
  assert (0 < n -> n / INT_MAX < Z.of_nat (S (Z.to_nat (n / INT_MAX)))) as Hk.
  { intros _. pose proof (Z.div_pos n INT_MAX Hn ltac:(done)). lia. }
  specialize (R Hk Hlen).
  destruct (fst (random_chunks _ _ _ _ _)) as [[[] r]|]; try done.
  change (blen []) with 0 in R. lia.
Qed.
End Queue.

(** ** Interchangeable backends *)

(** What the algorithms compute, as their standards define it: PBKDF2 (RFC
    8018), SHA-256 (FIPS 180), HMAC (RFC 2104), X25519 (RFC 7748; [None] for a
    small-order point, which yields the all-zero secret and which both
    libraries refuse, as both shims say). *)
Record primitives := {
  pr_pbkdf2 : wc_hash -> bytes -> bytes -> Z -> Z -> bytes;
  pr_sha256 : bytes -> bytes;
  pr_hmac : bytes -> bytes -> bytes;
  pr_x25519 : bytes -> bytes -> option bytes
}.

Definition evp_of (h : wc_hash) : evp_md :=
  match h with WC_SHA256 => EVP_sha256 | WC_SHA384 => EVP_sha384 | WC_SHA512 => EVP_sha512 end.

(** A library call that computes [x] and reports success as [ok]. *)
Definition computes (ok : Z) (x : option bytes) (r : Z * bytes) : Prop :=
  match x with Some b => r = (ok, b) | None => fst r <> ok end.

(** The lengths the [int]s and [word32]s of both libraries hold. *)
Definition fits_int (b : bytes) : Prop := blen b <= INT_MAX.

(** An HMAC key, or a passphrase: at least [kmin] bytes, which is 0 in an
    ordinary wolfCrypt and 14 in a FIPS build. *)
Definition key_fits (kmin : Z) (key : bytes) : Prop := kmin <= blen key <= INT_MAX.

(** A point in its canonical encoding: 32 bytes, little-endian, below 2^255 - 19.
    The shim's comments say that wolfCrypt refuses any other. *)
Fixpoint le_value (b : bytes) : Z :=
  match b with [] => 0 | x :: b => x + 256 * le_value b end.
Definition canonical (u : bytes) : Prop :=
  length u = EHEM_X25519_KEYSIZE /\ le_value u < 2 ^ 255 - 19.

(** wolfCrypt, as its manual documents each call, with memory to spare.  The
    HMAC is a state machine on the struct: [keyed m key data] - the struct at
    the start of [m] is keyed with [key] and has taken in [data].  The scalar
    multiplication wants a clamped scalar. *)
Record wolf_implements (WC : WolfCrypt) (pr : primitives) (kmin : Z)
    (keyed : mem -> bytes -> bytes -> Prop) : Prop := {
  wi_pbkdf2 h p s n l :
    key_fits kmin p -> fits_int s -> 0 < n <= INT_MAX -> 0 < l <= INT_MAX ->
    wc_PBKDF2 p s n l h = (0, pr_pbkdf2 pr h p s n l);
  wi_sha256 b : fits_int b -> wc_Sha256Hash b = (0, pr_sha256 pr b);
  wi_hmac_init m : fst (wc_HmacInit 0 m) = 0;
  wi_hmac_key m m1 key :
    wc_HmacInit 0 m = (0, m1) -> key_fits kmin key ->
    exists m2, wc_HmacSetKey 0 key m1 = (0, m2) /\ keyed m2 key [];
  wi_hmac_update m key data chunk :
    keyed m key data -> fits_int chunk ->
    exists m', wc_HmacUpdate 0 (Some chunk) m = (0, m') /\ keyed m' key (data ++ chunk);
  wi_hmac_final m key data :
    keyed m key data -> exists m', wc_HmacFinal 0 m = (0, (pr_hmac pr key data, m'));
  wi_x25519 k u :
    length k = EHEM_X25519_KEYSIZE -> canonical u ->
    computes 0 (pr_x25519 pr (clamp k) u) (wc_curve25519_generic (clamp k) u)
}.

(** libcrypto computes them, clamps its scalars itself, and finds memory. *)
Record ossl_implements (OS : OpenSSL) (pr : primitives) : Prop := {
  oi_pbkdf2 h p s n l :
    fits_int p -> fits_int s -> 0 < n <= INT_MAX -> 0 < l <= INT_MAX ->
    PKCS5_PBKDF2_HMAC p s n (evp_of h) l = (1, pr_pbkdf2 pr h p s n l);
  oi_sha256 b : fits_int b -> EVP_Digest b = (1, pr_sha256 pr b);
  oi_sha256_size b : length (pr_sha256 pr b) = EHEM_SHA256_SIZE;
  oi_hmac key msg : fits_int key -> fits_int msg -> EVP_Q_mac key msg = Some (pr_hmac pr key msg);
  oi_hmac_size key msg : length (pr_hmac pr key msg) = EHEM_SHA256_SIZE;
  oi_x25519_size k u s : pr_x25519 pr k u = Some s -> length s = EHEM_X25519_KEYSIZE;
  oi_public t k : length k = EHEM_X25519_KEYSIZE -> exists pk,
    EVP_PKEY_new_raw_private_key t EVP_PKEY_X25519 k = Some pk /\
    computes 1 (pr_x25519 pr (clamp k) basepoint) (EVP_PKEY_get_raw_public_key pk);
  oi_derive t k u : length k = EHEM_X25519_KEYSIZE -> canonical u ->
    exists mine peer ctx c1 c2,
    EVP_PKEY_new_raw_private_key t EVP_PKEY_X25519 k = Some mine /\
    EVP_PKEY_new_raw_public_key t EVP_PKEY_X25519 u = Some peer /\
    EVP_PKEY_CTX_new t mine = Some ctx /\ EVP_PKEY_derive_init ctx = (1, c1) /\
    EVP_PKEY_derive_set_peer peer c1 = (1, c2) /\
    computes 1 (pr_x25519 pr (clamp k) u) (EVP_PKEY_derive c2)
}.

(** Equal codes; equal outputs when there are any. *)
Definition same_result {A} (r s : ehem_rc * A) : Prop :=
  fst r = fst s /\ (fst r = EHEM_OK -> snd r = snd s).

Lemma ossl_hmac {OS : OpenSSL} (pr : primitives) (HO : ossl_implements OS pr) key msg n :
  fits_int key -> fits_int msg ->
  fst (ehem_hmac_sha256 (Some key) (Some msg) n true false) = (EHEM_OK, pr_hmac pr key msg).
Proof.
  intros Hk Hm. unfold ehem_hmac_sha256, mbind, E_bind, call. cbn [negb orb].
  rewrite bool_decide_false by done. cbn [andb default from_option id].
  rewrite (oi_hmac _ _ HO) by done. cbn. by rewrite (oi_hmac_size _ _ HO).
Qed.

Section Agree.
Context {WC : WolfCrypt} {OS : OpenSSL} (pr : primitives) (kmin : Z)
        (keyed : mem -> bytes -> bytes -> Prop).
Hypothesis (HW : wolf_implements WC pr kmin keyed) (HO : ossl_implements OS pr).

Lemma pbkdf2_agree h passwd salt n l :
  key_fits kmin passwd -> fits_int salt -> 0 <= n <= INT_MAX -> 0 < l <= INT_MAX ->
  kdf_pbkdf2 h (Some passwd) (Some salt) n true l =
  fst (pbkdf2 (evp_of h) (Some passwd) (Some salt) n true l false).
Proof.
  intros Hp Hs Hn Hl. pose proof Hp as [_ Hp2]. unfold fits_int in Hs.
  unfold kdf_pbkdf2, pbkdf2. cbn [negb orb].
  destruct (Z.eqb_spec n 0) as [->|H0]; [by rewrite !orb_true_r|].
  destruct (Z.eqb_spec l 0); [lia|]. cbn [orb].
  destruct (Z.ltb_spec INT_MAX (blen passwd)), (Z.ltb_spec INT_MAX (blen salt)),
    (Z.ltb_spec INT_MAX l), (Z.ltb_spec INT_MAX n); try lia. cbn [orb].
  assert (wrap_i32 n = n /\ wrap_i32 l = l) as [-> ->].
  { unfold wrap_i32, INT_MAX in *. rewrite !Z.mod_small by lia. lia. }
  rewrite (wi_pbkdf2 _ _ _ _ HW) by (done || lia). unfold mbind, E_bind, call.
  by rewrite (oi_pbkdf2 _ _ HO) by (done || lia).
Qed.

Lemma sha256_agree b n :
  fits_int b -> Wolf.ehem_sha256 (Some b) n true = fst (ehem_sha256 (Some b) n true false).
Proof.
  intros Hb. unfold Wolf.ehem_sha256, ehem_sha256. cbn [negb orb]. rewrite bool_decide_false by done.
  cbn [andb default from_option id]. rewrite (wi_sha256 _ _ _ _ HW) by done. unfold mbind, E_bind, call.
  rewrite (oi_sha256 _ _ HO) by done. cbn.
  by rewrite (oi_sha256_size _ _ HO).
Qed.

(** The shim's three calls drive the library's state machine to the MAC. *)
Lemma hmac_run_mac m m1 key msg :
  wc_HmacInit 0 m = (0, m1) -> key_fits kmin key -> fits_int msg ->
  exists m', hmac_run 0 key (Some msg) m1 = (true, pr_hmac pr key msg, m').
Proof.
  intros Hi Hk Hm. unfold hmac_run.
  destruct (wi_hmac_key _ _ _ _ HW _ _ _ Hi Hk) as (m2 & -> & H2). cbn [Z.eqb negb].
  destruct (wi_hmac_update _ _ _ _ HW _ _ _ _ H2 Hm) as (m3 & -> & H3). cbn [Z.eqb negb].
  destruct (wi_hmac_final _ _ _ _ HW _ _ _ H3) as (m4 & ->). by exists m4.
Qed.

Lemma hmac_agree t key msg n :
  key_fits kmin key -> fits_int msg ->
  Wolf.ehem_hmac_sha256 t (Some key) (Some msg) n true =
  fst (ehem_hmac_sha256 (Some key) (Some msg) n true false).
Proof.
  intros Hk Hm. unfold Wolf.ehem_hmac_sha256. cbn [negb orb].
  rewrite bool_decide_false by done. cbn [andb default from_option id].
  pose proof (wi_hmac_init _ _ _ _ HW (stack_mem t)) as Hi.
  destruct (wc_HmacInit 0 (stack_mem t)) as [rc m] eqn:E. cbn [fst] in Hi. subst rc.
  cbn [Z.eqb negb]. destruct (hmac_run_mac _ _ key msg E Hk Hm) as (m' & ->).
  symmetry. apply (ossl_hmac pr HO key msg n); [apply Hk|done].
Qed.

Lemma keypair_agree t seed :
  length seed = EHEM_X25519_KEYSIZE ->
  same_result (Wolf.ehem_x25519_keypair_from_seed (Some seed) true)
    (fst (ehem_x25519_keypair_from_seed t (Some seed) true false)).
Proof.
  intros Hs. unfold Wolf.ehem_x25519_keypair_from_seed, ehem_x25519_keypair_from_seed.
  rewrite x25519_clamped. unfold x25519_scalarmult, same_result.
  set (k := take EHEM_X25519_KEYSIZE seed). cbn [negb].
  assert (length k = EHEM_X25519_KEYSIZE) as Lk by (unfold k; rewrite length_take; lia).
  pose proof (wi_x25519 _ _ _ _ HW k basepoint Lk (conj eq_refl eq_refl)) as Hw.
  destruct (oi_public _ _ HO t (clamp k)) as (pk & Hk & Ho); [by rewrite length_clamp|]. rewrite clamp_idem in Ho.
  unfold mbind, E_bind, call. rewrite Hk. destruct (pr_x25519 pr (clamp k) basepoint) as [s|] eqn:E1.
  - cbn [computes] in Hw, Ho. rewrite Hw, Ho. cbn. by rewrite (oi_x25519_size _ _ HO _ _ _ E1).
  - cbn [computes] in Hw, Ho. destruct (wc_curve25519_generic _ _) as [rc out]. cbn [fst] in Hw.
    unfold is_one. apply Z.eqb_neq in Hw, Ho. unfold ok_or_protocol. by rewrite Hw, Ho.
Qed.

Lemma shared_agree t priv peer :
  length priv = EHEM_X25519_KEYSIZE -> canonical peer ->
  same_result (Wolf.ehem_x25519_shared (Some priv) (Some peer) true)
    (fst (ehem_x25519_shared t (Some priv) (Some peer) true false)).
Proof.
  intros Hv Hp. unfold Wolf.ehem_x25519_shared, ehem_x25519_shared, x25519_derive, x25519_scalarmult.
  unfold same_result. rewrite (take_ge peer) by (destruct Hp; lia).
  set (k := take EHEM_X25519_KEYSIZE priv). cbn [negb].
  assert (length k = EHEM_X25519_KEYSIZE) as Lk by (unfold k; rewrite length_take; lia).
  pose proof (wi_x25519 _ _ _ _ HW k peer Lk Hp) as Hw.
  destruct (oi_derive _ _ HO t k peer Lk Hp) as (mine & pk & ctx & c1 & c2 & E1 & E2 & E3 & E4 & E5 & Ho).
  unfold mbind, E_bind, call. rewrite E1, E2, E3, E4. cbn [is_one fst snd Z.eqb negb]. rewrite E5.
  cbn [is_one fst snd Z.eqb negb].
  destruct (pr_x25519 pr (clamp k) peer) as [s|] eqn:Es.
  - cbn [computes] in Hw, Ho. rewrite Hw, Ho. cbn. by rewrite (oi_x25519_size _ _ HO _ _ _ Es).
  - cbn [computes] in Hw, Ho. destruct (wc_curve25519_generic _ _) as [rc out]. cbn [fst] in Hw.
    unfold is_one. apply Z.eqb_neq in Hw, Ho. unfold ok_or_protocol. by rewrite Hw, Ho.
Qed.
End Agree.

(** C24: the backend is an implementation detail.  Where the single calls of
    wolfCrypt and of libcrypto do what their manuals say - an [Hmac] is keyed,
    takes in data and gives the MAC of all it took in; the one-shot functions
    compute their algorithms -, the two shims drive them to the same answers: the
    same key derivations, hashes and MACs, and the same codes, keys and secrets
    from X25519, a refused peer included.  Passphrases and MAC keys have at least
    the [kmin] bytes the wolfCrypt build asks for; lengths and iteration counts
    are those an [int] holds; X25519 seeds and keys have 32 bytes, and peers are
    canonically encoded. *)
Theorem backends_agree (WC : WolfCrypt) (OS : OpenSSL) (pr : primitives) (kmin : Z)
    (keyed : mem -> bytes -> bytes -> Prop) (P : Platform) (forced : Z) (t : nat) :
  wolf_implements WC pr kmin keyed -> ossl_implements OS pr ->
  let W := wolf_platform P forced in
  let O := ossl_platform P forced in
  (forall passwd salt n, key_fits kmin passwd -> fits_int salt -> 0 <= n <= INT_MAX ->
     @p_kdf_pbkdf2_sha256 W t passwd salt n = @p_kdf_pbkdf2_sha256 O t passwd salt n /\
     @p_kdf_pbkdf2_sha512 W t passwd salt n = @p_kdf_pbkdf2_sha512 O t passwd salt n) /\
  (forall b, fits_int b -> @p_sha256 W t b = @p_sha256 O t b) /\
  (forall key msg, key_fits kmin key -> fits_int msg ->
     @p_hmac_sha256 W t key msg = @p_hmac_sha256 O t key msg /\
     @p_hmac_sha256 W t key msg = (EHEM_OK, pr_hmac pr key msg)) /\
  (forall seed, length seed = EHEM_X25519_KEYSIZE ->
     same_result (@p_x25519_keypair_from_seed W t seed) (@p_x25519_keypair_from_seed O t seed)) /\
  (forall priv peer, length priv = EHEM_X25519_KEYSIZE -> canonical peer ->
     same_result (@p_x25519_shared W t priv peer) (@p_x25519_shared O t priv peer)).
Proof.
  intros HW HO W O. split_and!.
  - intros passwd salt n Hp Hs Hn. split; cbn.
    + exact (pbkdf2_agree pr kmin keyed HW HO WC_SHA256 passwd salt n 32 Hp Hs Hn ltac:(done)).
    + exact (pbkdf2_agree pr kmin keyed HW HO WC_SHA512 passwd salt n 64 Hp Hs Hn ltac:(done)).
  - intros b Hb. exact (sha256_agree pr kmin keyed HW HO b _ Hb).
  - intros key msg Hk Hm.
    pose proof (hmac_agree pr kmin keyed HW HO t key msg (blen msg) Hk Hm) as E.
    split; [exact E|]. etrans; [exact E|]. apply (ossl_hmac pr HO); [apply Hk|done].
  - intros seed Hs. exact (keypair_agree pr kmin keyed HW HO t seed Hs).
  - intros priv peer Hv Hp. exact (shared_agree pr kmin keyed HW HO t priv peer Hv Hp).
Qed.

(** ** The compatibility check *)

(** The check accepts exactly a library of the compiled major version that
    initialises and gives both known answers; everything else but a failing
    initialisation is a mismatch. *)
Lemma ossl_check {OS : OpenSSL} (t : nat) :
  let rc := fst (ehem_crypto_backend_global_init EHEM_CRYPTO_FORCE_NONE t false) in
  (rc = EHEM_OK <->
     OPENSSL_version_major = OPENSSL_VERSION_MAJOR /\ OPENSSL_init_crypto t = 1 /\
     EVP_Q_mac hmac_key (bytes_of_string "Hi There") = Some hmac_expect /\
     EVP_Digest (bytes_of_string "abc") = (1, sha_expect)) /\
  (rc = EHEM_ERR_PROTOCOL <->
     OPENSSL_version_major = OPENSSL_VERSION_MAJOR /\ OPENSSL_init_crypto t <> 1) /\
  (rc <> EHEM_OK -> rc = EHEM_ERR_PROTOCOL \/ rc = EHEM_ERR_BACKEND_MISMATCH).
Proof.
  unfold ehem_crypto_backend_global_init, loaded_major, known_answers, ehem_hmac_sha256,
    ehem_sha256, engine_fails, engine_failure, ERR_clear_error, call, mbind, E_bind, mret, E_ret.
  generalize (bytes_of_string "Hi There") (bytes_of_string "abc"). intros hi abc.
  cbn [EHEM_CRYPTO_FORCE_NONE EHEM_CRYPTO_FORCE_VERSION EHEM_CRYPTO_FORCE_PROBE Z.eqb negb orb].
  destruct (Z.eqb_spec OPENSSL_version_major OPENSSL_VERSION_MAJOR) as [Ev|Ev]; cbn [negb];
    [|cbn; intuition congruence].
  destruct (Z.eqb_spec (OPENSSL_init_crypto t) 1) as [Ei|Ei]; cbn [negb];
    [|cbn; intuition congruence].
  rewrite !(bool_decide_false (Some _ = None)) by done. cbn [andb default from_option id].
  pose proof (bool_decide_false (EHEM_ERR_PROTOCOL = EHEM_OK) ltac:(done)) as Hpe.
  pose proof (bool_decide_true (EHEM_OK = EHEM_OK) eq_refl) as Hoo.
  destruct (EVP_Q_mac hmac_key _) as [mac|] eqn:Em; [|cbn; rewrite ?Hpe, ?Hoo; cbn; intuition congruence].
  destruct (Nat.eqb_spec (length mac) EHEM_SHA256_SIZE) as [El|El].
  2:{ cbn. rewrite Hpe. cbn. split; [|intuition congruence]. split; [done|]. intros (_ & _ & [= ->] & _). done. }
  cbn [fst snd]. rewrite Hoo. cbn [negb].
  destruct (bool_decide_reflect (mac = hmac_expect)) as [->|Hm]; cbn [negb fst];
    [|intuition congruence].
  destruct (EVP_Digest abc) as [r out]. unfold is_one. cbn [fst snd].
  destruct (Z.eqb_spec r 1) as [->|Hr]; cbn [negb orb fst snd]; [|cbn; rewrite ?Hpe, ?Hoo; cbn; intuition congruence].
  destruct (Nat.eqb_spec (length out) EHEM_SHA256_SIZE) as [Eo|Eo]; cbn [negb fst snd].
  - destruct (bool_decide_reflect (out = sha_expect)) as [->|Ho]; cbn; rewrite ?Hpe, ?Hoo; cbn; intuition congruence.
  - cbn. rewrite Hpe. cbn. split; [|intuition congruence]. split; [done|].
    intros (_ & _ & _ & [= ->]). done.
Qed.

(** ** A library that agrees with the sample wolfCrypt *)

Definition sample_primitives : primitives := {|
  pr_pbkdf2 _ _ _ _ l := repeat 7 (Z.to_nat l);
  pr_sha256 _ := repeat 12 32;
  pr_hmac _ _ := probe_hmac_expect;
  pr_x25519 k u := Some (hd 0 k * hd 0 u :: repeat 0 31)
|}.

Definition sample_ossl : OpenSSL := {|
  OPENSSL_VERSION_MAJOR := 3;
  OPENSSL_version_major := 3;
  OPENSSL_init_crypto _ := 1;
  PKCS5_PBKDF2_HMAC _ _ _ _ l := (1, repeat 7 (Z.to_nat l));
  EVP_Digest _ := (1, repeat 12 32);
  RAND_bytes _ n := (1, repeat 4 (Z.to_nat n));
  EVP_Q_mac _ _ := Some probe_hmac_expect;
  EVP_PKEY := bytes;
  EVP_PKEY_new_raw_private_key _ _ k := Some (clamp k);
  EVP_PKEY_new_raw_public_key _ _ u := Some u;
  EVP_PKEY_get_raw_public_key k := (1, hd 0 k * 9 :: repeat 0 31);
  EVP_PKEY_CTX := bytes * bytes;
  EVP_PKEY_CTX_new _ k := Some (k, []);
  EVP_PKEY_derive_init c := (1, c);
  EVP_PKEY_derive_set_peer u c := (1, (fst c, u));
  EVP_PKEY_derive c := (1, hd 0 (fst c) * hd 0 (snd c) :: repeat 0 31);
  EVP_PKEY_CTX_new_from_name _ := Some ([], []);
  EVP_PKEY_fromdata_init c := (1, c);
  EVP_PKEY_fromdata _ p _ := (1, p);
  EVP_MD_CTX := unit;
  EVP_MD_CTX_new _ := Some tt;
  EVP_DigestVerifyInit _ _ c := (1, c);
  EVP_DigestVerify _ _ _ := 1;
  ECDSA_SIG := bytes;
  d2i_ECDSA_SIG s := Some s;
  i2d_ECDSA_SIG s := (Z.of_nat (length s), s);
  X509 := unit;
  ASN1_TIME := tm;
  d2i_X509 _ := Some tt;
  X509_get0_serialNumber _ := Some [1; 2; 3; 4; 5];
  X509_common_name _ _ := (10, bytes_of_string "ehem-probe");
  X509_get0_notBefore _ := Some (sample_time [0]);
  X509_get0_notAfter _ := Some (sample_time [1]);
  ASN1_TIME_to_tm t := (1, t);
  EVP_CIPHER_CTX := unit;
  EVP_CIPHER_CTX_new _ := Some tt;
  EVP_CipherInit_aes128cbc _ _ _ c := (1, c);
  EVP_CIPHER_CTX_set_padding _ c := (1, c);
  EVP_CipherUpdate b c := (1, (b, c));
  EVP_CipherFinal_ex _ := (1, [])
|}.

(** Its HMAC keeps no state: every MAC is the same. *)
Lemma sample_wolf_implements :
  wolf_implements sample_wolf sample_primitives 0 (fun _ _ _ => True).
Proof.
  split; intros; try reflexivity.
  - exists m1. by split.
  - exists m. by split.
  - by exists m.
Qed.

Lemma sample_ossl_implements : ossl_implements sample_ossl sample_primitives.
Proof.
  split; intros; try reflexivity.
  - injection H as <-. reflexivity.
  - eexists. split; reflexivity.
  - do 5 eexists. repeat split; reflexivity.
Qed.

(** Both backends on the scripted platform derive the same private key from a
    passphrase's seed, and the same secret with a peer. *)
Lemma backends_agree_witness :
  let W := @wolf_platform sample_wolf (fake_platform []) 0 in
  let O := @ossl_platform sample_ossl (fake_platform []) 0 in
  @p_kdf_pbkdf2_sha256 W 5 [112] [101] 600000 = @p_kdf_pbkdf2_sha256 O 5 [112] [101] 600000 /\
  same_result (@p_x25519_shared W 5 (repeat 255 32) (repeat 3 32))
              (@p_x25519_shared O 5 (repeat 255 32) (repeat 3 32)).
Proof.
  pose proof (backends_agree sample_wolf sample_ossl sample_primitives 0 _ (fake_platform []) 0 5
                sample_wolf_implements sample_ossl_implements) as (K & _ & _ & _ & S).
  split.
  - apply K; vm_compute; try split; discriminate.
  - apply S; [reflexivity|by split].
Defined.
